(** * statsd-aggregator: the slot table, the flush ring and the downstream set

    A shallow embedding of [statsd-aggregator.c].  Every function of the C
    file that takes part in aggregation, packing, downstream selection or
    address reconciliation is a Rocq function of the same name over an
    explicit copy of [global.downstream].  The health probes and the
    start-up follow, over the same state: the probe callbacks with the
    callback each watcher holds, and, in the module [Config], the reading
    of the configuration file and [main] up to [ev_loop].

    Conventions.
    - A [char *] is the list of bytes from the pointed byte to the end of the
      object it points into; pointer addition is [drop].
    - C [int] length fields are [Z]; positions inside byte ranges and array
      indices are [nat].
    - [struct downstream_host_s] nodes live in a heap ([gmap]) and are linked
      through [next]; a read or write through a pointer that is not in the
      heap is undefined in C and yields [None] here.
    - The libc functions on [double] ([strtod], [sprintf] with [%.15g], [+],
      [/]) are an interface, [Libc]; [glibc] is an instance over IEEE-754
      binary64 used to run the code on concrete datagrams.

    What is left out.
    - The C arrays have no capacity here: [slots], the slot buffers and the
      egress buffers are lists that grow with what is written, so a write
      past the end of an array shows as a length above the constant and
      not as the corruption of a neighbour it is in C.  The functions
      [add_slot_in_bounds], [downstream_schedule_flush_in_bounds] and the
      others of that family, up to [run_in_bounds], tell the calls and the
      runs in which every store falls inside its array.  A statement that
      would otherwise speak of what is behind such a store has them as
      hypotheses.
    - The callbacks of the event loop are the constructors of [event]; the
      loop itself and the system calls on sockets are not modelled.  A
      [sendto] is an entry of [sent], and its result is an argument of the
      event; the socket replaced every [MAX_PACKETS_PER_SOCKET] packets
      shows only as the reset of [packets_sent].  The resolver thread is
      two atomic steps, [EvResolved] and [EvUpdateDownstreams].
    - For the probes and for start-up the system calls are answers given
      from outside: [probe_sys] and [probe_io] are arguments of the probe
      events, [startup_sys] is one record of answers for the whole of
      start-up, the same at every call, and [atoi] is a parameter.
    - Of the log only the messages of level ERROR are kept, in [error_log],
      and for start-up in [config_log].
    - [malloc] succeeds. *)

From Stdlib Require Import ZArith Lia Ascii.
From Stdlib Require Import Floats.SpecFloat.
From stdpp Require Import base option list gmap strings.

Open Scope Z_scope.

(** ** Constants *)

Definition DOWNSTREAM_BUF_SIZE : Z := 1450.
Definition DOWNSTREAM_BUF_NUM : nat := 16.
Definition DATA_BUF_SIZE : nat := 4096.
Definition NUM_OF_SLOTS : Z := DOWNSTREAM_BUF_SIZE / 7.
Definition MAX_COUNTER_LENGTH : Z := 18.
Definition MAX_DOWNSTREAM_NUM : nat := 32.
Definition MAX_PACKETS_PER_SOCKET : Z := 1000.
Definition DOWNSTREAM_HEALTH_CHECK_BUF_SIZE : Z := 32.

(** ** Bytes and the libc memory functions *)

Abbreviation bytes := (list ascii).

Definition NL : ascii := "010"%char.
Definition NUL : ascii := "000"%char.

Definition bytes_of (s : string) : bytes := String.list_ascii_of_string s.

(** [memchr p c n]: offset of the first [c] among the first [n] bytes at [p]. *)
Fixpoint memchr (p : bytes) (c : ascii) (n : nat) : option nat :=
  match n, p with
  | S n', x :: p' => if Ascii.eqb x c then Some O else S <$> memchr p' c n'
  | _, _ => None
  end.

(** [memcmp a b n == 0]. *)
Definition memcmp_eq (a b : bytes) (n : nat) : bool :=
  bool_decide (take n a = take n b).

(** Storing [data] at offset [off] of the array whose content is [buf]. *)
Definition write_at (off : nat) (data buf : bytes) : bytes :=
  take off buf ++ data ++ drop (off + length data) buf.

(** ** The libc interface for [double] *)

Class Libc (double : Type) := {
  d_zero : double;                       (* the literal 0.0 *)
  d_one : double;                        (* the literal 1 converted to double *)
  d_add : double -> double -> double;
  d_div : double -> double -> double;
  (** [strtod nptr &endptr]: the value, [endptr - nptr], and [errno != 0]. *)
  strtod : bytes -> double * nat * bool;
  (** [sprintf] of one double under the conversion [%.15g]. *)
  sprintf_g15 : double -> bytes
}.

(** ** Data model *)

Inductive metric_type_e := TYPE_UNKNOWN | TYPE_COUNTER | TYPE_OTHER.

Global Instance metric_type_eq_dec : EqDecision metric_type_e.
Proof. solve_decision. Defined.

(** Calls of [log_msg] at level [ERROR], in the order they are made. *)
Inductive error_msg :=
  | ErrInvalidEvent
  | ErrNoDownstreamHosts
  | ErrSendtoFailed
  | ErrPreviousFlushNotCompleted
  | ErrInvalidMetricData
  | ErrImproperMetricType
  | ErrInvalidCounterValue
  | ErrInvalidMetric
  | ErrInvalidLength (line_length : nat)
  | ErrGethostbynameFailed.

Definition ptr := nat.

Record downstream_host_s := {
  sa_in_data : Z;                (* sa_in_data.sin_addr.s_addr *)
  next : option ptr;
  health_fd : Z;                 (* health_client.super.fd *)
  health_active : bool;          (* ev_is_active(&health_client.super) *)
  alive : bool                   (* health_client.alive *)
}.

Global Instance downstream_host_eq_dec : EqDecision downstream_host_s.
Proof. solve_decision. Defined.

Definition set_next (v : option ptr) (h : downstream_host_s) : downstream_host_s :=
  Build_downstream_host_s (sa_in_data h) v (health_fd h) (health_active h) (alive h).
Definition set_health_fd (v : Z) (h : downstream_host_s) : downstream_host_s :=
  Build_downstream_host_s (sa_in_data h) (next h) v (health_active h) (alive h).
Definition set_health_active (v : bool) (h : downstream_host_s) : downstream_host_s :=
  Build_downstream_host_s (sa_in_data h) (next h) (health_fd h) v (alive h).
Definition set_alive (v : bool) (h : downstream_host_s) : downstream_host_s :=
  Build_downstream_host_s (sa_in_data h) (next h) (health_fd h) (health_active h) v.

(** [struct downstream_host_s **prev] of [update_downstreams]. *)
Inductive link := LinkHead | LinkNext (p : ptr).

Section Aggregator.
Context {double : Type} {libc : Libc double}.

Record slot_s := {
  slot_buffer : bytes;
  name_length : Z;
  slot_length : Z;
  counter : double;
  slot_type : metric_type_e
}.

Definition set_slot_buffer (v : bytes) (s : slot_s) : slot_s :=
  Build_slot_s v (name_length s) (slot_length s) (counter s) (slot_type s).
Definition set_slot_length (v : Z) (s : slot_s) : slot_s :=
  Build_slot_s (slot_buffer s) (name_length s) v (counter s) (slot_type s).
Definition set_counter (v : double) (s : slot_s) : slot_s :=
  Build_slot_s (slot_buffer s) (name_length s) (slot_length s) v (slot_type s).
Definition set_slot_type (v : metric_type_e) (s : slot_s) : slot_s :=
  Build_slot_s (slot_buffer s) (name_length s) (slot_length s) (counter s) v.

Global Instance slot_inhabited : Inhabited slot_s :=
  populate (Build_slot_s [] 0 0 d_zero TYPE_UNKNOWN).

(** [global.downstream].  [slots] holds [slots[0 .. slots_used)]; [buffer] holds
    for each of the [DOWNSTREAM_BUF_NUM] regions the bytes packed into it;
    [flush_watcher] is [ev_is_active(&flush_watcher)].  The last four fields
    are the environment: the heap of host nodes, the number of [malloc]
    calls made, the [sendto] calls (destination address, datagram) and the
    [ERROR] log. *)
Record downstream_s := {
  active_buffer_idx : nat;
  active_buffer_length : Z;
  flush_buffer_idx : nat;
  buffer : list bytes;
  buffer_length : list Z;
  in_addr_new : list Z;
  in_addr_new_ready : bool;
  flush_watcher : bool;
  slots : list slot_s;
  downstream_host_num : nat;
  downstream_hosts : option ptr;
  packets_sent : Z;
  current_downstream_host : option ptr;
  host_mem : gmap ptr downstream_host_s;
  host_alloc : nat;
  sent : list (Z * bytes);
  error_log : list error_msg
}.

Definition slots_used (d : downstream_s) : nat := length (slots d).

Definition set_active_buffer_idx (v : nat) (d : downstream_s) : downstream_s :=
  Build_downstream_s v (active_buffer_length d) (flush_buffer_idx d) (buffer d) (buffer_length d) (in_addr_new d) (in_addr_new_ready d) (flush_watcher d) (slots d) (downstream_host_num d) (downstream_hosts d) (packets_sent d) (current_downstream_host d) (host_mem d) (host_alloc d) (sent d) (error_log d).
Definition set_active_buffer_length (v : Z) (d : downstream_s) : downstream_s :=
  Build_downstream_s (active_buffer_idx d) v (flush_buffer_idx d) (buffer d) (buffer_length d) (in_addr_new d) (in_addr_new_ready d) (flush_watcher d) (slots d) (downstream_host_num d) (downstream_hosts d) (packets_sent d) (current_downstream_host d) (host_mem d) (host_alloc d) (sent d) (error_log d).
Definition set_flush_buffer_idx (v : nat) (d : downstream_s) : downstream_s :=
  Build_downstream_s (active_buffer_idx d) (active_buffer_length d) v (buffer d) (buffer_length d) (in_addr_new d) (in_addr_new_ready d) (flush_watcher d) (slots d) (downstream_host_num d) (downstream_hosts d) (packets_sent d) (current_downstream_host d) (host_mem d) (host_alloc d) (sent d) (error_log d).
Definition set_buffer (v : list bytes) (d : downstream_s) : downstream_s :=
  Build_downstream_s (active_buffer_idx d) (active_buffer_length d) (flush_buffer_idx d) v (buffer_length d) (in_addr_new d) (in_addr_new_ready d) (flush_watcher d) (slots d) (downstream_host_num d) (downstream_hosts d) (packets_sent d) (current_downstream_host d) (host_mem d) (host_alloc d) (sent d) (error_log d).
Definition set_buffer_length (v : list Z) (d : downstream_s) : downstream_s :=
  Build_downstream_s (active_buffer_idx d) (active_buffer_length d) (flush_buffer_idx d) (buffer d) v (in_addr_new d) (in_addr_new_ready d) (flush_watcher d) (slots d) (downstream_host_num d) (downstream_hosts d) (packets_sent d) (current_downstream_host d) (host_mem d) (host_alloc d) (sent d) (error_log d).
Definition set_in_addr_new (v : list Z) (d : downstream_s) : downstream_s :=
  Build_downstream_s (active_buffer_idx d) (active_buffer_length d) (flush_buffer_idx d) (buffer d) (buffer_length d) v (in_addr_new_ready d) (flush_watcher d) (slots d) (downstream_host_num d) (downstream_hosts d) (packets_sent d) (current_downstream_host d) (host_mem d) (host_alloc d) (sent d) (error_log d).
Definition set_in_addr_new_ready (v : bool) (d : downstream_s) : downstream_s :=
  Build_downstream_s (active_buffer_idx d) (active_buffer_length d) (flush_buffer_idx d) (buffer d) (buffer_length d) (in_addr_new d) v (flush_watcher d) (slots d) (downstream_host_num d) (downstream_hosts d) (packets_sent d) (current_downstream_host d) (host_mem d) (host_alloc d) (sent d) (error_log d).
Definition set_flush_watcher (v : bool) (d : downstream_s) : downstream_s :=
  Build_downstream_s (active_buffer_idx d) (active_buffer_length d) (flush_buffer_idx d) (buffer d) (buffer_length d) (in_addr_new d) (in_addr_new_ready d) v (slots d) (downstream_host_num d) (downstream_hosts d) (packets_sent d) (current_downstream_host d) (host_mem d) (host_alloc d) (sent d) (error_log d).
Definition set_slots (v : list slot_s) (d : downstream_s) : downstream_s :=
  Build_downstream_s (active_buffer_idx d) (active_buffer_length d) (flush_buffer_idx d) (buffer d) (buffer_length d) (in_addr_new d) (in_addr_new_ready d) (flush_watcher d) v (downstream_host_num d) (downstream_hosts d) (packets_sent d) (current_downstream_host d) (host_mem d) (host_alloc d) (sent d) (error_log d).
Definition set_downstream_host_num (v : nat) (d : downstream_s) : downstream_s :=
  Build_downstream_s (active_buffer_idx d) (active_buffer_length d) (flush_buffer_idx d) (buffer d) (buffer_length d) (in_addr_new d) (in_addr_new_ready d) (flush_watcher d) (slots d) v (downstream_hosts d) (packets_sent d) (current_downstream_host d) (host_mem d) (host_alloc d) (sent d) (error_log d).
Definition set_downstream_hosts (v : option ptr) (d : downstream_s) : downstream_s :=
  Build_downstream_s (active_buffer_idx d) (active_buffer_length d) (flush_buffer_idx d) (buffer d) (buffer_length d) (in_addr_new d) (in_addr_new_ready d) (flush_watcher d) (slots d) (downstream_host_num d) v (packets_sent d) (current_downstream_host d) (host_mem d) (host_alloc d) (sent d) (error_log d).
Definition set_packets_sent (v : Z) (d : downstream_s) : downstream_s :=
  Build_downstream_s (active_buffer_idx d) (active_buffer_length d) (flush_buffer_idx d) (buffer d) (buffer_length d) (in_addr_new d) (in_addr_new_ready d) (flush_watcher d) (slots d) (downstream_host_num d) (downstream_hosts d) v (current_downstream_host d) (host_mem d) (host_alloc d) (sent d) (error_log d).
Definition set_current_downstream (v : option ptr) (d : downstream_s) : downstream_s :=
  Build_downstream_s (active_buffer_idx d) (active_buffer_length d) (flush_buffer_idx d) (buffer d) (buffer_length d) (in_addr_new d) (in_addr_new_ready d) (flush_watcher d) (slots d) (downstream_host_num d) (downstream_hosts d) (packets_sent d) v (host_mem d) (host_alloc d) (sent d) (error_log d).
Definition set_host_mem (v : gmap ptr downstream_host_s) (d : downstream_s) : downstream_s :=
  Build_downstream_s (active_buffer_idx d) (active_buffer_length d) (flush_buffer_idx d) (buffer d) (buffer_length d) (in_addr_new d) (in_addr_new_ready d) (flush_watcher d) (slots d) (downstream_host_num d) (downstream_hosts d) (packets_sent d) (current_downstream_host d) v (host_alloc d) (sent d) (error_log d).
Definition set_host_alloc (v : nat) (d : downstream_s) : downstream_s :=
  Build_downstream_s (active_buffer_idx d) (active_buffer_length d) (flush_buffer_idx d) (buffer d) (buffer_length d) (in_addr_new d) (in_addr_new_ready d) (flush_watcher d) (slots d) (downstream_host_num d) (downstream_hosts d) (packets_sent d) (current_downstream_host d) (host_mem d) v (sent d) (error_log d).
Definition set_sent (v : list (Z * bytes)) (d : downstream_s) : downstream_s :=
  Build_downstream_s (active_buffer_idx d) (active_buffer_length d) (flush_buffer_idx d) (buffer d) (buffer_length d) (in_addr_new d) (in_addr_new_ready d) (flush_watcher d) (slots d) (downstream_host_num d) (downstream_hosts d) (packets_sent d) (current_downstream_host d) (host_mem d) (host_alloc d) v (error_log d).
Definition set_error_log (v : list error_msg) (d : downstream_s) : downstream_s :=
  Build_downstream_s (active_buffer_idx d) (active_buffer_length d) (flush_buffer_idx d) (buffer d) (buffer_length d) (in_addr_new d) (in_addr_new_ready d) (flush_watcher d) (slots d) (downstream_host_num d) (downstream_hosts d) (packets_sent d) (current_downstream_host d) (host_mem d) (host_alloc d) (sent d) v.

(** [log_msg(ERROR, ...)]. *)
Definition log_msg (m : error_msg) (d : downstream_s) : downstream_s :=
  set_error_log (error_log d ++ [m]) d.

(** ** Downstream selection and the writable callback *)

(** [host = host->next; if (host == NULL) host = global.downstream.downstream_hosts]. *)
Definition advance (host : ptr) (d : downstream_s) : option ptr :=
  h ← host_mem d !! host;
  match next h with Some p => Some p | None => downstream_hosts d end.

(** The [for] loop of [set_current_downstream_host] with [n] iterations left
    and the local [host] at [host]. *)
Fixpoint select_host (n : nat) (host : ptr) (d : downstream_s) : option downstream_s :=
  match n with
  | O => Some (set_current_downstream None d)
  | S n' =>
      host' ← advance host d;
      h' ← host_mem d !! host';
      if alive h' then Some (set_current_downstream (Some host') d)
      else select_host n' host' d
  end.

Definition set_current_downstream_host (d : downstream_s) : option downstream_s :=
  match current_downstream_host d with
  | Some host => select_host (downstream_host_num d) host d
  | None =>
      match downstream_hosts d with
      | Some host => select_host (downstream_host_num d) host d
      | None => Some d
      end
  end.

(** [ev_error] is [EV_ERROR & revents]; [bytes_send] is what [sendto]
    returns.  The descriptor of the socket is not part of the model. *)
Definition downstream_flush_cb (ev_error : bool) (bytes_send : Z) (d : downstream_s)
  : option downstream_s :=
  let flush_idx := flush_buffer_idx d in
  if ev_error then Some (log_msg ErrInvalidEvent d) else
  d ← set_current_downstream_host d;
  match current_downstream_host d with
  | None => Some (set_flush_watcher false (log_msg ErrNoDownstreamHosts d))
  | Some p =>
      h ← host_mem d !! p;
      let datagram :=
        take (Z.to_nat (buffer_length d !!! flush_idx)) (buffer d !!! flush_idx) in
      let d := set_sent (sent d ++ [(sa_in_data h, datagram)]) d in
      let d := set_buffer_length (<[flush_idx := 0]> (buffer_length d)) d in
      let d := set_packets_sent (packets_sent d + 1) d in
      let d := set_flush_buffer_idx ((flush_idx + 1) mod DOWNSTREAM_BUF_NUM)%nat d in
      let d := if bool_decide (flush_buffer_idx d = active_buffer_idx d)
               then set_flush_watcher false d else d in
      Some (if bool_decide (bytes_send < 0) then log_msg ErrSendtoFailed d else d)
  end.

(** ** Packing and buffer rotation *)

(** The [for] loop of [downstream_schedule_flush]: the bytes copied to the
    active buffer and the local [active_buffer_length]. *)
Fixpoint pack_slots (ss : list slot_s) : bytes * Z :=
  match ss with
  | [] => ([], 0)
  | s :: ss' =>
      let slot_data_length := slot_length s in
      if bool_decide (slot_data_length = name_length s) then pack_slots ss'
      else
        let buf := write_at (Z.to_nat (slot_data_length - 1)) [NL] (slot_buffer s) in
        let '(data, len) := pack_slots ss' in
        (take (Z.to_nat slot_data_length) buf ++ data, slot_data_length + len)
  end.

(** Each region of the ring is a list of its own here: a pack of more than
    [DOWNSTREAM_BUF_SIZE] bytes stays in it, where in C it runs into the
    next region, and from the last region into [buffer_length].
    [downstream_schedule_flush_in_bounds] tells the calls that stay inside
    the region. *)
Definition downstream_schedule_flush (d : downstream_s) : downstream_s :=
  let new_active_buffer_idx := ((active_buffer_idx d + 1) mod DOWNSTREAM_BUF_NUM)%nat in
  let need_to_schedule_flush := bool_decide (active_buffer_idx d = flush_buffer_idx d) in
  if bool_decide (buffer_length d !!! new_active_buffer_idx > 0) then
    set_slots [] (set_active_buffer_length 0 (log_msg ErrPreviousFlushNotCompleted d))
  else
    let '(data, len) := pack_slots (slots d) in
    let d := set_buffer (<[active_buffer_idx d := data]> (buffer d)) d in
    let d := set_buffer_length (<[active_buffer_idx d := len]> (buffer_length d)) d in
    let d := set_active_buffer_length 0 d in
    let d := set_slots [] d in
    let d := set_active_buffer_idx new_active_buffer_idx d in
    if need_to_schedule_flush then
      let d := if bool_decide (packets_sent d > MAX_PACKETS_PER_SOCKET)
               then set_packets_sent 0 d else d in
      set_flush_watcher true d
    else d.

(** ** The slot table *)

(** [slots[slots_used]] is written without a test of [slots_used]: the list
    grows by one where the C code, with all [NUM_OF_SLOTS] slots in use,
    stores behind [slots], onto [slots_used] and the fields after it.
    [add_slot_in_bounds] tells the calls that stay inside the table. *)
Definition add_slot (line : bytes) (name_len : Z) (d : downstream_s) : nat * downstream_s :=
  let s := Build_slot_s (take (Z.to_nat name_len) line) name_len name_len d_zero TYPE_UNKNOWN in
  (slots_used d,
   set_slots (slots d ++ [s]) (set_active_buffer_length (active_buffer_length d + name_len) d)).

(** The [for] loop of [find_slot] over [slots[i ..]]. *)
Fixpoint find_slot_from (line : bytes) (name_len : Z) (ss : list slot_s) (i : nat) : option nat :=
  match ss with
  | [] => None
  | s :: ss' =>
      if bool_decide (name_length s = name_len)
         && memcmp_eq line (slot_buffer s) (Z.to_nat name_len)
      then Some i
      else find_slot_from line name_len ss' (S i)
  end.

Definition find_slot (line : bytes) (name_len : Z) (d : downstream_s) : nat * downstream_s :=
  match find_slot_from line name_len (slots d) O with
  | Some i => (i, d)
  | None =>
      let d := if bool_decide (active_buffer_length d + name_len > DOWNSTREAM_BUF_SIZE)
               then downstream_schedule_flush d else d in
      add_slot line name_len d
  end.

(** The sampling rate of a counter group: [type_off] is [type_ptr - buffer_ptr]. *)
Definition counter_rate (buffer_ptr : bytes) (type_off data_length : nat) : double :=
  match memchr (drop (S type_off) buffer_ptr) "|" (data_length - type_off) with
  | Some r =>
      let rate_off := (S type_off + r)%nat in
      if bool_decide (buffer_ptr !! S rate_off = Some "@"%char) then
        let '(rate, n, err) := strtod (drop (rate_off + 2) buffer_ptr) in
        if err || negb (bool_decide (rate_off + 2 + n + 1 = data_length)%nat)
        then d_one else rate
      else d_one
  | None => d_one
  end.

(** The type the code assigns to the group at [buffer_ptr] whose first ['|']
    is at [type_off]. *)
Definition group_metric_type (buffer_ptr : bytes) (type_off : nat) : metric_type_e :=
  if bool_decide (buffer_ptr !! S type_off = Some "c"%char) then TYPE_COUNTER else TYPE_OTHER.

(** The test that forces a flush in the middle of a line. *)
Definition needs_flush (metric_type : metric_type_e) (data_length : nat) (d : downstream_s) : bool :=
  bool_decide (active_buffer_length d
               + (if bool_decide (metric_type = TYPE_COUNTER)
                  then MAX_COUNTER_LENGTH else Z.of_nat data_length)
               > DOWNSTREAM_BUF_SIZE).

(** The retry in a fresh slot when the group may not fit. *)
Definition make_room (line : bytes) (name_len : Z) (metric_type : metric_type_e)
    (data_length slot_idx : nat) (d : downstream_s) : nat * downstream_s :=
  if needs_flush metric_type data_length d then
    let '(i, d) := add_slot line name_len (downstream_schedule_flush d) in
    (i, set_slots (<[i := set_slot_type metric_type (slots d !!! i)]> (slots d)) d)
  else (slot_idx, d).

(** The counter branch: parse rate and value, add, print in place. *)
Definition store_counter (name_len : Z) (buffer_ptr : bytes) (data_length type_off : nat)
    (slot_idx : nat) (d : downstream_s) : downstream_s :=
  let s := slots d !!! slot_idx in
  let rate := counter_rate buffer_ptr type_off data_length in
  let '(v, n, err) := strtod buffer_ptr in
  let delta := d_div v rate in
  if err || negb (bool_decide (n = type_off)) then log_msg ErrInvalidCounterValue d
  else
    let c := d_add (counter s) delta in
    let out := sprintf_g15 c ++ bytes_of "|c" ++ [NL] in
    let counter_len := Z.of_nat (length out) in
    let s := set_counter c s in
    let s := set_slot_buffer (write_at (Z.to_nat name_len) (out ++ [NUL]) (slot_buffer s)) s in
    let d := set_active_buffer_length (active_buffer_length d - slot_length s) d in
    let s := set_slot_length (name_length s + counter_len) s in
    let d := set_active_buffer_length (active_buffer_length d + slot_length s) d in
    set_slots (<[slot_idx := s]> (slots d)) d.

(** The other branch: append the bytes of the group, the last one as [':']. *)
Definition store_other (buffer_ptr : bytes) (data_length : nat)
    (slot_idx : nat) (d : downstream_s) : downstream_s :=
  let s := slots d !!! slot_idx in
  let target := Z.to_nat (slot_length s) in
  let buf := write_at target (take data_length buffer_ptr) (slot_buffer s) in
  let buf := write_at (target + data_length - 1) [":"%char] buf in
  let s := set_slot_length (slot_length s + Z.of_nat data_length) (set_slot_buffer buf s) in
  let d := set_active_buffer_length (active_buffer_length d + Z.of_nat data_length) d in
  set_slots (<[slot_idx := s]> (slots d)) d.

(** The rest of an iteration for a group that has passed the type check. *)
Definition store_value (line : bytes) (name_len : Z) (buffer_ptr : bytes)
    (data_length type_off : nat) (metric_type : metric_type_e)
    (slot_idx : nat) (d : downstream_s) : downstream_s * nat :=
  let '(slot_idx, d) := make_room line name_len metric_type data_length slot_idx d in
  if bool_decide (metric_type = TYPE_COUNTER)
  then (store_counter name_len buffer_ptr data_length type_off slot_idx d, slot_idx)
  else (store_other buffer_ptr data_length slot_idx d, slot_idx).

(** [data_length]: up to and including the next [':'], else all that is left. *)
Definition group_length (buffer_ptr : bytes) (bytes_in_buffer : nat) : nat :=
  match memchr buffer_ptr ":" bytes_in_buffer with
  | None => bytes_in_buffer
  | Some k => S k
  end.

(** One iteration of the [while] loop of [insert_values_into_slot]: the new
    state, the new [slot_idx], [data_length] and [delimiter_ptr != NULL]. *)
Definition insert_value (line : bytes) (name_len : Z) (buffer_ptr : bytes)
    (bytes_in_buffer : nat) (slot_idx : nat) (d : downstream_s)
  : downstream_s * nat * nat * bool :=
  let delimiter_ptr := memchr buffer_ptr ":" bytes_in_buffer in
  let data_length := group_length buffer_ptr bytes_in_buffer in
  let more := bool_decide (is_Some delimiter_ptr) in
  match memchr buffer_ptr "|" data_length with
  | None => (log_msg ErrInvalidMetricData d, slot_idx, data_length, more)
  | Some type_off =>
      let metric_type := group_metric_type buffer_ptr type_off in
      let s := slots d !!! slot_idx in
      if bool_decide (slot_type s = TYPE_UNKNOWN) then
        let d := set_slots (<[slot_idx := set_slot_type metric_type s]> (slots d)) d in
        let '(d, i) := store_value line name_len buffer_ptr data_length type_off
                         metric_type slot_idx d in
        (d, i, data_length, more)
      else if bool_decide (slot_type s ≠ metric_type) then
        (log_msg ErrImproperMetricType d, slot_idx, data_length, more)
      else
        let '(d, i) := store_value line name_len buffer_ptr data_length type_off
                         metric_type slot_idx d in
        (d, i, data_length, more)
  end.

Fixpoint insert_values_loop (fuel : nat) (line : bytes) (name_len : Z)
    (buffer_ptr : bytes) (bytes_in_buffer : nat) (slot_idx : nat) (d : downstream_s)
  : downstream_s :=
  match fuel with
  | O => d
  | S fuel' =>
      let '(d', slot_idx', data_length, more) :=
        insert_value line name_len buffer_ptr bytes_in_buffer slot_idx d in
      if more then
        insert_values_loop fuel' line name_len (drop data_length buffer_ptr)
          (bytes_in_buffer - data_length) slot_idx' d'
      else d'
  end.

(** [colon_off] is [colon_ptr - line]. *)
Definition insert_values_into_slot (initial_slot_idx : nat) (line : bytes)
    (colon_off len : nat) (d : downstream_s) : downstream_s :=
  let name_len := name_length (slots d !!! initial_slot_idx) in
  let bytes_in_buffer := (len - colon_off - 1)%nat in
  insert_values_loop (S bytes_in_buffer) line name_len (drop (S colon_off) line)
    bytes_in_buffer initial_slot_idx d.

Definition process_data_line (line : bytes) (len : nat) (d : downstream_s) : Z * downstream_s :=
  match memchr line ":" len with
  | None => (1, log_msg ErrInvalidMetric d)
  | Some colon_off =>
      let '(slot_idx, d) := find_slot line (Z.of_nat (S colon_off)) d in
      (0, insert_values_into_slot slot_idx line colon_off len d)
  end.

(** The body of the [while] loop of [udp_read_cb] for the line of
    [line_length] bytes at [buffer_ptr]. *)
Definition read_line (buffer_ptr : bytes) (line_length : nat) (d : downstream_s) : downstream_s :=
  if bool_decide (6 < line_length)%nat
     && bool_decide (Z.of_nat line_length < DOWNSTREAM_BUF_SIZE - MAX_COUNTER_LENGTH)
  then (process_data_line buffer_ptr line_length d).2
  else log_msg (ErrInvalidLength (line_length - 1)) d.

Fixpoint udp_read_loop (fuel : nat) (buffer_ptr : bytes) (bytes_in_buffer : nat)
    (d : downstream_s) : downstream_s :=
  match fuel with
  | O => d
  | S fuel' =>
      match memchr buffer_ptr NL bytes_in_buffer with
      | None => d
      | Some k =>
          let line_length := S k in
          udp_read_loop fuel' (drop line_length buffer_ptr)
            (bytes_in_buffer - line_length) (read_line buffer_ptr line_length d)
      end
  end.

(** [stack] is what the local array [buffer] holds on entry and [datagram] is
    what [recv] delivers (the branches for [EV_ERROR] and a failed [recv]
    only log). *)
Definition udp_read_cb (stack datagram : bytes) (d : downstream_s) : downstream_s :=
  let received := take (DATA_BUF_SIZE - 1) datagram in
  let bytes_in_buffer := length received in
  let buf := write_at 0 received stack in
  if bool_decide (0 < bytes_in_buffer)%nat then
    let '(buf, bytes_in_buffer) :=
      if bool_decide (buf !! (bytes_in_buffer - 1)%nat ≠ Some NL)
      then (write_at bytes_in_buffer [NL] buf, S bytes_in_buffer)
      else (buf, bytes_in_buffer) in
    udp_read_loop bytes_in_buffer buf bytes_in_buffer d
  else d.

Definition downstream_flush_timer_cb (d : downstream_s) : downstream_s :=
  if bool_decide (active_buffer_length d > 0) then downstream_schedule_flush d else d.

(** ** Name resolution and reconciliation of the host set *)

(** [h_addr_list] is the address list [gethostbyname] returns, empty when
    the call fails. *)
Definition get_dns_data (h_addr_list : list Z) (d : downstream_s) : downstream_s :=
  match h_addr_list with
  | [] => log_msg ErrGethostbynameFailed d
  | _ =>
      let addrs := take MAX_DOWNSTREAM_NUM h_addr_list in
      let d := set_in_addr_new (addrs ++ drop (length addrs) (in_addr_new d)) d in
      set_in_addr_new_ready true (set_downstream_host_num (length addrs) d)
  end.

(** One round of the resolver thread. *)
Definition downstream_refresh (h_addr_list : list Z) (d : downstream_s) : downstream_s :=
  if in_addr_new_ready d then d else get_dns_data h_addr_list d.

(** The state [init_downstream] leaves when every call it makes succeeds. *)
Definition init_downstream (h_addr_list : list Z) : downstream_s :=
  get_dns_data h_addr_list
    {| active_buffer_idx := 0; active_buffer_length := 0; flush_buffer_idx := 0;
       buffer := replicate DOWNSTREAM_BUF_NUM [];
       buffer_length := replicate DOWNSTREAM_BUF_NUM 0;
       in_addr_new := replicate MAX_DOWNSTREAM_NUM 0; in_addr_new_ready := false;
       flush_watcher := false; slots := []; downstream_host_num := 0;
       downstream_hosts := None; packets_sent := 0; current_downstream_host := None;
       host_mem := ∅; host_alloc := 0; sent := []; error_log := [] |}.

(** The inner [for] loop of [update_downstreams]: look for [a] among the
    first [n] entries of the array and zero the entry found. *)
Fixpoint match_new_addr (a : Z) (arr : list Z) (n : nat) : option (list Z) :=
  match n, arr with
  | S n', x :: arr' =>
      if bool_decide (a = x) then Some (0 :: arr')
      else cons x <$> match_new_addr a arr' n'
  | _, _ => None
  end.

(** [*prev = v]. *)
Definition store_link (prev : link) (v : option ptr) (d : downstream_s) : option downstream_s :=
  match prev with
  | LinkHead => Some (set_downstream_hosts v d)
  | LinkNext p =>
      h ← host_mem d !! p;
      Some (set_host_mem (<[p := set_next v h]> (host_mem d)) d)
  end.

(** The [while] loop of [update_downstreams].  [free(host)] removes the node
    from the heap; stopping the probe watcher and closing its descriptor
    act on the event loop and the kernel only. *)
Fixpoint remove_stale_hosts (fuel : nat) (host : option ptr) (prev : link)
    (d : downstream_s) : option downstream_s :=
  match host with
  | None => Some d
  | Some p =>
      match fuel with
      | O => None
      | S fuel' =>
          h ← host_mem d !! p;
          match match_new_addr (sa_in_data h) (in_addr_new d) (downstream_host_num d) with
          | Some arr =>
              remove_stale_hosts fuel' (next h) (LinkNext p) (set_in_addr_new arr d)
          | None =>
              let d := set_current_downstream (downstream_hosts d) d in
              d ← store_link prev (next h) d;
              let d := set_host_mem (delete p (host_mem d)) d in
              remove_stale_hosts fuel' (next h) (LinkNext p) d
          end
      end
  end.

(** The second [for] loop of [update_downstreams] over the entries [addrs].
    [malloc] returns the address [S (host_alloc d)], never used before. *)
Fixpoint add_new_hosts (addrs : list Z) (d : downstream_s) : downstream_s :=
  match addrs with
  | [] => d
  | a :: addrs' =>
      if bool_decide (a = 0) then add_new_hosts addrs' d
      else
        let p := S (host_alloc d) in
        let h := Build_downstream_host_s a (downstream_hosts d) (-1) false false in
        add_new_hosts addrs'
          (set_downstream_hosts (Some p)
             (set_host_mem (<[p := h]> (host_mem d)) (set_host_alloc p d)))
  end.

Definition update_downstreams (d : downstream_s) : option downstream_s :=
  if in_addr_new_ready d then
    d ← remove_stale_hosts (size (host_mem d)) (downstream_hosts d) LinkHead d;
    Some (set_in_addr_new_ready false
            (add_new_hosts (take (downstream_host_num d) (in_addr_new d)) d))
  else Some d.

(** ** The two writers of the [alive] bit *)

Definition downstream_mark_down (p : ptr) (d : downstream_s) : option downstream_s :=
  h ← host_mem d !! p;
  let h := if bool_decide (health_fd h > 0) then set_health_fd (-1) h else h in
  let h := if alive h then set_alive false h else h in
  Some (set_host_mem (<[p := h]> (host_mem d)) d).

Definition HEALTH_CHECK_UP_RESPONSE : bytes := bytes_of "health: up" ++ [NL].

(** [n] is what [recv] returns and [response] the bytes it delivers. *)
Definition downstream_health_read_cb (p : ptr) (n : Z) (response : bytes)
    (d : downstream_s) : option downstream_s :=
  h ← host_mem d !! p;
  let d := set_host_mem (<[p := set_health_active false h]> (host_mem d)) d in
  if bool_decide (n <= 0) then downstream_mark_down p d
  else
    let buf := take (Z.to_nat n) response ++ [NUL] in
    if negb (memcmp_eq buf HEALTH_CHECK_UP_RESPONSE (length HEALTH_CHECK_UP_RESPONSE))
    then downstream_mark_down p d
    else
      h ← host_mem d !! p;
      Some (if alive h then d else set_host_mem (<[p := set_alive true h]> (host_mem d)) d).

(** ** The reactor *)

(** What the event loop and the resolver thread can do to
    [global.downstream].  The writable callback runs only while its watcher
    is active. *)
Inductive event :=
  | EvUdpRead (stack datagram : bytes)
  | EvFlushTimer
  | EvFlushWritable (bytes_send : Z)
  | EvResolved (h_addr_list : list Z)
  | EvUpdateDownstreams
  | EvHealthRead (p : ptr) (n : Z) (response : bytes)
  | EvMarkDown (p : ptr).

Definition step (e : event) (d : downstream_s) : option downstream_s :=
  match e with
  | EvUdpRead stack datagram => Some (udp_read_cb stack datagram d)
  | EvFlushTimer => Some (downstream_flush_timer_cb d)
  | EvFlushWritable bytes_send =>
      if flush_watcher d then downstream_flush_cb false bytes_send d else Some d
  | EvResolved h_addr_list =>
      Some (downstream_refresh h_addr_list d)
  | EvUpdateDownstreams => update_downstreams d
  | EvHealthRead p n response => downstream_health_read_cb p n response d
  | EvMarkDown p => downstream_mark_down p d
  end.

Fixpoint run (es : list event) (d : downstream_s) : option downstream_s :=
  match es with
  | [] => Some d
  | e :: es' => d' ← step e d; run es' d'
  end.

(** ** Staying inside the arrays *)

(** The C file has arrays where the model has lists: [slots[NUM_OF_SLOTS]],
    with [slots_used], [downstream_host_num] and [downstream_hosts] right
    behind it in [struct downstream_s]; [buffer[DOWNSTREAM_BUF_SIZE]] in
    every slot, with the other fields of the slot behind it; the ring
    [buffer[DOWNSTREAM_BUF_SIZE * DOWNSTREAM_BUF_NUM]], one region of
    [DOWNSTREAM_BUF_SIZE] bytes for each index, with [buffer_length] behind
    it; the [DOWNSTREAM_HEALTH_CHECK_BUF_SIZE] bytes a health reply is
    received into.  The C code stores into them without comparing the index
    or the length with these sizes; a store past the end is undefined in C
    and lands on the neighbour, where the list of the model grows.  The
    functions below have the shape of the functions they are named after
    and tell whether every store of the call falls inside the array it is
    meant for.  The C code and the model agree on such calls. *)

(** [slots[slots_used]] is an entry of the table, and [memcpy] copies
    [name_length] bytes that [line] has into the array of the slot. *)
Definition add_slot_in_bounds (line : bytes) (name_len : Z) (d : downstream_s) : bool :=
  bool_decide (Z.of_nat (slots_used d) < NUM_OF_SLOTS)
  && bool_decide (0 <= name_len <= DOWNSTREAM_BUF_SIZE)
  && bool_decide (Z.to_nat name_len <= length line)%nat.

(** One round of the [for] loop of [downstream_schedule_flush]: a slot that
    is not skipped has its byte [length - 1] set and [length] bytes copied
    out of its array. *)
Definition slot_packs_in_bounds (s : slot_s) : bool :=
  bool_decide (slot_length s = name_length s)
  || bool_decide (0 < slot_length s <= DOWNSTREAM_BUF_SIZE).

(** The slots are copied one behind the other from the start of the region
    of [active_buffer_idx]: they stay in the region when together they take
    at most [DOWNSTREAM_BUF_SIZE] bytes. *)
Definition downstream_schedule_flush_in_bounds (d : downstream_s) : bool :=
  let new_active_buffer_idx := ((active_buffer_idx d + 1) mod DOWNSTREAM_BUF_NUM)%nat in
  bool_decide (active_buffer_idx d < DOWNSTREAM_BUF_NUM)%nat
  && bool_decide (length (buffer_length d) = DOWNSTREAM_BUF_NUM)
  && bool_decide (Z.of_nat (slots_used d) <= NUM_OF_SLOTS)
  && (bool_decide (buffer_length d !!! new_active_buffer_idx > 0)
      || (forallb slot_packs_in_bounds (slots d)
          && bool_decide ((pack_slots (slots d)).2 <= DOWNSTREAM_BUF_SIZE))).

Definition find_slot_in_bounds (line : bytes) (name_len : Z) (d : downstream_s) : bool :=
  bool_decide (Z.of_nat (slots_used d) <= NUM_OF_SLOTS)
  && match find_slot_from line name_len (slots d) O with
     | Some _ => true
     | None =>
         if bool_decide (active_buffer_length d + name_len > DOWNSTREAM_BUF_SIZE)
         then downstream_schedule_flush_in_bounds d
              && add_slot_in_bounds line name_len (downstream_schedule_flush d)
         else add_slot_in_bounds line name_len d
     end.

Definition make_room_in_bounds (line : bytes) (name_len : Z) (metric_type : metric_type_e)
    (data_length : nat) (d : downstream_s) : bool :=
  if needs_flush metric_type data_length d
  then downstream_schedule_flush_in_bounds d
       && add_slot_in_bounds line name_len (downstream_schedule_flush d)
  else true.

(** [sprintf] stores the text and a [NUL] behind it at [buffer + name_length]. *)
Definition store_counter_in_bounds (name_len : Z) (buffer_ptr : bytes)
    (data_length type_off : nat) (slot_idx : nat) (d : downstream_s) : bool :=
  let s := slots d !!! slot_idx in
  let rate := counter_rate buffer_ptr type_off data_length in
  let '(v, n, err) := strtod buffer_ptr in
  let delta := d_div v rate in
  if err || negb (bool_decide (n = type_off)) then true
  else
    let c := d_add (counter s) delta in
    let out := sprintf_g15 c ++ bytes_of "|c" ++ [NL] in
    bool_decide (0 <= name_len)
    && bool_decide (name_len + Z.of_nat (length (out ++ [NUL])) <= DOWNSTREAM_BUF_SIZE).

(** [memcpy] stores [data_length] bytes at [buffer + length]. *)
Definition store_other_in_bounds (data_length : nat) (slot_idx : nat) (d : downstream_s)
  : bool :=
  let s := slots d !!! slot_idx in
  bool_decide (0 <= slot_length s)
  && bool_decide (slot_length s + Z.of_nat data_length <= DOWNSTREAM_BUF_SIZE).

Definition store_value_in_bounds (line : bytes) (name_len : Z) (buffer_ptr : bytes)
    (data_length type_off : nat) (metric_type : metric_type_e)
    (slot_idx : nat) (d : downstream_s) : bool :=
  make_room_in_bounds line name_len metric_type data_length d
  && let '(slot_idx, d) := make_room line name_len metric_type data_length slot_idx d in
     if bool_decide (metric_type = TYPE_COUNTER)
     then store_counter_in_bounds name_len buffer_ptr data_length type_off slot_idx d
     else store_other_in_bounds data_length slot_idx d.

(** [slots[slot_idx]] is a used entry of the table. *)
Definition insert_value_in_bounds (line : bytes) (name_len : Z) (buffer_ptr : bytes)
    (bytes_in_buffer : nat) (slot_idx : nat) (d : downstream_s) : bool :=
  let data_length := group_length buffer_ptr bytes_in_buffer in
  bool_decide (slot_idx < slots_used d)%nat
  && bool_decide (Z.of_nat (slots_used d) <= NUM_OF_SLOTS)
  && match memchr buffer_ptr "|" data_length with
     | None => true
     | Some type_off =>
         let metric_type := group_metric_type buffer_ptr type_off in
         let s := slots d !!! slot_idx in
         if bool_decide (slot_type s = TYPE_UNKNOWN) then
           let d := set_slots (<[slot_idx := set_slot_type metric_type s]> (slots d)) d in
           store_value_in_bounds line name_len buffer_ptr data_length type_off
             metric_type slot_idx d
         else if bool_decide (slot_type s ≠ metric_type) then true
         else
           store_value_in_bounds line name_len buffer_ptr data_length type_off
             metric_type slot_idx d
     end.

Fixpoint insert_values_loop_in_bounds (fuel : nat) (line : bytes) (name_len : Z)
    (buffer_ptr : bytes) (bytes_in_buffer : nat) (slot_idx : nat) (d : downstream_s)
  : bool :=
  match fuel with
  | O => true
  | S fuel' =>
      insert_value_in_bounds line name_len buffer_ptr bytes_in_buffer slot_idx d
      && let '(d', slot_idx', data_length, more) :=
           insert_value line name_len buffer_ptr bytes_in_buffer slot_idx d in
         if more then
           insert_values_loop_in_bounds fuel' line name_len (drop data_length buffer_ptr)
             (bytes_in_buffer - data_length) slot_idx' d'
         else true
  end.

Definition insert_values_into_slot_in_bounds (initial_slot_idx : nat) (line : bytes)
    (colon_off len : nat) (d : downstream_s) : bool :=
  let name_len := name_length (slots d !!! initial_slot_idx) in
  let bytes_in_buffer := (len - colon_off - 1)%nat in
  insert_values_loop_in_bounds (S bytes_in_buffer) line name_len (drop (S colon_off) line)
    bytes_in_buffer initial_slot_idx d.

Definition process_data_line_in_bounds (line : bytes) (len : nat) (d : downstream_s) : bool :=
  match memchr line ":" len with
  | None => true
  | Some colon_off =>
      find_slot_in_bounds line (Z.of_nat (S colon_off)) d
      && let '(slot_idx, d) := find_slot line (Z.of_nat (S colon_off)) d in
         insert_values_into_slot_in_bounds slot_idx line colon_off len d
  end.

Definition read_line_in_bounds (buffer_ptr : bytes) (line_length : nat) (d : downstream_s)
  : bool :=
  if bool_decide (6 < line_length)%nat
     && bool_decide (Z.of_nat line_length < DOWNSTREAM_BUF_SIZE - MAX_COUNTER_LENGTH)
  then process_data_line_in_bounds buffer_ptr line_length d
  else true.

Fixpoint udp_read_loop_in_bounds (fuel : nat) (buffer_ptr : bytes) (bytes_in_buffer : nat)
    (d : downstream_s) : bool :=
  match fuel with
  | O => true
  | S fuel' =>
      match memchr buffer_ptr NL bytes_in_buffer with
      | None => true
      | Some k =>
          let line_length := S k in
          read_line_in_bounds buffer_ptr line_length d
          && udp_read_loop_in_bounds fuel' (drop line_length buffer_ptr)
               (bytes_in_buffer - line_length) (read_line buffer_ptr line_length d)
      end
  end.

(** [recv] takes at most [DATA_BUF_SIZE - 1] bytes, so the newline added
    behind them is inside the local array. *)
Definition udp_read_cb_in_bounds (stack datagram : bytes) (d : downstream_s) : bool :=
  let received := take (DATA_BUF_SIZE - 1) datagram in
  let bytes_in_buffer := length received in
  let buf := write_at 0 received stack in
  if bool_decide (0 < bytes_in_buffer)%nat then
    let '(buf, bytes_in_buffer) :=
      if bool_decide (buf !! (bytes_in_buffer - 1)%nat ≠ Some NL)
      then (write_at bytes_in_buffer [NL] buf, S bytes_in_buffer)
      else (buf, bytes_in_buffer) in
    udp_read_loop_in_bounds bytes_in_buffer buf bytes_in_buffer d
  else true.

Definition downstream_flush_timer_cb_in_bounds (d : downstream_s) : bool :=
  if bool_decide (active_buffer_length d > 0)
  then downstream_schedule_flush_in_bounds d else true.

(** The writable callback reads the region and the length at
    [flush_buffer_idx]; the resolver and the reconciliation stay below
    [MAX_DOWNSTREAM_NUM] by their loop tests; [downstream_health_read_cb]
    stores a [NUL] at [buffer[n]]. *)
Definition step_in_bounds (e : event) (d : downstream_s) : bool :=
  match e with
  | EvUdpRead stack datagram => udp_read_cb_in_bounds stack datagram d
  | EvFlushTimer => downstream_flush_timer_cb_in_bounds d
  | EvFlushWritable _ => bool_decide (flush_buffer_idx d < DOWNSTREAM_BUF_NUM)%nat
  | EvHealthRead _ n _ => bool_decide (n < DOWNSTREAM_HEALTH_CHECK_BUF_SIZE)
  | EvResolved _ | EvUpdateDownstreams | EvMarkDown _ => true
  end.

Fixpoint run_in_bounds (es : list event) (d : downstream_s) : bool :=
  match es with
  | [] => true
  | e :: es' =>
      step_in_bounds e d
      && match step e d with
         | Some d' => run_in_bounds es' d'
         | None => true
         end
  end.

End Aggregator.

Arguments slot_s : clear implicits.
Arguments downstream_s : clear implicits.
Arguments init_downstream : clear implicits.

(** ** An instance of [Libc]: binary64 arithmetic, [strtod] and [%.15g]

    Modelled from ISO C (7.20.1.3 and 7.19.6.1) and IEEE-754 as glibc
    implements them: the repository calls these functions and does not
    define them.  [double] is [spec_float] at precision 53; conversions in
    both directions are exact and round to nearest, ties to even.  A NaN
    carries no sign here, so it always prints as [nan]. *)
Module Glibc.

Definition prec : Z := 53.
Definition emax : Z := 1024.

Definition add : spec_float -> spec_float -> spec_float := SFadd prec emax.
Definition div : spec_float -> spec_float -> spec_float := SFdiv prec emax.

(** The double nearest to [(-1)^s * num / den]. *)
Definition of_ratio (s : bool) (num den : Z) : spec_float :=
  match num, den with
  | Zpos n, Zpos m => div (S754_finite s n 0) (S754_finite false m 0)
  | _, _ => S754_zero s
  end.

(** The double nearest to [(-1)^s * m * b^e]. *)
Definition of_scaled (s : bool) (m b e : Z) : spec_float :=
  if 0 <=? e then of_ratio s (m * b ^ e) 1 else of_ratio s m (b ^ (- e)).

(** Whether [(-1)^s * m * b^e] is the value of [x]. *)
Definition represents (x : spec_float) (m b e : Z) : bool :=
  match x with
  | S754_zero _ => m =? 0
  | S754_finite _ mx ex =>
      let '(n1, d1) := if 0 <=? e then (m * b ^ e, 1) else (m, b ^ (- e)) in
      let '(n2, d2) := if 0 <=? ex then (Zpos mx * 2 ^ ex, 1) else (Zpos mx, 2 ^ (- ex)) in
      n1 * d2 =? n2 * d1
  | _ => false
  end.

(** [errno == ERANGE] after converting [m * b^e] to [x]: overflow, or a
    result below the normal range that is not exact. *)
Definition erange (x : spec_float) (m b e : Z) : bool :=
  match x with
  | S754_infinity _ => true
  | S754_nan => false
  | S754_zero _ => negb (m =? 0)
  | S754_finite _ mx _ =>
      negb (Zpos (digits2_pos mx) =? prec) && negb (represents x m b e)
  end.

Definition code (c : ascii) : Z := Z.of_N (N_of_ascii c).

Definition isspace (c : ascii) : bool :=
  (code c =? 32) || ((9 <=? code c) && (code c <=? 13)).

Definition lower (c : ascii) : Z :=
  if (65 <=? code c) && (code c <=? 90) then code c + 32 else code c.

Definition digit (base : Z) (c : ascii) : option Z :=
  let v := if (48 <=? code c) && (code c <=? 57) then code c - 48
           else if (97 <=? lower c) && (lower c <=? 102) then lower c - 87
           else 99 in
  if v <? base then Some v else None.

(** The longest prefix of [p] made of digits: its value after [acc], the
    number of digits, and the rest. *)
Fixpoint digits (base : Z) (p : bytes) (acc : Z) : Z * nat * bytes :=
  match p with
  | c :: p' =>
      match digit base c with
      | Some v => let '(m, n, r) := digits base p' (acc * base + v) in (m, S n, r)
      | None => (acc, O, p)
      end
  | [] => (acc, O, p)
  end.

(** Whether [p] starts with the letters [w], ignoring case. *)
Fixpoint starts_with (w : bytes) (p : bytes) : bool :=
  match w, p with
  | [], _ => true
  | a :: w', c :: p' => (code a =? lower c) && starts_with w' p'
  | _, [] => false
  end.

(** An exponent part introduced by the letter [mark]: its value and the
    bytes it takes, [(0, 0)] when there is none. *)
Definition exponent (mark : Z) (p : bytes) : Z * nat :=
  match p with
  | c :: p' =>
      if lower c =? mark then
        let '(neg, k, q) :=
          match p' with
          | s :: q =>
              if code s =? 45 then (true, 1%nat, q)
              else if code s =? 43 then (false, 1%nat, q)
              else (false, O, p')
          | [] => (false, O, p')
          end in
        let '(v, n, _) := digits 10 q 0 in
        match n with
        | O => (0, O)
        | _ => (if neg then - v else v, (1 + k + n)%nat)
        end
      else (0, O)
  | [] => (0, O)
  end.

(** A number in base [base] (10 or 16) with an optional radix point and an
    optional exponent of [ebase] marked by [mark]: value, bytes taken and
    [ERANGE]; [None] when no digit is present. *)
Definition number (s : bool) (base ebase mark : Z) (p : bytes)
  : option (spec_float * nat * bool) :=
  let '(m1, n1, r1) := digits base p 0 in
  let '(m, n2, k, r2) :=
    match r1 with
    | c :: r =>
        if code c =? 46 then let '(m2, n2, r2) := digits base r m1 in (m2, n2, 1%nat, r2)
        else (m1, O, O, r1)
    | [] => (m1, O, O, r1)
    end in
  match (n1 + n2)%nat with
  | O => None
  | _ =>
      let '(e, ne) := exponent mark r2 in
      (* the value is m * base^(-n2) * ebase^e *)
      let '(mm, bb, ee) :=
        if base =? 16 then (m, 2, e - 4 * Z.of_nat n2) else (m, 10, e - Z.of_nat n2) in
      let x := of_scaled s mm bb ee in
      Some (x, (n1 + k + n2 + ne)%nat, erange x mm bb ee)
  end.

(** [nan] may be followed by [(n-char-sequence)]. *)
Fixpoint nan_payload (p : bytes) : option nat :=
  match p with
  | c :: p' =>
      if code c =? 41 then Some 1%nat
      else if ((48 <=? code c) && (code c <=? 57))
              || ((97 <=? lower c) && (lower c <=? 122)) || (code c =? 95)
      then S <$> nan_payload p'
      else None
  | [] => None
  end.

Definition strtod_body (s : bool) (p : bytes) : option (spec_float * nat * bool) :=
  if starts_with (bytes_of "infinity") p then Some (S754_infinity s, 8%nat, false)
  else if starts_with (bytes_of "inf") p then Some (S754_infinity s, 3%nat, false)
  else if starts_with (bytes_of "nan") p then
    match drop 3 p with
    | c :: q =>
        if code c =? 40 then
          match nan_payload q with
          | Some n => Some (S754_nan, (4 + n)%nat, false)
          | None => Some (S754_nan, 3%nat, false)
          end
        else Some (S754_nan, 3%nat, false)
    | [] => Some (S754_nan, 3%nat, false)
    end
  else
    let hex :=
      if starts_with (bytes_of "0x") p then
        match number s 16 2 112 (drop 2 p) with
        | Some (x, n, err) => Some (x, (2 + n)%nat, err)
        | None => None
        end
      else None in
    match hex with
    | Some r => Some r
    | None => number s 10 10 101 p
    end.

Fixpoint skip_space (p : bytes) : nat :=
  match p with
  | c :: p' => if isspace c then S (skip_space p') else O
  | [] => O
  end.

Definition strtod (nptr : bytes) : spec_float * nat * bool :=
  let w := skip_space nptr in
  let p := drop w nptr in
  let '(s, k, q) :=
    match p with
    | c :: q =>
        if code c =? 45 then (true, 1%nat, q)
        else if code c =? 43 then (false, 1%nat, q)
        else (false, O, p)
    | [] => (false, O, p)
    end in
  match strtod_body s q with
  | Some (x, n, err) => (x, (w + k + n)%nat, err)
  | None => (S754_zero false, O, false)
  end.

(** *** [%.15g] *)

(** The largest [x' <= x] with [10^x' <= num / den], looking at [fuel] candidates. *)
Fixpoint exp10 (fuel : nat) (x : Z) (num den : Z) : Z :=
  match fuel with
  | O => x
  | S fuel' =>
      let '(n, d) := if 0 <=? x then (num, den * 10 ^ x) else (num * 10 ^ (- x), den) in
      if d <=? n then x else exp10 fuel' (x - 1) num den
  end.

Definition round_half_even (n d : Z) : Z :=
  let q := n / d in
  let r := n mod d in
  match 2 * r ?= d with
  | Lt => q
  | Gt => q + 1
  | Eq => if Z.even q then q else q + 1
  end.

(** The [n] decimal digits of [v], most significant first. *)
Fixpoint decimal (n : nat) (v : Z) (acc : bytes) : bytes :=
  match n with
  | O => acc
  | S n' => decimal n' (v / 10) (ascii_of_N (Z.to_N (48 + v mod 10)) :: acc)
  end.

Fixpoint strip_zeros_rev (r : bytes) : bytes :=
  match r with
  | c :: r' => if code c =? 48 then strip_zeros_rev r' else r
  | [] => []
  end.

Definition strip_zeros (ds : bytes) : bytes := rev (strip_zeros_rev (rev ds)).

Definition with_point (int_part frac : bytes) : bytes :=
  match strip_zeros frac with
  | [] => int_part
  | f => int_part ++ "."%char :: f
  end.

Definition exponent_field (x : Z) : bytes :=
  let a := Z.abs x in
  (if x <? 0 then "-"%char else "+"%char)
    :: (if a <? 100 then decimal 2 a [] else decimal 3 a []).

(** [%.15g] of the positive value [m * 2^e]. *)
Definition g15 (m e : Z) : bytes :=
  let '(num, den) := if 0 <=? e then (m * 2 ^ e, 1) else (m, 2 ^ (- e)) in
  (* 2^(b-1) <= m * 2^e < 2^b, hence the decimal exponent is at most b * log10 2 *)
  let b := Z.log2 m + 1 + e in
  let x0 := exp10 700 ((if 0 <=? b then b * 30103 else b * 30102) / 100000 + 1) num den in
  let scaled k := if 0 <=? k then round_half_even (num * 10 ^ k) den
                  else round_half_even num (den * 10 ^ (- k)) in
  let r0 := scaled (14 - x0) in
  let '(r, x) := if r0 =? 10 ^ 15 then (10 ^ 14, x0 + 1) else (r0, x0) in
  let ds := decimal 15 r [] in
  if (x <? -4) || (15 <=? x) then
    with_point (take 1 ds) (drop 1 ds) ++ "e"%char :: exponent_field x
  else if 0 <=? x then
    with_point (take (Z.to_nat (x + 1)) ds) (drop (Z.to_nat (x + 1)) ds)
  else
    with_point (bytes_of "0") (replicate (Z.to_nat (- x - 1)) "0"%char ++ ds).

Definition sprintf_g15 (x : spec_float) : bytes :=
  let sign (s : bool) := if s then bytes_of "-" else [] in
  match x with
  | S754_nan => bytes_of "nan"
  | S754_infinity s => sign s ++ bytes_of "inf"
  | S754_zero s => sign s ++ bytes_of "0"
  | S754_finite s m e => sign s ++ g15 (Zpos m) e
  end.

End Glibc.

Global Instance glibc : Libc spec_float :=
  {| d_zero := S754_zero false;
     d_one := Glibc.of_ratio false 1 1;
     d_add := Glibc.add;
     d_div := Glibc.div;
     strtod := Glibc.strtod;
     sprintf_g15 := Glibc.sprintf_g15 |}.

(** A libc with one number, which prints as ["0"].  It is there to show that
    a bound on the width of what [%.15g] prints, which [glibc] does not
    meet, can be met. *)
Definition one_number : Libc unit :=
  {| d_zero := tt;
     d_one := tt;
     d_add := fun _ _ => tt;
     d_div := fun _ _ => tt;
     strtod := fun _ => (tt, O, false);
     sprintf_g15 := fun _ => bytes_of "0" |}.

(** ** Vocabulary of the properties *)

Section Vocabulary.
Context {double : Type} {libc : Libc double}.

(** The bytes a slot contributes to the datagram, and its name. *)
Definition slot_payload (s : slot_s double) : bytes := take (Z.to_nat (slot_length s)) (slot_buffer s).
Definition slot_name (s : slot_s double) : bytes := take (Z.to_nat (name_length s)) (slot_buffer s).

(** The array holds at least the bytes the length fields speak of. *)
Definition slot_ok (s : slot_s double) : Prop :=
  0 <= name_length s <= slot_length s /\ slot_length s <= Z.of_nat (length (slot_buffer s)).

Definition slots_total (ss : list (slot_s double)) : Z := foldr (fun s n => slot_length s + n) 0 ss.

(** A slot holds at least its name. *)
Definition slot_wf (s : slot_s double) : Prop := 0 <= name_length s <= slot_length s.

(** The accounting integer agrees with the slot table. *)
Definition accounted (d : downstream_s double) : Prop :=
  active_buffer_length d = slots_total (slots d).

(** The bound the overflow tests are there to keep: the slots together, each
    queued buffer and each datagram sent take at most [DOWNSTREAM_BUF_SIZE]
    bytes. *)
Definition within_mtu (d : downstream_s double) : Prop :=
  accounted d
  /\ active_buffer_length d <= DOWNSTREAM_BUF_SIZE
  /\ Forall slot_wf (slots d)
  /\ Forall (fun v => v <= DOWNSTREAM_BUF_SIZE) (buffer_length d)
  /\ Forall (fun x => Z.of_nat (length x.2) <= DOWNSTREAM_BUF_SIZE) (sent d).

(** [ps] are the nodes reached from [head] through [next], up to [NULL]. *)
Fixpoint chain (mem : gmap ptr downstream_host_s) (head : option ptr) (ps : list ptr) : Prop :=
  match ps with
  | [] => head = None
  | p :: ps' => head = Some p /\ exists h, mem !! p = Some h /\ chain mem (next h) ps'
  end.

Definition host_alive (d : downstream_s double) (p : option ptr) : bool :=
  match p with
  | Some q => match host_mem d !! q with Some h => alive h | None => false end
  | None => false
  end.

Definition host_addr (mem : gmap ptr downstream_host_s) (p : ptr) : Z :=
  match mem !! p with Some h => sa_in_data h | None => 0 end.

(** The position [a] in the host list the selection starts from: that of
    the cursor, the head when the cursor is null. *)
Definition cursor_at (d : downstream_s double) (ps : list ptr) (a : nat) : Prop :=
  match current_downstream_host d with
  | Some p => ps !! a = Some p
  | None => a = 0%nat
  end.

(** [d'] is [d] with the cursor on the first alive host among the positions
    [a + 1], [a + 2], ... of [ps], taken modulo its length, at most
    [downstream_host_num] of them, and with a null cursor when none of those
    is alive. *)
Definition first_alive_selected (d : downstream_s double) (ps : list ptr) (a : nat)
    (d' : downstream_s double) : Prop :=
  d' = set_current_downstream (current_downstream_host d') d
  /\ match current_downstream_host d' with
     | Some q =>
         exists k, (1 <= k <= downstream_host_num d)%nat
           /\ ps !! ((a + k) mod length ps)%nat = Some q
           /\ host_alive d (Some q) = true
           /\ forall j, (1 <= j < k)%nat ->
                host_alive d (ps !! ((a + j) mod length ps)%nat) = false
     | None =>
         forall j, (1 <= j <= downstream_host_num d)%nat ->
           host_alive d (ps !! ((a + j) mod length ps)%nat) = false
     end.

(** The writable callback on [d] stops its watcher and sends nothing. *)
Definition flush_refused (d : downstream_s double) : Prop :=
  forall bytes_send, exists d',
    downstream_flush_cb false bytes_send d = Some d'
    /\ flush_watcher d' = false
    /\ flush_buffer_idx d' = flush_buffer_idx d
    /\ buffer_length d' = buffer_length d
    /\ sent d' = sent d
    /\ current_downstream_host d' = None.

(** What is left to match in [update_downstreams]: the addresses [addrs] of
    the hosts still to visit against the array [arr].  Apart from zeroes,
    the two hold the same addresses the same number of times. *)
Definition pending (addrs arr : list Z) : Prop :=
  filter (fun a => a <> 0) addrs ≡ₚ filter (fun a => a <> 0) arr
  /\ (0 ∈ addrs -> 0 ∈ arr).

(** The watcher is stopped while the buffer at [flush_buffer_idx] is queued
    with data in it. *)
Definition stalled (d : downstream_s double) : Prop :=
  flush_watcher d = false
  /\ flush_buffer_idx d <> active_buffer_idx d
  /\ buffer_length d !!! flush_buffer_idx d > 0.

(** The stall seen from outside: the watcher stopped, [f] the index to
    flush and not the active one, [v] the length queued there, [out] what
    has been sent so far. *)
Definition held (f : nat) (v : Z) (out : list (Z * bytes)) (d : downstream_s double) : Prop :=
  flush_watcher d = false
  /\ flush_buffer_idx d = f
  /\ active_buffer_idx d <> f
  /\ buffer_length d !!! f = v
  /\ sent d = out.

(** Everything but the host set, the resolution slot and the log. *)
Definition relay_part (d : downstream_s double) :=
  (slots d, active_buffer_length d, active_buffer_idx d, flush_buffer_idx d,
   buffer d, buffer_length d, flush_watcher d, packets_sent d, sent d).

End Vocabulary.

(** ** Concrete datagrams *)

Definition lines (l : list string) : bytes := concat (map (fun s => bytes_of s ++ [NL]) l).

Definition HEALTH_UP : bytes := bytes_of "health: up" ++ [NL].

(** Two downstream addresses resolved at start-up, no host created yet. *)
Definition d_start : downstream_s spec_float := init_downstream spec_float [10; 20].

(** Both hosts created by the first health tick and probed alive. *)
Definition boot : list event :=
  [EvUpdateDownstreams; EvHealthRead 1%nat 11 HEALTH_UP; EvHealthRead 2%nat 11 HEALTH_UP].

(** A line of 1432 bytes: a name of 1427 letters, a colon, and [1|c]. *)
Definition line_1432 : bytes := replicate 1427 "a"%char ++ bytes_of ":1|c" ++ [NL].

(** A line of 1430 bytes with a gauge, then a counter whose [%.15g] form
    takes 22 bytes. *)
Definition long_counter_datagram : bytes :=
  replicate 1425 "a"%char ++ bytes_of ":1|g" ++ [NL]
  ++ bytes_of "b:-1.23456789012345e-100|c" ++ [NL].

(** 208 lines of 7 bytes with pairwise different names and no value group. *)
Definition name_of (i : nat) : bytes :=
  [ascii_of_nat (65 + i / 16); ascii_of_nat (65 + i mod 16)].
Definition many_names_datagram : bytes :=
  concat (map (fun i => name_of i ++ bytes_of ":xxx" ++ [NL]) (seq 0 208)).

(** A slot that is created and never filled, then a flush tick: the ring
    queues an empty buffer. *)
Definition empty_round : list event :=
  [EvUdpRead [] (lines ["a:xxxxx"]); EvFlushTimer].

(** The table after one counter line, and a gauge group for the same name. *)
Definition d_counter_aa : downstream_s spec_float := udp_read_cb [] (lines ["aa:1|c"]) d_start.
Definition gauge_line_aa : bytes := lines ["aa:2|ms"].

(** A second counter line for the same name, sampled at one half. *)
Definition counter_line_aa : bytes := lines ["aa:2|c|@0.5"].

(** A timer line, and the table with its slot just created. *)
Definition timer_line : bytes := lines ["tt:250|ms"].
Definition d_timer : downstream_s spec_float := (find_slot timer_line 3 d_start).2.

(** The state once both hosts exist and answer their probes. *)
Definition d_booted : downstream_s spec_float := default d_start (run boot d_start).

(** The resolver then delivers the same two addresses, in the other order. *)
Definition d_resolved : downstream_s spec_float :=
  default d_start (run (boot ++ [EvResolved [10; 20]]) d_start).

(** No host is alive yet: one counter line is packed and queued, and the
    writable callback stops the watcher. *)
Definition d_stalled : downstream_s spec_float :=
  default d_start
    (run [EvUpdateDownstreams; EvUdpRead [] (lines ["aa:1|c"]); EvFlushTimer;
          EvFlushWritable 0] d_start).

(** Both hosts come up, more data arrives, the timer and the socket fire. *)
Definition after_stall : list event :=
  [EvHealthRead 1%nat 11 HEALTH_UP; EvHealthRead 2%nat 11 HEALTH_UP;
   EvUdpRead [] (lines ["bb:2|c"]); EvFlushTimer; EvFlushWritable 0;
   EvUdpRead [] (lines ["bb:3|c"]); EvFlushTimer; EvFlushWritable 0].

(** ** Vocabulary of the further properties *)

Section Vocabulary2.
Context {double : Type} {libc : Libc double}.

(** What [find_slot] compares: the length of the name and its bytes. *)
Definition slot_key (s : slot_s double) : Z * bytes := (name_length s, slot_name s).

(** The ring of egress buffers is in order: both indices are inside it, no
    length is negative, and the buffer the slots will be packed into next is
    empty. *)
Definition ring_ok (d : downstream_s double) : Prop :=
  (active_buffer_idx d < DOWNSTREAM_BUF_NUM)%nat
  /\ (flush_buffer_idx d < DOWNSTREAM_BUF_NUM)%nat
  /\ length (buffer d) = DOWNSTREAM_BUF_NUM
  /\ length (buffer_length d) = DOWNSTREAM_BUF_NUM
  /\ Forall (fun v => 0 <= v) (buffer_length d)
  /\ buffer_length d !! active_buffer_idx d = Some 0.

(** Every slot holds the bytes its lengths speak of, no two slots have the
    same name, and the ring is in order. *)
Definition state_ok (d : downstream_s double) : Prop :=
  Forall slot_ok (slots d) /\ NoDup (slot_key <$> slots d) /\ ring_ok d.

(** The table, the slots and the recorded lengths are what the arrays of
    the C file can hold. *)
Definition fits (d : downstream_s double) : Prop :=
  Z.of_nat (slots_used d) <= NUM_OF_SLOTS
  /\ Forall (fun s => slot_length s <= DOWNSTREAM_BUF_SIZE) (slots d)
  /\ Forall (fun v => v <= DOWNSTREAM_BUF_SIZE) (buffer_length d).

(** What a slot adds to the datagram: its bytes, the last one as a newline. *)
Definition slot_segment (s : slot_s double) : bytes :=
  take (Z.to_nat (slot_length s - 1)) (slot_buffer s) ++ [NL].

(** The slots that hold more than their name. *)
Definition slot_filled (s : slot_s double) : bool :=
  negb (bool_decide (slot_length s = name_length s)).

End Vocabulary2.

(** A metrics line with one value group, [name:value|type] and a newline. *)
Definition metric_line (name value type : bytes) : bytes :=
  name ++ ":"%char :: value ++ "|"%char :: type ++ [NL].

(** The line is one the other branch takes whole: no separator inside the
    three parts, a type that does not begin with [c], a length the reader
    accepts. *)
Definition other_sample (name value type : bytes) : Prop :=
  (":"%char ∉ name) /\ (NL ∉ name)
  /\ (":"%char ∉ value) /\ (NL ∉ value) /\ ("|"%char ∉ value)
  /\ (":"%char ∉ type) /\ (NL ∉ type) /\ type !! 0%nat <> Some "c"%char
  /\ (6 < length (metric_line name value type) < 1432)%nat.

(** Three lines for two names, read after both hosts came up. *)
Definition two_names : list event :=
  boot ++ [EvUdpRead [] (lines ["aa:1|c"; "bb:2|g"; "aa:3|c"])].
Definition d_two_names : downstream_s spec_float := default d_start (run two_names d_start).

(** The same state after a flush tick and a writable socket. *)
Definition d_relayed : downstream_s spec_float :=
  default d_start (run [EvFlushTimer; EvFlushWritable 14] d_two_names).

(** The table after one timer line. *)
Definition d_tt : downstream_s spec_float := udp_read_cb [] (lines ["tt:250|ms"]) d_booted.


(** The two hosts just created, neither probed yet. *)
Definition d_hosts : downstream_s spec_float :=
  default d_start (run [EvUpdateDownstreams] d_start).

(** ** Vocabulary of the host list *)

Section Vocabulary4.
Context {double : Type} {libc : Libc double}.

(** [malloc] has not yet returned any address above [host_alloc]. *)
Definition heap_fresh (d : downstream_s double) : Prop :=
  forall p : ptr, (host_alloc d < p)%nat -> host_mem d !! p = None.

(** The first [downstream_host_num] entries of the resolution slot. *)
Definition resolved (d : downstream_s double) : list Z :=
  take (downstream_host_num d) (in_addr_new d).

(** A host as [update_downstreams] creates it: not alive, no probe under way. *)
Definition host_is_new (h : downstream_host_s) : Prop :=
  alive h = false /\ health_fd h = -1 /\ health_active h = false.

End Vocabulary4.

(** The verdicts of the first loop of [update_downstreams] on hosts with the
    addresses [addrs], in list order: [true] for a host that finds no entry
    equal to its address among the first [n] of [arr].  A host that finds
    one zeroes it, so a later host with the same address needs another. *)
Fixpoint stale_marks (n : nat) (arr : list Z) (addrs : list Z) : list bool :=
  match addrs with
  | [] => []
  | a :: rest =>
      match match_new_addr a arr n with
      | Some arr' => false :: stale_marks n arr' rest
      | None => true :: stale_marks n arr rest
      end
  end.

(** The hosts of [ps] whose verdict is [false]. *)
Fixpoint kept_hosts (ps : list ptr) (ms : list bool) : list ptr :=
  match ps, ms with
  | p :: ps', m :: ms' => if m then kept_hosts ps' ms' else p :: kept_hosts ps' ms'
  | _, _ => []
  end.

(** Two hosts next to each other are both stale. *)
Definition neighbours_stale (ms : list bool) : Prop :=
  exists i : nat, ms !! i = Some true /\ ms !! S i = Some true.

(** The [prev] of the loop once the hosts [ks] have been kept. *)
Definition link_after (ks : list ptr) : link :=
  match last ks with Some k => LinkNext k | None => LinkHead end.

(** Whether the loop gets through the verdicts [ms]; [dangling] tells that
    [prev] points into a host just freed. *)
Fixpoint loop_ok (dangling : bool) (ms : list bool) : bool :=
  match ms with
  | [] => true
  | true :: r => negb dangling && loop_ok true r
  | false :: r => loop_ok false r
  end.

Section Vocabulary5.
Context {double : Type} {libc : Libc double}.

(** The host list is a list: it ends in [NULL], every node of it is
    allocated, every allocated node is in it, and [malloc] has not yet
    returned an address above the mark. *)
Definition hosts_ok (d : downstream_s double) : Prop :=
  exists ps, chain (host_mem d) (downstream_hosts d) ps
    /\ (forall p : ptr, is_Some (host_mem d !! p) -> p ∈ ps)
    /\ heap_fresh d.

(** The host list and the allocator. *)
Definition host_part (d : downstream_s double) :=
  (host_mem d, downstream_hosts d, host_alloc d).

(** The verdicts of the loop on the hosts [ps] of the state [d]. *)
Definition host_marks (d : downstream_s double) (ps : list ptr) : list bool :=
  stale_marks (downstream_host_num d) (in_addr_new d) (host_addr (host_mem d) <$> ps).

End Vocabulary5.

(** States in which the resolver has delivered, after start-up, the old
    addresses and one more, another address for the second host of the
    list, another for its head, and two addresses no host has. *)
Definition d_more : downstream_s spec_float :=
  default d_start (run (boot ++ [EvResolved [10; 20; 30]]) d_start).
Definition d_lost_tail : downstream_s spec_float :=
  default d_start (run (boot ++ [EvResolved [20; 30]]) d_start).
Definition d_lost_head : downstream_s spec_float :=
  default d_start (run (boot ++ [EvResolved [10; 30]]) d_start).
Definition d_lost_both : downstream_s spec_float :=
  default d_start (run (boot ++ [EvResolved [30; 40]]) d_start).

(** The head of the list replaced by a host for a new address. *)
Definition head_replaced : list event :=
  boot ++ [EvResolved [10; 30]; EvUpdateDownstreams].
Definition d_head_replaced : downstream_s spec_float :=
  default d_start (run head_replaced d_start).

(** ** The health probes *)

(** The callback [ev_io_init] has put on a host's probe watcher. *)
Inductive health_cb := CbConnect | CbSend | CbRead.

Global Instance health_cb_eq_dec : EqDecision health_cb.
Proof. solve_decision. Defined.

(** What the system answers when [check_downstream_health] opens a probe
    connection for one host: the results of [socket], of [setnonblock]
    (its second [fcntl]) and of [connect], and whether [connect] left
    [EINPROGRESS] in [errno]. *)
Record probe_sys := {
  sys_socket : Z;
  sys_setnonblock : Z;
  sys_connect : Z;
  sys_einprogress : bool
}.

(** What the system delivers when a probe descriptor gets ready: [SO_ERROR]
    for [downstream_health_connect_cb], the result of [send] for
    [downstream_health_send_cb], the result of [recv] and the bytes it
    stored for [downstream_health_read_cb]. *)
Record probe_io := {
  io_err : Z;
  io_sent : Z;
  io_received : Z;
  io_response : bytes
}.

Definition HEALTH_CHECK_REQUEST : bytes := bytes_of "health".

(** A probe is under way: the descriptor is open and its watcher active. *)
Definition probe_pending (h : downstream_host_s) : bool :=
  bool_decide (health_fd h > 0) && health_active h.

(** The three calls that open a probe connection went as the code wants
    them: a socket, made non-blocking, whose [connect] is in progress. *)
Definition connect_started (sys : probe_sys) : bool :=
  negb (bool_decide (sys_socket sys = -1))
  && negb (bool_decide (sys_setnonblock sys = -1))
  && (bool_decide (sys_connect sys = -1) && sys_einprogress sys).

(** The host record [downstream_mark_down] leaves. *)
Definition marked_down (h : downstream_host_s) : downstream_host_s :=
  set_alive false
    (set_health_fd (if bool_decide (health_fd h > 0) then -1 else health_fd h) h).

(** The test [downstream_health_read_cb] makes on what [recv] returned and
    stored. *)
Definition reply_up (n : Z) (response : bytes) : bool :=
  negb (bool_decide (n <= 0))
  && memcmp_eq (take (Z.to_nat n) response ++ [NUL]) HEALTH_CHECK_UP_RESPONSE
       (length HEALTH_CHECK_UP_RESPONSE).

(** The watcher of [h] initialised on [fd] and started. *)
Definition armed (fd : Z) (h : downstream_host_s) : downstream_host_s :=
  set_health_active true (set_health_fd fd (set_health_active false h)).

(** What one turn of the loop of [check_downstream_health] makes of the
    record of a host, and the callback it installs if any. *)
Definition probed (sys : probe_sys) (h : downstream_host_s)
  : downstream_host_s * option health_cb :=
  if probe_pending h then
    let h1 := marked_down (set_health_active false h) in
    if connect_started sys then (armed (sys_socket sys) h1, Some CbConnect) else (h1, None)
  else if bool_decide (health_fd h < 0) then
    if connect_started sys then (armed (sys_socket sys) h, Some CbConnect) else (h, None)
  else (armed (health_fd h) h, Some CbSend).

(** [h'] is [h] after some turns of that loop. *)
Definition probed_times (sys : probe_sys) (h h' : downstream_host_s) : Prop :=
  exists k : nat, h' = Nat.iter k (fun x => (probed sys x).1) h.

Section HealthProbe.
Context {double : Type} {libc : Libc double}.

(** [global.downstream] together with the callbacks of the probe watchers,
    which the host records of the relay do not hold. *)
Record probes := {
  down : downstream_s double;
  watcher_cb : gmap ptr health_cb
}.

Definition set_down (v : downstream_s double) (st : probes) : probes :=
  Build_probes v (watcher_cb st).

Definition set_host (p : ptr) (h : downstream_host_s) (d : downstream_s double)
  : downstream_s double :=
  set_host_mem (<[p := h]> (host_mem d)) d.

(** [ev_io_stop(loop, watcher)]. *)
Definition ev_io_stop (p : ptr) (st : probes) : option probes :=
  h ← host_mem (down st) !! p;
  Some (set_down (set_host p (set_health_active false h) (down st)) st).

(** [ev_io_init(watcher, cb, fd, events)]: [ev_init] clears [active]. *)
Definition ev_io_init (p : ptr) (cb : health_cb) (fd : Z) (st : probes) : option probes :=
  h ← host_mem (down st) !! p;
  Some (Build_probes (set_host p (set_health_fd fd (set_health_active false h)) (down st))
          (<[p := cb]> (watcher_cb st))).

(** [ev_io_start(loop, watcher)]. *)
Definition ev_io_start (p : ptr) (st : probes) : option probes :=
  h ← host_mem (down st) !! p;
  Some (set_down (set_host p (set_health_active true h) (down st)) st).

Definition mark_down (p : ptr) (st : probes) : option probes :=
  d ← downstream_mark_down p (down st);
  Some (set_down d st).

(** [n] is what [send] returns. *)
Definition downstream_health_send_cb (p : ptr) (n : Z) (st : probes) : option probes :=
  h ← host_mem (down st) !! p;
  let health_fd := health_fd h in
  st ← ev_io_stop p st;
  if bool_decide (n <= 0) then mark_down p st
  else
    st ← ev_io_init p CbRead health_fd st;
    ev_io_start p st.

(** [err] is what [getsockopt] stores for [SO_ERROR]. *)
Definition downstream_health_connect_cb (p : ptr) (err : Z) (st : probes) : option probes :=
  h ← host_mem (down st) !! p;
  let health_fd := health_fd h in
  st ← ev_io_stop p st;
  if bool_decide (err <> 0) then mark_down p st
  else
    st ← ev_io_init p CbSend health_fd st;
    ev_io_start p st.

(** The body of the [for] loop of [check_downstream_health] for the host
    [p]; a [continue] returns the state as it is at that point. *)
Definition check_host (sys : probe_sys) (p : ptr) (st : probes) : option probes :=
  h ← host_mem (down st) !! p;
  let health_fd := health_fd h in
  '(st, health_fd) ←
    (if bool_decide (health_fd > 0) && health_active h then
       st ← ev_io_stop p st;
       st ← mark_down p st;
       Some (st, -1)
     else Some (st, health_fd));
  if bool_decide (health_fd < 0) then
    let health_fd := sys_socket sys in
    if bool_decide (health_fd = -1) then Some st
    else if bool_decide (sys_setnonblock sys = -1) then Some st
    else if bool_decide (sys_connect sys = -1) && sys_einprogress sys then
      st ← ev_io_init p CbConnect health_fd st;
      ev_io_start p st
    else Some st
  else
    st ← ev_io_init p CbSend health_fd st;
    ev_io_start p st.

(** The [for] loop of [check_downstream_health] with the local [host] at
    [host]. *)
Fixpoint check_hosts (fuel : nat) (sys : ptr -> probe_sys) (host : option ptr)
    (st : probes) : option probes :=
  match host with
  | None => Some st
  | Some p =>
      match fuel with
      | O => None
      | S fuel' =>
          st ← check_host (sys p) p st;
          h ← host_mem (down st) !! p;
          check_hosts fuel' sys (next h) st
      end
  end.

Definition check_downstream_health (sys : ptr -> probe_sys) (st : probes) : option probes :=
  check_hosts (size (host_mem (down st))) sys (downstream_hosts (down st)) st.

Definition downstream_healthcheck_timer_cb (sys : ptr -> probe_sys) (st : probes)
  : option probes :=
  d ← update_downstreams (down st);
  check_downstream_health sys (set_down d st).

(** What the event loop and the resolver thread do to the probes.  A
    descriptor that gets ready runs the callback of its watcher, and only
    while the watcher is active. *)
Inductive probe_event :=
  | PeTimer (sys : ptr -> probe_sys)
  | PeResolved (h_addr_list : list Z)
  | PeReady (p : ptr) (io : probe_io).

Definition probe_step (e : probe_event) (st : probes) : option probes :=
  match e with
  | PeTimer sys => downstream_healthcheck_timer_cb sys st
  | PeResolved h_addr_list => Some (set_down (downstream_refresh h_addr_list (down st)) st)
  | PeReady p io =>
      match host_mem (down st) !! p with
      | Some h =>
          if health_active h then
            match watcher_cb st !! p with
            | Some CbConnect => downstream_health_connect_cb p (io_err io) st
            | Some CbSend => downstream_health_send_cb p (io_sent io) st
            | Some CbRead =>
                d ← downstream_health_read_cb p (io_received io) (io_response io) (down st);
                Some (set_down d st)
            | None => Some st
            end
          else Some st
      | None => Some st
      end
  end.

Fixpoint probe_run (es : list probe_event) (st : probes) : option probes :=
  match es with
  | [] => Some st
  | e :: es' => st' ← probe_step e st; probe_run es' st'
  end.

End HealthProbe.

Arguments probes : clear implicits.

(** The two hosts just created, with no watcher set up yet. *)
Definition st_hosts : probes spec_float := Build_probes d_hosts ∅.

(** Every [connect] is in progress on a descriptor of its own; every
    [connect] succeeds at once. *)
Definition sys_in_progress (p : ptr) : probe_sys :=
  Build_probe_sys (7 + Z.of_nat p) 0 (-1) true.
Definition sys_at_once (p : ptr) : probe_sys :=
  Build_probe_sys (7 + Z.of_nat p) 0 0 false.

(** A connection made, a request sent, a reply that says up. *)
Definition io_connected : probe_io := Build_probe_io 0 0 0 [].
Definition io_request_sent : probe_io := Build_probe_io 0 6 0 [].
Definition io_up : probe_io := Build_probe_io 0 0 11 HEALTH_UP.

(** Host 1 waiting for its reply, and the state once it has come. *)
Definition st_waiting : probes spec_float :=
  default st_hosts
    (probe_run [PeTimer sys_in_progress; PeReady 1%nat io_connected;
                PeReady 1%nat io_request_sent] st_hosts).
Definition st_replied : probes spec_float :=
  default st_hosts (probe_step (PeReady 1%nat io_up) st_waiting).

(** Two ticks at which every [connect] succeeds at once. *)
Definition at_once_twice : list probe_event :=
  [PeTimer sys_at_once; PeReady 1%nat io_up; PeTimer sys_at_once].
Definition st_at_once : probes spec_float :=
  default st_hosts (probe_run at_once_twice st_hosts).

(** ** Start-up: the configuration file *)

Definition DEFAULT_DNS_REFRESH_INTERVAL : Z := 60.
Definition DEFAULT_LOG_LEVEL : Z := 0.

(** A C [int] that receives [v]. *)
Definition to_int (v : Z) : Z := (v + 2 ^ 31) mod 2 ^ 32 - 2 ^ 31.

(** The string a [char *] points to: the bytes before the first NUL. *)
Fixpoint c_str (p : bytes) : bytes :=
  match p with
  | [] => []
  | c :: q => if Ascii.eqb c NUL then [] else c :: c_str q
  end.

(** [strchr(s, c) - s] for a [c] that is not NUL. *)
Definition strchr (s : bytes) (c : ascii) : option nat :=
  memchr s c (length (c_str s)).

(** [strcmp(a, b) == 0]. *)
Definition strcmp_eq (a b : bytes) : bool := bool_decide (c_str a = c_str b).

(** [getline] on what is left of a stream: the length it returns, the
    buffer it fills (the line with its newline if it has one, then a NUL),
    and what is left after it; [None] at the end of the stream. *)
Definition getline (stream : bytes) : option (Z * bytes * bytes) :=
  match stream with
  | [] => None
  | _ =>
      let n := match memchr stream NL (length stream) with
               | Some i => S i
               | None => length stream
               end in
      Some (Z.of_nat n, take n stream ++ [NUL], drop n stream)
  end.

(** Calls of [log_msg] at level [ERROR] made during start-up. *)
Inductive config_error :=
  | ErrBadLine (line : bytes)
  | ErrUnknownParameter (name : bytes)
  | ErrSocketFailed
  | ErrNoDataPort (host : bytes)
  | ErrNoHealthPort (host : bytes)
  | ErrNoDownstreamResolved
  | ErrFopenFailed
  | ErrLoadFailed
  | ErrSignalFailed
  | ErrInitConfigFailed
  | ErrDataSocketFailed
  | ErrBindFailed.

(** What the system answers during start-up: [fopen] and the content of the
    file, the two calls of [signal], [socket] in [init_downstream],
    [gethostbyname] (the address list, empty when it fails), [socket] and
    [bind] in [main], and [inet_pton]. *)
Record startup_sys := {
  os_fopen : bytes -> option bytes;
  os_sighup : bool;
  os_sigint : bool;
  os_udp_socket : Z;
  os_gethostbyname : bytes -> list Z;
  os_data_socket : Z;
  os_bind : Z;
  os_inet_pton : bytes -> Z
}.

Module Config.
Section Model.
Context {double : Type} {libc : Libc double}.
(** [atoi] of libc, on the string its argument points to. *)
Context (atoi : bytes -> Z).
Context (sys : startup_sys).

(** [struct global_s], with the three fields of [struct downstream_s] the
    relay itself does not read, and the log of start-up. *)
Record global_s := {
  data_port : Z;
  downstream : downstream_s double;
  data_host : option bytes;            (* downstream.data_host; [None] is NULL *)
  downstream_data_port : Z;            (* downstream.data_port *)
  health_port : Z;                     (* downstream.health_port *)
  downstream_flush_interval : double;
  log_level : Z;
  dns_refresh_interval : Z;
  downstream_health_check_interval : double;
  config_log : list config_error
}.

Definition set_data_port (v : Z) (g : global_s) : global_s :=
  Build_global_s v (downstream g) (data_host g) (downstream_data_port g) (health_port g)
    (downstream_flush_interval g) (log_level g) (dns_refresh_interval g)
    (downstream_health_check_interval g) (config_log g).
Definition set_downstream (v : downstream_s double) (g : global_s) : global_s :=
  Build_global_s (data_port g) v (data_host g) (downstream_data_port g) (health_port g)
    (downstream_flush_interval g) (log_level g) (dns_refresh_interval g)
    (downstream_health_check_interval g) (config_log g).
Definition set_data_host (v : option bytes) (g : global_s) : global_s :=
  Build_global_s (data_port g) (downstream g) v (downstream_data_port g) (health_port g)
    (downstream_flush_interval g) (log_level g) (dns_refresh_interval g)
    (downstream_health_check_interval g) (config_log g).
Definition set_downstream_data_port (v : Z) (g : global_s) : global_s :=
  Build_global_s (data_port g) (downstream g) (data_host g) v (health_port g)
    (downstream_flush_interval g) (log_level g) (dns_refresh_interval g)
    (downstream_health_check_interval g) (config_log g).
Definition set_health_port (v : Z) (g : global_s) : global_s :=
  Build_global_s (data_port g) (downstream g) (data_host g) (downstream_data_port g) v
    (downstream_flush_interval g) (log_level g) (dns_refresh_interval g)
    (downstream_health_check_interval g) (config_log g).
Definition set_downstream_flush_interval (v : double) (g : global_s) : global_s :=
  Build_global_s (data_port g) (downstream g) (data_host g) (downstream_data_port g)
    (health_port g) v (log_level g) (dns_refresh_interval g)
    (downstream_health_check_interval g) (config_log g).
Definition set_log_level (v : Z) (g : global_s) : global_s :=
  Build_global_s (data_port g) (downstream g) (data_host g) (downstream_data_port g)
    (health_port g) (downstream_flush_interval g) v (dns_refresh_interval g)
    (downstream_health_check_interval g) (config_log g).
Definition set_dns_refresh_interval (v : Z) (g : global_s) : global_s :=
  Build_global_s (data_port g) (downstream g) (data_host g) (downstream_data_port g)
    (health_port g) (downstream_flush_interval g) (log_level g) v
    (downstream_health_check_interval g) (config_log g).
Definition set_downstream_health_check_interval (v : double) (g : global_s) : global_s :=
  Build_global_s (data_port g) (downstream g) (data_host g) (downstream_data_port g)
    (health_port g) (downstream_flush_interval g) (log_level g) (dns_refresh_interval g)
    v (config_log g).

(** [log_msg(ERROR, ...)] during start-up. *)
Definition log_error (m : config_error) (g : global_s) : global_s :=
  Build_global_s (data_port g) (downstream g) (data_host g) (downstream_data_port g)
    (health_port g) (downstream_flush_interval g) (log_level g) (dns_refresh_interval g)
    (downstream_health_check_interval g) (config_log g ++ [m]).

(** [global] before [main] runs: static storage, all zero. *)
Definition global_zero : global_s :=
  {| data_port := 0;
     downstream :=
       {| active_buffer_idx := 0; active_buffer_length := 0; flush_buffer_idx := 0;
          buffer := replicate DOWNSTREAM_BUF_NUM [];
          buffer_length := replicate DOWNSTREAM_BUF_NUM 0;
          in_addr_new := replicate MAX_DOWNSTREAM_NUM 0; in_addr_new_ready := false;
          flush_watcher := false; slots := []; downstream_host_num := 0;
          downstream_hosts := None; packets_sent := 0; current_downstream_host := None;
          host_mem := ∅; host_alloc := 0; sent := []; error_log := [] |};
     data_host := None;
     downstream_data_port := 0;
     health_port := 0;
     downstream_flush_interval := d_zero;
     log_level := 0;
     dns_refresh_interval := 0;
     downstream_health_check_interval := d_zero;
     config_log := [] |}.

(** [atof(s)] is [strtod(s, NULL)]. *)
Definition atof (s : bytes) : double := (strtod (c_str s)).1.1.

(** [hosts] is the text after [downstream=].  The two colons found are
    overwritten with NUL, which ends the host name and the data port. *)
Definition init_downstream (hosts : bytes) (g : global_s) : Z * global_s :=
  let d := downstream g in
  let d := set_packets_sent 0 d in
  let d := set_slots [] d in
  let d := set_downstream_host_num 0 d in
  let d := set_downstream_hosts None d in
  let d := set_current_downstream None d in
  let d := set_active_buffer_idx 0 d in
  let d := set_active_buffer_length 0 d in
  let d := set_flush_buffer_idx 0 d in
  let g := set_downstream d g in
  if bool_decide (os_udp_socket sys < 0) then (1, log_error ErrSocketFailed g) else
  let d := set_buffer_length (replicate DOWNSTREAM_BUF_NUM 0) d in
  let g := set_downstream d g in
  match strchr hosts ":" with
  | None => (1, log_error (ErrNoDataPort (c_str hosts)) g)
  | Some i =>
      let hosts := <[i := NUL]> hosts in
      let data_port_s := drop (S i) hosts in
      let host_len := S i in
      let g := set_data_host (Some (take host_len hosts)) g in
      match strchr data_port_s ":" with
      | None => (1, log_error (ErrNoHealthPort (c_str hosts)) g)
      | Some j =>
          let data_port_s := <[j := NUL]> data_port_s in
          let health_port_s := drop (S j) data_port_s in
          let g := set_downstream_data_port (atoi (c_str data_port_s)) g in
          let g := set_health_port (atoi (c_str health_port_s)) g in
          let d := set_in_addr_new_ready false d in
          let d := get_dns_data (os_gethostbyname sys (c_str (take host_len hosts))) d in
          let g := set_downstream d g in
          if negb (in_addr_new_ready d) then (1, log_error ErrNoDownstreamResolved g)
          else (0, g)
      end
  end.

Definition process_config_line (line : bytes) (g : global_s) : Z * global_s :=
  match strchr line "=" with
  | None => (1, log_error (ErrBadLine (c_str line)) g)
  | Some i =>
      let line := <[i := NUL]> line in
      let value_ptr := drop (S i) line in
      if strcmp_eq (bytes_of "data_port") line then
        (0, set_data_port (atoi (c_str value_ptr)) g)
      else if strcmp_eq (bytes_of "downstream_flush_interval") line then
        (0, set_downstream_flush_interval (atof value_ptr) g)
      else if strcmp_eq (bytes_of "log_level") line then
        (0, set_log_level (atoi (c_str value_ptr)) g)
      else if strcmp_eq (bytes_of "dns_refresh_interval") line then
        (0, set_dns_refresh_interval (atoi (c_str value_ptr)) g)
      else if strcmp_eq (bytes_of "downstream_health_check_interval") line then
        (0, set_downstream_health_check_interval (atof value_ptr) g)
      else if strcmp_eq (bytes_of "downstream") line then
        init_downstream value_ptr g
      else (1, log_error (ErrUnknownParameter (c_str line)) g)
  end.

(** The [while] loop of [init_config] over what is left of the file. *)
Fixpoint read_config (fuel : nat) (stream : bytes) (failures : Z) (g : global_s)
  : Z * global_s :=
  match fuel with
  | O => (failures, g)
  | S fuel' =>
      match getline stream with
      | None => (failures, g)
      | Some (n, buffer, rest) =>
          let l := to_int n in
          if bool_decide (l > 0) then
            let buffer :=
              if bool_decide (buffer !! Z.to_nat (l - 1) = Some NL)
              then <[Z.to_nat (l - 1) := NUL]> buffer else buffer in
            let '(failures, g) :=
              if bool_decide (buffer !! 0%nat <> Some NL)
                 && bool_decide (buffer !! 0%nat <> Some "#"%char)
              then
                let '(r, g) := process_config_line buffer g in
                (to_int (failures + r), g)
              else (failures, g) in
            read_config fuel' rest failures g
          else (failures, g)
      end
  end.

(** The same loop over the buffers [getline] fills, one after the other. *)
Fixpoint read_buffers (buffers : list bytes) (failures : Z) (g : global_s)
  : Z * global_s :=
  match buffers with
  | [] => (failures, g)
  | buffer :: rest =>
      if bool_decide (buffer !! 0%nat <> Some NL)
         && bool_decide (buffer !! 0%nat <> Some "#"%char)
      then
        let '(r, g) := process_config_line buffer g in
        read_buffers rest (to_int (failures + r)) g
      else read_buffers rest failures g
  end.

Definition init_config (filename : bytes) (g : global_s) : Z * global_s :=
  let g := set_log_level DEFAULT_LOG_LEVEL g in
  let g := set_dns_refresh_interval DEFAULT_DNS_REFRESH_INTERVAL g in
  let g := set_downstream_health_check_interval d_one g in
  match os_fopen sys filename with
  | None => (1, log_error ErrFopenFailed g)
  | Some content =>
      let '(failures, g) := read_config (length content) content 0 g in
      if bool_decide (failures > 0) then (1, log_error ErrLoadFailed g)
      else if negb (os_sighup sys) then (1, log_error ErrSignalFailed g)
      else if negb (os_sigint sys) then (1, log_error ErrSignalFailed g)
      else (0, g)
  end.

Definition is_valid_ip_address (ip_addr : bytes) : bool :=
  negb (bool_decide (os_inet_pton sys (c_str ip_addr) = 0)).

(** How [main] gets to [ev_loop]: the process has ended with a status, or
    the three watchers are started, with or without the resolver thread. *)
Inductive startup :=
  | Exited (status : Z) (g : global_s)
  | Serving (refresh_thread : bool) (g : global_s).

(** [main] up to [ev_loop]; [argv] holds [argc] strings.  [None]: the null
    [data_host] is given to [inet_pton]. *)
Definition main (argv : list bytes) : option startup :=
  if bool_decide (length argv <> 2%nat) then Some (Exited 1 global_zero)
  else
    let '(r, g) := init_config (argv !!! 1%nat) global_zero in
    if bool_decide (r <> 0) then Some (Exited 1 (log_error ErrInitConfigFailed g))
    else if bool_decide (os_data_socket sys < 0)
    then Some (Exited 1 (log_error ErrDataSocketFailed g))
    else if bool_decide (os_bind sys <> 0)
    then Some (Exited 1 (log_error ErrBindFailed g))
    else
      host ← data_host g;
      Some (Serving (negb (is_valid_ip_address host)) g).

End Model.
End Config.

Arguments Config.global_s : clear implicits.
Arguments Config.startup : clear implicits.

(** *** Vocabulary of the properties of start-up *)

(** The text of a file whose lines are [ls], each ended by a newline. *)
Definition text_of (ls : list bytes) : bytes := concat ((fun l => l ++ [NL]) <$> ls).

(** The lines of a file that ends with the text [tail] after its last
    newline. *)
Definition config_lines (ls : list bytes) (tail : bytes) : list bytes :=
  ls ++ match tail with [] => [] | _ => [tail] end.

(** The buffers [getline] fills for these lines, the newline that ends a
    line replaced. *)
Definition line_buffers (ls : list bytes) (tail : bytes) : list bytes :=
  ((fun l => l ++ [NUL; NUL]) <$> ls)
  ++ match tail with [] => [] | _ => [tail ++ [NUL]] end.

(** The keys that take a number. *)
Definition scalar_keys : list bytes :=
  bytes_of <$> ["data_port"; "downstream_flush_interval"; "log_level";
                "dns_refresh_interval"; "downstream_health_check_interval"]%string.

(** A comment, or a line that sets one of the numbers. *)
Definition comment_or_scalar (l : bytes) : Prop :=
  head l = Some "#"%char
  \/ exists key value : bytes, key ∈ scalar_keys /\ c_str l = key ++ "="%char :: value.

Section ResetVocabulary.
Context {double : Type} {libc : Libc double}.

(** The state [init_downstream] works on once the socket is there. *)
Definition downstream_reset (g : Config.global_s double) : downstream_s double :=
  set_buffer_length (replicate DOWNSTREAM_BUF_NUM 0)
    (set_flush_buffer_idx 0
       (set_active_buffer_length 0
          (set_active_buffer_idx 0
             (set_current_downstream None
                (set_downstream_hosts None
                   (set_downstream_host_num 0
                      (set_slots [] (set_packets_sent 0 (Config.downstream g))))))))).

End ResetVocabulary.

Section ConfigVocabulary.
Context (sys : startup_sys).

(** A value [host:data_port:health_port] whose host resolves, with the
    socket for the flushes at hand. *)
Definition downstream_ok (value : bytes) : Prop :=
  0 <= os_udp_socket sys
  /\ exists host dp hp : bytes,
       value = host ++ ":"%char :: dp ++ ":"%char :: hp
       /\ (":"%char ∉ host) /\ (":"%char ∉ dp)
       /\ os_gethostbyname sys host <> [].

(** A line [key=value] with a key that is known, and for [downstream] a
    value that is taken. *)
Definition config_line_ok (s : bytes) : Prop :=
  exists key value : bytes,
    s = key ++ "="%char :: value
    /\ ("="%char ∉ key)
    /\ (key ∈ scalar_keys \/ (key = bytes_of "downstream" /\ downstream_ok value)).

(** A line [init_config] lets pass: a comment, or a line that is taken. *)
Definition config_line_passes (l : bytes) : Prop :=
  head l = Some "#"%char \/ config_line_ok (c_str l).

End ConfigVocabulary.

(** [atoi] as glibc has it: [(int) strtol(nptr, NULL, 10)], the [long]
    of 64 bits and held at its bounds. *)
Definition atoi_glibc (nptr : bytes) : Z :=
  let p := drop (Glibc.skip_space nptr) nptr in
  let '(neg, q) :=
    match p with
    | c :: q =>
        if Glibc.code c =? 45 then (true, q)
        else if Glibc.code c =? 43 then (false, q)
        else (false, p)
    | [] => (false, p)
    end in
  let '(m, _, _) := Glibc.digits 10 q 0 in
  to_int (if neg then Z.max (- m) (- 2 ^ 63) else Z.min m (2 ^ 63 - 1)).

(** Three configuration files: one as it should be, one with an empty
    line, one that only sets numbers. *)
Definition conf_ok : list bytes :=
  bytes_of <$> ["# relay"; "data_port=8125"; "downstream_flush_interval=1.0";
                "downstream=statsd.local:8125:8126"; "log_level=4"]%string.
Definition conf_blank : list bytes :=
  bytes_of <$> ["data_port=8125"; ""; "downstream=statsd.local:8125:8126"]%string.
Definition conf_numbers : list bytes :=
  bytes_of <$> ["data_port=8125"; "log_level=4"]%string.

(** A system where these files are there, the host resolves to two
    addresses and every other call succeeds. *)
Definition sys_ok : startup_sys :=
  {| os_fopen := fun name =>
       if decide (name = bytes_of "ok.conf") then Some (text_of conf_ok)
       else if decide (name = bytes_of "blank.conf") then Some (text_of conf_blank)
       else if decide (name = bytes_of "numbers.conf") then Some (text_of conf_numbers)
       else None;
     os_sighup := true;
     os_sigint := true;
     os_udp_socket := 3;
     os_gethostbyname := fun host =>
       if decide (host = bytes_of "statsd.local") then [10; 20] else [];
     os_data_socket := 4;
     os_bind := 0;
     os_inet_pton := fun _ => 0 |}.

(** ** The accounting integer *)

Section Accounting.
Context {double : Type} {libc : Libc double}.
Implicit Types (d : downstream_s double) (s : slot_s double) (ss : list (slot_s double)).

Lemma slots_total_app ss1 ss2 :
  slots_total (ss1 ++ ss2) = slots_total ss1 + slots_total ss2.
Proof. induction ss1 as [|s ss1 IH]; simpl; [done|]. rewrite IH. lia. Qed.

Lemma slots_total_insert ss i s s' :
  ss !! i = Some s ->
  slots_total (<[i := s']> ss) = slots_total ss - slot_length s + slot_length s'.
Proof.
  revert i. induction ss as [|t ss IH]; intros [|i] Hi; simplify_eq/=; [lia|].
  rewrite (IH _ Hi). lia.
Qed.

Lemma slots_total_retag ss i t :
  slots_total (<[i := set_slot_type t (ss !!! i)]> ss) = slots_total ss.
Proof.
  destruct (ss !! i) as [s|] eqn:Hi.
  - rewrite (slots_total_insert _ _ _ _ Hi), (list_lookup_total_correct _ _ _ Hi). simpl. lia.
  - rewrite list_insert_ge; [done|]. by apply lookup_ge_None.
Qed.

Lemma flush_clears_slots d : slots (downstream_schedule_flush d) = [].
Proof.
  unfold downstream_schedule_flush.
  repeat (case_bool_decide || case_match); done.
Qed.

Lemma flush_clears_accounting d : active_buffer_length (downstream_schedule_flush d) = 0.
Proof.
  unfold downstream_schedule_flush.
  repeat (case_bool_decide || case_match); done.
Qed.

Lemma flush_accounted d : accounted (downstream_schedule_flush d).
Proof. unfold accounted. by rewrite flush_clears_slots, flush_clears_accounting. Qed.

Lemma add_slot_accounted line n d : accounted d -> accounted (add_slot line n d).2.
Proof.
  unfold accounted, add_slot. simpl. intros ->.
  rewrite slots_total_app. simpl. lia.
Qed.

Lemma add_slot_index line n d :
  ((add_slot line n d).1 < slots_used (add_slot line n d).2)%nat.
Proof. unfold add_slot, slots_used. simpl. rewrite length_app. simpl. lia. Qed.

Lemma find_slot_from_bound line n ss i j :
  find_slot_from line n ss i = Some j -> (i <= j < i + length ss)%nat.
Proof.
  revert i. induction ss as [|s ss IH]; intros i H; simpl in *; [done|].
  case_match; simplify_eq; [lia|]. apply IH in H. lia.
Qed.


Lemma find_slot_index line n d :
  ((find_slot line n d).1 < slots_used (find_slot line n d).2)%nat.
Proof.
  unfold find_slot. case_match eqn:Hf.
  - apply find_slot_from_bound in Hf. simpl. unfold slots_used. lia.
  - apply add_slot_index.
Qed.

Lemma make_room_accounted line n t len i d :
  accounted d -> accounted (make_room line n t len i d).2.
Proof.
  intros Hd. unfold make_room. case_match; [|done].
  destruct (add_slot _ _ _) as [j d1] eqn:Ha. simpl.
  pose proof (add_slot_accounted line n _ (flush_accounted d)) as H1.
  rewrite Ha in H1. simpl in H1. unfold accounted in *. simpl.
  by rewrite slots_total_retag.
Qed.

Lemma make_room_index line n t len i d :
  (i < slots_used d)%nat ->
  ((make_room line n t len i d).1 < slots_used (make_room line n t len i d).2)%nat.
Proof.
  intros Hi. unfold make_room. case_match; [|done].
  destruct (add_slot _ _ _) as [j d1] eqn:Ha. simpl.
  pose proof (add_slot_index line n (downstream_schedule_flush d)) as H1.
  rewrite Ha in H1. simpl in H1. unfold slots_used in *. simpl.
  by rewrite length_insert.
Qed.

Lemma store_counter_accounted n p len off i d :
  (i < slots_used d)%nat -> accounted d -> accounted (store_counter n p len off i d).
Proof.
  intros Hi Hd. unfold store_counter.
  destruct (strtod p) as [[v k] err]. case_match; [done|].
  apply lookup_lt_is_Some in Hi as [s Hs].
  unfold accounted in *. simpl.
  rewrite (slots_total_insert _ _ _ _ Hs), (list_lookup_total_correct _ _ _ Hs). simpl. lia.
Qed.

Lemma store_other_accounted p len i d :
  (i < slots_used d)%nat -> accounted d -> accounted (store_other p len i d).
Proof.
  intros Hi Hd. unfold store_other.
  apply lookup_lt_is_Some in Hi as [s Hs].
  unfold accounted in *. simpl.
  rewrite (slots_total_insert _ _ _ _ Hs), (list_lookup_total_correct _ _ _ Hs). simpl. lia.
Qed.

Lemma store_counter_used n p len off i d :
  slots_used (store_counter n p len off i d) = slots_used d.
Proof.
  unfold store_counter. destruct (strtod p) as [[v k] err].
  case_match; [done|]. unfold slots_used. simpl. by rewrite length_insert.
Qed.

Lemma store_other_used p len i d : slots_used (store_other p len i d) = slots_used d.
Proof. unfold store_other, slots_used. simpl. by rewrite length_insert. Qed.

Lemma store_value_accounted line n p len off t i d :
  (i < slots_used d)%nat -> accounted d ->
  accounted (store_value line n p len off t i d).1
  /\ ((store_value line n p len off t i d).2
      < slots_used (store_value line n p len off t i d).1)%nat.
Proof.
  intros Hi Hd. unfold store_value.
  pose proof (make_room_accounted line n t len i d Hd) as Ha.
  pose proof (make_room_index line n t len i d Hi) as Hb.
  destruct (make_room _ _ _ _ _ _) as [j d1]. simpl in *.
  case_bool_decide; simpl.
  - split; [by apply store_counter_accounted|by rewrite store_counter_used].
  - split; [by apply store_other_accounted|by rewrite store_other_used].
Qed.

Lemma retag_accounted i t d :
  accounted d -> accounted (set_slots (<[i := set_slot_type t (slots d !!! i)]> (slots d)) d).
Proof. unfold accounted. simpl. intros ->. by rewrite slots_total_retag. Qed.

Lemma insert_value_accounted line n p len i d :
  (i < slots_used d)%nat -> accounted d ->
  accounted (insert_value line n p len i d).1.1.1
  /\ ((insert_value line n p len i d).1.1.2
      < slots_used (insert_value line n p len i d).1.1.1)%nat.
Proof.
  intros Hi Hd. unfold insert_value.
  case_match; [|done].
  case_bool_decide.
  - match goal with |- context [store_value ?a ?b ?c ?e ?f ?g ?h ?k] =>
      pose proof (store_value_accounted a b c e f g h k) as Hs;
      destruct (store_value a b c e f g h k) as [d1 j] end.
    simpl in *. apply Hs; [|by apply retag_accounted].
    unfold slots_used in *. simpl. by rewrite length_insert.
  - case_bool_decide; [done|].
    match goal with |- context [store_value ?a ?b ?c ?e ?f ?g ?h ?k] =>
      pose proof (store_value_accounted a b c e f g h k) as Hs;
      destruct (store_value a b c e f g h k) as [d1 j] end.
    simpl in *. by apply Hs.
Qed.







End Accounting.

(** ** The host set leaves the relay alone *)

Section HostFrame.
Context {double : Type} {libc : Libc double}.
Implicit Types (d : downstream_s double).

Lemma select_host_relay n host d d' :
  select_host n host d = Some d' -> relay_part d' = relay_part d.
Proof.
  revert host. induction n as [|n IH]; intros host H; simpl in H; simplify_option_eq; [done|].
  destruct (alive _); simplify_eq; eauto.
Qed.

Lemma set_current_relay d d' :
  set_current_downstream_host d = Some d' -> relay_part d' = relay_part d.
Proof.
  unfold set_current_downstream_host. intros H.
  repeat case_match; simplify_eq; eauto using select_host_relay.
Qed.

Lemma get_dns_data_relay l d : relay_part (get_dns_data l d) = relay_part d.
Proof. by destruct l. Qed.

Lemma downstream_refresh_relay l d : relay_part (downstream_refresh l d) = relay_part d.
Proof. unfold downstream_refresh. case_match; [done|apply get_dns_data_relay]. Qed.

Lemma store_link_relay prev v d d' :
  store_link prev v d = Some d' -> relay_part d' = relay_part d.
Proof. destruct prev; simpl; intros H; by simplify_option_eq. Qed.

Lemma remove_stale_hosts_relay fuel host prev d d' :
  remove_stale_hosts fuel host prev d = Some d' -> relay_part d' = relay_part d.
Proof.
  revert host prev d. induction fuel as [|fuel IH]; intros [p|] prev d H; simpl in H;
    simplify_eq; try done.
  destruct (host_mem d !! p) as [h|]; simpl in H; [|done].
  destruct (match_new_addr _ _ _).
  - by apply IH in H.
  - destruct (store_link _ _ _) as [d1|] eqn:Hl; simpl in H; [|done].
    apply store_link_relay in Hl. apply IH in H. by rewrite H.
Qed.

Lemma add_new_hosts_relay addrs d : relay_part (add_new_hosts addrs d) = relay_part d.
Proof.
  revert d. induction addrs as [|a addrs IH]; intros d; simpl; [done|].
  case_bool_decide; [done|]. by rewrite IH.
Qed.

Lemma update_downstreams_relay d d' :
  update_downstreams d = Some d' -> relay_part d' = relay_part d.
Proof.
  unfold update_downstreams. intros H. destruct (in_addr_new_ready d); simplify_eq; [|done].
  destruct (remove_stale_hosts _ _ _ _) as [d1|] eqn:Hr; simplify_eq/=.
  apply remove_stale_hosts_relay in Hr.
  transitivity (relay_part d1); [|done].
  apply (add_new_hosts_relay _ d1).
Qed.

Lemma mark_down_relay p d d' :
  downstream_mark_down p d = Some d' -> relay_part d' = relay_part d.
Proof. unfold downstream_mark_down. intros H. by simplify_option_eq. Qed.

Lemma health_read_relay p n r d d' :
  downstream_health_read_cb p n r d = Some d' -> relay_part d' = relay_part d.
Proof.
  unfold downstream_health_read_cb. intros H.
  destruct (host_mem d !! p) as [h|]; simplify_eq/=.
  case_bool_decide; [apply mark_down_relay in H; by rewrite H|].
  case_match; [apply mark_down_relay in H; by rewrite H|].
  simplify_option_eq. by case_match.
Qed.

Lemma relay_part_table d d' :
  relay_part d' = relay_part d ->
  slots d' = slots d /\ active_buffer_length d' = active_buffer_length d.
Proof. unfold relay_part. intros H. by simplify_eq. Qed.

Lemma flush_cb_table e b d d' :
  downstream_flush_cb e b d = Some d' ->
  slots d' = slots d /\ active_buffer_length d' = active_buffer_length d.
Proof.
  unfold downstream_flush_cb. intros H. destruct e; simplify_eq/=; [done|].
  destruct (set_current_downstream_host d) as [d1|] eqn:Hs; simplify_eq/=.
  apply set_current_relay, relay_part_table in Hs as [<- <-].
  destruct (current_downstream_host d1); simplify_eq/=; [|done].
  destruct (host_mem d1 !! _); simplify_eq/=.
  repeat case_bool_decide; done.
Qed.

End HostFrame.

Section AccountingTheorem.
Context {double : Type} {libc : Libc double}.
Implicit Types (d : downstream_s double).




End AccountingTheorem.


(** ** The type tag of a slot *)

Section TypeTag.
Context {double : Type} {libc : Libc double}.
Implicit Types (d : downstream_s double) (s t : slot_s double).

Lemma store_counter_keeps_types n p len off i d j t :
  slots d !! j = Some t ->
  exists t', slots (store_counter n p len off i d) !! j = Some t' /\ slot_type t' = slot_type t.
Proof.
  intros Hj. unfold store_counter. destruct (strtod p) as [[v k] err].
  case_match; [by exists t|]. simpl.
  destruct (decide (i = j)) as [->|Hne].
  - rewrite list_lookup_insert_eq by (by eapply lookup_lt_Some).
    rewrite (list_lookup_total_correct _ _ _ Hj). by eexists.
  - rewrite list_lookup_insert_ne by done. by exists t.
Qed.

Lemma store_other_keeps_types p len i d j t :
  slots d !! j = Some t ->
  exists t', slots (store_other p len i d) !! j = Some t' /\ slot_type t' = slot_type t.
Proof.
  intros Hj. unfold store_other. simpl.
  destruct (decide (i = j)) as [->|Hne].
  - rewrite list_lookup_insert_eq by (by eapply lookup_lt_Some).
    rewrite (list_lookup_total_correct _ _ _ Hj). by eexists.
  - rewrite list_lookup_insert_ne by done. by exists t.
Qed.

(** C7.  Once a slot carries the tag counter or other, a value group of the
    opposite category is rejected: the call logs the error and leaves the
    slot index and the whole state, hence tag, accumulator and payload of
    the slot, as they were.  And whatever the group is, every tagged slot
    keeps its tag, unless this very group forced a flush, which ends the
    lifetime of all slots. *)
Theorem slot_type_never_changes line n p len i d s :
  slots d !! i = Some s ->
  slot_type s <> TYPE_UNKNOWN ->
  let r := (insert_value line n p len i d).1.1 in
  (forall off, memchr p "|" (group_length p len) = Some off ->
     group_metric_type p off <> slot_type s ->
     r.1 = log_msg ErrImproperMetricType d /\ r.2 = i
     /\ slots r.1 = slots d
     /\ active_buffer_length r.1 = active_buffer_length d)
  /\ (forall j t, slots d !! j = Some t -> slot_type t <> TYPE_UNKNOWN ->
        (exists t', slots r.1 !! j = Some t' /\ slot_type t' = slot_type t)
        \/ (exists off, memchr p "|" (group_length p len) = Some off
              /\ group_metric_type p off = slot_type s
              /\ needs_flush (slot_type s) (group_length p len) d = true)).
Proof.
  intros Hi Hs. unfold insert_value.
  rewrite (list_lookup_total_correct _ _ _ Hi).
  destruct (memchr p "|" (group_length p len)) as [off|] eqn:Hoff; simpl.
  2:{ split; [intros ? ?; congruence|]. intros j t Hj _. left. by exists t. }
  rewrite bool_decide_eq_false_2 by done.
  case_bool_decide as Ht; simpl.
  { split.
    - intros off' Ho _. done.
    - intros j t Hj _. left. by exists t. }
  assert (slot_type s = group_metric_type p off) as Heq.
  { by destruct (decide (slot_type s = group_metric_type p off)). }
  unfold store_value, make_room. rewrite <- Heq.
  split.
  { intros off' Ho Hne. simplify_eq. }
  intros j t Hj Htj.
  destruct (needs_flush (slot_type s) (group_length p len) d) eqn:Hf.
  { right. by exists off. }
  left. case_bool_decide; simpl.
  - by apply store_counter_keeps_types.
  - by apply store_other_keeps_types.
Qed.
End TypeTag.

Lemma slot_type_never_changes_witness :
  (insert_value gauge_line_aa 3 (drop 3 gauge_line_aa) 5 0 d_counter_aa).1.1.1
  = log_msg ErrImproperMetricType d_counter_aa.
Proof.
  assert (slots d_counter_aa !! 0%nat = Some (slots d_counter_aa !!! 0%nat)) as Hi
    by (vm_compute; reflexivity).
  assert (slot_type (slots d_counter_aa !!! 0%nat) <> TYPE_UNKNOWN) as Hs
    by (vm_compute; discriminate).
  destruct (slot_type_never_changes gauge_line_aa 3 (drop 3 gauge_line_aa) 5 0
              d_counter_aa _ Hi Hs) as [H _].
  apply (H 1%nat); vm_compute; [reflexivity|discriminate].
Defined.

(** ** Counter slots *)

Section CounterPayload.
Context {double : Type} {libc : Libc double}.
Implicit Types (d : downstream_s double) (s : slot_s double).

Lemma take_write_at off (data tail buf : bytes) :
  (off <= length buf)%nat ->
  take (off + length data) (write_at off (data ++ tail) buf) = take off buf ++ data.
Proof.
  intros Hoff. unfold write_at.
  rewrite take_app_add' by (by rewrite length_take_le).
  f_equal. rewrite <- app_assoc. by rewrite take_app_length.
Qed.

Lemma needs_flush_retag t len i u d :
  needs_flush t len (set_slots (<[i := u]> (slots d)) d) = needs_flush t len d.
Proof. done. Qed.

Lemma counter_rate_cases p off dl :
  counter_rate p off dl = d_one
  \/ exists r k rate,
       memchr (drop (S off) p) "|" (dl - off) = Some r
       /\ p !! S (S off + r) = Some "@"%char
       /\ strtod (drop (S off + r + 2) p) = (rate, k, false)
       /\ (S off + r + 2 + k + 1 = dl)%nat
       /\ counter_rate p off dl = rate.
Proof.
  unfold counter_rate.
  destruct (memchr _ _ _) as [r|]; [|by left].
  case_bool_decide as Hat; [|by left].
  destruct (strtod _) as [[rate k] err] eqn:Hr.
  destruct err; simpl; [by left|].
  case_bool_decide as Hend; simpl; [|by left].
  right. exists r, k, rate. done.
Qed.

(** What the counter branch leaves in a slot that is in order. *)
Lemma store_counter_slot n p dl off i d s v :
  slots d !! i = Some s ->
  name_length s = n ->
  (0 <= n <= Z.of_nat (length (slot_buffer s))) ->
  strtod p = (v, off, false) ->
  exists s', slots (store_counter n p dl off i d) !! i = Some s'
    /\ slot_type s' = slot_type s
    /\ name_length s' = n
    /\ counter s' = d_add (counter s) (d_div v (counter_rate p off dl))
    /\ slot_name s' = slot_name s
    /\ slot_payload s' = slot_name s ++ sprintf_g15 (counter s') ++ bytes_of "|c" ++ [NL].
Proof.
  intros Hi Hn Hb Hv. unfold store_counter.
  rewrite Hv, (list_lookup_total_correct _ _ _ Hi). simpl.
  rewrite bool_decide_eq_true_2 by done. simpl.
  rewrite list_lookup_insert_eq by (by eapply lookup_lt_Some).
  eexists. split; [done|]. unfold slot_name, slot_payload. simpl.
  repeat split; try done.
  - rewrite Hn. unfold write_at. rewrite take_app_le by (rewrite length_take_le; lia).
    by rewrite take_idemp.
  - rewrite Hn.
    replace (Z.to_nat (n + Z.of_nat (length (sprintf_g15 (d_add (counter s) (d_div v (counter_rate p off dl))) ++ bytes_of "|c" ++ [NL]))))
      with (Z.to_nat n + length (sprintf_g15 (d_add (counter s) (d_div v (counter_rate p off dl))) ++ bytes_of "|c" ++ [NL]))%nat by lia.
    rewrite take_write_at by lia. done.
Qed.

(** The slot the group goes to after the overflow test: the one it came
    for, or a fresh one of the same name and tag. *)
Lemma make_room_slot line n t dl i d s :
  slots d !! i = Some s ->
  name_length s = n ->
  (0 <= n <= Z.of_nat (length (slot_buffer s))) ->
  (Z.to_nat n <= length line)%nat ->
  take (Z.to_nat n) line = slot_name s ->
  slot_type s = t ->
  exists s1, slots (make_room line n t dl i d).2 !! (make_room line n t dl i d).1 = Some s1
    /\ slot_type s1 = t
    /\ name_length s1 = n
    /\ (0 <= n <= Z.of_nat (length (slot_buffer s1)))
    /\ slot_name s1 = slot_name s
    /\ counter s1 = (if needs_flush t dl d then d_zero else counter s)
    /\ slot_payload s1 = (if needs_flush t dl d then slot_name s else slot_payload s).
Proof.
  intros Hi Hn Hb Hl Hname Ht. unfold make_room.
  destruct (needs_flush t dl d); [|by exists s].
  unfold add_slot, slots_used. rewrite flush_clears_slots. simpl.
  eexists. split; [done|]. unfold slot_name, slot_payload. simpl.
  rewrite take_idemp, length_take_le by done.
  repeat split; try done; lia.
Qed.

(** One counter group.  A slot starts with accumulator 0.0 and its name as
    only content.
    A value group whose type byte is [c] and whose value [strtod] reads up
    to the ['|'], offered to a slot tagged counter or not yet tagged, adds
    value / rate to the accumulator (of a fresh slot of the same name when
    the group forces a flush) and leaves as serialized bytes the name, the
    accumulator under [%.15g], and ["|c\n"], whatever the payload was
    before.  The rate is what [strtod] reads in the ["|@"] part when it
    reads it without error exactly up to the last byte of the group, and
    1.0 in every other case.  (A ["|@"] part with nothing behind it is
    read so, as 0.0.) *)
Theorem counter_slot_holds_formatted_sum :
  (forall line n d,
     let s0 := slots (add_slot line n d).2 !!! (add_slot line n d).1 in
     counter s0 = d_zero /\ slot_payload s0 = slot_name s0)
  /\ forall line n p len i d s off v,
       slots d !! i = Some s ->
       name_length s = n ->
       (0 <= n <= Z.of_nat (length (slot_buffer s))) ->
       (Z.to_nat n <= length line)%nat ->
       take (Z.to_nat n) line = slot_name s ->
       slot_type s = TYPE_UNKNOWN \/ slot_type s = TYPE_COUNTER ->
       memchr p "|" (group_length p len) = Some off ->
       p !! S off = Some "c"%char ->
       strtod p = (v, off, false) ->
       let r := (insert_value line n p len i d).1.1 in
       let rate := counter_rate p off (group_length p len) in
       (rate = d_one
        \/ exists q k, memchr (drop (S off) p) "|" (group_length p len - off) = Some q
             /\ p !! S (S off + q) = Some "@"%char
             /\ strtod (drop (S off + q + 2) p) = (rate, k, false)
             /\ (S off + q + 2 + k + 1 = group_length p len)%nat)
       /\ (forall q k x,
             memchr (drop (S off) p) "|" (group_length p len - off) = Some q ->
             p !! S (S off + q) = Some "@"%char ->
             strtod (drop (S off + q + 2) p) = (x, k, false) ->
             (S off + q + 2 + k + 1 = group_length p len)%nat ->
             rate = x)
       /\ exists s', slots r.1 !! r.2 = Some s'
            /\ slot_type s' = TYPE_COUNTER
            /\ slot_name s' = slot_name s
            /\ counter s'
               = d_add (if needs_flush TYPE_COUNTER (group_length p len) d
                        then d_zero else counter s) (d_div v rate)
            /\ slot_payload s'
               = slot_name s ++ sprintf_g15 (counter s') ++ bytes_of "|c" ++ [NL].
Proof.
  split.
  { intros line n d. unfold add_slot, slots_used. simpl.
    rewrite lookup_total_app_r by done. rewrite Nat.sub_diag. done. }
  intros line n p len i d s off v Hi Hn Hb Hl Hname Ht Hoff Hc Hv. simpl.
  split.
  { destruct (counter_rate_cases p off (group_length p len)) as [H|(q & k & rate & H1 & H2 & H3 & H4 & H5)];
      [by left|right]. exists q, k. by rewrite H5. }
  split.
  { intros q k x H1 H2 H3 H4. unfold counter_rate.
    rewrite H1. simpl. rewrite bool_decide_eq_true_2 by done.
    rewrite H3. simpl. by rewrite bool_decide_eq_true_2. }
  unfold insert_value. rewrite Hoff, (list_lookup_total_correct _ _ _ Hi).
  assert (group_metric_type p off = TYPE_COUNTER) as Hg.
  { unfold group_metric_type. by rewrite bool_decide_eq_true_2. }
  rewrite Hg.
  assert (forall d0 s0,
    slots d0 !! i = Some s0 -> name_length s0 = n ->
    (0 <= n <= Z.of_nat (length (slot_buffer s0))) ->
    take (Z.to_nat n) line = slot_name s0 -> slot_type s0 = TYPE_COUNTER ->
    let r := store_value line n p (group_length p len) off TYPE_COUNTER i d0 in
    exists s', slots r.1 !! r.2 = Some s' /\ slot_type s' = TYPE_COUNTER
      /\ slot_name s' = slot_name s0
      /\ counter s' = d_add (if needs_flush TYPE_COUNTER (group_length p len) d0
                             then d_zero else counter s0)
                        (d_div v (counter_rate p off (group_length p len)))
      /\ slot_payload s' = slot_name s0 ++ sprintf_g15 (counter s') ++ bytes_of "|c" ++ [NL])
    as Hstore.
  { intros d0 s0 Hi0 Hn0 Hb0 Hname0 Ht0. unfold store_value.
    destruct (make_room_slot line n TYPE_COUNTER (group_length p len) i d0 s0
                Hi0 Hn0 Hb0 Hl Hname0 Ht0) as (s1 & H1 & H2 & H3 & H4 & H5 & H6 & H7).
    destruct (make_room _ _ _ _ _ _) as [j d1]. simpl in *.
    destruct (store_counter_slot n p (group_length p len) off j d1 s1 v H1 H3 H4 Hv)
      as (s' & G1 & G2 & G3 & G4 & G5 & G6).
    exists s'. rewrite G6, G5, G4, H5, H6, G2, H2. done. }
  destruct Ht as [Ht|Ht]; rewrite Ht.
  - rewrite bool_decide_eq_true_2 by done.
    match goal with |- context [store_value _ _ _ _ _ _ _ ?d0] =>
      specialize (Hstore d0 (set_slot_type TYPE_COUNTER s)) end.
    simpl in Hstore.
    rewrite list_lookup_insert_eq in Hstore by (by eapply lookup_lt_Some).
    specialize (Hstore eq_refl Hn Hb Hname eq_refl).
    destruct (store_value _ _ _ _ _ _ _ _) as [d2 j]. simpl in *. done.
  - rewrite bool_decide_eq_false_2 by done.
    rewrite bool_decide_eq_false_2 by (intros H; by apply H).
    specialize (Hstore d s Hi Hn Hb Hname Ht).
    destruct (store_value _ _ _ _ _ _ _ _) as [d2 j]. simpl in *. done.
Qed.
End CounterPayload.

Lemma counter_slot_holds_formatted_sum_witness :
  exists s',
    slots (insert_value counter_line_aa 3 (drop 3 counter_line_aa) 9 0 d_counter_aa).1.1.1
      !! (insert_value counter_line_aa 3 (drop 3 counter_line_aa) 9 0 d_counter_aa).1.1.2
    = Some s'
    /\ slot_payload s' = lines ["aa:5|c"].
Proof.
  destruct (@counter_slot_holds_formatted_sum spec_float glibc) as [_ H].
  destruct (H counter_line_aa 3 (drop 3 counter_line_aa) 9%nat 0%nat d_counter_aa
              (slots d_counter_aa !!! 0%nat) 1%nat
              (strtod (drop 3 counter_line_aa)).1.1)
    as (_ & _ & s' & H1 & _ & _ & H4 & H5).
  - vm_compute; reflexivity.
  - vm_compute; reflexivity.
  - vm_compute; split; discriminate.
  - vm_compute; lia.
  - vm_compute; reflexivity.
  - right; vm_compute; reflexivity.
  - vm_compute; reflexivity.
  - vm_compute; reflexivity.
  - vm_compute; reflexivity.
  - exists s'. split; [exact H1|]. rewrite H5, H4. vm_compute. reflexivity.
Defined.

(** C1.  The rate of a counter sample is not defaulted when the ["|@"]
    part is empty.  [strtod] converts nothing there, returns 0.0 and sets
    [endptr] to where it began, which is one byte before the end of the
    group, so the test [(endptr + 1) != (buffer_ptr + data_length)] that
    sends every other rate that is not a number to [rate = 1] lets it
    through: the sample is divided by 0.0.  The datagram [aa:1|c|@] leaves
    the slot [aa:inf|c], under an empty and under a zeroed receive array,
    and one empty rate spoils the sum of a line; nothing is logged.  With a
    rate that is a number the samples of a line and of the lines after it
    are summed, and with a rate that is not a number the rate is 1. *)
Theorem empty_rate_is_not_defaulted :
  counter_rate (lines ["1|c|@"]) 1 6 = S754_zero false
  /\ map slot_payload (slots (udp_read_cb [] (lines ["aa:1|c|@"]) d_start))
     = [lines ["aa:inf|c"]]
  /\ map slot_payload
       (slots (udp_read_cb (replicate DATA_BUF_SIZE NUL) (lines ["aa:1|c|@"]) d_start))
     = [lines ["aa:inf|c"]]
  /\ map slot_payload (slots (udp_read_cb [] (lines ["aa:1|c|@:2|c"]) d_start))
     = [lines ["aa:inf|c"]]
  /\ error_log (udp_read_cb [] (lines ["aa:1|c|@"]) d_start) = []
  /\ map slot_payload (slots (udp_read_cb [] (lines ["aa:1|c|@x"]) d_start))
     = [lines ["aa:1|c"]]
  /\ map slot_payload (slots (udp_read_cb [] (lines ["aa:1|c|@0.5x"]) d_start))
     = [lines ["aa:1|c"]]
  /\ map slot_payload (slots (udp_read_cb [] (lines ["aa:1|c:2|c|@0.5"; "aa:3|c"]) d_start))
     = [lines ["aa:8|c"]].
Proof. repeat split; vm_compute; reflexivity. Qed.

(** ** The length of a line *)

Section LineLength.
Context {double : Type} {libc : Libc double}.
Implicit Types (d : downstream_s double).

Lemma memchr_app (body rest : bytes) c n :
  c ∉ body -> (length body < n)%nat ->
  memchr (body ++ c :: rest) c n = Some (length body).
Proof.
  revert n. induction body as [|x body IH]; intros n Hc Hn; simpl in *.
  - destruct n; [lia|]. by rewrite Ascii.eqb_refl.
  - destruct n; [lia|]. apply not_elem_of_cons in Hc as [Hx Hc].
    destruct (Ascii.eqb_spec x c) as [->|_]; [done|].
    rewrite IH by (done || lia). done.
Qed.

Lemma memchr_zero (p : bytes) c : memchr p c 0 = None.
Proof. by destruct p. Qed.

(** C5, as the code has it.  Every line of a datagram, that is every run of
    bytes up to and including a newline, is handed to [read_line] with its
    length, and [read_line] processes the line exactly when that length is
    at least 7 and at most 1431 (one less than
    [DOWNSTREAM_BUF_SIZE - MAX_COUNTER_LENGTH]); any other line is logged as
    an error and leaves the state, the slot table included, as it was. *)
Theorem line_is_processed_iff_length_from_7_to_1431 :
  (forall fuel (body rest : bytes) n d,
     NL ∉ body -> (length body < n)%nat ->
     udp_read_loop (S fuel) (body ++ NL :: rest) n d
     = udp_read_loop fuel rest (n - S (length body))
         (read_line (body ++ NL :: rest) (S (length body)) d))
  /\ (forall p len d,
        read_line p len d
        = if bool_decide (7 <= len <= 1431)%nat
          then (process_data_line p len d).2
          else log_msg (ErrInvalidLength (len - 1)) d)
  /\ (forall m d, slots (log_msg m d) = slots d
                  /\ active_buffer_length (log_msg m d) = active_buffer_length d).
Proof.
  split; [|split].
  - intros fuel body rest n d Hb Hn. simpl.
    rewrite memchr_app by done.
    replace (drop (S (length body)) (body ++ NL :: rest)) with rest; [done|].
    rewrite (cons_middle NL body rest), app_assoc.
    rewrite drop_app_length'; [done|]. rewrite length_app. simpl. lia.
  - intros p len d. unfold read_line, DOWNSTREAM_BUF_SIZE, MAX_COUNTER_LENGTH.
    repeat case_bool_decide; simpl; try done; lia.
  - done.
Qed.
End LineLength.

Lemma line_is_processed_iff_length_from_7_to_1431_witness :
  (NL ∉ bytes_of "aa:1|c")
  /\ udp_read_loop 7 (bytes_of "aa:1|c" ++ NL :: []) 7 d_start
     = udp_read_loop 6 [] (7 - 7)
         (read_line (bytes_of "aa:1|c" ++ NL :: []) 7 d_start)
  /\ slots_used (read_line (bytes_of "aa:1|c" ++ NL :: []) 7 d_start) = 1%nat.
Proof.
  assert (NL ∉ bytes_of "aa:1|c") as Hb
    by (apply (bool_decide_unpack _); vm_compute; exact I).
  split; [exact Hb|]. split.
  - apply (proj1 (@line_is_processed_iff_length_from_7_to_1431 spec_float glibc)
             6%nat (bytes_of "aa:1|c") [] 7%nat d_start Hb).
    vm_compute. lia.
  - vm_compute. reflexivity.
Defined.

(** C5 as stated fails at the upper bound: a line of exactly 1432 bytes is
    within the stated bounds, and processing it would create a slot, yet
    the code logs it as invalid and leaves the table empty. *)
Lemma line_of_1432_bytes_is_dropped :
  length line_1432 = 1432%nat
  /\ Z.of_nat (length line_1432) <= DOWNSTREAM_BUF_SIZE - MAX_COUNTER_LENGTH
  /\ udp_read_cb [] line_1432 d_start = log_msg (ErrInvalidLength 1431) d_start
  /\ slots_used (udp_read_cb [] line_1432 d_start) = 0%nat
  /\ slots_used (process_data_line line_1432 1432 d_start).2 = 1%nat.
Proof. vm_compute. repeat split; discriminate. Qed.

(** ** Classification of a value group *)

Section Classification.
Context {double : Type} {libc : Libc double}.
Implicit Types (d : downstream_s double) (s : slot_s double).

Lemma memchr_bound (p : bytes) c n k : memchr p c n = Some k -> (k < n /\ k < length p)%nat.
Proof.
  revert n k. induction p as [|x p IH]; intros [|n] k H; simpl in H; try done.
  destruct (Ascii.eqb x c); simplify_eq/=; [lia|].
  destruct (memchr p c n) as [j|] eqn:Hj; simplify_eq/=.
  apply IH in Hj. lia.
Qed.

(** Appending a group and turning its last byte into a colon. *)
Lemma take_write_group target (data buf : bytes) c :
  (target <= length buf)%nat -> (0 < length data)%nat ->
  take (target + length data)
    (write_at (target + length data - 1) [c] (write_at target data buf))
  = take target buf ++ take (length data - 1) data ++ [c].
Proof.
  intros Ht Hd. unfold write_at at 1.
  assert (length (take target buf) = target) as Hlen by (by rewrite length_take_le).
  assert (take (target + length data - 1) (write_at target data buf)
          = take target buf ++ take (length data - 1) data) as ->.
  { unfold write_at.
    replace (target + length data - 1)%nat with (target + (length data - 1))%nat by lia.
    rewrite take_app_add' by done. f_equal.
    rewrite take_app_le by lia. done. }
  change ([c] ++ ?r) with (c :: r).
  rewrite (cons_middle c), (app_assoc _ [c]).
  rewrite take_app_length'; [by rewrite <- app_assoc|].
  rewrite !length_app, Hlen, length_take_le by lia. simpl. lia.
Qed.

Lemma store_other_slot p dl i d s :
  slots d !! i = Some s ->
  (0 <= slot_length s <= Z.of_nat (length (slot_buffer s))) ->
  (0 < dl <= length p)%nat ->
  exists s', slots (store_other p dl i d) !! i = Some s'
    /\ slot_type s' = slot_type s
    /\ slot_payload s' = slot_payload s ++ take (dl - 1) p ++ [":"%char].
Proof.
  intros Hi Hb Hd. unfold store_other.
  rewrite (list_lookup_total_correct _ _ _ Hi). simpl.
  rewrite list_lookup_insert_eq by (by eapply lookup_lt_Some).
  eexists. split; [done|]. split; [done|]. unfold slot_payload. simpl.
  assert (length (take dl p) = dl) as Hlen by (rewrite length_take_le; lia).
  replace (Z.to_nat (slot_length s + Z.of_nat dl))
    with (Z.to_nat (slot_length s) + length (take dl p))%nat by lia.
  rewrite <- Hlen at 2.
  rewrite take_write_group by lia.
  rewrite Hlen, take_take. do 3 f_equal. lia.
Qed.

Lemma make_room_slot_ok line n t dl i d s :
  slots d !! i = Some s ->
  name_length s = n ->
  slot_ok s ->
  (Z.to_nat n <= length line)%nat ->
  exists s1, slots (make_room line n t dl i d).2 !! (make_room line n t dl i d).1 = Some s1
    /\ slot_ok s1.
Proof.
  intros Hi Hn Hok Hl. unfold make_room.
  destruct (needs_flush t dl d); [|by exists s].
  unfold add_slot, slots_used. rewrite flush_clears_slots. simpl.
  eexists. split; [done|]. unfold slot_ok in *. simpl.
  rewrite length_take_le by done. lia.
Qed.

(** C6, as the code has it.  The type of a value group is decided by the one
    byte that follows its first ['|']: counter when that byte is [c], other
    when it is anything else.  A group offered to a slot that is untagged
    or tagged with the type of the group leaves the slot it lands in with
    that tag, and when the byte is not [c] the bytes of the group are
    appended to the payload as they are, the last one stored as [':']. *)
Theorem group_is_counter_iff_byte_after_bar_is_c line n p len i d s off :
  slots d !! i = Some s ->
  name_length s = n ->
  slot_ok s ->
  (Z.to_nat n <= length line)%nat ->
  take (Z.to_nat n) line = slot_name s ->
  memchr p "|" (group_length p len) = Some off ->
  (group_length p len <= length p)%nat ->
  slot_type s = TYPE_UNKNOWN \/ slot_type s = group_metric_type p off ->
  let r := (insert_value line n p len i d).1.1 in
  (group_metric_type p off = TYPE_COUNTER <-> p !! S off = Some "c"%char)
  /\ (group_metric_type p off = TYPE_OTHER <-> p !! S off <> Some "c"%char)
  /\ exists s', slots r.1 !! r.2 = Some s'
       /\ slot_type s' = group_metric_type p off
       /\ (p !! S off <> Some "c"%char ->
           slot_payload s'
           = (if needs_flush TYPE_OTHER (group_length p len) d
              then slot_name s else slot_payload s)
             ++ take (group_length p len - 1) p ++ [":"%char]).
Proof.
  intros Hi Hn Hok Hl Hname Hoff Hp Ht. simpl.
  assert (group_metric_type p off = TYPE_COUNTER <-> p !! S off = Some "c"%char) as Hc.
  { unfold group_metric_type. case_bool_decide; split; done. }
  assert (group_metric_type p off = TYPE_OTHER <-> p !! S off <> Some "c"%char) as Ho.
  { unfold group_metric_type. case_bool_decide; split; done. }
  split; [done|]. split; [done|].
  pose proof (memchr_bound _ _ _ _ Hoff) as [Hdl _].
  set (dl := group_length p len) in *.
  set (t := group_metric_type p off) in *.
  assert (forall d0 s0,
    slots d0 !! i = Some s0 -> name_length s0 = n -> slot_ok s0 ->
    take (Z.to_nat n) line = slot_name s0 -> slot_type s0 = t ->
    let r := store_value line n p dl off t i d0 in
    exists s', slots r.1 !! r.2 = Some s' /\ slot_type s' = t
      /\ (p !! S off <> Some "c"%char ->
          slot_payload s'
          = (if needs_flush TYPE_OTHER dl d0 then slot_name s0 else slot_payload s0)
            ++ take (dl - 1) p ++ [":"%char])) as Hstore.
  { intros d0 s0 Hi0 Hn0 Hok0 Hname0 Ht0. unfold store_value.
    assert (0 <= n <= Z.of_nat (length (slot_buffer s0))) as Hb0
      by (unfold slot_ok in Hok0; lia).
    destruct (make_room_slot line n t dl i d0 s0 Hi0 Hn0 Hb0 Hl Hname0 Ht0)
      as (s1 & H1 & H2 & H3 & H4 & H5 & H6 & H7).
    destruct (make_room_slot_ok line n t dl i d0 s0 Hi0 Hn0 Hok0 Hl) as (s1' & H1' & Hok1).
    assert (s1' = s1) as -> by congruence. clear H1'.
    destruct (make_room _ _ _ _ _ _) as [j d1]. simpl in *.
    case_bool_decide as Htc; simpl.
    - destruct (store_counter_keeps_types n p dl off j d1 j s1 H1) as (s' & G1 & G2).
      exists s'. split; [done|]. split; [congruence|].
      intros Hne. apply Ho in Hne. congruence.
    - destruct (store_other_slot p dl j d1 s1 H1) as (s' & G1 & G2 & G3).
      { unfold slot_ok in Hok1. lia. }
      { lia. }
      exists s'. split; [done|]. split; [congruence|].
      intros Hne. apply Ho in Hne. rewrite G3, H7, Hne. done. }
  unfold insert_value. fold dl. rewrite Hoff. fold t.
  rewrite (list_lookup_total_correct _ _ _ Hi).
  case_bool_decide as Hu.
  - match goal with |- context [store_value _ _ _ _ _ _ _ ?d0] =>
      specialize (Hstore d0 (set_slot_type t s)) end.
    simpl in Hstore.
    rewrite list_lookup_insert_eq in Hstore by (by eapply lookup_lt_Some).
    specialize (Hstore eq_refl Hn Hok Hname eq_refl).
    destruct (store_value _ _ _ _ _ _ _ _) as [d2 j]. simpl in *. done.
  - destruct Ht as [Ht|Ht]; [done|].
    rewrite bool_decide_eq_false_2 by (intros H; by apply H).
    specialize (Hstore d s Hi Hn Hok Hname Ht).
    destruct (store_value _ _ _ _ _ _ _ _) as [d2 j]. simpl in *. done.
Qed.
End Classification.

Lemma group_is_counter_iff_byte_after_bar_is_c_witness :
  exists s',
    slots (insert_value timer_line 3 (drop 3 timer_line) 7 0 d_timer).1.1.1
      !! (insert_value timer_line 3 (drop 3 timer_line) 7 0 d_timer).1.1.2
    = Some s'
    /\ slot_type s' = TYPE_OTHER
    /\ slot_payload s' = bytes_of "tt:250|ms:".
Proof.
  destruct (group_is_counter_iff_byte_after_bar_is_c timer_line 3 (drop 3 timer_line)
              7%nat 0%nat d_timer (slots d_timer !!! 0%nat) 3%nat)
    as (_ & _ & s' & H1 & H2 & H3).
  - vm_compute; reflexivity.
  - vm_compute; reflexivity.
  - vm_compute. repeat split; discriminate.
  - vm_compute; lia.
  - vm_compute; reflexivity.
  - vm_compute; reflexivity.
  - vm_compute; lia.
  - left; vm_compute; reflexivity.
  - exists s'. split; [exact H1|]. split.
    + rewrite H2. vm_compute. reflexivity.
    + rewrite H3 by (vm_compute; discriminate). vm_compute. reflexivity.
Defined.

(** C6 as stated fails for a tag that only begins with [c]: the group
    [1|cx] is taken for a counter and re-serialized, not forwarded. *)
Lemma group_tagged_cx_is_aggregated_as_counter :
  map (fun s => (slot_type s, slot_payload s))
    (slots (udp_read_cb [] (lines ["aa:1|cx"]) d_start))
  = [(TYPE_COUNTER, lines ["aa:1|c"])].
Proof. vm_compute. reflexivity. Qed.

(** ** Two overflows *)

(** C2 does not hold of the code.  [MAX_COUNTER_LENGTH] is 18, but
    ["%.15g|c\n"] can take 25 bytes.  Both lines of
    [long_counter_datagram] have an accepted length (1430 and 27 bytes);
    after the first the accounting stands at 1430, the second adds its name
    and passes the test [1432 + 18 > 1450], and the counter then prints 25
    bytes.  The flush that follows hands [sendto] one datagram of 1457
    bytes, more than [DOWNSTREAM_BUF_SIZE]. *)
Theorem egress_datagram_can_exceed_buffer_size :
  length long_counter_datagram = 1457%nat
  /\ (fun d : downstream_s spec_float =>
        (active_buffer_length d, map slot_length (slots d)))
     <$> run (boot ++ [EvUdpRead [] long_counter_datagram]) d_start
     = Some (1457, [1430; 27])
  /\ (fun d : downstream_s spec_float => map (fun x => (x.1, Z.of_nat (length x.2))) (sent d))
     <$> run (boot ++ [EvUdpRead [] long_counter_datagram; EvFlushTimer;
                       EvFlushWritable 1457]) d_start
     = Some [(10, 1457)]
  /\ DOWNSTREAM_BUF_SIZE < 1457.
Proof. vm_compute. repeat split; reflexivity. Qed.

(** C4 does not hold of the code.  Nothing bounds [slots_used]: a slot whose
    groups are all rejected adds only its name to the accounting, so 208
    lines of 7 bytes with different names, one datagram of 1456 bytes, bring
    the accounting to 624 only, no flush is scheduled, and [add_slot] is
    called with [slots_used] equal to [NUM_OF_SLOTS], one past the end of
    [slots]. *)
Theorem slot_table_can_exceed_num_of_slots :
  length many_names_datagram = 1456%nat
  /\ slots_used (udp_read_cb [] many_names_datagram d_start) = 208%nat
  /\ active_buffer_length (udp_read_cb [] many_names_datagram d_start) = 624
  /\ active_buffer_idx (udp_read_cb [] many_names_datagram d_start) = 0%nat
  /\ NUM_OF_SLOTS = 207.
Proof. vm_compute. repeat split; reflexivity. Qed.

(** ** The datagram bound under the assumption of [MAX_COUNTER_LENGTH]

    The overflow shown above has one cause.  [insert_values_into_slot]
    reserves [MAX_COUNTER_LENGTH] bytes for a counter before it knows what
    [sprintf] will print; this section assumes that the reservation is
    enough and derives the bound that fails in general. *)

Section Mtu.
Context {double : Type} {libc : Libc double}.
Implicit Types (d : downstream_s double) (s : slot_s double) (ss : list (slot_s double)).

(** What [MAX_COUNTER_LENGTH] takes for granted. *)
Hypothesis counters_print_short :
  forall x : double, Z.of_nat (length (sprintf_g15 x)) + 3 <= MAX_COUNTER_LENGTH.

Lemma pack_slots_length ss :
  Forall slot_wf ss -> 0 <= (pack_slots ss).2 <= slots_total ss.
Proof.
  induction 1 as [|s ss Hs _ IH]; simpl; [lia|].
  unfold slot_wf in Hs. case_bool_decide; [lia|].
  destruct (pack_slots ss) as [data len]. simpl in *. lia.
Qed.

Lemma schedule_flush_within d : within_mtu d -> within_mtu (downstream_schedule_flush d).
Proof.
  intros (Ha & Hb & Hw & Hl & Hs).
  split; [apply flush_accounted|].
  rewrite flush_clears_accounting, flush_clears_slots.
  split; [unfold DOWNSTREAM_BUF_SIZE; lia|]. split; [constructor|].
  pose proof (pack_slots_length _ Hw) as Hp. unfold accounted in Ha.
  unfold downstream_schedule_flush. case_bool_decide; [done|].
  destruct (pack_slots (slots d)) as [data len]. simpl in Hp.
  assert (Forall (fun v => v <= DOWNSTREAM_BUF_SIZE)
            (<[active_buffer_idx d := len]> (buffer_length d))) as Hl'.
  { apply Forall_insert; [done|lia]. }
  repeat case_bool_decide; done.
Qed.

Lemma log_msg_within m d : within_mtu d -> within_mtu (log_msg m d).
Proof. done. Qed.

Lemma add_slot_within line n d :
  within_mtu d -> 0 <= n -> active_buffer_length d + n <= DOWNSTREAM_BUF_SIZE ->
  within_mtu (add_slot line n d).2.
Proof.
  intros (Ha & Hb & Hw & Hl & Hs) Hn Hfit.
  split; [by apply add_slot_accounted|]. unfold add_slot. simpl.
  split; [done|]. split; [|done].
  apply Forall_app. split; [done|]. apply Forall_singleton. unfold slot_wf. simpl. lia.
Qed.

Lemma find_slot_within line n d :
  within_mtu d -> 0 <= n <= DOWNSTREAM_BUF_SIZE -> within_mtu (find_slot line n d).2.
Proof.
  intros H Hn. unfold find_slot. case_match; [done|].
  case_bool_decide.
  - apply add_slot_within; [by apply schedule_flush_within|lia|].
    rewrite flush_clears_accounting. lia.
  - apply add_slot_within; [done|lia|lia].
Qed.

Lemma find_slot_from_name line n ss i j s :
  find_slot_from line n ss i = Some j -> ss !! (j - i)%nat = Some s -> name_length s = n.
Proof.
  revert i. induction ss as [|t ss IH]; intros i Hf Hs; simpl in *; [done|].
  destruct (bool_decide (name_length t = n)) eqn:Hn; simpl in Hf.
  - destruct (memcmp_eq _ _ _); simplify_eq.
    + rewrite Nat.sub_diag in Hs. simplify_eq/=. by apply bool_decide_eq_true_1 in Hn.
    + pose proof (find_slot_from_bound _ _ _ _ _ Hf) as Hb.
      replace (j - i)%nat with (S (j - S i)) in Hs by lia. by eapply IH.
  - pose proof (find_slot_from_bound _ _ _ _ _ Hf) as Hb.
    replace (j - i)%nat with (S (j - S i)) in Hs by lia. by eapply IH.
Qed.

Lemma find_slot_name line n d :
  name_length (slots (find_slot line n d).2 !!! (find_slot line n d).1) = n.
Proof.
  unfold find_slot. case_match eqn:Hf; simpl.
  - pose proof (find_slot_from_bound _ _ _ _ _ Hf) as Hb.
    destruct (lookup_lt_is_Some_2 (slots d) n0) as [s Hs]; [lia|].
    rewrite (list_lookup_total_correct _ _ _ Hs).
    eapply find_slot_from_name; [done|]. by rewrite Nat.sub_0_r.
  - unfold add_slot, slots_used. simpl.
    rewrite lookup_total_app_r by done. by rewrite Nat.sub_diag.
Qed.

Lemma retag_within i t d :
  within_mtu d -> within_mtu (set_slots (<[i := set_slot_type t (slots d !!! i)]> (slots d)) d).
Proof.
  intros (Ha & Hb & Hw & Hl & Hs). split; [by apply retag_accounted|]. simpl.
  split; [done|]. split; [|done].
  destruct (slots d !! i) as [s|] eqn:Hi.
  - apply Forall_insert; [done|]. rewrite (list_lookup_total_correct _ _ _ Hi).
    pose proof (Forall_lookup_1 _ _ _ _ Hw Hi) as Hs0. by destruct s.
  - rewrite list_insert_ge; [done|]. by apply lookup_ge_None.
Qed.

(** After the overflow test the group fits, in the old slot or in the fresh one. *)
Lemma make_room_within line n t len i d :
  within_mtu d -> (i < slots_used d)%nat ->
  0 <= n ->
  n + (if bool_decide (t = TYPE_COUNTER) then MAX_COUNTER_LENGTH else Z.of_nat len)
    <= DOWNSTREAM_BUF_SIZE ->
  let r := make_room line n t len i d in
  within_mtu r.2 /\ (r.1 < slots_used r.2)%nat
  /\ active_buffer_length r.2
     + (if bool_decide (t = TYPE_COUNTER) then MAX_COUNTER_LENGTH else Z.of_nat len)
     <= DOWNSTREAM_BUF_SIZE.
Proof.
  intros H Hi Hn Hfit. simpl.
  pose proof (make_room_index line n t len i d Hi) as Hidx.
  unfold make_room in *. unfold needs_flush in *.
  case_bool_decide as Hf; [|split; [done|split; [done|cbn [fst snd]; destruct (bool_decide (t = TYPE_COUNTER)); lia]]].
  pose proof (add_slot_within line n (downstream_schedule_flush d)
                (schedule_flush_within d H) Hn) as Hadd.
  rewrite flush_clears_accounting in Hadd.
  assert (active_buffer_length (add_slot line n (downstream_schedule_flush d)).2 = n) as Hab.
  { unfold add_slot. simpl. rewrite flush_clears_accounting. lia. }
  destruct (add_slot _ _ _) as [j d1]. simpl in Hab, Hadd, Hidx. cbn [fst snd].
  split; [apply retag_within, Hadd; unfold MAX_COUNTER_LENGTH in *; case_bool_decide; lia|]. split; [done|].
  cbn [active_buffer_length set_slots]. destruct (bool_decide (t = TYPE_COUNTER)); lia.
Qed.

Lemma store_counter_within n p len off i d :
  within_mtu d -> (i < slots_used d)%nat ->
  active_buffer_length d + MAX_COUNTER_LENGTH <= DOWNSTREAM_BUF_SIZE ->
  within_mtu (store_counter n p len off i d).
Proof.
  intros H Hi Hfit. pose proof H as (Ha & Hb & Hw & Hl & Hs).
  split; [by apply store_counter_accounted|].
  unfold store_counter. destruct (strtod p) as [[x k] err]. case_match; [done|].
  apply lookup_lt_is_Some in Hi as [s Hi].
  rewrite (list_lookup_total_correct _ _ _ Hi). simpl.
  pose proof (Forall_lookup_1 _ _ _ _ Hw Hi) as Hs0. unfold slot_wf in Hs0.
  match goal with |- context [sprintf_g15 ?c] =>
    pose proof (counters_print_short c) as Hshort end.
  rewrite !length_app in *. simpl in *.
  split; [lia|]. split; [|done].
  apply Forall_insert; [done|]. unfold slot_wf. simpl. lia.
Qed.

Lemma store_other_within p len i d :
  within_mtu d -> (i < slots_used d)%nat ->
  active_buffer_length d + Z.of_nat len <= DOWNSTREAM_BUF_SIZE ->
  within_mtu (store_other p len i d).
Proof.
  intros H Hi Hfit. pose proof H as (Ha & Hb & Hw & Hl & Hs).
  split; [by apply store_other_accounted|].
  unfold store_other.
  apply lookup_lt_is_Some in Hi as [s Hi].
  rewrite (list_lookup_total_correct _ _ _ Hi). simpl.
  pose proof (Forall_lookup_1 _ _ _ _ Hw Hi) as Hs0. unfold slot_wf in Hs0.
  split; [lia|]. split; [|done].
  apply Forall_insert; [done|]. unfold slot_wf. simpl. lia.
Qed.

Lemma store_value_within line n p len off t i d :
  within_mtu d -> (i < slots_used d)%nat ->
  0 <= n -> n + MAX_COUNTER_LENGTH <= DOWNSTREAM_BUF_SIZE ->
  n + Z.of_nat len <= DOWNSTREAM_BUF_SIZE ->
  within_mtu (store_value line n p len off t i d).1.
Proof.
  intros H Hi Hn Hc Ho. unfold store_value.
  destruct (make_room_within line n t len i d H Hi Hn) as (H1 & H2 & H3).
  { case_bool_decide; lia. }
  destruct (make_room _ _ _ _ _ _) as [j d1]. simpl in *.
  case_bool_decide; simpl; [by apply store_counter_within|by apply store_other_within].
Qed.

Lemma group_length_le p len : (group_length p len <= len)%nat.
Proof.
  unfold group_length. destruct (memchr p ":" len) as [k|] eqn:Hk; [|done].
  apply memchr_bound in Hk. lia.
Qed.

Lemma insert_value_within line n p len i d :
  within_mtu d -> (i < slots_used d)%nat ->
  0 <= n -> n + MAX_COUNTER_LENGTH <= DOWNSTREAM_BUF_SIZE ->
  n + Z.of_nat len <= DOWNSTREAM_BUF_SIZE ->
  within_mtu (insert_value line n p len i d).1.1.1.
Proof.
  intros H Hi Hn Hc Ho. pose proof (group_length_le p len) as Hg.
  unfold insert_value. case_match; [|done].
  case_bool_decide.
  - match goal with |- context [store_value ?a ?b ?c ?e ?f ?g ?h ?k] =>
      pose proof (store_value_within a b c e f g h k) as Hs;
      destruct (store_value a b c e f g h k) as [d1 j] end.
    simpl in *. apply Hs; try done; try lia.
    + by apply retag_within.
    + unfold slots_used in *. simpl. by rewrite length_insert.
  - case_bool_decide; [done|].
    match goal with |- context [store_value ?a ?b ?c ?e ?f ?g ?h ?k] =>
      pose proof (store_value_within a b c e f g h k) as Hs;
      destruct (store_value a b c e f g h k) as [d1 j] end.
    simpl in *. apply Hs; try done; lia.
Qed.

Lemma insert_values_loop_within fuel line n p len i d :
  within_mtu d -> (i < slots_used d)%nat ->
  0 <= n -> n + MAX_COUNTER_LENGTH <= DOWNSTREAM_BUF_SIZE ->
  n + Z.of_nat len <= DOWNSTREAM_BUF_SIZE ->
  within_mtu (insert_values_loop fuel line n p len i d).
Proof.
  revert p len i d. induction fuel as [|fuel IH]; intros p len i d H Hi Hn Hc Ho; simpl; [done|].
  pose proof (insert_value_within line n p len i d H Hi Hn Hc Ho) as H1.
  pose proof (insert_value_accounted line n p len i d Hi (proj1 H)) as [_ H2].
  destruct (insert_value line n p len i d) as [[[d1 j] dl] more]. simpl in *.
  destruct more; [|done]. apply IH; try done. lia.
Qed.

Lemma process_data_line_within line len d :
  within_mtu d -> Z.of_nat len < DOWNSTREAM_BUF_SIZE - MAX_COUNTER_LENGTH ->
  within_mtu (process_data_line line len d).2.
Proof.
  intros H Hlen. unfold process_data_line.
  destruct (memchr line ":" len) as [k|] eqn:Hk; [|done].
  apply memchr_bound in Hk as [Hk _].
  unfold DOWNSTREAM_BUF_SIZE, MAX_COUNTER_LENGTH in *.
  pose proof (find_slot_within line (Z.of_nat (S k)) d H) as H1.
  pose proof (find_slot_index line (Z.of_nat (S k)) d) as H2.
  pose proof (find_slot_name line (Z.of_nat (S k)) d) as H3.
  destruct (find_slot _ _ _) as [i d1]. simpl in *.
  unfold insert_values_into_slot. rewrite H3.
  apply insert_values_loop_within; unfold DOWNSTREAM_BUF_SIZE, MAX_COUNTER_LENGTH in *;
    try done; try lia.
  apply H1. lia.
Qed.

Lemma read_line_within p len d : within_mtu d -> within_mtu (read_line p len d).
Proof.
  intros H. unfold read_line.
  destruct (bool_decide (6 < len)%nat); cbn [andb]; [|done].
  case_bool_decide; [|done]. by apply process_data_line_within.
Qed.

Lemma udp_read_loop_within fuel p len d :
  within_mtu d -> within_mtu (udp_read_loop fuel p len d).
Proof.
  revert p len d. induction fuel as [|fuel IH]; intros p len d H; simpl; [done|].
  case_match; [|done]. by apply IH, read_line_within.
Qed.

Lemma udp_read_cb_within stack datagram d :
  within_mtu d -> within_mtu (udp_read_cb stack datagram d).
Proof.
  intros H. unfold udp_read_cb. case_bool_decide; [|done].
  case_bool_decide; by apply udp_read_loop_within.
Qed.

Lemma relay_part_within d d' : relay_part d' = relay_part d -> within_mtu d -> within_mtu d'.
Proof.
  unfold relay_part, within_mtu, accounted. intros [= Hs Ha _ _ _ Hb _ _ Ho].
  by rewrite Hs, Ha, Hb, Ho.
Qed.

Lemma flush_cb_within e b d d' :
  within_mtu d -> downstream_flush_cb e b d = Some d' -> within_mtu d'.
Proof.
  intros H. unfold downstream_flush_cb. destruct e; [by intros [= <-]|].
  destruct (set_current_downstream_host d) as [d1|] eqn:Hs; simpl; [|done].
  apply set_current_relay in Hs. pose proof (relay_part_within _ _ Hs H) as H1.
  assert (flush_buffer_idx d1 = flush_buffer_idx d) as <-.
  { unfold relay_part in Hs. by simplify_eq. }
  clear Hs H. destruct (current_downstream_host d1) as [p|]; [|by intros [= <-]].
  destruct (host_mem d1 !! p) as [h|]; simpl; [|done].
  intros [= <-]. destruct H1 as (Ha & Hb & Hw & Hl & Ho).
  assert (within_mtu
    (set_packets_sent (packets_sent d1 + 1)
       (set_buffer_length (<[flush_buffer_idx d1 := 0]> (buffer_length d1))
          (set_sent (sent d1 ++ [(sa_in_data h,
             take (Z.to_nat (buffer_length d1 !!! flush_buffer_idx d1))
               (buffer d1 !!! flush_buffer_idx d1))]) d1)))) as Hnew.
  { split; [done|]. simpl. split; [done|]. split; [done|]. split.
    - destruct (decide (flush_buffer_idx d1 < length (buffer_length d1))%nat).
      + apply Forall_insert; [done|]. unfold DOWNSTREAM_BUF_SIZE. lia.
      + rewrite list_insert_ge by lia. done.
    - apply Forall_app. split; [done|]. apply Forall_singleton. simpl.
      rewrite length_take.
      destruct (buffer_length d1 !! flush_buffer_idx d1) as [v|] eqn:Hv.
      + rewrite (list_lookup_total_correct _ _ _ Hv).
        pose proof (Forall_lookup_1 _ _ _ _ Hl Hv) as Hle. simpl in Hle.
        unfold DOWNSTREAM_BUF_SIZE in *. lia.
      + rewrite list_lookup_total_alt, Hv.
        change (default inhabitant None) with 1. unfold DOWNSTREAM_BUF_SIZE. lia. }
  repeat case_bool_decide; done.
Qed.

Lemma init_within l : within_mtu (init_downstream double l).
Proof.
  destruct l; simpl; unfold within_mtu, accounted; simpl;
    (repeat split; try done; try (unfold DOWNSTREAM_BUF_SIZE; lia));
    repeat constructor; unfold DOWNSTREAM_BUF_SIZE; lia.
Qed.

Lemma step_within e d d' : within_mtu d -> step e d = Some d' -> within_mtu d'.
Proof.
  intros H Hs. destruct e; cbn [step] in Hs; simplify_eq.
  - by apply udp_read_cb_within.
  - unfold downstream_flush_timer_cb. case_bool_decide; [by apply schedule_flush_within|done].
  - destruct (flush_watcher d); simplify_eq; [|done]. by eapply flush_cb_within.
  - eapply relay_part_within; [apply downstream_refresh_relay|done].
  - eapply relay_part_within; [by eapply update_downstreams_relay|done].
  - eapply relay_part_within; [by eapply health_read_relay|done].
  - eapply relay_part_within; [by eapply mark_down_relay|done].
Qed.

(** Were [%.15g] never to print more than 15 bytes, as [MAX_COUNTER_LENGTH]
    takes for granted, the overflow tests would do their work: whatever
    arrives, every buffer queued and every datagram sent would take at most
    [DOWNSTREAM_BUF_SIZE] bytes. *)
Lemma egress_fits_when_counters_print_short l es d' :
  run es (init_downstream double l) = Some d' ->
  Forall (fun v => v <= DOWNSTREAM_BUF_SIZE) (buffer_length d')
  /\ Forall (fun x => Z.of_nat (length x.2) <= DOWNSTREAM_BUF_SIZE) (sent d').
Proof.
  intros Hr.
  assert (within_mtu d') as (_ & _ & _ & H1 & H2); [|done].
  pose proof (init_within l) as Hi. revert Hi Hr. generalize (init_downstream double l).
  induction es as [|e es IH]; intros d Hd Hr; simpl in Hr; simplify_eq; [done|].
  destruct (step e d) as [d1|] eqn:Hs; simplify_eq/=.
  eapply IH; [|done]. by eapply step_within.
Qed.
End Mtu.

Lemma egress_fits_when_counters_print_short_witness :
  (forall x : unit,
     Z.of_nat (length (@sprintf_g15 unit one_number x)) + 3 <= MAX_COUNTER_LENGTH)
  /\ exists d',
       run (libc := one_number)
         (boot ++ [EvUdpRead [] (lines ["aaaaaa:|c"; "bbbbbb:12|ms"]); EvFlushTimer;
                   EvFlushWritable 24])
         (init_downstream unit [10; 20]) = Some d'
       /\ map snd (sent d') = [lines ["aaaaaa:0|c"; "bbbbbb:12|ms"]]
       /\ Forall (fun v => v <= DOWNSTREAM_BUF_SIZE) (buffer_length d')
       /\ Forall (fun x => Z.of_nat (length x.2) <= DOWNSTREAM_BUF_SIZE) (sent d').
Proof.
  assert (forall x : unit,
            Z.of_nat (length (@sprintf_g15 unit one_number x)) + 3 <= MAX_COUNTER_LENGTH)
    as Hshort by (intros []; vm_compute; discriminate).
  split; [exact Hshort|].
  eexists. split; [vm_compute; reflexivity|]. split; [vm_compute; reflexivity|].
  apply (@egress_fits_when_counters_print_short unit one_number Hshort [10; 20]
           (boot ++ [EvUdpRead [] (lines ["aaaaaa:|c"; "bbbbbb:12|ms"]); EvFlushTimer;
                     EvFlushWritable 24])).
  vm_compute; reflexivity.
Defined.

(** ** Selection of the downstream host *)

Section Selection.
Context {double : Type} {libc : Libc double}.
Implicit Types (d : downstream_s double) (ps : list ptr) (mem : gmap ptr downstream_host_s).

Lemma chain_head mem head ps : chain mem head ps -> head = ps !! 0%nat.
Proof. destruct ps; simpl; [done|]. by intros [-> _]. Qed.

Lemma chain_lookup mem head ps a p :
  chain mem head ps -> ps !! a = Some p ->
  exists h, mem !! p = Some h /\ next h = ps !! S a.
Proof.
  revert head a. induction ps as [|q ps IH]; intros head a Hc Ha; [done|].
  destruct Hc as [-> (h & Hh & Hc)].
  destruct a as [|a]; simplify_eq/=.
  - exists h. split; [done|]. by apply chain_head in Hc.
  - by eapply IH.
Qed.

(** One advance of the cursor on a well-formed list: the next position,
    the head after the last. *)
Lemma advance_on_chain d ps a p :
  chain (host_mem d) (downstream_hosts d) ps -> ps !! a = Some p ->
  advance p d = ps !! ((a + 1) mod length ps)%nat.
Proof.
  intros Hc Ha. unfold advance.
  destruct (chain_lookup _ _ _ _ _ Hc Ha) as (h & -> & Hn). simpl.
  pose proof (lookup_lt_Some _ _ _ Ha) as Hlt.
  rewrite Hn. destruct (decide (S a < length ps)%nat) as [Hs|Hs].
  - rewrite Nat.mod_small by lia. replace (a + 1)%nat with (S a) by lia.
    destruct (lookup_lt_is_Some_2 ps (S a) Hs) as [q Hq]. by rewrite Hq.
  - rewrite (lookup_ge_None_2 ps (S a)) by lia.
    replace (a + 1)%nat with (length ps) by lia.
    rewrite Nat.Div0.mod_same. by apply chain_head in Hc.
Qed.

Lemma select_host_spec d ps m a p :
  chain (host_mem d) (downstream_hosts d) ps -> ps !! a = Some p ->
  exists d', select_host m p d = Some d'
    /\ ((exists k q, (1 <= k <= m)%nat
           /\ ps !! ((a + k) mod length ps)%nat = Some q
           /\ host_alive d (Some q) = true
           /\ (forall j, (1 <= j < k)%nat ->
                 host_alive d (ps !! ((a + j) mod length ps)%nat) = false)
           /\ d' = set_current_downstream (Some q) d)
        \/ ((forall j, (1 <= j <= m)%nat ->
               host_alive d (ps !! ((a + j) mod length ps)%nat) = false)
            /\ d' = set_current_downstream None d)).
Proof.
  intros Hc. revert a p. induction m as [|m IH]; intros a p Ha; simpl.
  { eexists. split; [done|]. right. split; [intros; lia|done]. }
  pose proof (lookup_lt_Some _ _ _ Ha) as Hlt.
  rewrite (advance_on_chain d ps a p Hc Ha).
  assert ((a + 1) mod length ps < length ps)%nat as Hm by (apply Nat.mod_upper_bound; lia).
  destruct (lookup_lt_is_Some_2 ps _ Hm) as [q Hq]. rewrite Hq. simpl.
  destruct (chain_lookup _ _ _ _ _ Hc Hq) as (h & Hh & _). rewrite Hh. simpl.
  destruct (alive h) eqn:Hal.
  - eexists. split; [done|]. left. exists 1%nat, q.
    split; [lia|]. split; [done|]. split; [unfold host_alive; by rewrite Hh|].
    split; [intros; lia|done].
  - destruct (IH _ _ Hq) as (d' & Hs & Hcases). exists d'. split; [done|].
    assert (forall k, (((a + 1) mod length ps + k) mod length ps
                       = (a + S k) mod length ps)%nat) as Hidx.
    { intros k. rewrite Nat.Div0.add_mod_idemp_l. f_equal. lia. }
    assert (host_alive d (ps !! ((a + 1) mod length ps)%nat) = false) as H1.
    { rewrite Hq. unfold host_alive. by rewrite Hh. }
    destruct Hcases as [(k & q' & Hk & Hq' & Hal' & Hbefore & ->)|[Hnone ->]].
    + left. exists (S k), q'. rewrite <- Hidx.
      split; [lia|]. split; [done|]. split; [done|]. split; [|done].
      intros j Hj. destruct j as [|j]; [lia|].
      destruct j as [|j]; [done|].
      rewrite <- Hidx. apply Hbefore. lia.
    + right. split; [|done]. intros j Hj.
      destruct j as [|j]; [lia|]. destruct j as [|j]; [done|].
      rewrite <- Hidx. apply Hnone. lia.
Qed.

Lemma set_current_same d :
  set_current_downstream (current_downstream_host d) d = d.
Proof. by destruct d. Qed.

(** C8.  On a well-formed host list [ps], with the cursor at position [a]
    (the head when it is null), [set_current_downstream_host] visits the
    positions [a + 1], [a + 2], ... modulo the length of the list, at most
    [downstream_host_num] of them, and moves the cursor to the first host
    visited whose [alive] bit is set; when none of the hosts visited is
    alive the cursor becomes null, and the writable callback then stops
    its watcher, sends nothing and leaves [flush_buffer_idx] and the
    buffer lengths as they were. *)
Theorem downstream_selection_is_round_robin d ps a :
  chain (host_mem d) (downstream_hosts d) ps ->
  cursor_at d ps a ->
  exists d', set_current_downstream_host d = Some d'
    /\ first_alive_selected d ps a d'
    /\ (current_downstream_host d' = None -> flush_refused d).
Proof.
  intros Hc Ha.
  assert (exists d', set_current_downstream_host d = Some d'
                     /\ first_alive_selected d ps a d') as (d' & Hsel & Hd' & Hspec).
  { assert (forall p, ps !! a = Some p ->
      exists d', select_host (downstream_host_num d) p d = Some d'
                 /\ first_alive_selected d ps a d') as Hstart.
    { intros p Hp. unfold first_alive_selected.
      destruct (select_host_spec d ps (downstream_host_num d) a p Hc Hp)
        as (d' & Hs & [(k & q & Hk & Hq & Hal & Hbefore & ->)|[Hnone ->]]).
      - eexists. split; [done|]. split; [done|]. simpl. by exists k.
      - eexists. split; [done|]. split; [done|]. done. }
    unfold set_current_downstream_host, cursor_at in *.
    destruct (current_downstream_host d) as [p|] eqn:Hcur; [by apply Hstart|].
    subst a. apply chain_head in Hc as Hhead. rewrite Hhead.
    destruct (ps !! 0%nat) as [p|] eqn:Hp; [by apply Hstart|].
    exists d. unfold first_alive_selected. rewrite Hcur. split; [done|]. split.
    { rewrite <- Hcur. by rewrite set_current_same. }
    intros j _. destruct ps; [|done]. done. }
  exists d'. split; [done|]. split; [by split|].
  intros Hnone bytes_send. unfold downstream_flush_cb. rewrite Hsel. simpl.
  rewrite Hnone. eexists. split; [done|]. rewrite Hd', Hnone. done.
Qed.
End Selection.

Lemma downstream_selection_is_round_robin_witness :
  chain (host_mem d_booted) (downstream_hosts d_booted) [2; 1]%nat
  /\ cursor_at d_booted [2; 1]%nat 0
  /\ exists d', set_current_downstream_host d_booted = Some d'
       /\ first_alive_selected d_booted [2; 1]%nat 0 d'
       /\ (current_downstream_host d' = None -> flush_refused d_booted).
Proof.
  assert (chain (host_mem d_booted) (downstream_hosts d_booted) [2; 1]%nat) as Hc.
  { vm_compute. repeat (split || eexists). }
  assert (cursor_at d_booted [2; 1]%nat 0) as Ha by (vm_compute; reflexivity).
  split; [exact Hc|]. split; [exact Ha|].
  exact (downstream_selection_is_round_robin d_booted [2; 1]%nat 0%nat Hc Ha).
Defined.

(** ** Reconciliation of the host set *)

Section Reconciliation.
Context {double : Type} {libc : Libc double}.
Implicit Types (d : downstream_s double) (ps qs : list ptr)
  (mem : gmap ptr downstream_host_s) (arr : list Z).

Lemma chain_functional mem head ps qs : chain mem head ps -> chain mem head qs -> ps = qs.
Proof.
  revert head qs. induction ps as [|p ps IH]; intros head [|q qs] H1 H2; simpl in *;
    try done; try (destruct H1; congruence); try (destruct H2; congruence).
  destruct H1 as [-> (h1 & Hh1 & H1)], H2 as [? (h2 & Hh2 & H2)]. simplify_eq.
  f_equal. by eapply IH.
Qed.

Lemma chain_suffix mem head ps p qs :
  chain mem head (ps ++ p :: qs) -> chain mem (Some p) (p :: qs).
Proof.
  revert head. induction ps as [|q ps IH]; intros head H; simpl in *.
  - by destruct H as [-> H].
  - destruct H as [-> (h & Hh & H)]. by eapply IH.
Qed.

Lemma chain_NoDup mem head ps : chain mem head ps -> NoDup ps.
Proof.
  revert head. induction ps as [|p ps IH]; intros head H; [constructor|].
  pose proof H as [-> (h & Hh & Hc)]. apply NoDup_cons. split; [|by eapply IH].
  intros (l1 & l2 & ->)%list_elem_of_split.
  pose proof (chain_suffix _ _ (p :: l1) _ _ H) as Hs.
  pose proof (chain_functional _ _ _ _ H Hs) as Heq.
  apply (f_equal length) in Heq. simpl in Heq. rewrite length_app in Heq. simpl in Heq. lia.
Qed.

Lemma chain_in_heap mem head ps p : chain mem head ps -> p ∈ ps -> is_Some (mem !! p).
Proof.
  revert head. induction ps as [|q ps IH]; intros head H Hp; [by apply elem_of_nil in Hp|].
  destruct H as [-> (h & Hh & Hc)]. apply elem_of_cons in Hp as [->|Hp]; [by eexists|].
  by eapply IH.
Qed.

Lemma chain_length mem head ps : chain mem head ps -> (length ps <= size mem)%nat.
Proof.
  intros Hc. rewrite <- (size_dom (D := gset ptr)).
  rewrite <- (size_list_to_set (C := gset ptr) ps) by (by eapply chain_NoDup).
  apply subseteq_size. intros p Hp. apply elem_of_list_to_set in Hp.
  apply elem_of_dom. by eapply chain_in_heap.
Qed.

(** The search finds the first entry equal to [a] and zeroes it. *)
Lemma match_new_addr_found a arr n :
  a ∈ take n arr ->
  exists arr' l1 l2, match_new_addr a arr n = Some arr'
    /\ take n arr = l1 ++ a :: l2 /\ take n arr' = l1 ++ 0 :: l2.
Proof.
  revert n. induction arr as [|x arr IH]; intros [|n] Ha; simpl in *;
    try (by apply elem_of_nil in Ha).
  case_bool_decide as Hx.
  - subst x. by exists (0 :: arr), [], (take n arr).
  - apply elem_of_cons in Ha as [->|Ha]; [done|].
    destruct (IH n Ha) as (arr' & l1 & l2 & -> & H1 & H2).
    exists (x :: arr'), (x :: l1), l2. simpl. by rewrite H1, H2.
Qed.

Lemma pending_step a addrs arr :
  pending (a :: addrs) arr ->
  a ∈ arr
  /\ forall l1 l2, arr = l1 ++ a :: l2 -> pending addrs (l1 ++ 0 :: l2).
Proof.
  intros [Hp H0]. destruct (decide (a = 0)) as [->|Ha].
  - split; [apply H0; by left|]. intros l1 l2 ->. split.
    + rewrite filter_cons_False in Hp by (intros H; by apply H).
      rewrite Hp, !filter_app, !filter_cons_False by (intros H; by apply H). done.
    + intros _. apply elem_of_app. right. by left.
  - rewrite filter_cons_True in Hp by done.
    assert (a ∈ filter (fun a => a <> 0) arr) as Hin by (rewrite <- Hp; by left).
    apply list_elem_of_filter in Hin as [_ Hin]. split; [done|].
    intros l1 l2 ->. split.
    + rewrite (filter_app _ l1 (a :: l2)) in Hp. rewrite filter_cons_True in Hp by done.
      apply Permutation_cons_app_inv in Hp.
      rewrite filter_app, filter_cons_False by (intros H; by apply H).
      done.
    + intros _. apply elem_of_app. right. by left.
Qed.

Lemma pending_nil arr : pending [] arr -> Forall (fun a => a = 0) arr.
Proof.
  intros [Hp _]. rewrite filter_nil in Hp. symmetry in Hp.
  apply Permutation_nil_r in Hp. apply Forall_forall. intros a Ha.
  destruct (decide (a = 0)) as [|Hne]; [done|].
  assert (a ∈ filter (fun a => a <> 0) arr) as Hin by (by apply list_elem_of_filter).
  rewrite Hp in Hin. by apply elem_of_nil in Hin.
Qed.

Lemma add_new_hosts_none addrs d :
  Forall (fun a => a = 0) addrs -> add_new_hosts addrs d = d.
Proof.
  induction 1 as [|a addrs Ha _ IH]; simpl; [done|].
  by rewrite bool_decide_eq_true_2.
Qed.

Lemma set_in_addr_new_same d : set_in_addr_new (in_addr_new d) d = d.
Proof. by destruct d. Qed.

(** While every host left to visit has an entry left in the array, the loop
    changes nothing but the array. *)
Lemma remove_stale_hosts_keeps qs fuel host prev d :
  chain (host_mem d) host qs ->
  (length qs <= fuel)%nat ->
  pending (host_addr (host_mem d) <$> qs) (take (downstream_host_num d) (in_addr_new d)) ->
  exists arr', remove_stale_hosts fuel host prev d = Some (set_in_addr_new arr' d)
    /\ Forall (fun a => a = 0) (take (downstream_host_num d) arr').
Proof.
  revert fuel host prev d. induction qs as [|p qs IH]; intros fuel host prev d Hc Hf Hp.
  - simpl in Hc. subst host. exists (in_addr_new d). split.
    + destruct fuel; simpl; by rewrite set_in_addr_new_same.
    + by apply pending_nil.
  - destruct Hc as [-> (h & Hh & Hc)]. destruct fuel as [|fuel]; [simpl in Hf; lia|].
    simpl. rewrite Hh. simpl.
    rewrite fmap_cons in Hp. unfold host_addr at 1 in Hp. rewrite Hh in Hp.
    apply pending_step in Hp as [Hin Hp].
    destruct (match_new_addr_found _ _ _ Hin) as (arr1 & l1 & l2 & -> & H1 & H2).
    specialize (Hp l1 l2 H1). rewrite <- H2 in Hp.
    destruct (IH fuel (next h) (LinkNext p) (set_in_addr_new arr1 d)) as (arr' & Hr & Hz).
    + done.
    + simpl in Hf. lia.
    + done.
    + exists arr'. split; [|done]. rewrite Hr. done.
Qed.

(** C9.  When the resolution slot is ready and its first
    [downstream_host_num] addresses are those of the hosts in the list, each
    as many times as it occurs there, [update_downstreams] frees and
    allocates nothing: the heap of hosts, hence every host's address, next
    pointer, [alive] bit and probe descriptor, the head of the list and
    the cursor are what they were.  The call clears [in_addr_new_ready] and
    leaves the matched entries of [in_addr_new] zeroed; nothing else
    changes. *)
Theorem reconciling_the_current_addresses_is_a_noop d ps :
  in_addr_new_ready d = true ->
  chain (host_mem d) (downstream_hosts d) ps ->
  host_addr (host_mem d) <$> ps ≡ₚ take (downstream_host_num d) (in_addr_new d) ->
  exists d', update_downstreams d = Some d'
    /\ host_mem d' = host_mem d
    /\ downstream_hosts d' = downstream_hosts d
    /\ current_downstream_host d' = current_downstream_host d
    /\ host_alloc d' = host_alloc d
    /\ in_addr_new_ready d' = false
    /\ Forall (fun a => a = 0) (take (downstream_host_num d) (in_addr_new d'))
    /\ d' = set_in_addr_new_ready false (set_in_addr_new (in_addr_new d') d).
Proof.
  intros Hready Hc Hperm. unfold update_downstreams. rewrite Hready.
  destruct (remove_stale_hosts_keeps ps (size (host_mem d)) (downstream_hosts d) LinkHead d)
    as (arr' & -> & Hz).
  - done.
  - by eapply chain_length.
  - split; [by rewrite Hperm|]. intros H0. by rewrite <- Hperm.
  - simpl. rewrite add_new_hosts_none by done.
    eexists. split; [done|]. simpl. repeat split; done.
Qed.
End Reconciliation.

Lemma reconciling_the_current_addresses_is_a_noop_witness :
  in_addr_new_ready d_resolved = true
  /\ chain (host_mem d_resolved) (downstream_hosts d_resolved) [2; 1]%nat
  /\ host_addr (host_mem d_resolved) <$> [2; 1]%nat
     ≡ₚ take (downstream_host_num d_resolved) (in_addr_new d_resolved)
  /\ exists d', update_downstreams d_resolved = Some d'
       /\ host_mem d' = host_mem d_resolved
       /\ downstream_hosts d' = downstream_hosts d_resolved
       /\ current_downstream_host d' = current_downstream_host d_resolved
       /\ host_alloc d' = host_alloc d_resolved
       /\ in_addr_new_ready d' = false
       /\ Forall (fun a => a = 0) (take (downstream_host_num d_resolved) (in_addr_new d'))
       /\ d' = set_in_addr_new_ready false (set_in_addr_new (in_addr_new d') d_resolved).
Proof.
  assert (in_addr_new_ready d_resolved = true) as H1 by (vm_compute; reflexivity).
  assert (chain (host_mem d_resolved) (downstream_hosts d_resolved) [2; 1]%nat) as H2.
  { vm_compute. repeat (split || eexists). }
  assert (host_addr (host_mem d_resolved) <$> [2; 1]%nat
          ≡ₚ take (downstream_host_num d_resolved) (in_addr_new d_resolved)) as H3.
  { vm_compute. apply perm_swap. }
  exact (conj H1 (conj H2 (conj H3
           (reconciling_the_current_addresses_is_a_noop d_resolved [2; 1]%nat H1 H2 H3)))).
Defined.

(** ** A stalled flush queue *)

Section Stall.
Context {double : Type} {libc : Libc double}.
Implicit Types (d : downstream_s double).
Variables (f : nat) (v : Z) (out : list (Z * bytes)).
Hypothesis v_pos : v > 0.

(** A function that touches only the slot table, the accounting or the log. *)
Ltac held_frame := unfold held; simpl; done.

Lemma schedule_flush_held d : held f v out d -> held f v out (downstream_schedule_flush d).
Proof.
  intros (Hw & Hf & Ha & Hv & Hs). unfold downstream_schedule_flush.
  case_bool_decide as Hfull; [by unfold held|].
  destruct (pack_slots (slots d)) as [data len].
  assert (((active_buffer_idx d + 1) mod DOWNSTREAM_BUF_NUM)%nat <> f) as Hnew.
  { intros Heq. rewrite Heq, Hv in Hfull. lia. }
  rewrite bool_decide_eq_false_2 by congruence.
  unfold held. simpl. rewrite list_lookup_total_insert_ne by done. done.
Qed.

Lemma log_msg_held m d : held f v out d -> held f v out (log_msg m d).
Proof. held_frame. Qed.

Lemma add_slot_held line n d : held f v out d -> held f v out (add_slot line n d).2.
Proof. held_frame. Qed.

Lemma find_slot_held line n d : held f v out d -> held f v out (find_slot line n d).2.
Proof.
  intros H. unfold find_slot. case_match; [done|].
  apply add_slot_held. case_bool_decide; [by apply schedule_flush_held|done].
Qed.

Lemma make_room_held line n t len i d :
  held f v out d -> held f v out (make_room line n t len i d).2.
Proof.
  intros H. unfold make_room. case_match; [|done].
  pose proof (add_slot_held line n _ (schedule_flush_held d H)) as H1.
  destruct (add_slot _ _ _) as [j d1]. simpl in *. revert H1. held_frame.
Qed.

Lemma store_counter_held n p len off i d :
  held f v out d -> held f v out (store_counter n p len off i d).
Proof.
  unfold store_counter. destruct (strtod p) as [[x k] err].
  case_match; held_frame.
Qed.

Lemma store_other_held p len i d : held f v out d -> held f v out (store_other p len i d).
Proof. held_frame. Qed.

Lemma store_value_held line n p len off t i d :
  held f v out d -> held f v out (store_value line n p len off t i d).1.
Proof.
  intros H. unfold store_value.
  pose proof (make_room_held line n t len i d H) as H1.
  destruct (make_room _ _ _ _ _ _) as [j d1]. simpl in *.
  case_bool_decide; simpl; [by apply store_counter_held|by apply store_other_held].
Qed.

Lemma insert_value_held line n p len i d :
  held f v out d -> held f v out (insert_value line n p len i d).1.1.1.
Proof.
  intros H. unfold insert_value. case_match; [|done].
  case_bool_decide.
  - match goal with |- context [store_value ?a ?b ?c ?e ?g ?h ?k ?l] =>
      pose proof (store_value_held a b c e g h k l) as Hs;
      destruct (store_value a b c e g h k l) as [d1 j] end.
    simpl in *. apply Hs. revert H. held_frame.
  - case_bool_decide; [done|].
    match goal with |- context [store_value ?a ?b ?c ?e ?g ?h ?k ?l] =>
      pose proof (store_value_held a b c e g h k l) as Hs;
      destruct (store_value a b c e g h k l) as [d1 j] end.
    simpl in *. by apply Hs.
Qed.

Lemma insert_values_loop_held fuel line n p len i d :
  held f v out d -> held f v out (insert_values_loop fuel line n p len i d).
Proof.
  revert p len i d. induction fuel as [|fuel IH]; intros p len i d H; simpl; [done|].
  pose proof (insert_value_held line n p len i d H) as H1.
  destruct (insert_value line n p len i d) as [[[d1 j] dl] more]. simpl in *.
  destruct more; [by apply IH|done].
Qed.

Lemma process_data_line_held line len d :
  held f v out d -> held f v out (process_data_line line len d).2.
Proof.
  intros H. unfold process_data_line. case_match; [|done].
  match goal with |- context [find_slot ?a ?b ?c] =>
    pose proof (find_slot_held a b c H) as H1; destruct (find_slot a b c) as [i d1] end.
  simpl in *. unfold insert_values_into_slot. by apply insert_values_loop_held.
Qed.

Lemma udp_read_loop_held fuel p len d :
  held f v out d -> held f v out (udp_read_loop fuel p len d).
Proof.
  revert p len d. induction fuel as [|fuel IH]; intros p len d H; simpl; [done|].
  case_match; [|done]. apply IH. unfold read_line.
  case_match; [by apply process_data_line_held|done].
Qed.

Lemma udp_read_cb_held stack datagram d :
  held f v out d -> held f v out (udp_read_cb stack datagram d).
Proof.
  intros H. unfold udp_read_cb. case_bool_decide; [|done].
  case_bool_decide; by apply udp_read_loop_held.
Qed.

Lemma relay_part_held d d' : relay_part d' = relay_part d -> held f v out d -> held f v out d'.
Proof.
  unfold relay_part, held. intros [= _ _ Ha Hf _ Hb Hw _ Hs].
  by rewrite Ha, Hf, Hb, Hw, Hs.
Qed.

Lemma step_held e d d' : held f v out d -> step e d = Some d' -> held f v out d'.
Proof.
  intros H Hs. destruct e; cbn [step] in Hs; simplify_eq.
  - by apply udp_read_cb_held.
  - unfold downstream_flush_timer_cb. case_bool_decide; [by apply schedule_flush_held|done].
  - destruct H as (Hw & H). rewrite Hw in Hs. simplify_eq. by split.
  - eapply relay_part_held; [apply downstream_refresh_relay|done].
  - eapply relay_part_held; [by eapply update_downstreams_relay|done].
  - eapply relay_part_held; [by eapply health_read_relay|done].
  - eapply relay_part_held; [by eapply mark_down_relay|done].
Qed.

Lemma run_held es d d' : held f v out d -> run es d = Some d' -> held f v out d'.
Proof.
  revert d. induction es as [|e es IH]; intros d H Hr; simpl in Hr; simplify_eq; [done|].
  destruct (step e d) as [d1|] eqn:Hs; simplify_eq/=.
  eapply IH; [|done]. by eapply step_held.
Qed.
End Stall.

Section StallTheorem.
Context {double : Type} {libc : Libc double}.
Implicit Types (d : downstream_s double).

Lemma stalled_held d :
  stalled d <->
  held (flush_buffer_idx d) (buffer_length d !!! flush_buffer_idx d) (sent d) d
  /\ buffer_length d !!! flush_buffer_idx d > 0.
Proof. unfold stalled, held. intuition congruence. Qed.

(** C10, as the code has it.  Once the watcher is stopped while the buffer at
    [flush_buffer_idx] holds data (its length is positive, so the index
    differs from the active one), [downstream_schedule_flush] never starts
    the watcher again, and neither does any sequence of datagrams, timer
    ticks, readiness events, resolver rounds, reconciliations or probe
    results, hosts coming alive included: the watcher stays stopped,
    [flush_buffer_idx] and the queued length stay what they were, and
    nothing more is sent. *)
Theorem stalled_queue_is_never_flushed d :
  stalled d ->
  stalled (downstream_schedule_flush d)
  /\ forall es d', run es d = Some d' ->
       stalled d'
       /\ flush_buffer_idx d' = flush_buffer_idx d
       /\ buffer_length d' !!! flush_buffer_idx d' = buffer_length d !!! flush_buffer_idx d
       /\ sent d' = sent d.
Proof.
  intros Hst. apply stalled_held in Hst as [Hh Hv].
  assert (forall d', held (flush_buffer_idx d) (buffer_length d !!! flush_buffer_idx d)
                       (sent d) d' ->
            stalled d' /\ flush_buffer_idx d' = flush_buffer_idx d
            /\ buffer_length d' !!! flush_buffer_idx d'
               = buffer_length d !!! flush_buffer_idx d
            /\ sent d' = sent d) as Hback.
  { intros d' (Hw & Hf & Ha & Hb & Hs). unfold stalled.
    rewrite Hf, Hb. repeat split; try done; congruence. }
  split.
  - apply Hback. by apply schedule_flush_held.
  - intros es d' Hr. apply Hback. by eapply run_held.
Qed.

End StallTheorem.

Lemma stalled_queue_is_never_flushed_witness :
  stalled d_stalled
  /\ run after_stall d_stalled = Some (default d_stalled (run after_stall d_stalled))
  /\ stalled (default d_stalled (run after_stall d_stalled))
  /\ sent (default d_stalled (run after_stall d_stalled)) = sent d_stalled.
Proof.
  assert (stalled d_stalled) as Hst.
  { vm_compute. repeat split; (reflexivity || discriminate). }
  assert (run after_stall d_stalled = Some (default d_stalled (run after_stall d_stalled)))
    as Hr by (vm_compute; reflexivity).
  destruct (proj2 (stalled_queue_is_never_flushed d_stalled Hst) after_stall _ Hr)
    as (H1 & _ & _ & H2).
  exact (conj Hst (conj Hr (conj H1 H2))).
Defined.

(** C10 as stated fails when the queued buffer is empty.  A slot that
    received no value packs to nothing: the rotation queues a buffer of
    length 0 and arms the watcher, the callback finds no host alive and
    stops it, with [flush_buffer_idx] 0 and [active_buffer_idx] 1.  Sixteen
    more such rounds take the active index around the ring, onto the empty
    buffer 0 and past it, and the last rotation starts the watcher again. *)
Lemma watcher_restarts_when_queued_buffer_is_empty :
  (fun d : downstream_s spec_float =>
     (flush_watcher d, flush_buffer_idx d, active_buffer_idx d, last (error_log d)))
  <$> run (EvUpdateDownstreams :: empty_round ++ [EvFlushWritable 0]) d_start
  = Some (false, 0%nat, 1%nat, Some ErrNoDownstreamHosts)
  /\ (fun d : downstream_s spec_float =>
        (flush_watcher d, flush_buffer_idx d, active_buffer_idx d))
     <$> run ((EvUpdateDownstreams :: empty_round ++ [EvFlushWritable 0])
              ++ concat (replicate 16 empty_round)) d_start
     = Some (true, 0%nat, 1%nat).
Proof. vm_compute. split; reflexivity. Qed.

(** ** The loops end *)

Section Termination.
Context {double : Type} {libc : Libc double}.
Implicit Types (d : downstream_s double).

Lemma insert_value_more line n p len i d :
  (insert_value line n p len i d).2 = bool_decide (is_Some (memchr p ":" len))
  /\ (insert_value line n p len i d).1.2 = group_length p len.
Proof.
  unfold insert_value. repeat (case_match || case_bool_decide); simpl; done.
Qed.

(** The loop of [insert_values_into_slot] ends by itself: each further
    iteration has at least one byte less to look at, so any fuel above
    [bytes_in_buffer] gives the same state. *)
Lemma insert_values_loop_fuel fuel1 fuel2 line n p len i d :
  (len < fuel1)%nat -> (len < fuel2)%nat ->
  insert_values_loop fuel1 line n p len i d = insert_values_loop fuel2 line n p len i d.
Proof.
  revert fuel2 p len i d. induction fuel1 as [|fuel1 IH]; intros fuel2 p len i d H1 H2; [lia|].
  destruct fuel2 as [|fuel2]; [lia|]. simpl.
  pose proof (insert_value_more line n p len i d) as [Hm Hl].
  destruct (insert_value line n p len i d) as [[[d1 j] dl] more]. simpl in *. subst.
  case_bool_decide as Hc; [|done].
  destruct Hc as [k Hk]. unfold group_length. rewrite Hk.
  apply memchr_bound in Hk. apply IH; lia.
Qed.

(** So does the loop of [udp_read_cb], with fuel [bytes_in_buffer]. *)
Lemma udp_read_loop_fuel fuel1 fuel2 p len d :
  (len <= fuel1)%nat -> (len <= fuel2)%nat ->
  udp_read_loop fuel1 p len d = udp_read_loop fuel2 p len d.
Proof.
  revert fuel2 p len d. induction fuel1 as [|fuel1 IH]; intros fuel2 p len d H1 H2.
  - assert (len = 0%nat) as -> by lia. destruct fuel2; simpl; [done|].
    by rewrite memchr_zero.
  - destruct fuel2 as [|fuel2]; simpl.
    + assert (len = 0%nat) as -> by lia. by rewrite memchr_zero.
    + destruct (memchr p NL len) as [k|] eqn:Hk; [|done].
      apply memchr_bound in Hk. apply IH; lia.
Qed.
End Termination.

(** ** The relay at work *)

(** Two counter lines for one name are sent as one; a rate multiplies. *)
Example counters_are_summed :
  (fun d : downstream_s spec_float => sent d)
  <$> run (boot ++ [EvUdpRead [] (lines ["aa:1|c"; "aa:2|c"; "mm:5|c|@0.5"]);
                    EvFlushTimer; EvFlushWritable 19]) d_start
  = Some [(10, lines ["aa:3|c"; "mm:10|c"])].
Proof. vm_compute. reflexivity. Qed.

(** Timers are forwarded as they came, joined by colons; the datagram ends
    with a newline. *)
Example timers_are_appended :
  (fun d : downstream_s spec_float => sent d)
  <$> run (boot ++ [EvUdpRead [] (lines ["tt:250|ms"; "tt:300|ms"]);
                    EvFlushTimer; EvFlushWritable 16]) d_start
  = Some [(10, lines ["tt:250|ms:300|ms"])].
Proof. vm_compute. reflexivity. Qed.

(** Successive flushes alternate between the two alive hosts. *)
Example flushes_alternate :
  (fun d : downstream_s spec_float => map fst (sent d))
  <$> run (boot ++ concat (replicate 4 [EvUdpRead [] (lines ["aa:1|c"]);
                                        EvFlushTimer; EvFlushWritable 7])) d_start
  = Some [10; 20; 10; 20].
Proof. vm_compute. reflexivity. Qed.

(** A rate that is empty is read by [strtod] as 0.0 with nothing left over:
    the test on the end pointer passes and the increment is [1 / 0.0]. *)
Example empty_rate_is_zero :
  map slot_payload (slots (udp_read_cb [] (lines ["aa:1|c|@"]) d_start))
  = [lines ["aa:inf|c"]].
Proof. vm_compute. reflexivity. Qed.

(** ** The table and the ring stay in order *)

Section StateInv.
Context {double : Type} {libc : Libc double}.
Implicit Types (d : downstream_s double) (s : slot_s double) (ss : list (slot_s double)).

Lemma pack_slots_nonneg ss : Forall slot_ok ss -> 0 <= (pack_slots ss).2.
Proof.
  induction 1 as [|s ss Hs _ IH]; simpl; [lia|].
  unfold slot_ok in Hs. case_bool_decide; [lia|].
  destruct (pack_slots ss) as [data len]. simpl in *. lia.
Qed.

Lemma schedule_flush_ok d : state_ok d -> state_ok (downstream_schedule_flush d).
Proof.
  intros (Hs & Hk & Ha & Hf & Hlb & Hl & Hn & H0).
  split; [rewrite flush_clears_slots; constructor|].
  split; [rewrite flush_clears_slots; constructor|].
  pose proof (pack_slots_nonneg _ Hs) as Hp.
  unfold downstream_schedule_flush.
  case_bool_decide as Hfull; [done|].
  destruct (pack_slots (slots d)) as [data len]. simpl in Hp.
  assert ((active_buffer_idx d + 1) mod DOWNSTREAM_BUF_NUM < DOWNSTREAM_BUF_NUM)%nat as Hlt
    by (apply Nat.mod_upper_bound; done).
  assert ((active_buffer_idx d + 1) mod DOWNSTREAM_BUF_NUM <> active_buffer_idx d)%nat as Hne.
  { unfold DOWNSTREAM_BUF_NUM in *.
    destruct (decide (active_buffer_idx d + 1 < 16)%nat).
    - rewrite Nat.mod_small by done. lia.
    - replace (active_buffer_idx d + 1)%nat with 16%nat by lia. simpl. lia. }
  revert Hfull Hlt Hne.
  generalize ((active_buffer_idx d + 1) mod DOWNSTREAM_BUF_NUM)%nat. intros m Hfull Hlt Hne.
  assert (ring_ok
    (set_active_buffer_idx m
       (set_slots [] (set_active_buffer_length 0
          (set_buffer_length (<[active_buffer_idx d := len]> (buffer_length d))
             (set_buffer (<[active_buffer_idx d := data]> (buffer d)) d)))))) as Hr.
  { unfold ring_ok. simpl.
    split; [done|]. split; [done|]. split; [by rewrite length_insert|].
    split; [by rewrite length_insert|].
    split; [by apply Forall_insert|].
    rewrite list_lookup_insert_ne by done.
    destruct (buffer_length d !! m) as [v|] eqn:Hv.
    - rewrite (list_lookup_total_correct _ _ _ Hv) in Hfull.
      pose proof (Forall_lookup_1 _ _ _ _ Hn Hv) as Hge. simpl in Hge.
      f_equal. lia.
    - apply lookup_ge_None in Hv. lia. }
  repeat case_bool_decide; exact Hr.
Qed.

Lemma find_slot_from_none_key line n ss i :
  find_slot_from line n ss i = None ->
  (n, take (Z.to_nat n) line) ∉ slot_key <$> ss.
Proof.
  revert i. induction ss as [|s ss IH]; intros i H; simpl in *.
  { apply not_elem_of_nil. }
  apply not_elem_of_cons.
  destruct (bool_decide (name_length s = n)) eqn:Hn; simpl in H.
  - apply bool_decide_eq_true_1 in Hn.
    destruct (memcmp_eq line (slot_buffer s) (Z.to_nat n)) eqn:Hm; [done|].
    split; [|by eapply IH].
    unfold slot_key, slot_name. rewrite Hn. intros [= Heq].
    unfold memcmp_eq in Hm. by apply bool_decide_eq_false_1 in Hm.
  - apply bool_decide_eq_false_1 in Hn.
    split; [|by eapply IH]. unfold slot_key. intros [= Heq _]. done.
Qed.

Lemma add_slot_ok line n d :
  state_ok d -> 0 <= n -> (Z.to_nat n <= length line)%nat ->
  (n, take (Z.to_nat n) line) ∉ slot_key <$> slots d ->
  state_ok (add_slot line n d).2.
Proof.
  intros (Hs & Hk & Hr) Hn Hl Hnew. unfold add_slot, state_ok.
  cbn [snd slots set_slots].
  split; [|split; [|done]].
  - apply Forall_app. split; [done|]. apply Forall_singleton.
    unfold slot_ok. simpl. rewrite length_take_le by done. lia.
  - rewrite fmap_app. apply NoDup_app. split; [done|]. split.
    + intros k Hin Hk'. apply list_elem_of_singleton in Hk'. subst k.
      unfold slot_key, slot_name in Hin. simpl in Hin. by rewrite take_idemp in Hin.
    + apply NoDup_singleton.
Qed.

Lemma find_slot_ok line n d :
  state_ok d -> 0 <= n -> (Z.to_nat n <= length line)%nat ->
  state_ok (find_slot line n d).2.
Proof.
  intros H Hn Hl. unfold find_slot.
  destruct (find_slot_from line n (slots d) 0) eqn:Hf; [done|].
  case_bool_decide.
  - apply add_slot_ok; [by apply schedule_flush_ok|done..|].
    rewrite flush_clears_slots. apply not_elem_of_nil.
  - apply add_slot_ok; try done. by eapply find_slot_from_none_key.
Qed.

Lemma retag_ok i t d :
  state_ok d -> state_ok (set_slots (<[i := set_slot_type t (slots d !!! i)]> (slots d)) d).
Proof.
  intros (Hs & Hk & Hr).
  destruct (slots d !! i) as [s|] eqn:Hi.
  2:{ rewrite list_insert_ge by (by apply lookup_ge_None). by destruct d. }
  rewrite (list_lookup_total_correct _ _ _ Hi).
  split; [|split; [|done]]; simpl.
  - apply Forall_insert; [done|]. by apply (Forall_lookup_1 _ _ _ _ Hs Hi).
  - rewrite list_fmap_insert.
    replace (slot_key (set_slot_type t s)) with (slot_key s) by done.
    rewrite list_insert_id; [done|]. by rewrite list_lookup_fmap, Hi.
Qed.

Lemma retag_name i t d j :
  name_length ((<[i := set_slot_type t (slots d !!! i)]> (slots d)) !!! j)
  = name_length (slots d !!! j).
Proof.
  destruct (decide (i = j)) as [->|Hne].
  - destruct (slots d !! j) as [s|] eqn:Hj.
    + rewrite list_lookup_total_insert_eq by (by eapply lookup_lt_Some).
      done.
    + rewrite list_insert_ge by (by apply lookup_ge_None). done.
  - by rewrite list_lookup_total_insert_ne.
Qed.

Lemma take_write_at_before n off (data buf : bytes) :
  (n <= off <= length buf)%nat -> take n (write_at off data buf) = take n buf.
Proof.
  intros H. unfold write_at.
  rewrite take_app_le by (rewrite length_take_le; lia).
  rewrite take_take. f_equal. lia.
Qed.

Lemma length_write_at off (data buf : bytes) :
  (off <= length buf)%nat ->
  (off + length data <= length (write_at off data buf))%nat
  /\ (length buf <= length (write_at off data buf))%nat.
Proof.
  intros H. unfold write_at.
  rewrite !length_app, length_take_le, length_drop by done. lia.
Qed.

Lemma insert_same_key i s s' ss :
  ss !! i = Some s -> slot_key s' = slot_key s ->
  slot_key <$> <[i := s']> ss = slot_key <$> ss.
Proof.
  intros Hi Hk. rewrite list_fmap_insert, Hk.
  apply list_insert_id. by rewrite list_lookup_fmap, Hi.
Qed.

Lemma store_counter_ok n p dl off i d s :
  state_ok d -> slots d !! i = Some s -> name_length s = n ->
  state_ok (store_counter n p dl off i d)
  /\ name_length (slots (store_counter n p dl off i d) !!! i) = n.
Proof.
  intros (Hs & Hk & Hr) Hi Hn. unfold store_counter.
  rewrite (list_lookup_total_correct _ _ _ Hi).
  destruct (strtod p) as [[v k] err].
  destruct (err || negb (bool_decide (k = off))).
  { split; [done|]. cbn [log_msg slots]. simpl.
    by rewrite (list_lookup_total_correct _ _ _ Hi). }
  pose proof (Forall_lookup_1 _ _ _ _ Hs Hi) as (Hs1 & Hs2).
  set (out := sprintf_g15 (d_add (counter s) (d_div v (counter_rate p off dl)))
              ++ bytes_of "|c" ++ [NL]).
  pose proof (length_write_at (Z.to_nat n) (out ++ [NUL]) (slot_buffer s)) as [Hw _]; [lia|].
  rewrite length_app in Hw. simpl in Hw.
  unfold state_ok. cbn [slots set_slots set_active_buffer_length].
  split; [split; [|split; [|done]]|].
  - apply Forall_insert; [done|]. unfold slot_ok. simpl. fold out. lia.
  - erewrite insert_same_key; [done..|].
    unfold slot_key, slot_name. simpl. f_equal. rewrite Hn.
    apply take_write_at_before. lia.
  - rewrite list_lookup_total_insert_eq by (by eapply lookup_lt_Some). done.
Qed.

Lemma store_other_ok p dl i d s :
  state_ok d -> slots d !! i = Some s -> (0 < dl <= length p)%nat ->
  state_ok (store_other p dl i d)
  /\ name_length (slots (store_other p dl i d) !!! i) = name_length s.
Proof.
  intros (Hs & Hk & Hr) Hi Hd. unfold store_other.
  rewrite (list_lookup_total_correct _ _ _ Hi).
  pose proof (Forall_lookup_1 _ _ _ _ Hs Hi) as (Hs1 & Hs2).
  set (target := Z.to_nat (slot_length s)).
  set (buf1 := write_at target (take dl p) (slot_buffer s)).
  assert (length (take dl p) = dl) as Hlen by (rewrite length_take_le; lia).
  pose proof (length_write_at target (take dl p) (slot_buffer s)) as [Hw1 _]; [lia|].
  fold buf1 in Hw1. rewrite Hlen in Hw1.
  pose proof (length_write_at (target + dl - 1) [":"%char] buf1) as [Hw2 _]; [lia|].
  simpl in Hw2.
  unfold state_ok. cbn [slots set_slots set_active_buffer_length].
  split; [split; [|split; [|done]]|].
  - apply Forall_insert; [done|]. unfold slot_ok. simpl. lia.
  - erewrite insert_same_key; [done..|].
    unfold slot_key, slot_name. simpl. f_equal.
    rewrite take_write_at_before by lia. unfold buf1.
    apply take_write_at_before. lia.
  - rewrite list_lookup_total_insert_eq by (by eapply lookup_lt_Some). done.
Qed.

Lemma make_room_ok line n t len i d s :
  state_ok d -> slots d !! i = Some s -> name_length s = n ->
  0 <= n -> (Z.to_nat n <= length line)%nat ->
  let r := make_room line n t len i d in
  state_ok r.2 /\ exists s1, slots r.2 !! r.1 = Some s1 /\ name_length s1 = n.
Proof.
  intros H Hi Hs Hn Hl. simpl. unfold make_room.
  destruct (needs_flush t len d); [|split; [done|by exists s]].
  pose proof (add_slot_ok line n (downstream_schedule_flush d)
                (schedule_flush_ok d H) Hn Hl) as Hadd.
  rewrite flush_clears_slots in Hadd. specialize (Hadd (not_elem_of_nil _)).
  pose proof (retag_ok (add_slot line n (downstream_schedule_flush d)).1 t _ Hadd) as Hre.
  unfold add_slot in *. unfold slots_used in *. rewrite flush_clears_slots in *.
  cbn [fst snd] in *. split; [exact Hre|].
  cbn [slots set_slots length app]. simpl. eexists. split; [done|]. done.
Qed.

Lemma store_value_ok line n p len off t i d s :
  state_ok d -> slots d !! i = Some s -> name_length s = n ->
  0 <= n -> (Z.to_nat n <= length line)%nat -> (0 < len <= length p)%nat ->
  let r := store_value line n p len off t i d in
  state_ok r.1 /\ exists s1, slots r.1 !! r.2 = Some s1 /\ name_length s1 = n.
Proof.
  intros H Hi Hs Hn Hl Hlen. simpl. unfold store_value.
  destruct (make_room_ok line n t len i d s H Hi Hs Hn Hl) as (H1 & s1 & Hi1 & Hs1).
  destruct (make_room line n t len i d) as [j d1]. simpl in *.
  case_bool_decide; simpl.
  - destruct (store_counter_ok n p len off j d1 s1 H1 Hi1 Hs1) as [H2 H3].
    split; [done|].
    destruct (lookup_lt_is_Some_2 (slots (store_counter n p len off j d1)) j) as [s2 Hs2].
    { pose proof (store_counter_used n p len off j d1) as Hu. unfold slots_used in Hu.
      rewrite Hu. by eapply lookup_lt_Some. }
    exists s2. split; [done|]. by rewrite (list_lookup_total_correct _ _ _ Hs2) in H3.
  - destruct (store_other_ok p len j d1 s1 H1 Hi1 Hlen) as [H2 H3].
    split; [done|].
    destruct (lookup_lt_is_Some_2 (slots (store_other p len j d1)) j) as [s2 Hs2].
    { pose proof (store_other_used p len j d1) as Hu. unfold slots_used in Hu.
      rewrite Hu. by eapply lookup_lt_Some. }
    exists s2. split; [done|]. rewrite (list_lookup_total_correct _ _ _ Hs2) in H3. congruence.
Qed.

Lemma insert_value_ok line n p len i d s :
  state_ok d -> slots d !! i = Some s -> name_length s = n ->
  0 <= n -> (Z.to_nat n <= length line)%nat -> (len <= length p)%nat ->
  let r := insert_value line n p len i d in
  state_ok r.1.1.1
  /\ (exists s1, slots r.1.1.1 !! r.1.1.2 = Some s1 /\ name_length s1 = n)
  /\ (r.1.2 <= len)%nat.
Proof.
  intros H Hi Hs Hn Hl Hlen. simpl.
  pose proof (group_length_le p len) as Hg.
  unfold insert_value. rewrite (list_lookup_total_correct _ _ _ Hi).
  destruct (memchr p "|" (group_length p len)) as [off|] eqn:Hoff.
  2:{ split; [done|]. split; [by exists s|done]. }
  apply memchr_bound in Hoff as [Hoff _].
  assert (0 < group_length p len <= length p)%nat as Hdl by lia.
  case_bool_decide as Hu.
  - pose proof (retag_ok i (group_metric_type p off) d H) as Hre.
    rewrite (list_lookup_total_correct _ _ _ Hi) in Hre.
    match goal with |- context [store_value ?a ?b ?c ?e ?f ?g ?h ?k] =>
      destruct (store_value_ok a b c e f g h k (set_slot_type (group_metric_type p off) s))
        as (H1 & H2); try done;
      [cbn [slots set_slots]; apply list_lookup_insert_eq; by eapply lookup_lt_Some|];
      destruct (store_value a b c e f g h k) as [d1 j] end.
    simpl in *. done.
  - case_bool_decide; [split; [done|]; split; [by exists s|done]|].
    match goal with |- context [store_value ?a ?b ?c ?e ?f ?g ?h ?k] =>
      destruct (store_value_ok a b c e f g h k s) as (H1 & H2); try done;
      destruct (store_value a b c e f g h k) as [d1 j] end.
    simpl in *. done.
Qed.

Lemma insert_values_loop_ok fuel line n p len i d s :
  state_ok d -> slots d !! i = Some s -> name_length s = n ->
  0 <= n -> (Z.to_nat n <= length line)%nat -> (len <= length p)%nat ->
  state_ok (insert_values_loop fuel line n p len i d).
Proof.
  revert p len i d s.
  induction fuel as [|fuel IH]; intros p len i d s H Hi Hs Hn Hl Hlen; simpl; [done|].
  destruct (insert_value_ok line n p len i d s H Hi Hs Hn Hl Hlen) as (H1 & (s1 & Hi1 & Hs1) & H3).
  destruct (insert_value line n p len i d) as [[[d1 j] dl] more]. simpl in *.
  destruct more; [|done]. eapply IH; try done.
  rewrite length_drop. lia.
Qed.

Lemma process_data_line_ok line len d :
  state_ok d -> (len <= length line)%nat -> state_ok (process_data_line line len d).2.
Proof.
  intros H Hlen. unfold process_data_line.
  destruct (memchr line ":" len) as [k|] eqn:Hk; [|done].
  apply memchr_bound in Hk as [Hk1 Hk2].
  pose proof (find_slot_ok line (Z.of_nat (S k)) d H) as H1.
  pose proof (find_slot_index line (Z.of_nat (S k)) d) as H2.
  pose proof (find_slot_name line (Z.of_nat (S k)) d) as H3.
  destruct (find_slot line (Z.of_nat (S k)) d) as [i d1]. cbn [fst snd] in *.
  unfold insert_values_into_slot. rewrite H3.
  apply lookup_lt_is_Some in H2 as [s Hs].
  rewrite (list_lookup_total_correct _ _ _ Hs) in H3.
  eapply insert_values_loop_ok; try done; try lia.
  - apply H1; lia.
  - rewrite length_drop. lia.
Qed.

Lemma read_line_ok p len d :
  state_ok d -> (len <= length p)%nat -> state_ok (read_line p len d).
Proof.
  intros H Hlen. unfold read_line.
  destruct (_ && _); [by apply process_data_line_ok|done].
Qed.

Lemma udp_read_loop_ok fuel p len d :
  state_ok d -> (len <= length p)%nat -> state_ok (udp_read_loop fuel p len d).
Proof.
  revert p len d. induction fuel as [|fuel IH]; intros p len d H Hlen; simpl; [done|].
  destruct (memchr p NL len) as [k|] eqn:Hk; [|done].
  apply memchr_bound in Hk as [Hk1 Hk2].
  apply IH; [apply read_line_ok; [done|lia]|]. rewrite length_drop. lia.
Qed.

Lemma udp_read_cb_ok stack datagram d :
  state_ok d -> state_ok (udp_read_cb stack datagram d).
Proof.
  intros H. unfold udp_read_cb. case_bool_decide; [|done].
  set (received := take (DATA_BUF_SIZE - 1) datagram).
  pose proof (length_write_at 0 received stack) as [Hw _]; [lia|].
  case_bool_decide.
  - apply udp_read_loop_ok; [done|].
    pose proof (length_write_at (length received) [NL] (write_at 0 received stack)) as [Hw2 _];
      [lia|]. simpl in Hw2. lia.
  - apply udp_read_loop_ok; [done|]. lia.
Qed.

Lemma relay_part_ok d d' : relay_part d' = relay_part d -> state_ok d -> state_ok d'.
Proof.
  unfold relay_part, state_ok, ring_ok. intros [= Hs _ Ha Hf Hbuf Hb _ _ _].
  by rewrite Hs, Ha, Hf, Hb, Hbuf.
Qed.

Lemma flush_cb_ok e b d d' :
  state_ok d -> downstream_flush_cb e b d = Some d' -> state_ok d'.
Proof.
  intros H. unfold downstream_flush_cb. destruct e; [by intros [= <-]|].
  destruct (set_current_downstream_host d) as [d1|] eqn:Hs; simpl; [|done].
  apply set_current_relay in Hs. pose proof (relay_part_ok _ _ Hs H) as H1.
  assert (flush_buffer_idx d1 = flush_buffer_idx d) as <-.
  { unfold relay_part in Hs. by simplify_eq. }
  clear Hs H. destruct (current_downstream_host d1) as [p|]; [|by intros [= <-]].
  destruct (host_mem d1 !! p) as [h|]; simpl; [|done].
  intros [= <-]. destruct H1 as (Hs & Hk & Ha & Hf & Hlb & Hl & Hn & H0).
  assert (forall m, (m < DOWNSTREAM_BUF_NUM)%nat -> state_ok
    (set_flush_buffer_idx m
      (set_packets_sent (packets_sent d1 + 1)
         (set_buffer_length (<[flush_buffer_idx d1 := 0]> (buffer_length d1))
            (set_sent (sent d1 ++ [(sa_in_data h,
               take (Z.to_nat (buffer_length d1 !!! flush_buffer_idx d1))
                 (buffer d1 !!! flush_buffer_idx d1))]) d1))))) as Hnew.
  { intros m Hlt. split; [done|]. split; [done|]. unfold ring_ok. simpl.
    split; [done|]. split; [done|]. split; [done|]. split; [by rewrite length_insert|].
    split; [by apply Forall_insert|].
    destruct (decide (flush_buffer_idx d1 = active_buffer_idx d1)) as [->|Hne].
    - apply list_lookup_insert_eq. lia.
    - by rewrite list_lookup_insert_ne. }
  repeat case_bool_decide; apply Hnew; unfold DOWNSTREAM_BUF_NUM; lia.
Qed.

Lemma init_ok l : state_ok (init_downstream double l).
Proof.
  assert (Forall (fun v => 0 <= v) (replicate DOWNSTREAM_BUF_NUM 0)) as Hn.
  { apply Forall_replicate. lia. }
  destruct l; (split; [constructor|]; split; [constructor|]);
    unfold ring_ok; simpl; unfold DOWNSTREAM_BUF_NUM; (repeat split; try done; try lia).
Qed.

Lemma step_ok e d d' : state_ok d -> step e d = Some d' -> state_ok d'.
Proof.
  intros H Hs. destruct e; cbn [step] in Hs; simplify_eq.
  - by apply udp_read_cb_ok.
  - unfold downstream_flush_timer_cb. case_bool_decide; [by apply schedule_flush_ok|done].
  - destruct (flush_watcher d); simplify_eq; [|done]. by eapply flush_cb_ok.
  - eapply relay_part_ok; [apply downstream_refresh_relay|done].
  - eapply relay_part_ok; [by eapply update_downstreams_relay|done].
  - eapply relay_part_ok; [by eapply health_read_relay|done].
  - eapply relay_part_ok; [by eapply mark_down_relay|done].
Qed.

Lemma run_ok es d d' : state_ok d -> run es d = Some d' -> state_ok d'.
Proof.
  revert d. induction es as [|e es IH]; intros d Hd Hr; simpl in Hr; simplify_eq; [done|].
  destruct (step e d) as [d1|] eqn:Hs; simplify_eq/=.
  eapply IH; [|done]. by eapply step_ok.
Qed.

(** Calls that store inside the arrays keep the table within
    [NUM_OF_SLOTS] slots, every slot within the [DOWNSTREAM_BUF_SIZE] bytes
    of its array, and every recorded length within a region of the ring. *)

Lemma add_slot_fits line n d :
  add_slot_in_bounds line n d = true -> fits d -> fits (add_slot line n d).2.
Proof.
  unfold add_slot_in_bounds. rewrite !andb_true_iff, !bool_decide_eq_true.
  intros [[Hu Hn] Hl] (H1 & H2 & H3). unfold add_slot, fits, slots_used in *.
  cbn [snd slots set_slots buffer_length set_active_buffer_length].
  rewrite length_app. cbn [length]. split; [lia|]. split; [|done].
  apply Forall_app. split; [done|]. apply Forall_singleton. cbn [slot_length]. lia.
Qed.

Lemma schedule_flush_fits d :
  downstream_schedule_flush_in_bounds d = true -> fits d -> fits (downstream_schedule_flush d).
Proof.
  unfold downstream_schedule_flush_in_bounds. cbv zeta.
  rewrite !andb_true_iff, orb_true_iff, andb_true_iff, !bool_decide_eq_true.
  intros [[[Ha Hl] Hu] Hp] (H1 & H2 & H3).
  unfold fits, slots_used. rewrite flush_clears_slots.
  split; [done|]. split; [constructor|].
  unfold downstream_schedule_flush. case_bool_decide as Hfull; [done|].
  destruct Hp as [Hp|[_ Hp]]; [done|].
  destruct (pack_slots (slots d)) as [data len]. cbn [snd] in Hp.
  assert (Forall (fun v => v <= DOWNSTREAM_BUF_SIZE)
            (<[active_buffer_idx d := len]> (buffer_length d))) as Hnew
    by (by apply Forall_insert).
  repeat case_bool_decide; exact Hnew.
Qed.

Lemma find_slot_fits line n d :
  find_slot_in_bounds line n d = true -> fits d -> fits (find_slot line n d).2.
Proof.
  unfold find_slot_in_bounds, find_slot. rewrite andb_true_iff. intros [_ Hb] H.
  destruct (find_slot_from line n (slots d) 0); [done|].
  case_bool_decide.
  - apply andb_true_iff in Hb as [Hb1 Hb2]. apply add_slot_fits; [done|].
    by apply schedule_flush_fits.
  - by apply add_slot_fits.
Qed.

Lemma retag_fits i t d :
  fits d -> fits (set_slots (<[i := set_slot_type t (slots d !!! i)]> (slots d)) d).
Proof.
  intros (H1 & H2 & H3). unfold fits, slots_used in *.
  cbn [slots set_slots buffer_length]. rewrite length_insert.
  split; [done|]. split; [|done].
  destruct (slots d !! i) as [s|] eqn:Hi.
  - rewrite (list_lookup_total_correct _ _ _ Hi).
    apply Forall_insert; [done|]. exact (Forall_lookup_1 _ _ _ _ H2 Hi).
  - by rewrite list_insert_ge by (by apply lookup_ge_None).
Qed.

Lemma make_room_fits line n t len i d :
  make_room_in_bounds line n t len d = true -> fits d -> fits (make_room line n t len i d).2.
Proof.
  unfold make_room_in_bounds, make_room. intros Hb H.
  destruct (needs_flush t len d); [|done].
  apply andb_true_iff in Hb as [Hb1 Hb2].
  pose proof (add_slot_fits line n _ Hb2 (schedule_flush_fits d Hb1 H)) as Hadd.
  destruct (add_slot line n (downstream_schedule_flush d)) as [j d1]. cbn [snd] in *.
  by apply retag_fits.
Qed.

Lemma store_counter_fits n p dl off i d s :
  store_counter_in_bounds n p dl off i d = true -> fits d ->
  slots d !! i = Some s -> name_length s = n ->
  fits (store_counter n p dl off i d).
Proof.
  unfold store_counter_in_bounds, store_counter. intros Hb (H1 & H2 & H3) Hi Hn.
  rewrite (list_lookup_total_correct _ _ _ Hi) in *.
  destruct (strtod p) as [[v k] err].
  destruct (err || negb (bool_decide (k = off))); [done|].
  apply andb_true_iff in Hb as [Hb1 Hb2].
  apply bool_decide_eq_true in Hb1, Hb2. rewrite length_app in Hb2. cbn [length] in Hb2.
  unfold fits, slots_used in *.
  cbn [slots set_slots buffer_length set_active_buffer_length]. rewrite length_insert.
  split; [done|]. split; [|done].
  apply Forall_insert; [done|]. cbn [slot_length set_slot_length name_length set_slot_buffer set_counter].
  lia.
Qed.

Lemma store_other_fits p dl i d :
  store_other_in_bounds dl i d = true -> fits d -> fits (store_other p dl i d).
Proof.
  unfold store_other_in_bounds, store_other. intros Hb (H1 & H2 & H3).
  apply andb_true_iff in Hb as [Hb1 Hb2]. apply bool_decide_eq_true in Hb1, Hb2.
  unfold fits, slots_used in *.
  cbn [slots set_slots buffer_length set_active_buffer_length]. rewrite length_insert.
  split; [done|]. split; [|done].
  destruct (slots d !! i) as [s|] eqn:Hi.
  - apply Forall_insert; [done|]. cbn [slot_length set_slot_length]. done.
  - by rewrite list_insert_ge by (by apply lookup_ge_None).
Qed.

Lemma store_value_fits line n p len off t i d s :
  state_ok d -> slots d !! i = Some s -> name_length s = n ->
  0 <= n -> (Z.to_nat n <= length line)%nat ->
  store_value_in_bounds line n p len off t i d = true -> fits d ->
  fits (store_value line n p len off t i d).1.
Proof.
  intros H Hi Hs Hn Hl Hb Hf. unfold store_value_in_bounds, store_value in *.
  apply andb_true_iff in Hb as [Hb1 Hb2].
  destruct (make_room_ok line n t len i d s H Hi Hs Hn Hl) as (H1 & s1 & Hi1 & Hs1).
  pose proof (make_room_fits line n t len i d Hb1 Hf) as Hf1.
  destruct (make_room line n t len i d) as [j d1]. cbn [fst snd] in *.
  case_bool_decide; cbn [fst].
  - by eapply store_counter_fits.
  - by apply store_other_fits.
Qed.

Lemma insert_value_fits line n p len i d s :
  state_ok d -> slots d !! i = Some s -> name_length s = n ->
  0 <= n -> (Z.to_nat n <= length line)%nat ->
  insert_value_in_bounds line n p len i d = true -> fits d ->
  fits (insert_value line n p len i d).1.1.1.
Proof.
  intros H Hi Hs Hn Hl Hb Hf. unfold insert_value_in_bounds, insert_value in *.
  cbv zeta in Hb. apply andb_true_iff in Hb as [_ Hb].
  rewrite (list_lookup_total_correct _ _ _ Hi) in *.
  destruct (memchr p "|" (group_length p len)) as [off|] eqn:Hoff; [|done].
  case_bool_decide as Hu.
  - pose proof (retag_ok i (group_metric_type p off) d H) as Hre.
    pose proof (retag_fits i (group_metric_type p off) d Hf) as Hrf.
    rewrite (list_lookup_total_correct _ _ _ Hi) in Hre, Hrf.
    match goal with |- context [store_value ?a ?b ?c ?e ?f ?g ?h ?k] =>
      pose proof (store_value_fits a b c e f g h k
                    (set_slot_type (group_metric_type p off) s) Hre) as Hsv;
      destruct (store_value a b c e f g h k) as [d1 j] end.
    cbn [fst] in *. apply Hsv; try done.
    cbn [slots set_slots]. apply list_lookup_insert_eq. by eapply lookup_lt_Some.
  - case_bool_decide; [done|].
    match goal with |- context [store_value ?a ?b ?c ?e ?f ?g ?h ?k] =>
      pose proof (store_value_fits a b c e f g h k s H Hi Hs Hn Hl Hb Hf) as Hsv;
      destruct (store_value a b c e f g h k) as [d1 j] end.
    done.
Qed.

Lemma insert_values_loop_fits fuel line n p len i d s :
  state_ok d -> slots d !! i = Some s -> name_length s = n ->
  0 <= n -> (Z.to_nat n <= length line)%nat -> (len <= length p)%nat ->
  insert_values_loop_in_bounds fuel line n p len i d = true -> fits d ->
  fits (insert_values_loop fuel line n p len i d).
Proof.
  revert p len i d s.
  induction fuel as [|fuel IH]; intros p len i d s H Hi Hs Hn Hl Hlen Hb Hf; simpl in *; [done|].
  apply andb_true_iff in Hb as [Hb1 Hb2].
  destruct (insert_value_ok line n p len i d s H Hi Hs Hn Hl Hlen) as (H1 & (s1 & Hi1 & Hs1) & H3).
  pose proof (insert_value_fits line n p len i d s H Hi Hs Hn Hl Hb1 Hf) as Hf1.
  destruct (insert_value line n p len i d) as [[[d1 j] dl] more]. cbn [fst snd] in *.
  destruct more; [|done]. eapply IH; try done.
  rewrite length_drop. lia.
Qed.

Lemma process_data_line_fits line len d :
  state_ok d -> (len <= length line)%nat ->
  process_data_line_in_bounds line len d = true -> fits d ->
  fits (process_data_line line len d).2.
Proof.
  intros H Hlen Hb Hf. unfold process_data_line_in_bounds, process_data_line in *.
  destruct (memchr line ":" len) as [k|] eqn:Hk; [|done].
  apply memchr_bound in Hk as [Hk1 Hk2].
  apply andb_true_iff in Hb as [Hb1 Hb2].
  pose proof (find_slot_ok line (Z.of_nat (S k)) d H) as H1.
  pose proof (find_slot_fits line (Z.of_nat (S k)) d Hb1 Hf) as Hf1.
  pose proof (find_slot_index line (Z.of_nat (S k)) d) as H2.
  pose proof (find_slot_name line (Z.of_nat (S k)) d) as H3.
  destruct (find_slot line (Z.of_nat (S k)) d) as [i d1]. cbn [fst snd] in *.
  unfold insert_values_into_slot_in_bounds, insert_values_into_slot in *. rewrite H3 in *.
  apply lookup_lt_is_Some in H2 as [s Hs].
  rewrite (list_lookup_total_correct _ _ _ Hs) in H3.
  eapply insert_values_loop_fits; try done; try lia.
  - apply H1; lia.
  - rewrite length_drop. lia.
Qed.

Lemma read_line_fits p len d :
  state_ok d -> (len <= length p)%nat ->
  read_line_in_bounds p len d = true -> fits d -> fits (read_line p len d).
Proof.
  intros H Hlen Hb Hf. unfold read_line_in_bounds, read_line in *.
  destruct (_ && _); [by apply process_data_line_fits|done].
Qed.

Lemma udp_read_loop_fits fuel p len d :
  state_ok d -> (len <= length p)%nat ->
  udp_read_loop_in_bounds fuel p len d = true -> fits d ->
  fits (udp_read_loop fuel p len d).
Proof.
  revert p len d. induction fuel as [|fuel IH]; intros p len d H Hlen Hb Hf; simpl in *; [done|].
  destruct (memchr p NL len) as [k|] eqn:Hk; [|done].
  apply memchr_bound in Hk as [Hk1 Hk2].
  apply andb_true_iff in Hb as [Hb1 Hb2].
  apply IH; [apply read_line_ok; [done|lia]| |done|apply read_line_fits; [done|lia|done..]].
  rewrite length_drop. lia.
Qed.

Lemma udp_read_cb_fits stack datagram d :
  state_ok d -> udp_read_cb_in_bounds stack datagram d = true -> fits d ->
  fits (udp_read_cb stack datagram d).
Proof.
  intros H Hb Hf. unfold udp_read_cb_in_bounds, udp_read_cb in *. cbv zeta in *.
  case_bool_decide; [|done].
  set (received := take (DATA_BUF_SIZE - 1) datagram) in *.
  pose proof (length_write_at 0 received stack) as [Hw _]; [lia|].
  case_bool_decide.
  - apply udp_read_loop_fits; [done| |done..].
    pose proof (length_write_at (length received) [NL] (write_at 0 received stack)) as [Hw2 _];
      [lia|]. simpl in Hw2. lia.
  - apply udp_read_loop_fits; [done| |done..]. lia.
Qed.

Lemma relay_part_fits d d' : relay_part d' = relay_part d -> fits d -> fits d'.
Proof.
  unfold relay_part, fits, slots_used. intros [= Hs _ _ _ _ Hb _ _ _]. by rewrite Hs, Hb.
Qed.

Lemma flush_cb_fits e b d d' :
  fits d -> downstream_flush_cb e b d = Some d' -> fits d'.
Proof.
  intros H. unfold downstream_flush_cb. destruct e; [by intros [= <-]|].
  destruct (set_current_downstream_host d) as [d1|] eqn:Hs; simpl; [|done].
  apply set_current_relay in Hs. pose proof (relay_part_fits _ _ Hs H) as H1.
  assert (flush_buffer_idx d1 = flush_buffer_idx d) as <-.
  { unfold relay_part in Hs. by simplify_eq. }
  clear Hs H. destruct (current_downstream_host d1) as [p|]; [|by intros [= <-]].
  destruct (host_mem d1 !! p) as [h|]; simpl; [|done].
  intros [= <-]. destruct H1 as (Hu & Hs & Hb).
  assert (Forall (fun v => v <= DOWNSTREAM_BUF_SIZE)
            (<[flush_buffer_idx d1 := 0]> (buffer_length d1))) as Hnew.
  { apply Forall_insert; [done|]. unfold DOWNSTREAM_BUF_SIZE. lia. }
  repeat case_bool_decide; (split; [exact Hu|split; [exact Hs|exact Hnew]]).
Qed.

Lemma init_fits l : fits (init_downstream double l).
Proof.
  assert (Forall (fun v => v <= DOWNSTREAM_BUF_SIZE) (replicate DOWNSTREAM_BUF_NUM 0)) as Hn.
  { apply Forall_replicate. unfold DOWNSTREAM_BUF_SIZE. lia. }
  destruct l; (split; [done|]; split; [constructor|exact Hn]).
Qed.

Lemma step_fits e d d' :
  state_ok d -> step_in_bounds e d = true -> fits d -> step e d = Some d' -> fits d'.
Proof.
  intros H Hb Hf Hs. destruct e; cbn [step step_in_bounds] in Hs, Hb; simplify_eq.
  - by apply udp_read_cb_fits.
  - unfold downstream_flush_timer_cb_in_bounds, downstream_flush_timer_cb in *.
    case_bool_decide; [by apply schedule_flush_fits|done].
  - destruct (flush_watcher d); simplify_eq; [|done]. by eapply flush_cb_fits.
  - eapply relay_part_fits; [apply downstream_refresh_relay|done].
  - eapply relay_part_fits; [by eapply update_downstreams_relay|done].
  - eapply relay_part_fits; [by eapply health_read_relay|done].
  - eapply relay_part_fits; [by eapply mark_down_relay|done].
Qed.

Lemma run_fits es d d' :
  state_ok d -> run_in_bounds es d = true -> fits d -> run es d = Some d' -> fits d'.
Proof.
  revert d. induction es as [|e es IH]; intros d Hd Hb Hf Hr; simpl in *; simplify_eq; [done|].
  apply andb_true_iff in Hb as [Hb1 Hb2].
  destruct (step e d) as [d1|] eqn:Hs; simplify_eq/=.
  eapply (IH d1); [by eapply step_ok|done|by eapply step_fits|done].
Qed.

(** X1.  As long as every store stays inside its array, the table holds
    at most [NUM_OF_SLOTS] slots, no two of them carry the same name, and
    every slot has its lengths in order: the name is part of the payload,
    and the payload is inside the [DOWNSTREAM_BUF_SIZE] bytes of the slot. *)
Theorem slot_names_are_distinct l es d' :
  run_in_bounds es (init_downstream double l) = true ->
  run es (init_downstream double l) = Some d' ->
  Z.of_nat (slots_used d') <= NUM_OF_SLOTS
  /\ Forall (fun s => slot_ok s /\ slot_length s <= DOWNSTREAM_BUF_SIZE) (slots d')
  /\ forall i j s t,
       slots d' !! i = Some s -> slots d' !! j = Some t ->
       slot_name s = slot_name t -> i = j.
Proof.
  intros Hb Hr. destruct (run_ok es _ d' (init_ok l) Hr) as (Hok & Hnd & _).
  destruct (run_fits es _ d' (init_ok l) Hb (init_fits l) Hr) as (Hu & Hsl & _).
  split; [done|]. split; [by apply Forall_and|].
  intros i j s t Hi Hj Hname.
  pose proof (Forall_lookup_1 _ _ _ _ Hok Hi) as (Hs1 & Hs2).
  pose proof (Forall_lookup_1 _ _ _ _ Hok Hj) as (Ht1 & Ht2).
  eapply (NoDup_lookup _ i j (slot_key s) Hnd).
  - by rewrite list_lookup_fmap, Hi.
  - rewrite list_lookup_fmap, Hj. simpl. f_equal. unfold slot_key. rewrite <- Hname.
    f_equal. apply (f_equal length) in Hname. unfold slot_name in Hname.
    rewrite !length_take_le in Hname by lia. lia.
Qed.

(** X2.  As long as every store stays inside its array, both indices of
    the ring stay below [DOWNSTREAM_BUF_NUM], every recorded length is
    between 0 and [DOWNSTREAM_BUF_SIZE], and the buffer at
    [active_buffer_idx], the one the next rotation packs the slots into,
    has length 0. *)
Theorem packing_buffer_is_always_empty l es d' :
  run_in_bounds es (init_downstream double l) = true ->
  run es (init_downstream double l) = Some d' ->
  (active_buffer_idx d' < DOWNSTREAM_BUF_NUM)%nat
  /\ (flush_buffer_idx d' < DOWNSTREAM_BUF_NUM)%nat
  /\ Forall (fun v => 0 <= v <= DOWNSTREAM_BUF_SIZE) (buffer_length d')
  /\ buffer_length d' !! active_buffer_idx d' = Some 0.
Proof.
  intros Hb Hr.
  destruct (run_ok es _ d' (init_ok l) Hr) as (_ & _ & H1 & H2 & _ & _ & H3 & H4).
  destruct (run_fits es _ d' (init_ok l) Hb (init_fits l) Hr) as (_ & _ & H5).
  split; [done|]. split; [done|]. split; [by apply Forall_and|done].
Qed.
End StateInv.

Lemma slot_names_are_distinct_witness :
  run_in_bounds two_names (init_downstream spec_float [10; 20]) = true
  /\ run two_names (init_downstream spec_float [10; 20]) = Some d_two_names
  /\ Z.of_nat (slots_used d_two_names) <= NUM_OF_SLOTS
  /\ Forall (fun s => slot_ok s /\ slot_length s <= DOWNSTREAM_BUF_SIZE) (slots d_two_names)
  /\ forall i j s t,
       slots d_two_names !! i = Some s -> slots d_two_names !! j = Some t ->
       slot_name s = slot_name t -> i = j.
Proof.
  assert (run_in_bounds two_names (init_downstream spec_float [10; 20]) = true) as Hb
    by (vm_compute; reflexivity).
  assert (run two_names (init_downstream spec_float [10; 20]) = Some d_two_names) as Hr
    by (vm_compute; reflexivity).
  split; [exact Hb|]. split; [exact Hr|].
  exact (slot_names_are_distinct [10; 20] two_names d_two_names Hb Hr).
Defined.

Lemma packing_buffer_is_always_empty_witness :
  run_in_bounds two_names (init_downstream spec_float [10; 20]) = true
  /\ run two_names (init_downstream spec_float [10; 20]) = Some d_two_names
  /\ (active_buffer_idx d_two_names < DOWNSTREAM_BUF_NUM)%nat
  /\ (flush_buffer_idx d_two_names < DOWNSTREAM_BUF_NUM)%nat
  /\ Forall (fun v => 0 <= v <= DOWNSTREAM_BUF_SIZE) (buffer_length d_two_names)
  /\ buffer_length d_two_names !! active_buffer_idx d_two_names = Some 0.
Proof.
  assert (run_in_bounds two_names (init_downstream spec_float [10; 20]) = true) as Hb
    by (vm_compute; reflexivity).
  assert (run two_names (init_downstream spec_float [10; 20]) = Some d_two_names) as Hr
    by (vm_compute; reflexivity).
  split; [exact Hb|]. split; [exact Hr|].
  exact (packing_buffer_is_always_empty [10; 20] two_names d_two_names Hb Hr).
Defined.

Lemma d_two_names_ok : state_ok d_two_names.
Proof.
  apply (run_ok two_names (init_downstream spec_float [10; 20])); [apply init_ok|].
  vm_compute; reflexivity.
Qed.

(** ** What a rotation packs, and the lookup of a name *)

Section Packing.
Context {double : Type} {libc : Libc double}.
Implicit Types (d : downstream_s double) (s : slot_s double) (ss : list (slot_s double)).

Lemma pack_slots_spec ss :
  Forall slot_ok ss ->
  (pack_slots ss).1 = mjoin (slot_segment <$> filter (fun s => slot_filled s = true) ss)
  /\ (pack_slots ss).2 = Z.of_nat (length (pack_slots ss).1).
Proof.
  induction 1 as [|s ss Hs _ [IH1 IH2]]; [done|].
  unfold slot_ok in Hs. rewrite filter_cons.
  cbn [pack_slots].
  case_bool_decide as Hn.
  { rewrite decide_False; [done|]. unfold slot_filled.
    by rewrite bool_decide_eq_true_2. }
  rewrite decide_True by (unfold slot_filled; by rewrite bool_decide_eq_false_2).
  destruct (pack_slots ss) as [data len]. cbn [fst snd] in *. subst data.
  assert (take (Z.to_nat (slot_length s))
            (write_at (Z.to_nat (slot_length s - 1)) [NL] (slot_buffer s))
          = slot_segment s) as ->.
  { unfold slot_segment.
    replace (Z.to_nat (slot_length s)) with (Z.to_nat (slot_length s - 1) + length [NL])%nat
      by (simpl; lia).
    rewrite <- (app_nil_r [NL]) at 2.
    rewrite take_write_at by lia. done. }
  split; [done|].
  rewrite length_app, IH2. unfold slot_segment.
  rewrite length_app, length_take_le by lia. simpl. lia.
Qed.

Lemma find_slot_from_app line n ss s i :
  find_slot_from line n (ss ++ [s]) i
  = match find_slot_from line n ss i with
    | Some j => Some j
    | None => if bool_decide (name_length s = n)
                 && memcmp_eq line (slot_buffer s) (Z.to_nat n)
              then Some (i + length ss)%nat else None
    end.
Proof.
  revert i. induction ss as [|t ss IH]; intros i; cbn [find_slot_from app length].
  - rewrite Nat.add_0_r. by destruct (_ && _).
  - destruct (bool_decide (name_length t = n)
              && memcmp_eq line (slot_buffer t) (Z.to_nat n)); [done|]. rewrite IH.
    replace (S i + length ss)%nat with (i + S (length ss))%nat by lia. done.
Qed.

(** X4.  Looking a name up again changes nothing, as long as the first
    lookup stores inside the arrays: the second [find_slot] returns the
    index the first one returned, whether the first found the name, entered
    it, or flushed the table to make room for it, and leaves the state as
    the first left it. *)
Theorem find_slot_twice_is_find_slot_once line n d :
  find_slot_in_bounds line n d = true ->
  find_slot line n (find_slot line n d).2 = find_slot line n d.
Proof.
  intros _. unfold find_slot.
  destruct (find_slot_from line n (slots d) 0) as [i|] eqn:Hf; simpl.
  { by rewrite Hf. }
  assert (forall d1, find_slot_from line n (slots d1) 0 = None ->
    match find_slot_from line n (slots (add_slot line n d1).2) 0 with
    | Some i => (i, (add_slot line n d1).2)
    | None => add_slot line n
                (if bool_decide (active_buffer_length (add_slot line n d1).2 + n
                                 > DOWNSTREAM_BUF_SIZE)
                 then downstream_schedule_flush (add_slot line n d1).2
                 else (add_slot line n d1).2)
    end = add_slot line n d1) as Hadd.
  { intros d1 Hd1. unfold add_slot at 1. cbn [snd slots set_slots].
    rewrite find_slot_from_app, Hd1. cbn [name_length slot_buffer].
    rewrite bool_decide_eq_true_2 by done. unfold memcmp_eq.
    rewrite bool_decide_eq_true_2 by (by rewrite take_idemp). done. }
  case_bool_decide.
  - apply Hadd. by rewrite flush_clears_slots.
  - by apply Hadd.
Qed.

Lemma find_slot_from_key line n ss i j s :
  find_slot_from line n ss i = Some j -> ss !! (j - i)%nat = Some s ->
  slot_key s = (n, take (Z.to_nat n) line).
Proof.
  revert i. induction ss as [|t ss IH]; intros i Hf Hs; simpl in *; [done|].
  destruct (bool_decide (name_length t = n)) eqn:Hn; simpl in Hf.
  - destruct (memcmp_eq _ _ _) eqn:Hm; simplify_eq.
    + rewrite Nat.sub_diag in Hs. simplify_eq/=.
      apply bool_decide_eq_true_1 in Hn. unfold memcmp_eq in Hm.
      apply bool_decide_eq_true_1 in Hm. unfold slot_key, slot_name. by rewrite Hn, Hm.
    + pose proof (find_slot_from_bound _ _ _ _ _ Hf) as Hb.
      replace (j - i)%nat with (S (j - S i)) in Hs by lia. by eapply IH.
  - pose proof (find_slot_from_bound _ _ _ _ _ Hf) as Hb.
    replace (j - i)%nat with (S (j - S i)) in Hs by lia. by eapply IH.
Qed.

(** X5.  As long as the lookup stores inside the arrays, the index
    [find_slot] returns is below [NUM_OF_SLOTS] and is that of a used slot
    whose name length is the one asked for and whose name is the first
    [name_length] bytes of the line; a slot it had to enter is untagged and
    holds its name only. *)
Theorem find_slot_returns_a_slot_of_that_name line n d :
  find_slot_in_bounds line n d = true ->
  Z.of_nat (find_slot line n d).1 < NUM_OF_SLOTS
  /\ exists s, slots (find_slot line n d).2 !! (find_slot line n d).1 = Some s
       /\ slot_key s = (n, take (Z.to_nat n) line)
       /\ (find_slot_from line n (slots d) 0 = None ->
           slot_type s = TYPE_UNKNOWN /\ slot_length s = n).
Proof.
  unfold find_slot_in_bounds, find_slot. rewrite andb_true_iff, bool_decide_eq_true.
  intros [Hu Hb]. destruct (find_slot_from line n (slots d) 0) as [i|] eqn:Hf; simpl.
  - pose proof (find_slot_from_bound _ _ _ _ _ Hf) as Hi.
    split; [unfold slots_used in Hu; lia|].
    destruct (lookup_lt_is_Some_2 (slots d) i) as [s Hs]; [lia|].
    exists s. split; [done|]. split; [|done].
    eapply find_slot_from_key; [done|]. by rewrite Nat.sub_0_r.
  - split.
    { case_bool_decide; [apply andb_true_iff in Hb as [_ Hb]|];
        unfold add_slot_in_bounds in Hb;
        rewrite !andb_true_iff, !bool_decide_eq_true in Hb; by destruct Hb as [[? _] _]. }
    unfold add_slot, slots_used. cbn [fst snd slots set_slots].
    eexists. split.
    { rewrite lookup_app_r by done. rewrite Nat.sub_diag. done. }
    split; [|done]. unfold slot_key, slot_name. simpl. by rewrite take_idemp.
Qed.

(** X3.  A rotation that is not refused leaves in the buffer that was
    active the filled slots one after the other, each with its last byte
    turned into a newline, and records as length of that buffer the number
    of bytes it put there. *)
Theorem rotation_packs_the_filled_slots d :
  state_ok d ->
  ~ buffer_length d !!! ((active_buffer_idx d + 1) mod DOWNSTREAM_BUF_NUM)%nat > 0 ->
  let packed := mjoin (slot_segment <$> filter (fun s => slot_filled s = true) (slots d)) in
  buffer (downstream_schedule_flush d) !! active_buffer_idx d = Some packed
  /\ buffer_length (downstream_schedule_flush d) !! active_buffer_idx d
     = Some (Z.of_nat (length packed))
  /\ slots (downstream_schedule_flush d) = []
  /\ active_buffer_idx (downstream_schedule_flush d)
     = ((active_buffer_idx d + 1) mod DOWNSTREAM_BUF_NUM)%nat.
Proof.
  intros (Hok & _ & Ha & _ & Hlb & Hl & _) Hfree packed.
  destruct (pack_slots_spec (slots d) Hok) as [H1 H2]. fold packed in H1.
  rewrite H1 in H2.
  unfold downstream_schedule_flush. rewrite bool_decide_eq_false_2 by done.
  destruct (pack_slots (slots d)) as [data len]. cbn [fst snd] in *. subst data len.
  assert (forall w,
    buffer (set_flush_watcher w
      (set_active_buffer_idx ((active_buffer_idx d + 1) mod DOWNSTREAM_BUF_NUM)%nat
        (set_slots [] (set_active_buffer_length 0
          (set_buffer_length
             (<[active_buffer_idx d := Z.of_nat (length packed)]> (buffer_length d))
             (set_buffer (<[active_buffer_idx d := packed]> (buffer d)) d))))))
    !! active_buffer_idx d = Some packed) as Hb.
  { intros w. cbn. apply list_lookup_insert_eq. lia. }
  assert (buffer_length
      (set_active_buffer_idx ((active_buffer_idx d + 1) mod DOWNSTREAM_BUF_NUM)%nat
        (set_slots [] (set_active_buffer_length 0
          (set_buffer_length
             (<[active_buffer_idx d := Z.of_nat (length packed)]> (buffer_length d))
             (set_buffer (<[active_buffer_idx d := packed]> (buffer d)) d)))))
    !! active_buffer_idx d = Some (Z.of_nat (length packed))) as Hbl.
  { cbn. apply list_lookup_insert_eq. lia. }
  repeat case_bool_decide; (split; [apply (Hb true) || exact Hbl|]); (split; [exact Hbl|]); done.
Qed.
End Packing.

Lemma find_slot_twice_is_find_slot_once_witness :
  find_slot_in_bounds (lines ["cc:5|g"]) 3 d_two_names = true
  /\ (find_slot (lines ["cc:5|g"]) 3 d_two_names).1 = 2%nat
  /\ find_slot (lines ["cc:5|g"]) 3 (find_slot (lines ["cc:5|g"]) 3 d_two_names).2
     = find_slot (lines ["cc:5|g"]) 3 d_two_names.
Proof.
  assert (find_slot_in_bounds (lines ["cc:5|g"]) 3 d_two_names = true) as Hb
    by (vm_compute; reflexivity).
  split; [exact Hb|]. split; [vm_compute; reflexivity|].
  exact (find_slot_twice_is_find_slot_once (lines ["cc:5|g"]) 3 d_two_names Hb).
Defined.

Lemma find_slot_returns_a_slot_of_that_name_witness :
  find_slot_in_bounds (lines ["dd:7|ms"]) 3 d_two_names = true
  /\ Z.of_nat (find_slot (lines ["dd:7|ms"]) 3 d_two_names).1 < NUM_OF_SLOTS
  /\ exists s,
       slots (find_slot (lines ["dd:7|ms"]) 3 d_two_names).2
         !! (find_slot (lines ["dd:7|ms"]) 3 d_two_names).1 = Some s
       /\ slot_key s = (3, take (Z.to_nat 3) (lines ["dd:7|ms"]))
       /\ (find_slot_from (lines ["dd:7|ms"]) 3 (slots d_two_names) 0 = None ->
           slot_type s = TYPE_UNKNOWN /\ slot_length s = 3).
Proof.
  assert (find_slot_in_bounds (lines ["dd:7|ms"]) 3 d_two_names = true) as Hb
    by (vm_compute; reflexivity).
  split; [exact Hb|].
  exact (find_slot_returns_a_slot_of_that_name (lines ["dd:7|ms"]) 3 d_two_names Hb).
Defined.

Lemma rotation_packs_the_filled_slots_witness :
  buffer (downstream_schedule_flush d_two_names) !! active_buffer_idx d_two_names
  = Some (lines ["aa:4|c"; "bb:2|g"]).
Proof.
  assert (~ buffer_length d_two_names
              !!! ((active_buffer_idx d_two_names + 1) mod DOWNSTREAM_BUF_NUM)%nat > 0) as Hf.
  { vm_compute. intros H; discriminate H. }
  destruct (rotation_packs_the_filled_slots d_two_names d_two_names_ok Hf) as [H _].
  rewrite H. vm_compute. reflexivity.
Defined.

(** ** Lines of type other *)

Section Lines.
Context {double : Type} {libc : Libc double}.
Implicit Types (d : downstream_s double) (s : slot_s double) (ss : list (slot_s double)).

Lemma memchr_none (p : bytes) c n : c ∉ take n p -> memchr p c n = None.
Proof.
  revert n. induction p as [|x p IH]; intros [|n] H; simpl in *; try done.
  apply not_elem_of_cons in H as [Hx Hp].
  destruct (Ascii.eqb_spec x c) as [->|_]; [done|]. by rewrite IH.
Qed.

(** A datagram that is one line is read as that line. *)
Lemma udp_read_cb_one_line stack (body : bytes) d :
  NL ∉ body -> (length body < DATA_BUF_SIZE - 1)%nat ->
  udp_read_cb stack (body ++ [NL]) d
  = read_line (body ++ NL :: drop (S (length body)) stack) (S (length body)) d.
Proof.
  intros Hnl Hlen. unfold udp_read_cb.
  assert (length (body ++ [NL]) = S (length body)) as Hl
    by (rewrite length_app; simpl; lia).
  rewrite take_ge by lia. rewrite Hl.
  rewrite bool_decide_eq_true_2 by lia.
  assert (write_at 0 (body ++ [NL]) stack
          = body ++ NL :: drop (S (length body)) stack) as ->.
  { unfold write_at. rewrite take_0, Hl. simpl. by rewrite <- app_assoc. }
  rewrite bool_decide_eq_false_2.
  2:{ intros H. apply H. rewrite lookup_app_r by lia.
      replace (S (length body) - 1 - length body)%nat with 0%nat by lia. done. }
  cbn [udp_read_loop]. rewrite memchr_app by (done || lia).
  replace (S (length body) - S (length body))%nat with 0%nat by lia.
  destruct (length body); cbn [udp_read_loop]; [done|].
  by rewrite memchr_zero.
Qed.

(** The slot [find_slot] compares equal to the name is the one that holds it. *)
Lemma find_slot_from_found line n ss i s k :
  NoDup (slot_key <$> ss) -> ss !! i = Some s ->
  slot_key s = (n, take (Z.to_nat n) line) ->
  find_slot_from line n ss k = Some (k + i)%nat.
Proof.
  revert i k. induction ss as [|t ss IH]; intros i k Hnd Hi Hk; [done|].
  cbn [find_slot_from]. rewrite fmap_cons in Hnd. apply NoDup_cons in Hnd as [Hnot Hnd].
  destruct i as [|i]; simplify_eq/=.
  - unfold slot_key, slot_name in Hk. simplify_eq.
    rewrite bool_decide_eq_true_2 by done. unfold memcmp_eq.
    rewrite bool_decide_eq_true_2 by done. simpl. f_equal. lia.
  - destruct (bool_decide (name_length t = n)) eqn:Hn; simpl.
    + apply bool_decide_eq_true_1 in Hn.
      destruct (memcmp_eq line (slot_buffer t) (Z.to_nat n)) eqn:Hm.
      * exfalso. apply Hnot. unfold memcmp_eq in Hm. apply bool_decide_eq_true_1 in Hm.
        assert (slot_key t = slot_key s) as ->.
        { rewrite Hk. unfold slot_key, slot_name. by rewrite Hn, Hm. }
        apply list_elem_of_fmap. exists s. split; [done|]. by eapply list_elem_of_lookup_2.
      * rewrite (IH i (S k)) by done. f_equal. lia.
    + rewrite (IH i (S k)) by done. f_equal. lia.
Qed.

(** One group of type other, with room for it, goes to the slot it came for. *)
Lemma insert_other_group line n (value type rest : bytes) i d s :
  ":"%char ∉ value -> "|"%char ∉ value -> ":"%char ∉ type ->
  type !! 0%nat <> Some "c"%char ->
  slots d !! i = Some s -> slot_ok s -> slot_type s <> TYPE_COUNTER ->
  let p := value ++ "|"%char :: type ++ NL :: rest in
  let len := S (length (value ++ "|"%char :: type)) in
  active_buffer_length d + Z.of_nat len <= DOWNSTREAM_BUF_SIZE ->
  exists s',
    insert_value line n p len i d
    = (set_slots (<[i := s']> (slots d))
         (set_active_buffer_length (active_buffer_length d + Z.of_nat len) d),
       i, len, false)
    /\ slot_payload s' = slot_payload s ++ value ++ "|"%char :: type ++ [":"%char]
    /\ slot_name s' = slot_name s
    /\ name_length s' = name_length s
    /\ slot_length s' = slot_length s + Z.of_nat len
    /\ slot_type s' = TYPE_OTHER
    /\ counter s' = counter s
    /\ slot_ok s'.
Proof.
  intros Hv1 Hv2 Ht1 Ht2 Hi Hok Hty p len Hroom.
  assert (length (value ++ "|"%char :: type) = (length value + S (length type))%nat) as Hbl
    by (rewrite length_app; simpl; lia).
  assert (take len p = (value ++ "|"%char :: type) ++ [NL]) as Htake.
  { unfold p, len.
    replace (value ++ "|"%char :: type ++ NL :: rest)
      with (((value ++ "|"%char :: type) ++ [NL]) ++ rest)
      by (by rewrite <- !app_assoc).
    rewrite take_app_length'; [done|]. rewrite !length_app. simpl. lia. }
  assert (memchr p ":" len = None) as Hcolon.
  { apply memchr_none. rewrite Htake.
    rewrite !elem_of_app, !elem_of_cons, elem_of_nil. intros [[?|[?|?]]|[?|?]]; done. }
  assert (memchr p "|" len = Some (length value)) as Hbar.
  { unfold p. apply memchr_app; [done|]. unfold len. lia. }
  assert (group_metric_type p (length value) = TYPE_OTHER) as Hmt.
  { unfold group_metric_type. rewrite bool_decide_eq_false_2; [done|].
    unfold p. rewrite lookup_app_r by lia.
    replace (S (length value) - length value)%nat with 1%nat by lia. simpl.
    destruct type as [|c ty]; simpl in *; [done|]. done. }
  set (target := Z.to_nat (slot_length s)).
  set (buf := write_at (target + len - 1) [":"%char]
                (write_at target (take len p) (slot_buffer s))).
  set (s' := set_slot_length (slot_length s + Z.of_nat len)
               (set_slot_buffer buf (set_slot_type TYPE_OTHER s))).
  destruct Hok as (Hn1 & Hn2).
  assert (length (take len p) = len) as Hlen by (rewrite Htake, length_app; simpl; lia).
  exists s'.
  assert (slot_payload s' = slot_payload s ++ value ++ "|"%char :: type ++ [":"%char]) as Hpay.
  { unfold slot_payload, s'. simpl.
    replace (Z.to_nat (slot_length s + Z.of_nat len)) with (target + length (take len p))%nat
      by (rewrite Hlen; lia).
    unfold buf. rewrite <- Hlen at 2.
    rewrite take_write_group by lia.
    rewrite Hlen, take_take. f_equal.
    replace (take ((len - 1) `min` len) p) with (take (len - 1) (take len p))
      by (rewrite take_take; done).
    rewrite Htake. unfold len. rewrite Nat.sub_succ, Nat.sub_0_r.
    rewrite take_app_length. by rewrite <- app_assoc. }
  assert (slot_name s' = slot_name s) as Hname.
  { unfold slot_name, s'. simpl. unfold buf.
    rewrite take_write_at_before.
    - apply take_write_at_before. lia.
    - pose proof (length_write_at target (take len p) (slot_buffer s)) as [Hw _]; lia. }
  assert (slot_ok s') as Hok'.
  { unfold slot_ok, s'. simpl. unfold buf.
    pose proof (length_write_at target (take len p) (slot_buffer s)) as [Hw1 _]; [lia|].
    pose proof (length_write_at (target + len - 1) [":"%char]
                  (write_at target (take len p) (slot_buffer s))) as [Hw2 _]; [lia|].
    simpl in Hw2. lia. }
  split; [|done].
  unfold insert_value, group_length. rewrite Hcolon, Hbar, Hmt.
  rewrite (list_lookup_total_correct _ _ _ Hi).
  assert (bool_decide (is_Some (@None nat)) = false) as ->.
  { apply bool_decide_eq_false_2. by intros [? ?]. }
  assert (forall d0 s0, slots d0 !! i = Some s0 ->
            active_buffer_length d0 = active_buffer_length d ->
            set_slot_type TYPE_OTHER s0 = set_slot_type TYPE_OTHER s ->
            slot_type s0 = TYPE_OTHER ->
            store_value line n p len (length value) TYPE_OTHER i d0
            = (set_slots (<[i := s']> (slots d0))
                 (set_active_buffer_length (active_buffer_length d + Z.of_nat len) d0), i))
    as Hstore.
  { intros d0 s0 Hi0 Habl Hs0 Ht0. unfold store_value, make_room, needs_flush.
    rewrite !(bool_decide_eq_false_2 (TYPE_OTHER = TYPE_COUNTER)) by done. rewrite Habl.
    rewrite bool_decide_eq_false_2 by lia.
    unfold store_other. rewrite (list_lookup_total_correct _ _ _ Hi0), Habl.
    f_equal. f_equal.
    assert (s0 = set_slot_type TYPE_OTHER s) as ->.
    { rewrite <- Hs0. destruct s0. simpl in *. by subst. }
    done. }
  case_bool_decide as Hu.
  - rewrite (Hstore _ (set_slot_type TYPE_OTHER s)); [| |done|done|done].
    2:{ cbn [slots set_slots]. apply list_lookup_insert_eq. by eapply lookup_lt_Some. }
    cbn [slots set_slots]. rewrite list_insert_insert_eq. by destruct d.
  - assert (slot_type s = TYPE_OTHER) as Hso by (by destruct (slot_type s)).
    rewrite bool_decide_eq_false_2 by (intros H; by apply H).
    rewrite (Hstore d s); done.
Qed.

Lemma insert_values_loop_last fuel line n p len i d :
  memchr p ":" len = None ->
  insert_values_loop (S fuel) line n p len i d = (insert_value line n p len i d).1.1.1.
Proof.
  intros H. cbn [insert_values_loop].
  pose proof (insert_value_more line n p len i d) as [Hm _].
  destruct (insert_value line n p len i d) as [[[d1 j] dl] more]. simpl in *. subst more.
  rewrite H. rewrite bool_decide_eq_false_2; [done|]. by intros [? ?].
Qed.

(** Reading a line of one group of type other: the name is looked up, or
    entered, and the group is offered to that slot. *)
Lemma read_other_line (name value type rest : bytes) d :
  other_sample name value type ->
  let body := name ++ ":"%char :: value ++ "|"%char :: type in
  let line := body ++ NL :: rest in
  let n := Z.of_nat (S (length name)) in
  read_line line (S (length body)) d
  = (insert_value line (name_length (slots (find_slot line n d).2 !!! (find_slot line n d).1))
       (value ++ "|"%char :: type ++ NL :: rest)
       (S (length (value ++ "|"%char :: type)))
       (find_slot line n d).1 (find_slot line n d).2).1.1.1
  /\ take (Z.to_nat n) line = name ++ [":"%char]
  /\ metric_line name value type = body ++ [NL]
  /\ (Z.to_nat n <= length line)%nat.
Proof.
  intros (Hn1 & Hn2 & Hv1 & Hv2 & Hv3 & Ht1 & Ht2 & Ht3 & Hlen) body line n.
  assert (metric_line name value type = body ++ [NL]) as Hml.
  { unfold metric_line, body. rewrite <- !app_assoc. simpl. by rewrite <- app_assoc. }
  rewrite Hml in Hlen. rewrite length_app in Hlen. simpl in Hlen.
  assert (length body = (length name + S (length (value ++ "|"%char :: type)))%nat) as Hbl.
  { unfold body. rewrite length_app. simpl. done. }
  assert (line = name ++ ":"%char :: (value ++ "|"%char :: type ++ NL :: rest)) as Hline.
  { unfold line, body. rewrite <- !app_assoc. simpl. by rewrite <- app_assoc. }
  assert (line = (name ++ [":"%char]) ++ (value ++ "|"%char :: type ++ NL :: rest)) as Hline2.
  { rewrite Hline. by rewrite <- app_assoc. }
  assert (length (name ++ [":"%char]) = S (length name)) as Hnl
    by (rewrite length_app; simpl; lia).
  assert (take (Z.to_nat n) line = name ++ [":"%char]) as Htake.
  { rewrite Hline2. apply take_app_length'. unfold n. lia. }
  split; [|split; [done|split; [done|]]].
  2:{ unfold line. rewrite length_app. simpl. unfold n. lia. }
  unfold read_line.
  rewrite bool_decide_eq_true_2 by lia.
  rewrite bool_decide_eq_true_2
    by (unfold DOWNSTREAM_BUF_SIZE, MAX_COUNTER_LENGTH; lia).
  cbn [andb]. unfold process_data_line.
  assert (memchr line ":" (S (length body)) = Some (length name)) as ->.
  { rewrite Hline. apply memchr_app; [done|lia]. }
  fold n. destruct (find_slot line n d) as [i d1]. cbn [fst snd].
  unfold insert_values_into_slot.
  replace (S (length body) - length name - 1)%nat
    with (S (length (value ++ "|"%char :: type))) by lia.
  assert (drop (S (length name)) line = value ++ "|"%char :: type ++ NL :: rest) as ->.
  { rewrite Hline2. by rewrite drop_app_length'. }
  apply insert_values_loop_last.
  apply memchr_none.
  replace (value ++ "|"%char :: type ++ NL :: rest)
    with (((value ++ "|"%char :: type) ++ [NL]) ++ rest) by (by rewrite <- !app_assoc).
  rewrite take_app_length' by (rewrite !length_app; simpl; lia).
  rewrite !elem_of_app, !elem_of_cons, elem_of_nil. intros [[?|[?|?]]|[?|?]]; done.
Qed.

Lemma other_sample_body name value type :
  other_sample name value type ->
  (NL ∉ name ++ ":"%char :: value ++ "|"%char :: type)
  /\ (length (name ++ ":"%char :: value ++ "|"%char :: type) < DATA_BUF_SIZE - 1)%nat
  /\ metric_line name value type = (name ++ ":"%char :: value ++ "|"%char :: type) ++ [NL].
Proof.
  intros (Hn1 & Hn2 & Hv1 & Hv2 & Hv3 & Ht1 & Ht2 & Ht3 & Hlen).
  assert (metric_line name value type
          = (name ++ ":"%char :: value ++ "|"%char :: type) ++ [NL]) as Hml.
  { unfold metric_line. rewrite <- !app_assoc. simpl. by rewrite <- app_assoc. }
  rewrite Hml, length_app in Hlen. simpl in Hlen.
  split; [|split; [unfold DATA_BUF_SIZE; lia|done]].
  rewrite !elem_of_app, !elem_of_cons, !elem_of_app, !elem_of_cons.
  intros [?|[?|[?|[?|?]]]]; done.
Qed.

(** X6.  A line with one value group whose type does not begin with [c],
    for a name that has a slot not tagged counter, with room left for the
    group: the bytes of the group are appended to the payload of that slot,
    the newline stored as [':'], the slot is tagged other, and the
    accounting grows by the length of the group.  No other slot changes and
    nothing is logged. *)
Theorem other_sample_is_appended stack name value type i d s :
  other_sample name value type ->
  state_ok d ->
  slots d !! i = Some s ->
  slot_name s = name ++ [":"%char] ->
  slot_type s <> TYPE_COUNTER ->
  active_buffer_length d + Z.of_nat (S (length (value ++ "|"%char :: type)))
    <= DOWNSTREAM_BUF_SIZE ->
  exists s',
    udp_read_cb stack (metric_line name value type) d
    = set_slots (<[i := s']> (slots d))
        (set_active_buffer_length
           (active_buffer_length d + Z.of_nat (S (length (value ++ "|"%char :: type)))) d)
    /\ slot_payload s' = slot_payload s ++ value ++ "|"%char :: type ++ [":"%char]
    /\ slot_name s' = slot_name s
    /\ slot_type s' = TYPE_OTHER
    /\ counter s' = counter s.
Proof.
  intros Hsample (Hok & Hnd & Hring) Hi Hname Hty Hroom.
  destruct (other_sample_body _ _ _ Hsample) as (Hnl & Hlen & ->).
  rewrite udp_read_cb_one_line by done.
  set (rest := drop (S (length (name ++ ":"%char :: value ++ "|"%char :: type))) stack).
  destruct (read_other_line name value type rest d Hsample) as (-> & Htake & _ & _).
  pose proof (Forall_lookup_1 _ _ _ _ Hok Hi) as Hs.
  assert (name_length s = Z.of_nat (S (length name))) as Hn.
  { destruct Hs as (Hs1 & Hs2).
    assert (length (slot_name s) = Z.to_nat (name_length s)) as Hl
      by (unfold slot_name; rewrite length_take_le; lia).
    rewrite Hname, length_app in Hl. simpl in Hl. lia. }
  assert (find_slot ((name ++ ":"%char :: value ++ "|"%char :: type) ++ NL :: rest)
            (Z.of_nat (S (length name))) d = (i, d)) as ->.
  { unfold find_slot.
    rewrite (find_slot_from_found _ _ _ i s 0%nat); [done|done|done|].
    unfold slot_key. by rewrite Hn, Hname, Htake. }
  cbn [fst snd].
  destruct (insert_other_group
              ((name ++ ":"%char :: value ++ "|"%char :: type) ++ NL :: rest)
              (name_length (slots d !!! i)) value type rest i d s)
    as (s' & -> & H1 & H2 & H3 & H4 & H5 & H6 & H7); try done.
  - by destruct Hsample as (_ & _ & ? & _).
  - by destruct Hsample as (_ & _ & _ & _ & ? & _).
  - by destruct Hsample as (_ & _ & _ & _ & _ & ? & _).
  - by destruct Hsample as (_ & _ & _ & _ & _ & _ & _ & ? & _).
  - by exists s'.
Qed.

Lemma pack_slots_snoc ss s :
  Forall slot_ok ss -> slot_ok s -> slot_length s <> name_length s ->
  (pack_slots (ss ++ [s])).1 = (pack_slots ss).1 ++ slot_segment s.
Proof.
  intros Hss Hs Hne.
  destruct (pack_slots_spec ss Hss) as [-> _].
  destruct (pack_slots_spec (ss ++ [s])) as [-> _].
  { apply Forall_app. split; [done|]. by apply Forall_singleton. }
  rewrite filter_app, fmap_app. rewrite filter_cons, decide_True.
  2:{ unfold slot_filled. by rewrite bool_decide_eq_false_2. }
  rewrite filter_nil. simpl. rewrite join_app. simpl. by rewrite app_nil_r.
Qed.

(** The stores of a datagram that is one line are those of the line. *)
Lemma udp_read_cb_in_bounds_one_line stack (body : bytes) d :
  NL ∉ body -> (length body < DATA_BUF_SIZE - 1)%nat ->
  udp_read_cb_in_bounds stack (body ++ [NL]) d
  = read_line_in_bounds (body ++ NL :: drop (S (length body)) stack) (S (length body)) d.
Proof.
  intros Hnl Hlen. unfold udp_read_cb_in_bounds.
  assert (length (body ++ [NL]) = S (length body)) as Hl
    by (rewrite length_app; simpl; lia).
  rewrite take_ge by lia. rewrite Hl.
  rewrite bool_decide_eq_true_2 by lia.
  assert (write_at 0 (body ++ [NL]) stack
          = body ++ NL :: drop (S (length body)) stack) as ->.
  { unfold write_at. rewrite take_0, Hl. simpl. by rewrite <- app_assoc. }
  rewrite bool_decide_eq_false_2.
  2:{ intros H. apply H. rewrite lookup_app_r by lia.
      replace (S (length body) - 1 - length body)%nat with 0%nat by lia. done. }
  cbn [udp_read_loop_in_bounds]. rewrite memchr_app by (done || lia).
  replace (S (length body) - S (length body))%nat with 0%nat by lia.
  destruct (length body); cbn [udp_read_loop_in_bounds]; [by rewrite andb_true_r|].
  rewrite memchr_zero. by rewrite andb_true_r.
Qed.

(** A line of one group of type other for a new name, with a free slot and
    room for the line, is read without a store outside the arrays. *)
Lemma new_other_line_in_bounds stack name value type d :
  other_sample name value type ->
  state_ok d ->
  Z.of_nat (slots_used d) < NUM_OF_SLOTS ->
  (forall s, s ∈ slots d -> slot_name s <> name ++ [":"%char]) ->
  active_buffer_length d + Z.of_nat (length (metric_line name value type))
    <= DOWNSTREAM_BUF_SIZE ->
  udp_read_cb_in_bounds stack (metric_line name value type) d = true.
Proof.
  intros Hsample (Hok & Hnd & Hring) Hfree Hnew Hroom.
  destruct (other_sample_body _ _ _ Hsample) as (Hnl & Hlen & Hml).
  pose proof Hsample as (Hn1 & Hn2 & Hv1 & Hv2 & Hv3 & Ht1 & Ht2 & Ht3 & Hll).
  rewrite Hml in *. rewrite udp_read_cb_in_bounds_one_line by done.
  set (rest := drop (S (length (name ++ ":"%char :: value ++ "|"%char :: type))) stack).
  destruct (read_other_line name value type rest d Hsample) as (_ & Htake & _ & Hnlen).
  set (body := name ++ ":"%char :: value ++ "|"%char :: type) in *.
  set (line := body ++ NL :: rest) in *.
  set (n := Z.of_nat (S (length name))) in *.
  assert (length body = (length name + S (length (value ++ "|"%char :: type)))%nat) as Hbl.
  { unfold body. rewrite length_app. simpl. done. }
  rewrite length_app in Hroom, Hll. cbn [length] in Hroom, Hll.
  assert (find_slot_from line n (slots d) 0 = None) as Hnone.
  { destruct (find_slot_from line n (slots d) 0) as [j|] eqn:Hf; [|done]. exfalso.
    pose proof (find_slot_from_bound _ _ _ _ _ Hf) as Hb.
    destruct (lookup_lt_is_Some_2 (slots d) j) as [s Hs]; [lia|].
    pose proof (find_slot_from_key line n (slots d) 0 j s Hf) as Hk.
    rewrite Nat.sub_0_r in Hk. specialize (Hk Hs).
    apply (Hnew s); [by eapply list_elem_of_lookup_2|].
    unfold slot_key in Hk. simplify_eq. by rewrite Htake in *. }
  assert (line = name ++ ":"%char :: (value ++ "|"%char :: type ++ NL :: rest)) as Hline.
  { unfold line, body. rewrite <- !app_assoc. simpl. by rewrite <- app_assoc. }
  assert (line = (name ++ [":"%char]) ++ (value ++ "|"%char :: type ++ NL :: rest)) as Hline2.
  { rewrite Hline. by rewrite <- app_assoc. }
  assert (length (name ++ [":"%char]) = S (length name)) as Hnl1
    by (rewrite length_app; simpl; lia).
  unfold read_line_in_bounds.
  rewrite bool_decide_eq_true_2 by lia.
  rewrite bool_decide_eq_true_2
    by (unfold DOWNSTREAM_BUF_SIZE, MAX_COUNTER_LENGTH; lia).
  cbn [andb]. unfold process_data_line_in_bounds.
  assert (memchr line ":" (S (length body)) = Some (length name)) as ->.
  { rewrite Hline. apply memchr_app; [done|lia]. }
  fold n.
  assert (add_slot_in_bounds line n d = true) as Hadd.
  { unfold add_slot_in_bounds. rewrite !andb_true_iff, !bool_decide_eq_true.
    unfold DOWNSTREAM_BUF_SIZE, n in *. lia. }
  assert (find_slot_in_bounds line n d = true) as ->.
  { unfold find_slot_in_bounds. rewrite Hnone.
    rewrite bool_decide_eq_true_2 by lia.
    rewrite bool_decide_eq_false_2 by (unfold n; lia). done. }
  cbn [andb]. unfold find_slot. rewrite Hnone.
  rewrite bool_decide_eq_false_2 by (unfold n; lia).
  unfold add_slot, slots_used. cbn [fst snd].
  set (s0 := {| slot_buffer := take (Z.to_nat n) line; name_length := n;
                slot_length := n; counter := d_zero; slot_type := TYPE_UNKNOWN |}).
  assert (slot_ok s0) as Hok0.
  { unfold slot_ok, s0. simpl. rewrite length_take_le by done. unfold n. lia. }
  set (d1 := set_slots (slots d ++ [s0])
               (set_active_buffer_length (active_buffer_length d + n) d)).
  assert (slots d1 !! length (slots d) = Some s0) as Hi1.
  { unfold d1. cbn [slots set_slots]. rewrite lookup_app_r by done. by rewrite Nat.sub_diag. }
  unfold insert_values_into_slot_in_bounds.
  rewrite (list_lookup_total_correct _ _ _ Hi1).
  replace (S (length body) - length name - 1)%nat
    with (S (length (value ++ "|"%char :: type))) by lia.
  assert (drop (S (length name)) line = value ++ "|"%char :: type ++ NL :: rest) as ->.
  { rewrite Hline2. by rewrite drop_app_length'. }
  cbn [insert_values_loop_in_bounds].
  destruct (insert_other_group line (name_length s0) value type rest (length (slots d)) d1 s0)
    as (s' & -> & _); try done.
  { unfold d1. cbn [active_buffer_length set_active_buffer_length set_slots]. unfold n. lia. }
  rewrite andb_true_r.
  unfold insert_value_in_bounds. cbv zeta.
  assert (length (value ++ "|"%char :: type) = (length value + S (length type))%nat) as Hvl
    by (rewrite length_app; simpl; lia).
  set (p := value ++ "|"%char :: type ++ NL :: rest).
  set (len := S (length (value ++ "|"%char :: type))).
  assert (take len p = (value ++ "|"%char :: type) ++ [NL]) as Htk.
  { unfold p, len.
    replace (value ++ "|"%char :: type ++ NL :: rest)
      with (((value ++ "|"%char :: type) ++ [NL]) ++ rest)
      by (by rewrite <- !app_assoc).
    rewrite take_app_length'; [done|]. rewrite !length_app. simpl. lia. }
  assert (memchr p ":" len = None) as Hcolon.
  { apply memchr_none. rewrite Htk.
    rewrite !elem_of_app, !elem_of_cons, elem_of_nil. intros [[?|[?|?]]|[?|?]]; done. }
  assert (memchr p "|" len = Some (length value)) as Hbar.
  { unfold p. apply memchr_app; [done|]. unfold len. lia. }
  assert (group_metric_type p (length value) = TYPE_OTHER) as Hmt.
  { unfold group_metric_type. rewrite bool_decide_eq_false_2; [done|].
    unfold p. rewrite lookup_app_r by lia.
    replace (S (length value) - length value)%nat with 1%nat by lia. simpl.
    destruct type as [|c ty]; simpl in *; [done|]. done. }
  unfold group_length. rewrite Hcolon, Hbar, Hmt.
  rewrite (list_lookup_total_correct _ _ _ Hi1).
  assert (slots_used d1 = S (length (slots d))) as Hu1.
  { unfold slots_used, d1. cbn [slots set_slots]. rewrite length_app. simpl. lia. }
  rewrite Hu1.
  rewrite bool_decide_eq_true_2 by lia.
  rewrite bool_decide_eq_true_2 by (unfold slots_used in Hfree; lia).
  cbn [andb slot_type s0]. rewrite bool_decide_eq_true_2 by done.
  unfold store_value_in_bounds, make_room_in_bounds, make_room, needs_flush.
  rewrite !(bool_decide_eq_false_2 (TYPE_OTHER = TYPE_COUNTER)) by done.
  cbn [active_buffer_length set_slots set_active_buffer_length d1].
  rewrite bool_decide_eq_false_2 by (unfold n, len; lia).
  cbn [andb]. unfold store_other_in_bounds.
  cbn [slots set_slots d1].
  rewrite list_lookup_total_insert_eq
    by (rewrite length_app; simpl; lia).
  cbn [slot_length set_slot_type s0].
  rewrite !bool_decide_eq_true_2; [done| |];
    unfold n, len, DOWNSTREAM_BUF_SIZE in *; lia.
Qed.

(** X7.  A line with one value group whose type does not begin with [c],
    for a name no slot carries, with a free slot in the table and room left
    for the line: a slot is entered at the end of the table and, whatever
    the table held, the next rotation will pack what it would have packed
    followed by the line, byte for byte.  Nothing is logged and nothing is
    stored outside the arrays. *)
Theorem new_other_line_is_forwarded_as_received stack name value type d :
  other_sample name value type ->
  state_ok d ->
  Z.of_nat (slots_used d) < NUM_OF_SLOTS ->
  (forall s, s ∈ slots d -> slot_name s <> name ++ [":"%char]) ->
  active_buffer_length d + Z.of_nat (length (metric_line name value type))
    <= DOWNSTREAM_BUF_SIZE ->
  let d' := udp_read_cb stack (metric_line name value type) d in
  (pack_slots (slots d')).1 = (pack_slots (slots d)).1 ++ metric_line name value type
  /\ slots_used d' = S (slots_used d)
  /\ active_buffer_length d'
     = active_buffer_length d + Z.of_nat (length (metric_line name value type))
  /\ error_log d' = error_log d
  /\ udp_read_cb_in_bounds stack (metric_line name value type) d = true.
Proof.
  intros Hsample Hstate Hfree Hnew Hroom d'.
  pose proof (new_other_line_in_bounds stack name value type d
                Hsample Hstate Hfree Hnew Hroom) as Hin.
  cut ((pack_slots (slots d')).1 = (pack_slots (slots d)).1 ++ metric_line name value type
       /\ slots_used d' = S (slots_used d)
       /\ active_buffer_length d'
          = active_buffer_length d + Z.of_nat (length (metric_line name value type))
       /\ error_log d' = error_log d).
  { intros (H1 & H2 & H3 & H4). done. }
  clear Hin Hfree. destruct Hstate as (Hok & Hnd & Hring). unfold d'. clear d'.
  destruct (other_sample_body _ _ _ Hsample) as (Hnl & Hlen & Hml).
  rewrite Hml in *. rewrite udp_read_cb_one_line by done.
  set (rest := drop (S (length (name ++ ":"%char :: value ++ "|"%char :: type))) stack).
  destruct (read_other_line name value type rest d Hsample) as (-> & Htake & _ & Hnlen).
  set (body := name ++ ":"%char :: value ++ "|"%char :: type) in *.
  set (line := body ++ NL :: rest) in *.
  set (n := Z.of_nat (S (length name))) in *.
  assert (length body = (length name + S (length (value ++ "|"%char :: type)))%nat) as Hbl.
  { unfold body. rewrite length_app. simpl. done. }
  rewrite length_app in Hroom. cbn [length] in Hroom.
  assert (find_slot_from line n (slots d) 0 = None) as Hnone.
  { destruct (find_slot_from line n (slots d) 0) as [j|] eqn:Hf; [|done]. exfalso.
    pose proof (find_slot_from_bound _ _ _ _ _ Hf) as Hb.
    destruct (lookup_lt_is_Some_2 (slots d) j) as [s Hs]; [lia|].
    pose proof (find_slot_from_key line n (slots d) 0 j s Hf) as Hk.
    rewrite Nat.sub_0_r in Hk. specialize (Hk Hs).
    apply (Hnew s); [by eapply list_elem_of_lookup_2|].
    unfold slot_key in Hk. simplify_eq. by rewrite Htake in *. }
  unfold find_slot. rewrite Hnone.
  rewrite bool_decide_eq_false_2 by (unfold n; lia).
  unfold add_slot, slots_used. cbn [fst snd].
  set (s0 := {| slot_buffer := take (Z.to_nat n) line; name_length := n;
                slot_length := n; counter := d_zero; slot_type := TYPE_UNKNOWN |}).
  assert (slot_ok s0) as Hok0.
  { unfold slot_ok, s0. simpl. rewrite length_take_le by done. unfold n. lia. }
  cbn [slots set_slots]. rewrite lookup_total_app_r by done.
  rewrite Nat.sub_diag. cbn [lookup_total list_lookup_total].
  destruct (insert_other_group line (name_length s0) value type rest (length (slots d))
              (set_slots (slots d ++ [s0])
                 (set_active_buffer_length (active_buffer_length d + n) d)) s0)
    as (s' & -> & H1 & H2 & H3 & H4 & H5 & H6 & H7); try done.
  - by destruct Hsample as (_ & _ & ? & _).
  - by destruct Hsample as (_ & _ & _ & _ & ? & _).
  - by destruct Hsample as (_ & _ & _ & _ & _ & ? & _).
  - by destruct Hsample as (_ & _ & _ & _ & _ & _ & _ & ? & _).
  - cbn [slots set_slots]. rewrite lookup_app_r by done. by rewrite Nat.sub_diag.
  - cbn [active_buffer_length set_active_buffer_length set_slots]. unfold n. lia.
  - cbn [fst slots set_slots active_buffer_length set_active_buffer_length error_log
         slots_used].
    assert (<[length (slots d) := s']> (slots d ++ [s0]) = slots d ++ [s']) as ->.
    { rewrite insert_app_r_alt by done. by rewrite Nat.sub_diag. }
    split; [|split; [|split]].
    + rewrite pack_slots_snoc; [f_equal| done | done |].
      * unfold slot_segment.
        assert (take (Z.to_nat (slot_length s' - 1)) (slot_buffer s')
                = take (Z.to_nat (slot_length s' - 1)) (slot_payload s')) as ->.
        { unfold slot_payload. rewrite take_take. f_equal. lia. }
        rewrite H1. unfold slot_payload at 1. simpl. rewrite take_idemp, Htake.
        rewrite H4. simpl.
        replace (Z.to_nat (n + Z.of_nat (S (length (value ++ "|"%char :: type))) - 1))
          with (length body) by (unfold n; lia).
        assert ((name ++ [":"%char]) ++ value ++ "|"%char :: type ++ [":"%char]
                = body ++ [":"%char]) as ->.
        { unfold body. rewrite <- !app_assoc. simpl. by rewrite <- app_assoc. }
        by rewrite take_app_length.
      * rewrite H4, H3. simpl. lia.
    + rewrite length_app. simpl. lia.
    + unfold n. rewrite (length_app body). cbn [length]. lia.
    + done.
Qed.
End Lines.

Ltac not_in_list :=
  let H := fresh in
  intros H; repeat (apply elem_of_cons in H as [H|H]; [discriminate H|]);
  by apply elem_of_nil in H.

Lemma tt_sample : other_sample (bytes_of "tt") (bytes_of "300") (bytes_of "ms").
Proof. repeat split; try not_in_list; try (vm_compute; lia). discriminate. Qed.

Lemma gg_sample : other_sample (bytes_of "gg") (bytes_of "7") (bytes_of "g").
Proof. repeat split; try not_in_list; try (vm_compute; lia). discriminate. Qed.

Lemma d_tt_ok : state_ok d_tt.
Proof.
  apply udp_read_cb_ok.
  apply (run_ok boot (init_downstream spec_float [10; 20])); [apply init_ok|].
  vm_compute; reflexivity.
Qed.

Lemma other_sample_is_appended_witness :
  exists s',
    slots (udp_read_cb [] (metric_line (bytes_of "tt") (bytes_of "300") (bytes_of "ms")) d_tt)
    = [s']
    /\ slot_payload s' = bytes_of "tt:250|ms:300|ms:".
Proof.
  assert (slots d_tt !! 0%nat = Some (slots d_tt !!! 0%nat)) as Hi by (vm_compute; reflexivity).
  assert (slot_name (slots d_tt !!! 0%nat) = bytes_of "tt" ++ [":"%char]) as Hn
    by (vm_compute; reflexivity).
  assert (slot_type (slots d_tt !!! 0%nat) <> TYPE_COUNTER) as Ht
    by (vm_compute; discriminate).
  assert (active_buffer_length d_tt
          + Z.of_nat (S (length (bytes_of "300" ++ "|"%char :: bytes_of "ms")))
          <= DOWNSTREAM_BUF_SIZE) as Hr by (vm_compute; discriminate).
  destruct (other_sample_is_appended [] (bytes_of "tt") (bytes_of "300") (bytes_of "ms")
              0%nat d_tt (slots d_tt !!! 0%nat) tt_sample d_tt_ok Hi Hn Ht Hr)
    as (s' & H1 & H2 & _).
  exists s'. split.
  - rewrite H1. reflexivity.
  - rewrite H2. vm_compute. reflexivity.
Defined.

Lemma new_other_line_is_forwarded_as_received_witness :
  (pack_slots (slots (udp_read_cb [] (metric_line (bytes_of "gg") (bytes_of "7") (bytes_of "g"))
                        d_tt))).1
  = lines ["tt:250|ms"; "gg:7|g"].
Proof.
  assert (forall s, s ∈ slots d_tt -> slot_name s <> bytes_of "gg" ++ [":"%char]) as Hnew.
  { intros s Hs. vm_compute in Hs. apply list_elem_of_singleton in Hs. subst s.
    vm_compute. discriminate. }
  assert (active_buffer_length d_tt
          + Z.of_nat (length (metric_line (bytes_of "gg") (bytes_of "7") (bytes_of "g")))
          <= DOWNSTREAM_BUF_SIZE) as Hr by (vm_compute; discriminate).
  assert (Z.of_nat (slots_used d_tt) < NUM_OF_SLOTS) as Hfree by (vm_compute; reflexivity).
  destruct (new_other_line_is_forwarded_as_received [] (bytes_of "gg") (bytes_of "7")
              (bytes_of "g") d_tt gg_sample d_tt_ok Hfree Hnew Hr) as [H _].
  rewrite H. vm_compute. reflexivity.
Defined.


(** ** The end of a datagram *)

Section Framing.
Context {double : Type} {libc : Libc double}.
Implicit Types (d : downstream_s double) (s : slot_s double) (ss : list (slot_s double)).

(** X8.  The newline that ends a datagram may be left out: a datagram that
    is not empty, does not end in a newline and leaves a byte free in the
    receive array is read as if the newline were there. *)
Theorem final_newline_is_optional stack (datagram : bytes) d :
  datagram <> [] ->
  last datagram <> Some NL ->
  (length datagram < DATA_BUF_SIZE - 1)%nat ->
  udp_read_cb stack datagram d = udp_read_cb stack (datagram ++ [NL]) d.
Proof.
  intros Hne Hlast Hlen. unfold udp_read_cb.
  assert (length (datagram ++ [NL]) = S (length datagram)) as Hl
    by (rewrite length_app; simpl; lia).
  assert (0 < length datagram)%nat as Hpos by (destruct datagram; [done|simpl; lia]).
  rewrite !take_ge by lia. rewrite Hl.
  rewrite (bool_decide_eq_true_2 (0 < length datagram)%nat) by lia.
  rewrite (bool_decide_eq_true_2 (0 < S (length datagram))%nat) by lia.
  assert (write_at 0 datagram stack = datagram ++ drop (length datagram) stack) as ->.
  { unfold write_at. by rewrite take_0. }
  assert (write_at 0 (datagram ++ [NL]) stack
          = datagram ++ NL :: drop (S (length datagram)) stack) as ->.
  { unfold write_at. rewrite take_0, Hl. simpl. by rewrite <- app_assoc. }
  rewrite bool_decide_eq_true_2.
  2:{ rewrite lookup_app_l by lia.
      replace (length datagram - 1)%nat with (pred (length datagram)) by lia.
      by rewrite <- last_lookup. }
  rewrite bool_decide_eq_false_2.
  2:{ intros H. apply H. rewrite lookup_app_r by lia.
      replace (S (length datagram) - 1 - length datagram)%nat with 0%nat by lia. done. }
  assert (write_at (length datagram) [NL] (datagram ++ drop (length datagram) stack)
          = datagram ++ NL :: drop (S (length datagram)) stack) as ->; [|done].
  unfold write_at. rewrite take_app_length. simpl. f_equal. f_equal.
  rewrite drop_app_ge by lia. rewrite drop_drop. f_equal. lia.
Qed.
End Framing.

Lemma final_newline_is_optional_witness :
  udp_read_cb [] (bytes_of "aa:1|c") d_start = udp_read_cb [] (lines ["aa:1|c"]) d_start.
Proof.
  apply (final_newline_is_optional [] (bytes_of "aa:1|c") d_start).
  - discriminate.
  - vm_compute. discriminate.
  - vm_compute. lia.
Defined.

(** ** What the writable callback sends *)

Section Sending.
Context {double : Type} {libc : Libc double}.
Implicit Types (d : downstream_s double).

Lemma select_host_alive n host d d' :
  select_host n host d = Some d' ->
  d' = set_current_downstream (current_downstream_host d') d
  /\ (current_downstream_host d' = None
      \/ exists p h, current_downstream_host d' = Some p
           /\ host_mem d !! p = Some h /\ alive h = true).
Proof.
  revert host. induction n as [|n IH]; intros host H; simpl in H.
  { simplify_eq. split; [done|]. by left. }
  destruct (advance host d) as [host'|]; simplify_eq/=.
  destruct (host_mem d !! host') as [h'|] eqn:Hh; simplify_eq/=.
  destruct (alive h') eqn:Ha; simplify_eq; [|by eapply IH].
  split; [done|]. right. by exists host', h'.
Qed.

Lemma set_current_alive d d' :
  set_current_downstream_host d = Some d' ->
  d' = set_current_downstream (current_downstream_host d') d
  /\ (current_downstream_host d' = None
      \/ exists p h, current_downstream_host d' = Some p
           /\ host_mem d !! p = Some h /\ alive h = true).
Proof.
  unfold set_current_downstream_host. intros H.
  destruct (current_downstream_host d) as [host|] eqn:Hc; [by eapply select_host_alive|].
  destruct (downstream_hosts d) as [host|]; [by eapply select_host_alive|].
  simplify_eq. rewrite Hc. split; [|by left]. rewrite <- Hc. by destruct d'.
Qed.

(** What the writable callback does, whatever the state of the ring. *)
Lemma flush_cb_spec b d d' :
  downstream_flush_cb false b d = Some d' ->
  (current_downstream_host d' = None
   /\ sent d' = sent d /\ flush_watcher d' = false
   /\ buffer_length d' = buffer_length d
   /\ flush_buffer_idx d' = flush_buffer_idx d)
  \/ exists p h,
       host_mem d !! p = Some h /\ alive h = true
       /\ current_downstream_host d' = Some p
       /\ sent d' = sent d
            ++ [(sa_in_data h,
                 take (Z.to_nat (buffer_length d !!! flush_buffer_idx d))
                   (buffer d !!! flush_buffer_idx d))]
       /\ buffer_length d' = <[flush_buffer_idx d := 0]> (buffer_length d)
       /\ flush_buffer_idx d' = ((flush_buffer_idx d + 1) mod DOWNSTREAM_BUF_NUM)%nat
       /\ flush_watcher d'
          = (if bool_decide (flush_buffer_idx d' = active_buffer_idx d)
             then false else flush_watcher d).
Proof.
  unfold downstream_flush_cb. intros H.
  destruct (set_current_downstream_host d) as [d1|] eqn:Hs; simplify_eq/=.
  apply set_current_alive in Hs as [Hd1 Hcur].
  destruct Hcur as [Hnone|(p & h & Hp & Hh & Ha)].
  - rewrite Hnone in H. simplify_eq. left. rewrite Hd1. done.
  - rewrite Hp in H. rewrite Hd1 in H at 1. cbn [host_mem set_current_downstream] in H.
    rewrite Hh in H. simplify_eq/=. right. exists p, h.
    rewrite Hd1. cbn.
    repeat case_bool_decide; cbn; rewrite ?Hp; done.
Qed.

Lemma flush_cb_active b d d' :
  downstream_flush_cb false b d = Some d' -> active_buffer_idx d' = active_buffer_idx d.
Proof.
  unfold downstream_flush_cb. intros H.
  destruct (set_current_downstream_host d) as [d1|] eqn:Hs; [|done].
  cbn [mbind option_bind] in H.
  apply set_current_relay in Hs. unfold relay_part in Hs.
  assert (active_buffer_idx d1 = active_buffer_idx d) as <- by (by simplify_eq).
  destruct (current_downstream_host d1); [|by simplify_eq].
  destruct (host_mem d1 !! _); [|done]. cbn [mbind option_bind] in H.
  injection H as <-. repeat case_bool_decide; done.
Qed.


(** A rotation that is not refused, field by field. *)
Lemma schedule_flush_rotates d :
  ~ buffer_length d !!! ((active_buffer_idx d + 1) mod DOWNSTREAM_BUF_NUM)%nat > 0 ->
  let d' := downstream_schedule_flush d in
  buffer d' = <[active_buffer_idx d := (pack_slots (slots d)).1]> (buffer d)
  /\ buffer_length d' = <[active_buffer_idx d := (pack_slots (slots d)).2]> (buffer_length d)
  /\ active_buffer_idx d' = ((active_buffer_idx d + 1) mod DOWNSTREAM_BUF_NUM)%nat
  /\ flush_buffer_idx d' = flush_buffer_idx d
  /\ flush_watcher d'
     = (if bool_decide (active_buffer_idx d = flush_buffer_idx d)
        then true else flush_watcher d)
  /\ host_mem d' = host_mem d /\ downstream_hosts d' = downstream_hosts d
  /\ current_downstream_host d' = current_downstream_host d
  /\ downstream_host_num d' = downstream_host_num d
  /\ sent d' = sent d /\ error_log d' = error_log d.
Proof.
  intros Hfree. cbn zeta. unfold downstream_schedule_flush.
  rewrite bool_decide_eq_false_2 by done.
  destruct (pack_slots (slots d)) as [data len].
  repeat case_bool_decide; done.
Qed.

Lemma set_current_host_part d1 d2 :
  host_mem d1 = host_mem d2 -> downstream_hosts d1 = downstream_hosts d2 ->
  current_downstream_host d1 = current_downstream_host d2 ->
  downstream_host_num d1 = downstream_host_num d2 ->
  current_downstream_host <$> set_current_downstream_host d1
  = current_downstream_host <$> set_current_downstream_host d2.
Proof.
  intros Hm Hh Hc Hn.
  assert (forall n host, current_downstream_host <$> select_host n host d1
                         = current_downstream_host <$> select_host n host d2) as Hsel.
  { induction n as [|n IH]; intros host; simpl; [done|].
    unfold advance. rewrite Hm, Hh.
    destruct (host_mem d2 !! host) as [h|]; simpl; [|done].
    destruct (match next h with Some p => Some p | None => downstream_hosts d2 end)
      as [host'|]; simpl; [|done].
    destruct (host_mem d2 !! host') as [h'|]; simpl; [|done].
    destruct (alive h'); [done|]. apply IH. }
  unfold set_current_downstream_host. rewrite Hc, Hh, Hn.
  destruct (current_downstream_host d2) eqn:Hc2; [apply Hsel|].
  destruct (downstream_hosts d2); [apply Hsel|]. simpl. by rewrite Hc, Hc2.
Qed.

(** X10.  With nothing queued in the ring and something in the table
    that a region of the ring can take, a flush tick followed by a writable
    socket empty the table and either send the filled slots as one datagram
    of at most [DOWNSTREAM_BUF_SIZE] bytes to an alive host, leaving the
    ring empty and the watcher stopped, or, when the scan of
    [downstream_host_num] hosts that [set_current_downstream_host] makes
    finds none alive, send nothing, stop the watcher and keep the packed
    bytes queued. *)
Theorem idle_relay_sends_what_it_packed b d d' :
  state_ok d ->
  downstream_schedule_flush_in_bounds d = true ->
  Forall (fun v => v = 0) (buffer_length d) ->
  flush_buffer_idx d = active_buffer_idx d ->
  active_buffer_length d > 0 ->
  run [EvFlushTimer; EvFlushWritable b] d = Some d' ->
  slots d' = [] /\ active_buffer_length d' = 0
  /\ Z.of_nat (length (pack_slots (slots d)).1) <= DOWNSTREAM_BUF_SIZE
  /\ ((exists p h,
         host_mem d !! p = Some h /\ alive h = true
         /\ sent d' = sent d ++ [(sa_in_data h, (pack_slots (slots d)).1)]
         /\ Forall (fun v => v = 0) (buffer_length d')
         /\ flush_buffer_idx d' = active_buffer_idx d'
         /\ flush_watcher d' = false)
      \/ (current_downstream_host <$> set_current_downstream_host d = Some None
          /\ sent d' = sent d
          /\ flush_watcher d' = false
          /\ buffer_length d'
             = <[active_buffer_idx d := (pack_slots (slots d)).2]> (buffer_length d))).
Proof.
  intros (Hok & Hnd & Ha & Hf & Hlb & Hl & Hn & H0) Hin Hzero Hidle Habl Hrun.
  cbn [run step] in Hrun. unfold downstream_flush_timer_cb in Hrun.
  rewrite bool_decide_eq_true_2 in Hrun by done. cbn [mbind option_bind] in Hrun.
  assert ((active_buffer_idx d + 1) mod DOWNSTREAM_BUF_NUM < DOWNSTREAM_BUF_NUM)%nat as Hlt
    by (apply Nat.mod_upper_bound; done).
  assert (~ buffer_length d !!! ((active_buffer_idx d + 1) mod DOWNSTREAM_BUF_NUM)%nat > 0)
    as Hfree.
  { destruct (lookup_lt_is_Some_2 (buffer_length d)
                ((active_buffer_idx d + 1) mod DOWNSTREAM_BUF_NUM)%nat) as [v Hv]; [lia|].
    rewrite (list_lookup_total_correct _ _ _ Hv).
    pose proof (Forall_lookup_1 _ _ _ _ Hzero Hv) as Hv0. simpl in Hv0. lia. }
  pose proof (schedule_flush_rotates d Hfree)
    as (Eb & El & Ea & Ef & Ew & Em & Eh & Ec & En & Es & Ee).
  pose proof (flush_clears_slots d) as Eslots.
  pose proof (flush_clears_accounting d) as Eabl.
  rewrite bool_decide_eq_true_2 in Ew by done.
  destruct (pack_slots_spec (slots d) Hok) as [_ Hlen].
  assert (Z.of_nat (length (pack_slots (slots d)).1) <= DOWNSTREAM_BUF_SIZE) as Hfit.
  { unfold downstream_schedule_flush_in_bounds in Hin. cbv zeta in Hin.
    rewrite !andb_true_iff, orb_true_iff, andb_true_iff, !bool_decide_eq_true in Hin.
    destruct Hin as [_ [Hin|[_ Hin]]]; [done|]. by rewrite <- Hlen. }
  set (d2 := downstream_schedule_flush d) in *.
  rewrite Ew in Hrun.
  destruct (downstream_flush_cb false b d2) as [d3|] eqn:Hcb; [|done].
  cbn [mbind option_bind] in Hrun. injection Hrun as ->.
  pose proof (flush_cb_table _ _ _ _ Hcb) as [-> ->].
  split; [done|]. split; [done|]. split; [done|].
  pose proof (set_current_host_part d2 d Em Eh Ec En) as Hsame.
  pose proof Hcb as Hcb2.
  apply flush_cb_spec in Hcb as [(H1 & H2 & H3 & H4 & H5)|(p & h & H1 & H2 & H3 & H4 & H5 & H6 & H7)].
  - right. rewrite <- Hsame. split.
    { unfold downstream_flush_cb in Hcb2.
      destruct (set_current_downstream_host d2) as [d4|]; [|done].
      cbn [mbind option_bind fmap option_fmap option_map] in *.
      destruct (current_downstream_host d4) as [q|] eqn:Hc4; [|done].
      destruct (host_mem d4 !! q); [|done]. cbn [mbind option_bind] in Hcb2.
      injection Hcb2 as <-. revert H1.
      repeat case_bool_decide; cbn; by rewrite Hc4. }
    rewrite H2, H3, H4, Es, El. done.
  - left. exists p, h. rewrite <- Em. split; [done|]. split; [done|].
    rewrite H4, H5, H6, H7, Es, Eb, El, Ef, Ea, Hidle.
    rewrite !list_lookup_total_insert_eq by lia.
    rewrite Hlen, Nat2Z.id, firstn_all.
    split; [done|]. rewrite list_insert_insert_eq.
    split.
    { apply Forall_insert; done. }
    rewrite (flush_cb_active _ _ _ Hcb2), Ea.
    split; [done|]. rewrite H6, Ef, Hidle. by rewrite bool_decide_eq_true_2.
Qed.
End Sending.


Lemma idle_relay_sends_what_it_packed_witness :
  downstream_schedule_flush_in_bounds d_two_names = true
  /\ run [EvFlushTimer; EvFlushWritable 14] d_two_names = Some d_relayed
  /\ slots d_relayed = [] /\ active_buffer_length d_relayed = 0
  /\ Z.of_nat (length (pack_slots (slots d_two_names)).1) <= DOWNSTREAM_BUF_SIZE
  /\ ((exists p h,
         host_mem d_two_names !! p = Some h /\ alive h = true
         /\ sent d_relayed
            = sent d_two_names ++ [(sa_in_data h, (pack_slots (slots d_two_names)).1)]
         /\ Forall (fun v => v = 0) (buffer_length d_relayed)
         /\ flush_buffer_idx d_relayed = active_buffer_idx d_relayed
         /\ flush_watcher d_relayed = false)
      \/ (current_downstream_host <$> set_current_downstream_host d_two_names = Some None
          /\ sent d_relayed = sent d_two_names
          /\ flush_watcher d_relayed = false
          /\ buffer_length d_relayed
             = <[active_buffer_idx d_two_names := (pack_slots (slots d_two_names)).2]>
                 (buffer_length d_two_names))).
Proof.
  assert (downstream_schedule_flush_in_bounds d_two_names = true) as Hb
    by (vm_compute; reflexivity).
  assert (Forall (fun v => v = 0) (buffer_length d_two_names)) as Hz.
  { vm_compute. repeat constructor. }
  assert (flush_buffer_idx d_two_names = active_buffer_idx d_two_names) as Hi
    by (vm_compute; reflexivity).
  assert (active_buffer_length d_two_names > 0) as Ha by (vm_compute; reflexivity).
  assert (run [EvFlushTimer; EvFlushWritable 14] d_two_names = Some d_relayed) as Hr
    by (vm_compute; reflexivity).
  split; [exact Hb|]. split; [exact Hr|].
  exact (idle_relay_sends_what_it_packed 14 d_two_names d_relayed
           d_two_names_ok Hb Hz Hi Ha Hr).
Defined.

(** ** The two writers of the [alive] bit, again *)

Section Health.
Context {double : Type} {libc : Libc double}.
Implicit Types (d : downstream_s double) (h : downstream_host_s).

Lemma mark_down_spec p d h :
  host_mem d !! p = Some h ->
  downstream_mark_down p d
  = Some (set_host_mem
            (<[p := set_alive false
                      (set_health_fd (if bool_decide (health_fd h > 0) then -1
                                      else health_fd h) h)]> (host_mem d)) d).
Proof.
  intros Hh. unfold downstream_mark_down. rewrite Hh. cbn [mbind option_bind].
  do 2 f_equal. f_equal.
  destruct h as [a nx fd act al]. simpl.
  case_bool_decide; simpl; by destruct al.
Qed.

(** X11.  [downstream_mark_down] clears the [alive] bit of its host and
    forgets the probe descriptor when one was open; the address, the link
    and every other host stay as they were, and marking the same host down
    again changes nothing. *)
Theorem mark_down_closes_and_clears p d h :
  host_mem d !! p = Some h ->
  exists d' h',
    downstream_mark_down p d = Some d'
    /\ host_mem d' = <[p := h']> (host_mem d)
    /\ alive h' = false
    /\ health_fd h' = (if bool_decide (health_fd h > 0) then -1 else health_fd h)
    /\ sa_in_data h' = sa_in_data h /\ next h' = next h
    /\ health_active h' = health_active h
    /\ d' = set_host_mem (host_mem d') d
    /\ downstream_mark_down p d' = Some d'.
Proof.
  intros Hh. rewrite (mark_down_spec p d h Hh).
  set (h' := set_alive false
               (set_health_fd (if bool_decide (health_fd h > 0) then -1
                               else health_fd h) h)).
  exists (set_host_mem (<[p := h']> (host_mem d)) d), h'.
  split; [done|]. split; [done|]. repeat (split; [done|]).
  rewrite (mark_down_spec p _ h') by apply lookup_insert_eq.
  assert (set_alive false
            (set_health_fd (if bool_decide (health_fd h' > 0) then -1
                            else health_fd h') h') = h') as ->.
  { unfold h'. destruct h as [a nx fd act al]. simpl.
    repeat case_bool_decide; simpl; try done; lia. }
  cbn [host_mem set_host_mem]. by rewrite insert_insert_eq.
Qed.

(** X12.  After [downstream_health_read_cb] the host is alive exactly when
    [recv] delivered at least the eleven bytes of [HEALTH_CHECK_UP_RESPONSE]
    and the reply begins with them; in every other case, a failed or
    empty read included, it is marked down.  The watcher is stopped either
    way, and the descriptor is kept only when the host is alive.  (The
    reply is taken to leave room for the terminator the code stores after
    it.) *)
Theorem host_is_alive_iff_reply_begins_with_up p n (response : bytes) d h :
  host_mem d !! p = Some h ->
  n < DOWNSTREAM_HEALTH_CHECK_BUF_SIZE ->
  (Z.to_nat n <= length response)%nat ->
  exists d' h',
    downstream_health_read_cb p n response d = Some d'
    /\ host_mem d' = <[p := h']> (host_mem d)
    /\ d' = set_host_mem (host_mem d') d
    /\ (alive h' = true <->
        Z.of_nat (length HEALTH_CHECK_UP_RESPONSE) <= n
        /\ take (length HEALTH_CHECK_UP_RESPONSE) response = HEALTH_CHECK_UP_RESPONSE)
    /\ health_active h' = false
    /\ sa_in_data h' = sa_in_data h /\ next h' = next h
    /\ health_fd h'
       = (if alive h' then health_fd h
          else if bool_decide (health_fd h > 0) then -1 else health_fd h).
Proof.
  intros Hh _ Hn. unfold downstream_health_read_cb. rewrite Hh. cbn [mbind option_bind].
  set (d1 := set_host_mem (<[p := set_health_active false h]> (host_mem d)) d).
  assert (host_mem d1 !! p = Some (set_health_active false h)) as Hh1
    by apply lookup_insert_eq.
  assert (length HEALTH_CHECK_UP_RESPONSE = 11%nat) as Hup by done.
  assert (forall d', downstream_mark_down p d1 = Some d' ->
    ~ (Z.of_nat (length HEALTH_CHECK_UP_RESPONSE) <= n
       /\ take (length HEALTH_CHECK_UP_RESPONSE) response = HEALTH_CHECK_UP_RESPONSE) ->
    exists h', host_mem d' = <[p := h']> (host_mem d)
      /\ d' = set_host_mem (host_mem d') d
      /\ (alive h' = true <->
          Z.of_nat (length HEALTH_CHECK_UP_RESPONSE) <= n
          /\ take (length HEALTH_CHECK_UP_RESPONSE) response = HEALTH_CHECK_UP_RESPONSE)
      /\ health_active h' = false
      /\ sa_in_data h' = sa_in_data h /\ next h' = next h
      /\ health_fd h'
         = (if alive h' then health_fd h
            else if bool_decide (health_fd h > 0) then -1 else health_fd h)) as Hdown.
  { intros d' Hd' Hnot. rewrite (mark_down_spec p d1 _ Hh1) in Hd'. injection Hd' as <-.
    eexists. cbn [host_mem set_host_mem d1]. rewrite insert_insert_eq.
    split; [done|]. split; [done|]. simpl. split; [|done].
    split; [done|]. intros H. by destruct Hnot. }
  destruct (bool_decide (n <= 0)) eqn:Hpos.
  { apply bool_decide_eq_true_1 in Hpos.
    destruct (downstream_mark_down p d1) as [d'|] eqn:Hd'.
    2:{ by rewrite (mark_down_spec p d1 _ Hh1) in Hd'. }
    destruct (Hdown d' eq_refl) as (h' & H'); [lia|]. by exists d', h'. }
  apply bool_decide_eq_false_1 in Hpos.
  destruct (memcmp_eq (take (Z.to_nat n) response ++ [NUL]) HEALTH_CHECK_UP_RESPONSE
              (length HEALTH_CHECK_UP_RESPONSE)) eqn:Hcmp; cbn [negb].
  2:{ destruct (downstream_mark_down p d1) as [d'|] eqn:Hd'.
      2:{ by rewrite (mark_down_spec p d1 _ Hh1) in Hd'. }
      destruct (Hdown d' eq_refl) as (h' & H'); [|by exists d', h'].
      intros [Hlen Htake]. unfold memcmp_eq in Hcmp.
      apply bool_decide_eq_false_1 in Hcmp. apply Hcmp.
      rewrite take_app_le by (rewrite length_take_le; lia).
      rewrite take_take. rewrite Nat.min_l by lia.
      rewrite Htake. by rewrite firstn_all. }
  unfold memcmp_eq in Hcmp. apply bool_decide_eq_true_1 in Hcmp.
  rewrite (firstn_all HEALTH_CHECK_UP_RESPONSE) in Hcmp.
  assert (Z.of_nat (length HEALTH_CHECK_UP_RESPONSE) <= n) as Hlen.
  { destruct (decide (Z.of_nat (length HEALTH_CHECK_UP_RESPONSE) <= n)) as [|Hsmall]; [done|].
    exfalso. rewrite take_ge in Hcmp by (rewrite length_app, length_take_le; simpl; lia).
    assert (last (take (Z.to_nat n) response ++ [NUL]) = Some NUL) as Hl
      by apply last_snoc.
    rewrite Hcmp in Hl. done. }
  assert (take (length HEALTH_CHECK_UP_RESPONSE) response = HEALTH_CHECK_UP_RESPONSE)
    as Htake.
  { rewrite <- Hcmp at 2. rewrite take_app_le by (rewrite length_take_le; lia).
    rewrite take_take. f_equal. lia. }
  rewrite Hh1. cbn [mbind option_bind].
  destruct (alive (set_health_active false h)) eqn:Hal.
  - eexists d1, _. split; [done|]. unfold d1. cbn [host_mem set_host_mem].
    split; [done|]. split; [done|]. simpl in *. rewrite Hal. done.
  - eexists _, _. split; [done|]. cbn [host_mem set_host_mem d1].
    rewrite insert_insert_eq. split; [done|]. split; [done|]. simpl. done.
Qed.
End Health.

Lemma mark_down_closes_and_clears_witness :
  exists d' h',
    downstream_mark_down 1%nat d_booted = Some d'
    /\ host_mem d' = <[1%nat := h']> (host_mem d_booted)
    /\ alive h' = false.
Proof.
  assert (host_mem d_booted !! 1%nat = Some (Build_downstream_host_s 10 None (-1) false true))
    as Hh by (vm_compute; reflexivity).
  destruct (mark_down_closes_and_clears 1%nat d_booted _ Hh) as (d' & h' & H1 & H2 & H3 & _).
  exists d', h'. split; [exact H1|]. split; [exact H2|exact H3].
Defined.

Lemma host_is_alive_iff_reply_begins_with_up_witness :
  exists d' h',
    downstream_health_read_cb 1%nat 11 HEALTH_UP d_hosts = Some d'
    /\ host_mem d' = <[1%nat := h']> (host_mem d_hosts)
    /\ alive h' = true.
Proof.
  assert (host_mem d_hosts !! 1%nat = Some (Build_downstream_host_s 10 None (-1) false false))
    as Hh by (vm_compute; reflexivity).
  assert (11 < DOWNSTREAM_HEALTH_CHECK_BUF_SIZE) as Hn by (vm_compute; reflexivity).
  assert (Z.to_nat 11 <= length HEALTH_UP)%nat as Hl by (vm_compute; lia).
  destruct (host_is_alive_iff_reply_begins_with_up 1%nat 11 HEALTH_UP d_hosts _ Hh Hn Hl)
    as (d' & h' & H1 & H2 & _ & H4 & _).
  exists d', h'. split; [exact H1|]. split; [exact H2|].
  apply H4. split; [vm_compute; discriminate|vm_compute; reflexivity].
Defined.

(** ** Reconciliation with a changed set of addresses *)

Section Reconcile.
Context {double : Type} {libc : Libc double}.
Implicit Types (d : downstream_s double) (ps qs ks : list ptr)
  (mem : gmap ptr downstream_host_s) (arr : list Z).

Lemma chain_frame mem mem' head ps :
  (forall p, p ∈ ps -> mem' !! p = mem !! p) ->
  chain mem head ps -> chain mem' head ps.
Proof.
  revert head. induction ps as [|p ps IH]; intros head Hf Hc; [done|].
  destruct Hc as [-> (h & Hh & Hc)]. split; [done|]. exists h. split.
  - rewrite Hf; [done|]. by left.
  - apply IH; [|done]. intros q Hq. apply Hf. by right.
Qed.

Lemma chain_app mem head ps qs :
  chain mem head (ps ++ qs) ->
  exists mid, chain mem mid qs
    /\ (ps = [] -> mid = head)
    /\ (forall p, last ps = Some p -> exists h, mem !! p = Some h /\ next h = mid).
Proof.
  revert head. induction ps as [|p ps IH]; intros head Hc; simpl in *.
  - exists head. split; [done|]. split; [done|]. done.
  - destruct Hc as [-> (h & Hh & Hc)].
    destruct (IH _ Hc) as (mid & Hm & Hnil & Hlast).
    exists mid. split; [done|]. split; [done|].
    intros q Hq. destruct ps as [|p' ps'].
    + simpl in Hq. simplify_eq. exists h. split; [done|]. symmetry. by apply Hnil.
    + apply Hlast. by rewrite last_cons_cons in Hq.
Qed.

Lemma match_new_addr_none a arr n :
  a ∉ take n arr -> match_new_addr a arr n = None.
Proof.
  revert n. induction arr as [|x arr IH]; intros [|n] Ha; simpl in *; try done.
  apply not_elem_of_cons in Ha as [Hx Ha].
  rewrite bool_decide_eq_false_2 by done. by rewrite IH.
Qed.

Lemma match_new_addr_length a arr n arr' :
  match_new_addr a arr n = Some arr' -> length arr' = length arr.
Proof.
  revert n arr'. induction arr as [|x arr IH]; intros [|n] arr' H; simpl in *; try done.
  case_bool_decide; simplify_eq/=; [done|].
  destruct (match_new_addr a arr n) eqn:Hm; simplify_eq/=. f_equal. by eapply IH.
Qed.

(** What is left of the resolved addresses once a host has taken its own. *)
Lemma match_new_addr_left a arr n arr' :
  a <> 0 -> match_new_addr a arr n = Some arr' ->
  filter (fun x => x <> 0) (take n arr) ≡ₚ a :: filter (fun x => x <> 0) (take n arr')
  /\ forall b, b <> 0 -> b <> a -> (b ∈ take n arr' <-> b ∈ take n arr).
Proof.
  intros Ha. revert n arr'. induction arr as [|x arr IH]; intros [|n] arr' H; simpl in *;
    try done.
  case_bool_decide as Hx; simplify_eq/=.
  - rewrite filter_cons_True by done. rewrite filter_cons_False by (intros H; by apply H).
    split; [done|]. intros b Hb Hba. rewrite !elem_of_cons.
    split; intros [?|?]; [done|by right|done|by right].
  - destruct (match_new_addr a arr n) as [arr1|] eqn:Hm; simplify_eq/=.
    destruct (IH n arr1 Hm) as [IH1 IH2]. split.
    + destruct (decide (x = 0)) as [->|Hx0].
      * rewrite !filter_cons_False by (intros H; by apply H). done.
      * rewrite !filter_cons_True by done. rewrite IH1. apply perm_swap.
    + intros b Hb Hba. rewrite !elem_of_cons. by rewrite IH2.
Qed.

Lemma resolved_set_in_addr_new arr d :
  resolved (set_in_addr_new arr d) = take (downstream_host_num d) arr.
Proof. done. Qed.

(** The loop over hosts that all find their address: only the array changes,
    each host taking one entry equal to its address. *)
Lemma remove_kept_prefix ks fuel host prev d qs :
  chain (host_mem d) host (ks ++ qs) ->
  Forall (fun p => host_addr (host_mem d) p <> 0) ks ->
  host_addr (host_mem d) <$> ks ⊆+ filter (fun x => x <> 0) (resolved d) ->
  exists arr',
    remove_stale_hosts (length ks + fuel) host prev d
    = remove_stale_hosts fuel (qs !! 0%nat)
        (match last ks with Some k => LinkNext k | None => prev end)
        (set_in_addr_new arr' d)
    /\ (host_addr (host_mem d) <$> ks)
         ++ filter (fun x => x <> 0) (take (downstream_host_num d) arr')
       ≡ₚ filter (fun x => x <> 0) (resolved d)
    /\ (forall b, b <> 0 -> b ∉ host_addr (host_mem d) <$> ks ->
          (b ∈ take (downstream_host_num d) arr' <-> b ∈ resolved d)).
Proof.
  revert fuel host prev d. induction ks as [|k ks IH]; intros fuel host prev d Hc Hnz Hsub.
  - exists (in_addr_new d). simpl in *. rewrite set_in_addr_new_same.
    apply chain_head in Hc as ->. done.
  - destruct Hc as [-> (h & Hh & Hc)].
    apply Forall_cons in Hnz as [Hk Hnz].
    rewrite fmap_cons in Hsub. unfold host_addr at 1 in Hsub. unfold host_addr in Hk.
    rewrite Hh in Hsub, Hk.
    assert (sa_in_data h ∈ resolved d) as Hin.
    { assert (sa_in_data h ∈ filter (fun x => x <> 0) (resolved d)) as Hf.
      { eapply elem_of_submseteq; [|exact Hsub]. by left. }
      by apply list_elem_of_filter in Hf as [_ ?]. }
    destruct (match_new_addr_found _ _ _ Hin) as (arr1 & l1 & l2 & Hm & _ & _).
    destruct (match_new_addr_left _ _ _ _ Hk Hm) as [Hperm Hmem].
    cbn [length Nat.add remove_stale_hosts]. rewrite Hh. cbn [mbind option_bind].
    rewrite Hm.
    destruct (IH fuel (next h) (LinkNext k) (set_in_addr_new arr1 d)) as (arr' & Hr & Hp & Hb).
    + done.
    + done.
    + rewrite resolved_set_in_addr_new. cbn [host_mem set_in_addr_new].
      fold (resolved d) in Hperm. rewrite Hperm in Hsub.
      by apply (submseteq_app_inv_l _ _ [sa_in_data h]) in Hsub.
    + exists arr'. cbn [host_mem set_in_addr_new downstream_host_num] in *.
      split; [|split].
      * rewrite Hr.
        replace (set_in_addr_new arr' (set_in_addr_new arr1 d))
          with (set_in_addr_new arr' d) by done.
        destruct ks as [|k' ks']; [done|]. rewrite last_cons_cons.
        destruct (last (k' :: ks')) eqn:E; [done|]. by apply last_None in E.
      * rewrite fmap_cons. unfold host_addr at 1. rewrite Hh. simpl.
        rewrite resolved_set_in_addr_new in Hp. rewrite Hp. by rewrite <- Hperm.
      * intros b Hb0 Hbn. rewrite fmap_cons in Hbn. apply not_elem_of_cons in Hbn as [Hb1 Hb2].
        unfold host_addr at 1 in Hb1. rewrite Hh in Hb1.
        rewrite (Hb b Hb0 Hb2). rewrite resolved_set_in_addr_new. by apply Hmem.
Qed.

(** One turn of the loop for a host whose address is not in the array. *)
Lemma remove_stale_step fuel p prev d h :
  host_mem d !! p = Some h -> sa_in_data h ∉ resolved d ->
  remove_stale_hosts (S fuel) (Some p) prev d
  = d1 ← store_link prev (next h) (set_current_downstream (downstream_hosts d) d);
    remove_stale_hosts fuel (next h) (LinkNext p) (set_host_mem (delete p (host_mem d1)) d1).
Proof.
  intros Hh Hn. cbn [remove_stale_hosts]. rewrite Hh. cbn [mbind option_bind].
  by rewrite match_new_addr_none.
Qed.

Lemma chain_fresh d ps (p : ptr) :
  chain (host_mem d) (downstream_hosts d) ps -> heap_fresh d ->
  (host_alloc d < p)%nat -> p ∉ ps.
Proof.
  intros Hc Hf Hp Hin. destruct (chain_in_heap _ _ _ _ Hc Hin) as [h Hh].
  pose proof (Hf p Hp) as Hnone. congruence.
Qed.

(** The second loop: one node for each entry that is not zero, each put in
    front of the list. *)
Lemma add_new_hosts_spec addrs d ps :
  chain (host_mem d) (downstream_hosts d) ps ->
  heap_fresh d ->
  let d' := add_new_hosts addrs d in
  exists qs,
    chain (host_mem d') (downstream_hosts d') (qs ++ ps)
    /\ host_addr (host_mem d') <$> qs = reverse (filter (fun a => a <> 0) addrs)
    /\ Forall (fun q => (host_alloc d < q)%nat
                 /\ exists h, host_mem d' !! q = Some h /\ host_is_new h) qs
    /\ (forall p, (p <= host_alloc d)%nat -> host_mem d' !! p = host_mem d !! p)
    /\ heap_fresh d'
    /\ current_downstream_host d' = current_downstream_host d
    /\ in_addr_new d' = in_addr_new d
    /\ downstream_host_num d' = downstream_host_num d
    /\ in_addr_new_ready d' = in_addr_new_ready d.
Proof.
  revert d ps. induction addrs as [|a addrs IH]; intros d ps Hc Hf; cbn zeta.
  { exists []. simpl. repeat split; done. }
  cbn [add_new_hosts]. case_bool_decide as Ha.
  { rewrite filter_cons_False by (intros H; by apply H). by apply IH. }
  rewrite filter_cons_True by done.
  set (p := S (host_alloc d)).
  set (h := Build_downstream_host_s a (downstream_hosts d) (-1) false false).
  set (d1 := set_downstream_hosts (Some p)
               (set_host_mem (<[p := h]> (host_mem d)) (set_host_alloc p d))).
  assert (p ∉ ps) as Hp by (eapply chain_fresh; [done..|unfold p; lia]).
  assert (chain (host_mem d1) (downstream_hosts d1) (p :: ps)) as Hc1.
  { split; [done|]. exists h. split; [apply lookup_insert_eq|].
    cbn [next h]. eapply chain_frame; [|done].
    intros q Hq. cbn. apply lookup_insert_ne. intros ->. done. }
  assert (heap_fresh d1) as Hf1.
  { intros q Hq. cbn in *. rewrite lookup_insert_ne by (unfold p; lia).
    apply Hf. unfold p in Hq. lia. }
  destruct (IH d1 (p :: ps) Hc1 Hf1) as (qs & H1 & H2 & H3 & H4 & H5 & H6 & H7 & H8 & H9).
  exists (qs ++ [p]). rewrite <- app_assoc. split; [done|].
  assert (host_mem (add_new_hosts addrs d1) !! (p : ptr) = Some h) as Hph.
  { rewrite H4 by (cbn; lia). apply lookup_insert_eq. }
  split; [|split; [|split; [|split]]].
  - rewrite fmap_app, H2, reverse_cons. f_equal. cbn [fmap list_fmap]. unfold host_addr.
    match goal with |- context [?m !! p] => replace (m !! p) with (Some h) end. done.
  - apply Forall_app. split.
    + eapply Forall_impl; [exact H3|]. intros q [Hq Hh]. split; [|done]. cbn in Hq.
      unfold p in Hq. lia.
    + apply Forall_singleton. split; [unfold p; lia|]. exists h. split; [done|]. done.
  - intros q Hq. rewrite H4 by (cbn; unfold p; lia). cbn.
    apply lookup_insert_ne. unfold p. lia.
  - done.
  - done.
Qed.

Lemma chain_below d ps (p : ptr) :
  chain (host_mem d) (downstream_hosts d) ps -> heap_fresh d -> p ∈ ps ->
  (p <= host_alloc d)%nat.
Proof.
  intros Hc Hf Hin. destruct (decide (p <= host_alloc d)%nat) as [|Hgt]; [done|].
  exfalso. eapply (chain_fresh d ps p); [done..|lia|done].
Qed.

Lemma host_addr_same mem mem' ps :
  (forall p, p ∈ ps -> mem' !! p = mem !! p) ->
  host_addr mem' <$> ps = host_addr mem <$> ps.
Proof.
  intros H. apply Forall_fmap_ext_1. apply Forall_forall. intros p Hp.
  unfold host_addr. by rewrite H.
Qed.

(** X13.  Reconciliation when every host of the list still has its address
    among those resolved: no host is removed or changed, one host is
    created for each resolved address that no host has taken, created
    hosts are not alive and are put in front of the list, and afterwards
    the hosts' addresses are the resolved addresses that are not zero,
    each as many times.  The cursor stays where it was. *)
Theorem new_addresses_become_hosts d ps :
  in_addr_new_ready d = true ->
  chain (host_mem d) (downstream_hosts d) ps ->
  heap_fresh d ->
  Forall (fun p => host_addr (host_mem d) p <> 0) ps ->
  host_addr (host_mem d) <$> ps ⊆+ filter (fun a => a <> 0) (resolved d) ->
  exists d' qs,
    update_downstreams d = Some d'
    /\ chain (host_mem d') (downstream_hosts d') (qs ++ ps)
    /\ host_addr (host_mem d') <$> (qs ++ ps) ≡ₚ filter (fun a => a <> 0) (resolved d)
    /\ Forall (fun q => exists h, host_mem d' !! q = Some h /\ host_is_new h) qs
    /\ (forall p, p ∈ ps -> host_mem d' !! p = host_mem d !! p)
    /\ current_downstream_host d' = current_downstream_host d
    /\ in_addr_new_ready d' = false.
Proof.
  intros Hready Hc Hf Hnz Hsub. unfold update_downstreams. rewrite Hready.
  pose proof (chain_length _ _ _ Hc) as Hlen.
  replace (size (host_mem d)) with (length ps + (size (host_mem d) - length ps))%nat by lia.
  destruct (remove_kept_prefix ps (size (host_mem d) - length ps) (downstream_hosts d)
              LinkHead d []) as (arr' & -> & Hperm & _); [by rewrite app_nil_r|done..|].
  assert (forall f prev d0, remove_stale_hosts f None prev d0 = Some d0) as Hnone
    by (by intros [|f] prev d0).
  cbn [lookup list_lookup]. rewrite Hnone. cbn [mbind option_bind].
  set (d1 := set_in_addr_new arr' d).
  destruct (add_new_hosts_spec (take (downstream_host_num d1) (in_addr_new d1)) d1 ps)
    as (qs & H1 & H2 & H3 & H4 & H5 & H6 & H7 & H8 & H9); [done..|].
  eexists _, qs. split; [done|].
  cbn [host_mem downstream_hosts current_downstream_host in_addr_new_ready
       set_in_addr_new_ready].
  assert (forall p, p ∈ ps -> host_mem (add_new_hosts
            (take (downstream_host_num d1) (in_addr_new d1)) d1) !! p = host_mem d !! p) as Hold.
  { intros p Hp. rewrite H4; [done|]. by eapply (chain_below d ps). }
  split; [done|]. split; [|split; [|done]].
  - rewrite fmap_app, H2, (host_addr_same (host_mem d) _ ps Hold).
    rewrite reverse_Permutation. rewrite <- Hperm. apply Permutation_app_comm.
  - eapply Forall_impl; [exact H3|]. by intros q [_ Hq].
Qed.

(** Taking [p] out of the list by storing its successor in the node before. *)
Lemma chain_unlink mem head ks k hk (p : ptr) hp rest :
  chain mem head (ks ++ p :: rest) -> last ks = Some k ->
  mem !! k = Some hk -> mem !! p = Some hp ->
  chain (delete p (<[k := set_next (next hp) hk]> mem)) head (ks ++ rest).
Proof.
  intros Hc. pose proof (chain_NoDup _ _ _ Hc) as Hnd. revert head Hc Hnd.
  induction ks as [|k0 ks IH]; intros head Hc Hnd Hlast Hk Hp; [done|].
  destruct Hc as [-> (h0 & Hh0 & Hc)].
  change ((k0 :: ks) ++ p :: rest) with (k0 :: (ks ++ p :: rest)) in Hnd.
  apply NoDup_cons in Hnd as [Hk0 Hnd].
  assert (k0 <> p) as Hk0p.
  { intros ->. apply Hk0. apply elem_of_app. right. by left. }
  destruct ks as [|k1 ks].
  - simpl in Hlast. injection Hlast as <-.
    assert (hk = h0) as -> by congruence.
    simpl in Hc. destruct Hc as [Hn (hp' & Hhp & Hc)].
    assert (hp' = hp) as -> by congruence.
    split; [done|]. exists (set_next (next hp) h0).
    split.
    { rewrite lookup_delete_ne by done. apply lookup_insert_eq. }
    cbn [next set_next]. eapply chain_frame; [|done].
    intros q Hq. simpl in Hnd. apply NoDup_cons in Hnd as [Hpq _].
    rewrite lookup_delete_ne by (intros ->; done).
    apply lookup_insert_ne. intros ->. apply Hk0. simpl. by right.
  - rewrite last_cons_cons in Hlast. split; [done|]. exists h0. split.
    { rewrite lookup_delete_ne by done. rewrite lookup_insert_ne; [done|].
      intros ->. apply Hk0. apply elem_of_app. left. by apply last_Some_elem_of. }
    by apply IH.
Qed.

(** The loop up to and including the first host whose address is not among
    those resolved: the hosts before it are kept, it is unlinked and freed,
    and the cursor is set to the head the list had. *)
Lemma remove_first_stale ks (p : ptr) hp rest fuel d :
  chain (host_mem d) (downstream_hosts d) (ks ++ p :: rest) ->
  host_mem d !! p = Some hp ->
  sa_in_data hp ∉ resolved d -> (ks <> [] -> sa_in_data hp <> 0) ->
  Forall (fun q => host_addr (host_mem d) q <> 0) ks ->
  host_addr (host_mem d) <$> ks ⊆+ filter (fun x => x <> 0) (resolved d) ->
  exists d3,
    remove_stale_hosts (length ks + S fuel) (downstream_hosts d) LinkHead d
    = remove_stale_hosts fuel (rest !! 0%nat) (LinkNext p) d3
    /\ chain (host_mem d3) (downstream_hosts d3) (ks ++ rest)
    /\ host_mem d3 !! p = None
    /\ (forall q : ptr, q <> p -> last ks <> Some q -> host_mem d3 !! q = host_mem d !! q)
    /\ (forall q h, host_mem d !! q = Some h -> q <> p ->
          exists h', host_mem d3 !! q = Some h' /\ h' = set_next (next h') h)
    /\ (forall q : ptr, host_mem d !! q = None -> host_mem d3 !! q = None)
    /\ current_downstream_host d3 = downstream_hosts d
    /\ (host_addr (host_mem d) <$> ks) ++ filter (fun x => x <> 0) (resolved d3)
       ≡ₚ filter (fun x => x <> 0) (resolved d)
    /\ (forall b, b <> 0 -> b ∉ host_addr (host_mem d) <$> ks ->
          (b ∈ resolved d3 <-> b ∈ resolved d))
    /\ downstream_host_num d3 = downstream_host_num d
    /\ host_alloc d3 = host_alloc d.
Proof.
  intros Hc Hp Hstale Hnz0 Hnz Hsub.
  assert (forall d1 : downstream_s double,
    host_mem d1 = host_mem d -> downstream_hosts d1 = downstream_hosts d ->
    sa_in_data hp ∉ resolved d1 ->
    forall prev,
    (match last ks with
     | Some k => prev = LinkNext k
     | None => prev = LinkHead end) ->
    exists d3,
      remove_stale_hosts (S fuel) (Some p) prev d1
      = remove_stale_hosts fuel (rest !! 0%nat) (LinkNext p) d3
      /\ chain (host_mem d3) (downstream_hosts d3) (ks ++ rest)
      /\ host_mem d3 !! p = None
      /\ (forall q : ptr, q <> p -> last ks <> Some q -> host_mem d3 !! q = host_mem d !! q)
      /\ (forall q h, host_mem d !! q = Some h -> q <> p ->
            exists h', host_mem d3 !! q = Some h' /\ h' = set_next (next h') h)
      /\ (forall q : ptr, host_mem d !! q = None -> host_mem d3 !! q = None)
      /\ current_downstream_host d3 = downstream_hosts d
      /\ in_addr_new d3 = in_addr_new d1
      /\ downstream_host_num d3 = downstream_host_num d1
      /\ host_alloc d3 = host_alloc d1) as Hstep.
  { intros d1 Hm1 Hh1 Hst1 prev Hprev.
    rewrite (remove_stale_step fuel p prev d1 hp) by (done || by rewrite Hm1).
    destruct (chain_app _ _ _ _ Hc) as (mid & Hmid & Hnil & Hlast).
    destruct Hmid as [-> (hp' & Hhp' & Hrest)].
    assert (hp' = hp) as -> by congruence.
    pose proof (chain_head _ _ _ Hrest) as Hnext.
    pose proof (chain_NoDup _ _ _ Hc) as Hnd.
    destruct (last ks) as [k|] eqn:Hk.
    - subst prev. destruct (Hlast k eq_refl) as (hk & Hhk & Hnk).
      cbn [store_link]. cbn [host_mem set_current_downstream]. rewrite Hm1, Hhk.
      cbn [mbind option_bind].
      eexists. split; [by rewrite <- Hnext|].
      cbn [host_mem downstream_hosts set_host_mem set_current_downstream
           current_downstream_host in_addr_new downstream_host_num host_alloc].
      rewrite Hh1.
      assert (k <> p) as Hkp.
      { intros ->. apply NoDup_app in Hnd as (_ & Hnd & _).
        apply (Hnd p); [by apply last_Some_elem_of|by left]. }
      split; [by eapply chain_unlink|]. split; [apply lookup_delete_eq|].
      split; [|split; [|split]].
      + intros q Hq Hqk. rewrite lookup_delete_ne by done.
        apply lookup_insert_ne. by intros ->.
      + intros q h Hq Hqp. rewrite lookup_delete_ne by done.
        destruct (decide (q = k)) as [->|Hqk].
        * rewrite lookup_insert_eq. eexists. split; [done|].
          assert (h = hk) as -> by congruence. by destruct hk.
        * rewrite lookup_insert_ne by done. exists h. split; [done|]. by destruct h.
      + intros q Hq. destruct (decide (q = p)) as [->|Hqp]; [apply lookup_delete_eq|].
        rewrite lookup_delete_ne by done. rewrite lookup_insert_ne; [done|].
        intros ->. congruence.
      + done.
    - subst prev. apply last_None in Hk. subst ks. specialize (Hnil eq_refl).
      simpl in *.
      cbn [store_link mbind option_bind].
      eexists. split; [by rewrite <- Hnext|].
      cbn [host_mem downstream_hosts set_host_mem set_current_downstream
           set_downstream_hosts current_downstream_host in_addr_new downstream_host_num
           host_alloc].
      rewrite Hm1, Hh1.
      apply NoDup_cons in Hnd as [Hpr _].
      split.
      { eapply chain_frame; [|done]. intros q Hq. apply lookup_delete_ne. by intros ->. }
      split; [apply lookup_delete_eq|].
      split; [|split; [|split]].
      + intros q Hq _. by apply lookup_delete_ne.
      + intros q h Hq Hqp. rewrite lookup_delete_ne by done. exists h.
        split; [done|]. by destruct h.
      + intros q Hq. destruct (decide (q = p)) as [->|Hqp]; [apply lookup_delete_eq|].
        by rewrite lookup_delete_ne.
      + done. }
  destruct ks as [|k0 ks0] eqn:Hks.
  - destruct (Hstep d eq_refl eq_refl Hstale LinkHead eq_refl)
      as (d3 & H1 & H2 & H3 & H4 & H5 & H6 & H7 & H8 & H9 & H10).
    exists d3. cbn [length Nat.add].
    pose proof (chain_head _ _ _ Hc) as Hhead. simpl in Hhead. rewrite Hhead at 1.
    split; [exact H1|]. repeat (split; [done|]).
    unfold resolved. rewrite H8, H9. done.
  - rewrite <- Hks in *.
    destruct (remove_kept_prefix ks (S fuel) (downstream_hosts d) LinkHead d (p :: rest)
                Hc Hnz Hsub) as (arr1 & -> & Hperm & Hmem).
    cbn [lookup list_lookup].
    assert (sa_in_data hp ∉ resolved (set_in_addr_new arr1 d)) as Hstale1.
    { rewrite resolved_set_in_addr_new. intros Hin. apply Hstale.
      apply Hmem; [apply Hnz0; by subst| |done].
      intros Hin2. apply Hstale.
      assert (sa_in_data hp ∈ filter (fun x => x <> 0) (resolved d)) as Hf.
      { eapply elem_of_submseteq; [exact Hin2|exact Hsub]. }
      by apply list_elem_of_filter in Hf as [_ ?]. }
    destruct (last ks) as [k|] eqn:Hk.
    2:{ apply last_None in Hk. by subst. }
    destruct (Hstep (set_in_addr_new arr1 d) eq_refl eq_refl Hstale1 (LinkNext k))
      as (d3 & H1 & H2 & H3 & H4 & H5 & H6 & H7 & H8 & H9 & H10).
    { done. }
    exists d3. split; [exact H1|]. repeat (split; [done|]).
    unfold resolved. rewrite H8, H9. cbn [in_addr_new downstream_host_num set_in_addr_new].
    split; [done|]. split; [done|]. split; done.
Qed.

Lemma remove_nothing_left f prev d : remove_stale_hosts f None prev d = Some d.
Proof. by destruct f. Qed.

(** The rest of the loop and the second loop, once the one stale host is
    out and the hosts after it all find their address. *)
Lemma reconcile_after_stale (p : ptr) ks qs fuel d d3 :
  chain (host_mem d) (downstream_hosts d) (ks ++ p :: qs) ->
  heap_fresh d ->
  chain (host_mem d3) (downstream_hosts d3) (ks ++ qs) ->
  host_mem d3 !! p = None ->
  (forall q h, host_mem d !! q = Some h -> q <> p ->
     exists h', host_mem d3 !! q = Some h' /\ h' = set_next (next h') h) ->
  (forall q : ptr, host_mem d !! q = None -> host_mem d3 !! q = None) ->
  (host_addr (host_mem d) <$> ks) ++ filter (fun x => x <> 0) (resolved d3)
    ≡ₚ filter (fun x => x <> 0) (resolved d) ->
  host_alloc d3 = host_alloc d ->
  Forall (fun q => host_addr (host_mem d) q <> 0) (ks ++ qs) ->
  host_addr (host_mem d) <$> (ks ++ qs) ⊆+ filter (fun a => a <> 0) (resolved d) ->
  exists d4 ns,
    (d5 ← remove_stale_hosts (length qs + fuel) (qs !! 0%nat) (LinkNext p) d3;
     Some (set_in_addr_new_ready false
             (add_new_hosts (take (downstream_host_num d5) (in_addr_new d5)) d5)))
    = Some d4
    /\ chain (host_mem d4) (downstream_hosts d4) (ns ++ ks ++ qs)
    /\ host_mem d4 !! p = None
    /\ host_addr (host_mem d4) <$> (ns ++ ks ++ qs) ≡ₚ filter (fun a => a <> 0) (resolved d)
    /\ Forall (fun q => exists h, host_mem d4 !! q = Some h /\ host_is_new h) ns
    /\ (forall q h, q ∈ ks ++ qs -> host_mem d !! q = Some h ->
          exists h', host_mem d4 !! q = Some h' /\ h' = set_next (next h') h)
    /\ current_downstream_host d4 = current_downstream_host d3
    /\ in_addr_new_ready d4 = false
    /\ downstream_host_num d4 = downstream_host_num d3.
Proof.
  intros Hc Hf Hc3 Hp3 Hkeep Hnone Hperm Halloc Hnz Hsub.
  pose proof (chain_NoDup _ _ _ Hc) as Hnd.
  assert (forall q, q ∈ ks ++ qs -> q <> p) as Hne.
  { intros q Hq ->. apply NoDup_app in Hnd as (Hnd1 & Hnd2 & Hnd3).
    apply elem_of_app in Hq as [Hq|Hq]; [apply (Hnd2 p Hq); by left|].
    apply NoDup_cons in Hnd3 as [Hn _]. done. }
  assert (forall q, q ∈ ks ++ qs -> host_addr (host_mem d3) q = host_addr (host_mem d) q)
    as Haddr.
  { intros q Hq. unfold host_addr.
    destruct (chain_in_heap _ _ _ q Hc) as [h Hh].
    { apply elem_of_app in Hq as [Hq|Hq]; apply elem_of_app; [by left|right; by right]. }
    destruct (Hkeep q h Hh (Hne q Hq)) as (h' & -> & ->). by rewrite Hh. }
  destruct (chain_app _ _ _ _ Hc3) as (mid & Hmid & _ & _).
  pose proof (chain_head _ _ _ Hmid) as ->.
  destruct (remove_kept_prefix qs fuel (qs !! 0%nat) (LinkNext p) d3 [])
    as (arr2 & -> & Hperm2 & _).
  { by rewrite app_nil_r. }
  { apply Forall_forall. intros q Hq. rewrite Haddr by (apply elem_of_app; by right).
    rewrite Forall_forall in Hnz. apply Hnz. apply elem_of_app. by right. }
  { assert (host_addr (host_mem d3) <$> qs = host_addr (host_mem d) <$> qs) as ->.
    { apply Forall_fmap_ext_1, Forall_forall. intros q Hq. apply Haddr.
      apply elem_of_app. by right. }
    rewrite fmap_app in Hsub. rewrite <- Hperm in Hsub.
    by apply submseteq_app_inv_l in Hsub. }
  cbn [lookup list_lookup]. rewrite remove_nothing_left. cbn [mbind option_bind].
  set (d5 := set_in_addr_new arr2 d3).
  assert (heap_fresh d5) as Hf5.
  { intros q Hq. cbn. apply Hnone. apply Hf. cbn in Hq. lia. }
  destruct (add_new_hosts_spec (take (downstream_host_num d5) (in_addr_new d5)) d5 (ks ++ qs))
    as (ns & H1 & H2 & H3 & H4 & H5 & H6 & H7 & H8 & H9); [done..|].
  eexists _, ns. split; [done|].
  cbn [host_mem downstream_hosts current_downstream_host in_addr_new_ready
       set_in_addr_new_ready downstream_host_num].
  assert (forall q : ptr, (q <= host_alloc d)%nat ->
            host_mem (add_new_hosts (take (downstream_host_num d5) (in_addr_new d5)) d5) !! q
            = host_mem d3 !! q) as Hold.
  { intros q Hq. rewrite H4; [done|]. cbn. lia. }
  assert (forall q, q ∈ ks ++ qs -> (q <= host_alloc d)%nat) as Hbelow.
  { intros q Hq. eapply (chain_below d); [done..|].
    apply elem_of_app in Hq as [Hq|Hq]; apply elem_of_app; [by left|right; by right]. }
  split; [done|]. split; [|split; [|split; [|split; [|done]]]].
  - rewrite Hold; [done|]. eapply (chain_below d); [done..|].
    apply elem_of_app. right. by left.
  - rewrite fmap_app, H2.
    assert (host_addr (host_mem (add_new_hosts
              (take (downstream_host_num d5) (in_addr_new d5)) d5)) <$> (ks ++ qs)
            = host_addr (host_mem d) <$> (ks ++ qs)) as ->.
    { apply Forall_fmap_ext_1, Forall_forall. intros q Hq.
      rewrite <- Haddr by done. unfold host_addr. by rewrite Hold by (by apply Hbelow). }
    rewrite reverse_Permutation, fmap_app.
    assert (host_addr (host_mem d3) <$> qs = host_addr (host_mem d) <$> qs) as Hq3.
    { apply Forall_fmap_ext_1, Forall_forall. intros q Hq. apply Haddr.
      apply elem_of_app. by right. }
    rewrite Hq3 in Hperm2. rewrite <- Hperm, <- Hperm2.
    unfold d5. cbn [downstream_host_num in_addr_new set_in_addr_new].
    rewrite !app_assoc. rewrite <- !app_assoc.
    rewrite (Permutation_app_comm (filter _ _)). by rewrite <- !app_assoc.
  - eapply Forall_impl; [exact H3|]. by intros q [_ Hq].
  - intros q h Hq Hh. rewrite Hold by (by apply Hbelow). by apply Hkeep; [|apply Hne].
Qed.

(** Reconciliation when one host has lost its address and all the others
    still have theirs. *)
Lemma reconcile_one_stale d ks (p : ptr) hp qs :
  in_addr_new_ready d = true ->
  chain (host_mem d) (downstream_hosts d) (ks ++ p :: qs) ->
  heap_fresh d ->
  host_mem d !! p = Some hp ->
  sa_in_data hp <> 0 -> sa_in_data hp ∉ resolved d ->
  Forall (fun q => host_addr (host_mem d) q <> 0) (ks ++ qs) ->
  host_addr (host_mem d) <$> (ks ++ qs) ⊆+ filter (fun a => a <> 0) (resolved d) ->
  exists d' ns,
    update_downstreams d = Some d'
    /\ chain (host_mem d') (downstream_hosts d') (ns ++ ks ++ qs)
    /\ host_mem d' !! p = None
    /\ host_addr (host_mem d') <$> (ns ++ ks ++ qs) ≡ₚ filter (fun a => a <> 0) (resolved d)
    /\ Forall (fun q => exists h, host_mem d' !! q = Some h /\ host_is_new h) ns
    /\ (forall q h, q ∈ ks ++ qs -> host_mem d !! q = Some h ->
          exists h', host_mem d' !! q = Some h' /\ h' = set_next (next h') h)
    /\ current_downstream_host d' = downstream_hosts d
    /\ in_addr_new_ready d' = false
    /\ downstream_host_num d' = downstream_host_num d.
Proof.
  intros Hready Hc Hf Hp Hp0 Hstale Hnz Hsub. unfold update_downstreams. rewrite Hready.
  pose proof (chain_length _ _ _ Hc) as Hlen. rewrite length_app in Hlen. simpl in Hlen.
  replace (size (host_mem d))
    with (length ks + S (length qs + (size (host_mem d) - length ks - S (length qs))))%nat
    by lia.
  destruct (remove_first_stale ks p hp qs
              (length qs + (size (host_mem d) - length ks - S (length qs))) d)
    as (d3 & -> & H2 & H3 & H4 & H5 & H6 & H7 & H8 & H9 & H10 & H11); try done.
  { apply Forall_app in Hnz as [? _]. done. }
  { rewrite fmap_app in Hsub. etrans; [|exact Hsub]. by apply submseteq_inserts_r. }
  destruct (reconcile_after_stale p ks qs
              (size (host_mem d) - length ks - S (length qs)) d d3)
    as (d4 & ns & -> & G2 & G3 & G4 & G5 & G6 & G7 & G8 & G9); try done.
  exists d4, ns. rewrite G7, H7, G9, H10. done.
Qed.

(** X14.  Reconciliation when one host that is not the head of the list has
    lost its address and every other host still has its own: that host is
    taken out of the list and freed, the others stay in their order and keep
    address, [alive] bit and probe state, hosts are created in front for the
    addresses no host has, and the cursor is put on the host that was, and
    still is, the head of the old list. *)
Theorem stale_host_is_unlinked_and_freed d k ks (p : ptr) hp qs :
  in_addr_new_ready d = true ->
  chain (host_mem d) (downstream_hosts d) ((k :: ks) ++ p :: qs) ->
  heap_fresh d ->
  host_mem d !! p = Some hp ->
  sa_in_data hp <> 0 -> sa_in_data hp ∉ resolved d ->
  Forall (fun q => host_addr (host_mem d) q <> 0) ((k :: ks) ++ qs) ->
  host_addr (host_mem d) <$> ((k :: ks) ++ qs) ⊆+ filter (fun a => a <> 0) (resolved d) ->
  exists d' ns,
    update_downstreams d = Some d'
    /\ chain (host_mem d') (downstream_hosts d') (ns ++ (k :: ks) ++ qs)
    /\ host_mem d' !! p = None
    /\ host_addr (host_mem d') <$> (ns ++ (k :: ks) ++ qs)
       ≡ₚ filter (fun a => a <> 0) (resolved d)
    /\ Forall (fun q => exists h, host_mem d' !! q = Some h /\ host_is_new h) ns
    /\ (forall q h, q ∈ (k :: ks) ++ qs -> host_mem d !! q = Some h ->
          exists h', host_mem d' !! q = Some h' /\ h' = set_next (next h') h)
    /\ current_downstream_host d' = Some k
    /\ in_addr_new_ready d' = false.
Proof.
  intros Hready Hc Hf Hp Hp0 Hstale Hnz Hsub.
  destruct (reconcile_one_stale d (k :: ks) p hp qs)
    as (d' & ns & H1 & H2 & H3 & H4 & H5 & H6 & H7 & H8 & _); try done.
  exists d', ns. rewrite H7. destruct Hc as [-> _]. done.
Qed.

(** X15.  Reconciliation when the head of the list is the one host that has
    lost its address: the host is freed and the list starts at its
    successor, but the cursor is left on the freed node.  The next selection
    reads through it: with a host count above zero [set_current_downstream_host]
    and the writable callback are then undefined. *)
Theorem removing_the_head_leaves_the_cursor_on_it d (p : ptr) hp qs :
  in_addr_new_ready d = true ->
  chain (host_mem d) (downstream_hosts d) (p :: qs) ->
  heap_fresh d ->
  host_mem d !! p = Some hp ->
  sa_in_data hp <> 0 -> sa_in_data hp ∉ resolved d ->
  Forall (fun q => host_addr (host_mem d) q <> 0) qs ->
  host_addr (host_mem d) <$> qs ⊆+ filter (fun a => a <> 0) (resolved d) ->
  (0 < downstream_host_num d)%nat ->
  exists d' ns,
    update_downstreams d = Some d'
    /\ chain (host_mem d') (downstream_hosts d') (ns ++ qs)
    /\ current_downstream_host d' = Some p
    /\ host_mem d' !! p = None
    /\ set_current_downstream_host d' = None
    /\ forall bytes_send, downstream_flush_cb false bytes_send d' = None.
Proof.
  intros Hready Hc Hf Hp Hp0 Hstale Hnz Hsub Hnum.
  destruct (reconcile_one_stale d [] p hp qs)
    as (d' & ns & H1 & H2 & H3 & H4 & H5 & H6 & H7 & H8 & Hn); try done.
  exists d', ns. destruct Hc as [Hhead _]. rewrite Hhead in H7.
  split; [done|]. split; [done|]. split; [done|]. split; [done|].
  assert (set_current_downstream_host d' = None) as Hsel.
  { unfold set_current_downstream_host. rewrite H7, Hn.
    destruct (downstream_host_num d) as [|n]; [lia|].
    cbn [select_host]. unfold advance. by rewrite H3. }
  split; [done|]. intros b. unfold downstream_flush_cb. by rewrite Hsel.
Qed.

(** More fuel does not change a result of the loop. *)
Lemma remove_stale_hosts_fuel f f' host prev d d' :
  remove_stale_hosts f host prev d = Some d' -> (f <= f')%nat ->
  remove_stale_hosts f' host prev d = Some d'.
Proof.
  revert f' host prev d. induction f as [|f IH]; intros f' host prev d H Hle.
  { destruct host; [done|]. by destruct f'. }
  destruct host as [p|]; [|by destruct f'].
  destruct f' as [|f']; [lia|]. cbn [remove_stale_hosts] in *.
  destruct (host_mem d !! p) as [h|]; [|done]. cbn [mbind option_bind] in *.
  destruct (match_new_addr _ _ _).
  - apply IH; [done|lia].
  - destruct (store_link _ _ _); [|done]. cbn [mbind option_bind] in *.
    apply IH; [done|lia].
Qed.

(** X16.  Reconciliation when two hosts next to each other in the list have
    both lost their address: the first is unlinked and freed, and the turn
    of the loop for the second one stores the second's successor through
    [prev], which points into the first.  The store has no target, whatever
    the bound on the number of turns, and [update_downstreams] has no
    result. *)
Theorem adjacent_stale_hosts_store_into_freed_host d ks (p q : ptr) hp hq rest :
  in_addr_new_ready d = true ->
  chain (host_mem d) (downstream_hosts d) (ks ++ p :: q :: rest) ->
  host_mem d !! p = Some hp -> host_mem d !! q = Some hq ->
  sa_in_data hp <> 0 -> sa_in_data hp ∉ resolved d ->
  sa_in_data hq <> 0 -> sa_in_data hq ∉ resolved d ->
  Forall (fun k => host_addr (host_mem d) k <> 0) ks ->
  host_addr (host_mem d) <$> ks ⊆+ filter (fun a => a <> 0) (resolved d) ->
  (forall fuel, remove_stale_hosts fuel (downstream_hosts d) LinkHead d = None)
  /\ update_downstreams d = None.
Proof.
  intros Hready Hc Hp Hq Hp0 Hps Hq0 Hqs Hnz Hsub.
  assert (forall f, remove_stale_hosts (length ks + S (S f)) (downstream_hosts d)
                      LinkHead d = None) as Hbig.
  { intros f.
    destruct (remove_first_stale ks p hp (q :: rest) (S f) d)
      as (d3 & -> & H2 & H3 & H4 & H5 & H6 & H7 & H8 & H9 & H10 & H11); try done.
    pose proof (chain_NoDup _ _ _ Hc) as Hnd.
    apply NoDup_app in Hnd as (_ & Hnd1 & Hnd2).
    assert (q <> p) as Hqp.
    { intros ->. apply NoDup_cons in Hnd2 as [Hnd2 _]. apply Hnd2. by left. }
    assert (last ks <> Some q) as Hlast.
    { intros Hl. apply last_Some_elem_of in Hl. apply (Hnd1 q Hl). right. by left. }
    assert (host_mem d3 !! q = Some hq) as Hq3 by (by rewrite H4).
    assert (sa_in_data hq ∉ resolved d3) as Hqs3.
    { intros Hin. apply Hqs. apply H9; [done| |done].
      intros Hk. apply Hqs. eapply elem_of_submseteq in Hk; [|exact Hsub].
      by apply list_elem_of_filter in Hk as [_ ?]. }
    cbn [lookup list_lookup].
    rewrite (remove_stale_step f q (LinkNext p) d3 hq) by done.
    cbn [store_link host_mem set_current_downstream]. by rewrite H3. }
  assert (forall fuel, remove_stale_hosts fuel (downstream_hosts d) LinkHead d = None)
    as Hall.
  { intros fuel.
    destruct (remove_stale_hosts fuel (downstream_hosts d) LinkHead d) as [d'|] eqn:E;
      [|done].
    apply (remove_stale_hosts_fuel _ (length ks + S (S fuel))) in E; [|lia].
    by rewrite Hbig in E. }
  split; [done|]. unfold update_downstreams. by rewrite Hready, Hall.
Qed.
End Reconcile.

Section ReconcileAll.
Context {double : Type} {libc : Libc double}.
Implicit Types (d : downstream_s double) (ps qs ks : list ptr)
  (mem : gmap ptr downstream_host_s) (arr : list Z).

Lemma neighbours_stale_cons m ms :
  neighbours_stale (m :: ms)
  <-> (m = true /\ ms !! 0%nat = Some true) \/ neighbours_stale ms.
Proof.
  split.
  - intros (i & H1 & H2). destruct i as [|i].
    + left. simpl in *. split; congruence.
    + right. by exists i.
  - intros [[-> H]|(i & H1 & H2)].
    + by exists 0%nat.
    + by exists (S i).
Qed.

Lemma loop_ok_spec dang ms :
  loop_ok dang ms = false
  <-> (dang = true /\ ms !! 0%nat = Some true) \/ neighbours_stale ms.
Proof.
  revert dang. induction ms as [|m ms IH]; intros dang.
  - simpl. split; [done|]. intros [[_ ?]|(i & ? & _)]; done.
  - rewrite neighbours_stale_cons. destruct m; cbn [loop_ok].
    + rewrite andb_false_iff, IH. destruct dang; simpl.
      * split; [intros _; by left; split|]. intros _. by left.
      * split.
        -- intros [?|[[_ H]|H]]; [done|right; by left|right; by right].
        -- intros [[? _]|[[_ H]|H]]; [done|right; left; by split|right; by right].
    + rewrite IH. split.
      * intros [[? _]|H]; [done|by right; right].
      * intros [[_ ?]|[[? _]|H]]; [done|done|by right].
Qed.

Lemma kept_hosts_subset ps ms (q : ptr) : q ∈ kept_hosts ps ms -> q ∈ ps.
Proof.
  revert ms. induction ps as [|p ps IH]; intros [|m ms] H; simpl in *;
    try (by apply elem_of_nil in H).
  destruct m.
  - right. by eapply IH.
  - apply elem_of_cons in H as [->|H]; [by left|right; by eapply IH].
Qed.

(** The first loop of [update_downstreams] from any of its turns: [ks] are
    the hosts kept so far and [ps] those to come. *)
Lemma remove_stale_loop ps : forall ks d prev (dang : bool) fuel,
  chain (host_mem d) (downstream_hosts d) (ks ++ ps) ->
  (if dang then exists p0 : ptr, prev = LinkNext p0 /\ host_mem d !! p0 = None
   else prev = link_after ks) ->
  (length ps <= fuel)%nat ->
  if loop_ok dang (stale_marks (downstream_host_num d) (in_addr_new d)
                     (host_addr (host_mem d) <$> ps)) then
    exists d', remove_stale_hosts fuel (ps !! 0%nat) prev d = Some d'
      /\ chain (host_mem d') (downstream_hosts d')
           (ks ++ kept_hosts ps (stale_marks (downstream_host_num d) (in_addr_new d)
                                   (host_addr (host_mem d) <$> ps)))
      /\ (forall q : ptr, is_Some (host_mem d' !! q) -> is_Some (host_mem d !! q))
      /\ (forall q : ptr, q ∈ ps ->
            q ∉ kept_hosts ps (stale_marks (downstream_host_num d) (in_addr_new d)
                                 (host_addr (host_mem d) <$> ps)) ->
            host_mem d' !! q = None)
      /\ host_alloc d' = host_alloc d
      /\ downstream_host_num d' = downstream_host_num d
  else remove_stale_hosts fuel (ps !! 0%nat) prev d = None.
Proof.
  induction ps as [|p ps IH]; intros ks d prev dang fuel Hc Hprev Hfuel.
  { simpl. exists d. rewrite app_nil_r in *. destruct fuel; simpl; repeat split; try done.
    all: intros q Hq; by apply elem_of_nil in Hq. }
  destruct fuel as [|fuel]; [simpl in Hfuel; lia|].
  assert (length ps <= fuel)%nat as Hfuel' by (simpl in Hfuel; lia).
  pose proof (chain_NoDup _ _ _ Hc) as Hnd.
  destruct (chain_app _ _ _ _ Hc) as (mid & Hmid & Hnil & Hlast).
  destruct Hmid as [-> (hp & Hhp & Hrest)].
  assert (p ∉ ps) as Hpps.
  { apply NoDup_app in Hnd as (_ & _ & Hnd). by apply NoDup_cons in Hnd as [? _]. }
  assert (p ∉ ks) as Hpks.
  { intros Hin. apply NoDup_app in Hnd as (_ & Hnd & _). apply (Hnd p Hin). by left. }
  rewrite fmap_cons. unfold host_addr at 1 3 5. rewrite Hhp.
  cbn [stale_marks lookup list_lookup remove_stale_hosts]. rewrite Hhp.
  cbn [mbind option_bind].
  destruct (match_new_addr (sa_in_data hp) (in_addr_new d) (downstream_host_num d))
    as [arr1|] eqn:Hm.
  - (* the host is kept *)
    cbn [loop_ok kept_hosts].
    specialize (IH (ks ++ [p]) (set_in_addr_new arr1 d) (LinkNext p) false fuel).
    cbn [host_mem downstream_hosts set_in_addr_new downstream_host_num in_addr_new
         host_alloc] in IH.
    rewrite <- (chain_head _ _ _ Hrest) in IH.
    rewrite <- !app_assoc in IH. cbn [app] in IH.
    assert (LinkNext p = link_after (ks ++ [p])) as Hl
      by (unfold link_after; by rewrite last_snoc).
    specialize (IH Hc Hl Hfuel').
    destruct (loop_ok false _); [|done].
    destruct IH as (d' & -> & G2 & G3 & G4 & G5 & G6).
    exists d'. split; [done|]. split; [done|]. split; [done|].
    split; [|done]. intros q Hq Hnk. apply not_elem_of_cons in Hnk as [Hqp Hnk].
    apply elem_of_cons in Hq as [->|Hq]; [done|]. by apply G4.
  - (* the host is stale *)
    cbn [loop_ok kept_hosts]. destruct dang.
    { destruct Hprev as (p0 & -> & Hp0). cbn [negb andb store_link host_mem
        set_current_downstream]. by rewrite Hp0. }
    cbn [negb andb]. subst prev.
    assert (exists d3,
      store_link (link_after ks) (next hp)
        (set_current_downstream (downstream_hosts d) d) ≫=
        (fun d1 => remove_stale_hosts fuel (next hp) (LinkNext p)
                     (set_host_mem (delete p (host_mem d1)) d1))
      = remove_stale_hosts fuel (ps !! 0%nat) (LinkNext p) d3
      /\ chain (host_mem d3) (downstream_hosts d3) (ks ++ ps)
      /\ host_mem d3 !! p = None
      /\ (forall q : ptr, is_Some (host_mem d3 !! q) -> is_Some (host_mem d !! q))
      /\ (forall q : ptr, q ∈ ps -> host_mem d3 !! q = host_mem d !! q)
      /\ in_addr_new d3 = in_addr_new d
      /\ downstream_host_num d3 = downstream_host_num d
      /\ host_alloc d3 = host_alloc d) as (d3 & -> & H2 & H3 & H4 & H5 & H6 & H7 & H8).
    { pose proof (chain_head _ _ _ Hrest) as Hnext.
      unfold link_after. destruct (last ks) as [k|] eqn:Hk.
      - destruct (Hlast k eq_refl) as (hk & Hhk & Hnk).
        assert (k ∈ ks) as Hkin by (by apply last_Some_elem_of).
        assert (k <> p) as Hkp by (intros ->; done).
        cbn [store_link host_mem set_current_downstream]. rewrite Hhk.
        cbn [mbind option_bind]. eexists. split; [by rewrite <- Hnext|].
        cbn [host_mem downstream_hosts set_host_mem set_current_downstream
             in_addr_new downstream_host_num host_alloc].
        split; [by eapply chain_unlink|]. split; [apply lookup_delete_eq|].
        split; [|split; [|done]].
        + intros q [h Hq]. apply lookup_delete_Some in Hq as [Hqp Hq].
          destruct (decide (q = k)) as [->|Hqk]; [done|].
          rewrite lookup_insert_ne in Hq by done. done.
        + intros q Hq. rewrite lookup_delete_ne by (intros ->; done).
          apply lookup_insert_ne. intros ->.
          apply NoDup_app in Hnd as (_ & Hnd & _). apply (Hnd q Hkin). by right.
      - apply last_None in Hk. subst ks. rewrite (Hnil eq_refl) in *.
        cbn [store_link mbind option_bind]. eexists. split; [by rewrite <- Hnext|].
        cbn [host_mem downstream_hosts set_host_mem set_current_downstream
             set_downstream_hosts in_addr_new downstream_host_num host_alloc app].
        split; [|split; [apply lookup_delete_eq|split; [|split; [|done]]]].
        + eapply chain_frame; [|done]. intros q Hq.
          apply lookup_delete_ne. by intros ->.
        + intros q [h Hq]. apply lookup_delete_Some in Hq as [_ Hq]. done.
        + intros q Hq. apply lookup_delete_ne. by intros ->. }
    specialize (IH ks d3 (LinkNext p) true fuel H2).
    assert (host_addr (host_mem d3) <$> ps = host_addr (host_mem d) <$> ps) as Haddr.
    { apply Forall_fmap_ext_1, Forall_forall. intros q Hq. unfold host_addr.
      by rewrite H5. }
    rewrite Haddr, H6, H7 in IH.
    destruct (loop_ok true _) eqn:Hok.
    + destruct IH as (d' & -> & G2 & G3 & G4 & G5 & G6); [by exists p|done|].
      exists d'. split; [done|]. split; [done|].
      split; [intros q Hq; by apply H4, G3|].
      split; [|split; congruence].
      intros q Hq Hnk. apply elem_of_cons in Hq as [->|Hq]; [|by apply G4].
      destruct (host_mem d' !! p) as [h|] eqn:E; [|done].
      assert (is_Some (host_mem d3 !! p)) as [? ?] by (apply G3; by exists h). congruence.
    + apply IH; [by exists p|done].
Qed.

Lemma add_new_hosts_ok addrs d : hosts_ok d -> hosts_ok (add_new_hosts addrs d).
Proof.
  revert d. induction addrs as [|a addrs IH]; intros d H; [done|].
  cbn [add_new_hosts]. case_bool_decide; [by apply IH|]. apply IH.
  destruct H as (ps & Hc & Hall & Hf).
  set (p := S (host_alloc d)).
  assert (p ∉ ps) as Hp by (eapply chain_fresh; [done..|unfold p; lia]).
  exists (p :: ps). cbn [host_mem downstream_hosts set_downstream_hosts set_host_mem].
  split; [|split].
  - split; [done|]. eexists. split; [apply lookup_insert_eq|].
    cbn [next]. eapply chain_frame; [|done].
    intros q Hq. apply lookup_insert_ne. by intros ->.
  - intros q Hq. destruct (decide (q = p)) as [->|Hqp]; [by left|].
    right. apply Hall. by rewrite lookup_insert_ne in Hq.
  - intros q Hq. cbn in *. rewrite lookup_insert_ne by (unfold p; lia).
    apply Hf. unfold p in Hq. lia.
Qed.

(** X17.  Reconciliation in general.  The first loop gives each host of the
    list a verdict.  If two hosts next to each other are both stale the
    loop stores into the first one after freeing it, and
    [update_downstreams] has no result whatever the bound on the turns.
    Otherwise it has one: the stale hosts are freed, the kept ones stay in
    their order behind the hosts newly created, and the list is again a
    list of allocated hosts. *)
Theorem reconciliation_fails_iff_neighbours_are_stale d ps :
  in_addr_new_ready d = true ->
  chain (host_mem d) (downstream_hosts d) ps ->
  heap_fresh d ->
  (neighbours_stale (host_marks d ps) ->
     update_downstreams d = None
     /\ forall fuel, remove_stale_hosts fuel (downstream_hosts d) LinkHead d = None)
  /\ (~ neighbours_stale (host_marks d ps) ->
     exists d' ns,
       update_downstreams d = Some d'
       /\ chain (host_mem d') (downstream_hosts d') (ns ++ kept_hosts ps (host_marks d ps))
       /\ (forall q : ptr, q ∈ ps -> q ∉ kept_hosts ps (host_marks d ps) ->
             host_mem d' !! q = None)
       /\ Forall (fun q => exists h, host_mem d' !! q = Some h /\ host_is_new h) ns
       /\ heap_fresh d').
Proof.
  intros Hready Hc Hf.
  pose proof (chain_head _ _ _ Hc) as Hhead.
  pose proof (chain_length _ _ _ Hc) as Hlen.
  assert (forall fuel, (length ps <= fuel)%nat ->
    if loop_ok false (host_marks d ps) then
      exists d', remove_stale_hosts fuel (downstream_hosts d) LinkHead d = Some d'
        /\ chain (host_mem d') (downstream_hosts d') (kept_hosts ps (host_marks d ps))
        /\ (forall q : ptr, is_Some (host_mem d' !! q) -> is_Some (host_mem d !! q))
        /\ (forall q : ptr, q ∈ ps -> q ∉ kept_hosts ps (host_marks d ps) ->
              host_mem d' !! q = None)
        /\ host_alloc d' = host_alloc d
        /\ downstream_host_num d' = downstream_host_num d
    else remove_stale_hosts fuel (downstream_hosts d) LinkHead d = None) as Hloop.
  { intros fuel Hfuel. rewrite Hhead.
    exact (remove_stale_loop ps [] d LinkHead false fuel Hc eq_refl Hfuel). }
  split.
  - intros Hn.
    assert (loop_ok false (host_marks d ps) = false) as Hok
      by (apply loop_ok_spec; by right).
    rewrite Hok in Hloop.
    assert (forall fuel, remove_stale_hosts fuel (downstream_hosts d) LinkHead d = None)
      as Hall.
    { intros fuel.
      destruct (remove_stale_hosts fuel (downstream_hosts d) LinkHead d) as [d'|] eqn:E;
        [|done].
      apply (remove_stale_hosts_fuel _ (fuel + length ps)) in E; [|lia].
      rewrite Hloop in E by lia. done. }
    split; [|done]. unfold update_downstreams. by rewrite Hready, Hall.
  - intros Hn.
    assert (loop_ok false (host_marks d ps) = true) as Hok.
    { destruct (loop_ok false (host_marks d ps)) eqn:E; [done|].
      apply loop_ok_spec in E as [[? _]|E]; done. }
    specialize (Hloop (size (host_mem d)) Hlen). rewrite Hok in Hloop.
    destruct Hloop as (d1 & Hr & G2 & G3 & G4 & G5 & G6).
    unfold update_downstreams. rewrite Hready, Hr. cbn [mbind option_bind].
    assert (heap_fresh d1) as Hf1.
    { intros q Hq. rewrite G5 in Hq. specialize (Hf q Hq).
      destruct (host_mem d1 !! q) as [h|] eqn:E; [|done].
      assert (is_Some (host_mem d !! q)) as [? ?] by (apply G3; by exists h). congruence. }
    destruct (add_new_hosts_spec (take (downstream_host_num d1) (in_addr_new d1)) d1 _ G2 Hf1)
      as (ns & H1 & H2 & H3 & H4 & H5 & _).
    eexists _, ns. split; [done|].
    cbn [host_mem downstream_hosts set_in_addr_new_ready].
    split; [done|]. split; [|split].
    + intros q Hq Hnk. rewrite H4; [by apply G4|]. rewrite G5.
      destruct (chain_in_heap _ _ _ _ Hc Hq) as [h Hh].
      destruct (decide (q <= host_alloc d)%nat) as [|Hgt]; [done|].
      rewrite Hf in Hh by lia. done.
    + eapply Forall_impl; [exact H3|]. by intros q [_ ?].
    + done.
Qed.
End ReconcileAll.

Section HostPart.
Context {double : Type} {libc : Libc double}.
Implicit Types (d : downstream_s double).

Lemma schedule_flush_hosts d : host_part (downstream_schedule_flush d) = host_part d.
Proof.
  unfold downstream_schedule_flush.
  repeat (case_bool_decide || case_match); done.
Qed.

Lemma add_slot_hosts line n d : host_part (add_slot line n d).2 = host_part d.
Proof. done. Qed.

Lemma find_slot_hosts line n d : host_part (find_slot line n d).2 = host_part d.
Proof.
  unfold find_slot. case_match; [done|]. rewrite add_slot_hosts.
  case_bool_decide; [apply schedule_flush_hosts|done].
Qed.

Lemma make_room_hosts line n t len i d : host_part (make_room line n t len i d).2 = host_part d.
Proof.
  unfold make_room. case_match; [|done].
  pose proof (add_slot_hosts line n (downstream_schedule_flush d)) as H1.
  rewrite schedule_flush_hosts in H1.
  destruct (add_slot _ _ _) as [j d1]. simpl in *. by rewrite <- H1.
Qed.

Lemma store_counter_hosts n p len off i d :
  host_part (store_counter n p len off i d) = host_part d.
Proof. unfold store_counter. destruct (strtod p) as [[x k] err]. by case_match. Qed.

Lemma store_other_hosts p len i d : host_part (store_other p len i d) = host_part d.
Proof. done. Qed.

Lemma store_value_hosts line n p len off t i d :
  host_part (store_value line n p len off t i d).1 = host_part d.
Proof.
  unfold store_value. pose proof (make_room_hosts line n t len i d) as H1.
  destruct (make_room _ _ _ _ _ _) as [j d1]. simpl in *. rewrite <- H1.
  case_bool_decide; simpl; [apply store_counter_hosts|apply store_other_hosts].
Qed.

Lemma insert_value_hosts line n p len i d :
  host_part (insert_value line n p len i d).1.1.1 = host_part d.
Proof.
  unfold insert_value. case_match; [|done].
  case_bool_decide.
  - match goal with |- context [store_value ?a ?b ?c ?e ?g ?h ?k ?l] =>
      pose proof (store_value_hosts a b c e g h k l) as Hs;
      destruct (store_value a b c e g h k l) as [d1 j] end.
    simpl in *. by rewrite Hs.
  - case_bool_decide; [done|].
    match goal with |- context [store_value ?a ?b ?c ?e ?g ?h ?k ?l] =>
      pose proof (store_value_hosts a b c e g h k l) as Hs;
      destruct (store_value a b c e g h k l) as [d1 j] end.
    simpl in *. by rewrite Hs.
Qed.

Lemma insert_values_loop_hosts fuel line n p len i d :
  host_part (insert_values_loop fuel line n p len i d) = host_part d.
Proof.
  revert p len i d. induction fuel as [|fuel IH]; intros p len i d; simpl; [done|].
  pose proof (insert_value_hosts line n p len i d) as H1.
  destruct (insert_value line n p len i d) as [[[d1 j] dl] more]. simpl in *.
  destruct more; [by rewrite IH|done].
Qed.

Lemma process_data_line_hosts line len d :
  host_part (process_data_line line len d).2 = host_part d.
Proof.
  unfold process_data_line. case_match; [|done].
  match goal with |- context [find_slot ?a ?b ?c] =>
    pose proof (find_slot_hosts a b c) as H1; destruct (find_slot a b c) as [i d1] end.
  simpl in *. unfold insert_values_into_slot. by rewrite insert_values_loop_hosts.
Qed.

Lemma udp_read_loop_hosts fuel p len d :
  host_part (udp_read_loop fuel p len d) = host_part d.
Proof.
  revert p len d. induction fuel as [|fuel IH]; intros p len d; simpl; [done|].
  case_match; [|done]. rewrite IH. unfold read_line.
  case_match; [apply process_data_line_hosts|done].
Qed.

Lemma udp_read_cb_hosts stack datagram d :
  host_part (udp_read_cb stack datagram d) = host_part d.
Proof.
  unfold udp_read_cb. case_bool_decide; [|done].
  case_bool_decide; apply udp_read_loop_hosts.
Qed.

Lemma select_host_hosts n host d d' :
  select_host n host d = Some d' -> host_part d' = host_part d.
Proof.
  revert host. induction n as [|n IH]; intros host H; simpl in H; simplify_eq; [done|].
  destruct (advance host d) as [host'|]; [|done]. cbn [mbind option_bind] in H.
  destruct (host_mem d !! host') as [h'|]; [|done]. cbn [mbind option_bind] in H.
  destruct (alive h'); simplify_eq; [done|]. by eapply IH.
Qed.

Lemma set_current_hosts d d' :
  set_current_downstream_host d = Some d' -> host_part d' = host_part d.
Proof.
  unfold set_current_downstream_host. intros H.
  destruct (current_downstream_host d); [by eapply select_host_hosts|].
  destruct (downstream_hosts d); [by eapply select_host_hosts|]. by simplify_eq.
Qed.

Lemma flush_cb_hosts e b d d' :
  downstream_flush_cb e b d = Some d' -> host_part d' = host_part d.
Proof.
  unfold downstream_flush_cb. intros H. destruct e; simplify_eq; [done|].
  destruct (set_current_downstream_host d) as [d1|] eqn:Hs; [|done].
  cbn [mbind option_bind] in H. apply set_current_hosts in Hs. rewrite <- Hs.
  destruct (current_downstream_host d1); simplify_eq; [|done].
  destruct (host_mem d1 !! _); [|done]. cbn [mbind option_bind] in H.
  simplify_eq. repeat case_bool_decide; done.
Qed.

Lemma host_part_ok d d' : host_part d' = host_part d -> hosts_ok d -> hosts_ok d'.
Proof.
  unfold host_part, hosts_ok, heap_fresh. intros [= Hm Hh Ha]. by rewrite Hm, Hh, Ha.
Qed.

(** Rewriting a host in place, its link unchanged. *)
Lemma hosts_ok_update (p : ptr) h h' d :
  host_mem d !! p = Some h -> next h' = next h ->
  hosts_ok d -> hosts_ok (set_host_mem (<[p := h']> (host_mem d)) d).
Proof.
  intros Hp Hn (ps & Hc & Hall & Hf). exists ps.
  cbn [host_mem downstream_hosts set_host_mem]. split; [|split].
  - clear Hall. revert Hc. generalize (downstream_hosts d).
    induction ps as [|q ps IH]; intros head Hc; [done|].
    destruct Hc as [-> (hq & Hq & Hc)]. split; [done|].
    destruct (decide (q = p)) as [->|Hqp].
    + exists h'. split; [apply lookup_insert_eq|]. rewrite Hn.
      assert (hq = h) as -> by congruence. by apply IH.
    + exists hq. split; [by rewrite lookup_insert_ne|]. by apply IH.
  - intros q Hq. apply Hall. destruct (decide (q = p)) as [->|Hqp]; [done|].
    by rewrite lookup_insert_ne in Hq.
  - intros q Hq. cbn. destruct (decide (q = p)) as [->|Hqp].
    + rewrite (Hf p Hq) in Hp. done.
    + rewrite lookup_insert_ne by done. by apply Hf.
Qed.

Lemma mark_down_ok p d d' : hosts_ok d -> downstream_mark_down p d = Some d' -> hosts_ok d'.
Proof.
  intros H Hd. unfold downstream_mark_down in Hd.
  destruct (host_mem d !! p) as [h|] eqn:Hp; [|done]. cbn [mbind option_bind] in Hd.
  injection Hd as <-. eapply hosts_ok_update; [done| |done].
  destruct h as [a nx fd act al]. simpl. case_bool_decide; simpl; by destruct al.
Qed.

Lemma health_read_ok p n r d d' :
  hosts_ok d -> downstream_health_read_cb p n r d = Some d' -> hosts_ok d'.
Proof.
  intros H Hd. unfold downstream_health_read_cb in Hd.
  destruct (host_mem d !! p) as [h|] eqn:Hp; [|done]. cbn [mbind option_bind] in Hd.
  pose proof (hosts_ok_update p h (set_health_active false h) d Hp eq_refl H) as H1.
  set (d1 := set_host_mem (<[p := set_health_active false h]> (host_mem d)) d) in *.
  assert (host_mem d1 !! p = Some (set_health_active false h)) as Hp1
    by apply lookup_insert_eq.
  destruct (bool_decide (n <= 0)); [by eapply mark_down_ok|].
  destruct (negb _); [by eapply mark_down_ok|].
  rewrite Hp1 in Hd. cbn [mbind option_bind] in Hd. injection Hd as <-.
  destruct (alive _); [done|]. by eapply hosts_ok_update.
Qed.

Lemma init_hosts_ok l : hosts_ok (init_downstream double l).
Proof.
  exists []. unfold init_downstream, get_dns_data. destruct l; simpl.
  all: split; [done|]; split; [|done].
  all: intros p [h Hp]; by rewrite lookup_empty in Hp.
Qed.

Lemma update_downstreams_ok d d' :
  hosts_ok d -> update_downstreams d = Some d' -> hosts_ok d'.
Proof.
  intros (ps & Hc & Hall & Hf) Hd. unfold update_downstreams in Hd.
  destruct (in_addr_new_ready d); [|simplify_eq; by exists ps].
  pose proof (chain_length _ _ _ Hc) as Hlen.
  pose proof (remove_stale_loop ps [] d LinkHead false (size (host_mem d)) Hc eq_refl Hlen)
    as Hloop.
  rewrite <- (chain_head _ _ _ Hc) in Hloop.
  destruct (loop_ok false _).
  - destruct Hloop as (d1 & Hr & G2 & G3 & G4 & G5 & G6).
    rewrite Hr in Hd. cbn [mbind option_bind] in Hd. injection Hd as <-.
    eapply host_part_ok; [|apply add_new_hosts_ok]; [done|].
    eexists. split; [exact G2|]. split.
    + intros q Hq. cbn [app].
      match goal with |- q ∈ ?l => destruct (decide (q ∈ l)) as [|Hnk]; [done|] end.
      rewrite (G4 q) in Hq; [by destruct Hq|by apply Hall, G3|done].
    + intros q Hq. rewrite G5 in Hq. specialize (Hf q Hq).
      destruct (host_mem d1 !! q) as [h|] eqn:E; [|done].
      assert (is_Some (host_mem d !! q)) as [? ?] by (apply G3; by exists h). congruence.
  - rewrite Hloop in Hd. done.
Qed.

Lemma step_hosts_ok e d d' : hosts_ok d -> step e d = Some d' -> hosts_ok d'.
Proof.
  intros H Hs. destruct e; cbn [step] in Hs; simplify_eq.
  - eapply host_part_ok; [apply udp_read_cb_hosts|done].
  - unfold downstream_flush_timer_cb. case_bool_decide; [|done].
    eapply host_part_ok; [apply schedule_flush_hosts|done].
  - destruct (flush_watcher d); simplify_eq; [|done].
    eapply host_part_ok; [by eapply flush_cb_hosts|done].
  - unfold downstream_refresh. destruct (in_addr_new_ready d); [done|].
    eapply host_part_ok; [|done]. by destruct h_addr_list.
  - by eapply update_downstreams_ok.
  - by eapply health_read_ok.
  - by eapply mark_down_ok.
Qed.

Lemma run_hosts_ok es d d' : hosts_ok d -> run es d = Some d' -> hosts_ok d'.
Proof.
  revert d. induction es as [|e es IH]; intros d H Hr; simpl in Hr; simplify_eq; [done|].
  destruct (step e d) as [d1|] eqn:Hs; simplify_eq/=.
  eapply IH; [|done]. by eapply step_hosts_ok.
Qed.

(** X18.  Whatever the relay has been through since start-up, as long as
    every store stayed inside its array and no step ran on, read through
    or stored through a pointer that is not to an allocated host (these
    are the steps without a result here), the host list is a list:
    following [next] from [downstream_hosts] ends in [NULL] without meeting
    a host twice, every host on the way is allocated, and every allocated
    host is on the way, so none has leaked.  (The last part is the
    allocator's side of it: no host lies above the highest address handed
    out.) *)
Theorem host_list_is_never_corrupted l es d' :
  run_in_bounds es (init_downstream double l) = true ->
  run es (init_downstream double l) = Some d' ->
  exists ps,
    chain (host_mem d') (downstream_hosts d') ps
    /\ NoDup ps
    /\ (forall p : ptr, p ∈ ps <-> is_Some (host_mem d' !! p))
    /\ heap_fresh d'.
Proof.
  intros _ Hr.
  destruct (run_hosts_ok es _ d' (init_hosts_ok l) Hr) as (ps & Hc & Hall & Hf).
  exists ps. split; [done|]. split; [by eapply chain_NoDup|]. split; [|done].
  intros p. split; [by eapply chain_in_heap|apply Hall].
Qed.
End HostPart.

Lemma heap_fresh_decide {double} (d : downstream_s double) :
  map_Forall (fun (p : ptr) _ => (p <= host_alloc d)%nat) (host_mem d) -> heap_fresh d.
Proof.
  intros H p Hp. destruct (host_mem d !! p) as [h|] eqn:E; [|done].
  apply H in E. simpl in E. lia.
Qed.

Ltac decide_it := apply (bool_decide_unpack _); vm_compute; exact I.

Lemma new_addresses_become_hosts_witness :
  exists d' qs,
    update_downstreams d_more = Some d'
    /\ chain (host_mem d') (downstream_hosts d') (qs ++ [2; 1]%nat)
    /\ host_addr (host_mem d') <$> (qs ++ [2; 1]%nat)
       ≡ₚ filter (fun a => a <> 0) (resolved d_more)
    /\ Forall (fun q => exists h, host_mem d' !! q = Some h /\ host_is_new h) qs
    /\ (forall p, p ∈ [2; 1]%nat -> host_mem d' !! p = host_mem d_more !! p)
    /\ current_downstream_host d' = current_downstream_host d_more
    /\ in_addr_new_ready d' = false.
Proof.
  assert (in_addr_new_ready d_more = true) as H1 by (vm_compute; reflexivity).
  assert (chain (host_mem d_more) (downstream_hosts d_more) [2; 1]%nat) as H2.
  { vm_compute. split; [reflexivity|]. eexists. split; [reflexivity|].
    split; [reflexivity|]. eexists. split; reflexivity. }
  assert (heap_fresh d_more) as H3 by (apply heap_fresh_decide; decide_it).
  assert (Forall (fun p => host_addr (host_mem d_more) p <> 0) [2; 1]%nat) as H4
    by (repeat constructor; vm_compute; discriminate).
  assert (host_addr (host_mem d_more) <$> [2; 1]%nat
          ⊆+ filter (fun a => a <> 0) (resolved d_more)) as H5 by decide_it.
  exact (new_addresses_become_hosts d_more [2; 1]%nat H1 H2 H3 H4 H5).
Defined.

Lemma stale_host_is_unlinked_and_freed_witness :
  exists d' ns,
    update_downstreams d_lost_tail = Some d'
    /\ chain (host_mem d') (downstream_hosts d') (ns ++ (2%nat :: []) ++ [])
    /\ host_mem d' !! 1%nat = None
    /\ host_addr (host_mem d') <$> (ns ++ (2%nat :: []) ++ [])
       ≡ₚ filter (fun a => a <> 0) (resolved d_lost_tail)
    /\ Forall (fun q => exists h, host_mem d' !! q = Some h /\ host_is_new h) ns
    /\ (forall q h, q ∈ (2%nat :: []) ++ [] -> host_mem d_lost_tail !! q = Some h ->
          exists h', host_mem d' !! q = Some h' /\ h' = set_next (next h') h)
    /\ current_downstream_host d' = Some 2%nat
    /\ in_addr_new_ready d' = false.
Proof.
  assert (in_addr_new_ready d_lost_tail = true) as H1 by (vm_compute; reflexivity).
  assert (chain (host_mem d_lost_tail) (downstream_hosts d_lost_tail)
            ((2%nat :: []) ++ 1%nat :: [])) as H2.
  { vm_compute. split; [reflexivity|]. eexists. split; [reflexivity|].
    split; [reflexivity|]. eexists. split; reflexivity. }
  assert (heap_fresh d_lost_tail) as H3 by (apply heap_fresh_decide; decide_it).
  assert (host_mem d_lost_tail !! 1%nat
          = Some (Build_downstream_host_s 10 None (-1) false true)) as H4
    by (vm_compute; reflexivity).
  assert (sa_in_data (Build_downstream_host_s 10 None (-1) false true) <> 0) as H5
    by (vm_compute; discriminate).
  assert (sa_in_data (Build_downstream_host_s 10 None (-1) false true)
          ∉ resolved d_lost_tail) as H6 by decide_it.
  assert (Forall (fun q => host_addr (host_mem d_lost_tail) q <> 0)
            ((2%nat :: []) ++ [])) as H7
    by (repeat constructor; vm_compute; discriminate).
  assert (host_addr (host_mem d_lost_tail) <$> ((2%nat :: []) ++ [])
          ⊆+ filter (fun a => a <> 0) (resolved d_lost_tail)) as H8 by decide_it.
  exact (stale_host_is_unlinked_and_freed d_lost_tail 2%nat [] 1%nat _ [] H1 H2 H3 H4 H5 H6 H7 H8).
Defined.

Lemma removing_the_head_leaves_the_cursor_on_it_witness :
  exists d' ns,
    update_downstreams d_lost_head = Some d'
    /\ chain (host_mem d') (downstream_hosts d') (ns ++ [1%nat])
    /\ current_downstream_host d' = Some 2%nat
    /\ host_mem d' !! 2%nat = None
    /\ set_current_downstream_host d' = None
    /\ forall bytes_send, downstream_flush_cb false bytes_send d' = None.
Proof.
  assert (in_addr_new_ready d_lost_head = true) as H1 by (vm_compute; reflexivity).
  assert (chain (host_mem d_lost_head) (downstream_hosts d_lost_head) [2; 1]%nat) as H2.
  { vm_compute. split; [reflexivity|]. eexists. split; [reflexivity|].
    split; [reflexivity|]. eexists. split; reflexivity. }
  assert (heap_fresh d_lost_head) as H3 by (apply heap_fresh_decide; decide_it).
  assert (host_mem d_lost_head !! 2%nat
          = Some (Build_downstream_host_s 20 (Some 1%nat) (-1) false true)) as H4
    by (vm_compute; reflexivity).
  assert (sa_in_data (Build_downstream_host_s 20 (Some 1%nat) (-1) false true) <> 0) as H5
    by (vm_compute; discriminate).
  assert (sa_in_data (Build_downstream_host_s 20 (Some 1%nat) (-1) false true)
          ∉ resolved d_lost_head) as H6 by decide_it.
  assert (Forall (fun q => host_addr (host_mem d_lost_head) q <> 0) [1%nat]) as H7
    by (repeat constructor; vm_compute; discriminate).
  assert (host_addr (host_mem d_lost_head) <$> [1%nat]
          ⊆+ filter (fun a => a <> 0) (resolved d_lost_head)) as H8 by decide_it.
  assert (0 < downstream_host_num d_lost_head)%nat as H9 by (vm_compute; lia).
  exact (removing_the_head_leaves_the_cursor_on_it d_lost_head 2%nat _ [1%nat]
           H1 H2 H3 H4 H5 H6 H7 H8 H9).
Defined.

Lemma adjacent_stale_hosts_store_into_freed_host_witness :
  (forall fuel, remove_stale_hosts fuel (downstream_hosts d_lost_both) LinkHead d_lost_both
                = None)
  /\ update_downstreams d_lost_both = None.
Proof.
  assert (in_addr_new_ready d_lost_both = true) as H1 by (vm_compute; reflexivity).
  assert (chain (host_mem d_lost_both) (downstream_hosts d_lost_both)
            ([] ++ 2%nat :: 1%nat :: [])) as H2.
  { vm_compute. split; [reflexivity|]. eexists. split; [reflexivity|].
    split; [reflexivity|]. eexists. split; reflexivity. }
  assert (host_mem d_lost_both !! 2%nat
          = Some (Build_downstream_host_s 20 (Some 1%nat) (-1) false true)) as H3
    by (vm_compute; reflexivity).
  assert (host_mem d_lost_both !! 1%nat
          = Some (Build_downstream_host_s 10 None (-1) false true)) as H4
    by (vm_compute; reflexivity).
  assert (sa_in_data (Build_downstream_host_s 20 (Some 1%nat) (-1) false true) <> 0) as H5
    by (vm_compute; discriminate).
  assert (sa_in_data (Build_downstream_host_s 20 (Some 1%nat) (-1) false true)
          ∉ resolved d_lost_both) as H6 by decide_it.
  assert (sa_in_data (Build_downstream_host_s 10 None (-1) false true) <> 0) as H7
    by (vm_compute; discriminate).
  assert (sa_in_data (Build_downstream_host_s 10 None (-1) false true)
          ∉ resolved d_lost_both) as H8 by decide_it.
  assert (Forall (fun k => host_addr (host_mem d_lost_both) k <> 0) []) as H9
    by constructor.
  assert (host_addr (host_mem d_lost_both) <$> []
          ⊆+ filter (fun a => a <> 0) (resolved d_lost_both)) as H10 by decide_it.
  exact (adjacent_stale_hosts_store_into_freed_host d_lost_both [] 2%nat 1%nat _ _ []
           H1 H2 H3 H4 H5 H6 H7 H8 H9 H10).
Defined.

Lemma reconciliation_fails_iff_neighbours_are_stale_witness :
  (update_downstreams d_lost_both = None
   /\ forall fuel, remove_stale_hosts fuel (downstream_hosts d_lost_both) LinkHead d_lost_both
                   = None)
  /\ exists d' ns,
       update_downstreams d_lost_head = Some d'
       /\ chain (host_mem d') (downstream_hosts d')
            (ns ++ kept_hosts [2; 1]%nat (host_marks d_lost_head [2; 1]%nat))
       /\ (forall q : ptr, q ∈ [2; 1]%nat ->
             q ∉ kept_hosts [2; 1]%nat (host_marks d_lost_head [2; 1]%nat) ->
             host_mem d' !! q = None)
       /\ Forall (fun q => exists h, host_mem d' !! q = Some h /\ host_is_new h) ns
       /\ heap_fresh d'.
Proof.
  split.
  - assert (in_addr_new_ready d_lost_both = true) as H1 by (vm_compute; reflexivity).
    assert (chain (host_mem d_lost_both) (downstream_hosts d_lost_both) [2; 1]%nat) as H2.
    { vm_compute. split; [reflexivity|]. eexists. split; [reflexivity|].
      split; [reflexivity|]. eexists. split; reflexivity. }
    assert (heap_fresh d_lost_both) as H3 by (apply heap_fresh_decide; decide_it).
    apply (reconciliation_fails_iff_neighbours_are_stale d_lost_both [2; 1]%nat H1 H2 H3).
    exists 0%nat. vm_compute. split; reflexivity.
  - assert (in_addr_new_ready d_lost_head = true) as H1 by (vm_compute; reflexivity).
    assert (chain (host_mem d_lost_head) (downstream_hosts d_lost_head) [2; 1]%nat) as H2.
    { vm_compute. split; [reflexivity|]. eexists. split; [reflexivity|].
      split; [reflexivity|]. eexists. split; reflexivity. }
    assert (heap_fresh d_lost_head) as H3 by (apply heap_fresh_decide; decide_it).
    apply (reconciliation_fails_iff_neighbours_are_stale d_lost_head [2; 1]%nat H1 H2 H3).
    assert (host_marks d_lost_head [2; 1]%nat = [true; false]) as Hm
      by (vm_compute; reflexivity).
    intros (i & Hi & Hj). rewrite Hm in Hi, Hj. destruct i as [|[|i]]; discriminate.
Defined.

Lemma host_list_is_never_corrupted_witness :
  run_in_bounds head_replaced (init_downstream spec_float [10; 20]) = true
  /\ run head_replaced (init_downstream spec_float [10; 20]) = Some d_head_replaced
  /\ exists ps,
       chain (host_mem d_head_replaced) (downstream_hosts d_head_replaced) ps
       /\ NoDup ps
       /\ (forall p : ptr, p ∈ ps <-> is_Some (host_mem d_head_replaced !! p))
       /\ heap_fresh d_head_replaced.
Proof.
  assert (run_in_bounds head_replaced (init_downstream spec_float [10; 20]) = true)
    as Hb by (vm_compute; reflexivity).
  assert (run head_replaced (init_downstream spec_float [10; 20]) = Some d_head_replaced)
    as Hr by (vm_compute; reflexivity).
  split; [exact Hb|]. split; [exact Hr|].
  exact (host_list_is_never_corrupted [10; 20] head_replaced d_head_replaced Hb Hr).
Defined.

(** ** The health probes *)

Section ProbeProofs.
Context {double : Type} {libc : Libc double}.
Implicit Types (d : downstream_s double) (st : probes double) (h : downstream_host_s)
  (ps : list ptr).

Lemma set_host_lookup (p : ptr) h d : host_mem (set_host p h d) !! p = Some h.
Proof. apply lookup_insert_eq. Qed.

Lemma set_host_twice (p : ptr) h1 h2 d : set_host p h2 (set_host p h1 d) = set_host p h2 d.
Proof. unfold set_host. cbn [host_mem set_host_mem]. by rewrite insert_insert_eq. Qed.

Lemma set_host_same (p : ptr) h d : host_mem d !! p = Some h -> set_host p h d = d.
Proof. intros H. unfold set_host. rewrite insert_id by done. by destruct d. Qed.

Lemma ev_io_stop_spec (p : ptr) h st :
  host_mem (down st) !! p = Some h ->
  ev_io_stop p st = Some (set_down (set_host p (set_health_active false h) (down st)) st).
Proof. intros H. unfold ev_io_stop. by rewrite H. Qed.

Lemma ev_io_init_spec (p : ptr) cb fd h st :
  host_mem (down st) !! p = Some h ->
  ev_io_init p cb fd st
  = Some (Build_probes (set_host p (set_health_fd fd (set_health_active false h)) (down st))
            (<[p := cb]> (watcher_cb st))).
Proof. intros H. unfold ev_io_init. by rewrite H. Qed.

Lemma ev_io_start_spec (p : ptr) h st :
  host_mem (down st) !! p = Some h ->
  ev_io_start p st = Some (set_down (set_host p (set_health_active true h) (down st)) st).
Proof. intros H. unfold ev_io_start. by rewrite H. Qed.

Lemma probe_mark_down_spec (p : ptr) h st :
  host_mem (down st) !! p = Some h ->
  mark_down p st = Some (set_down (set_host p (marked_down h) (down st)) st).
Proof.
  intros H. unfold mark_down. by rewrite (mark_down_spec p (down st) h H).
Qed.

(** Initialising and starting the watcher of [p]. *)
Lemma arm_spec (p : ptr) cb fd h st :
  host_mem (down st) !! p = Some h ->
  (st1 ← ev_io_init p cb fd st; ev_io_start p st1)
  = Some (Build_probes (set_host p (armed fd h) (down st)) (<[p := cb]> (watcher_cb st))).
Proof.
  intros H. rewrite (ev_io_init_spec p cb fd h st H). cbn [mbind option_bind].
  erewrite ev_io_start_spec by apply set_host_lookup.
  unfold set_down. cbn [down watcher_cb]. by rewrite set_host_twice.
Qed.

(** One turn of the loop of [check_downstream_health]. *)
Lemma check_host_spec sys (p : ptr) h st :
  host_mem (down st) !! p = Some h ->
  check_host sys p st
  = Some (Build_probes (set_host p (probed sys h).1 (down st))
            (match (probed sys h).2 with
             | Some cb => <[p := cb]> (watcher_cb st)
             | None => watcher_cb st
             end)).
Proof.
  intros H. unfold check_host, probed. rewrite H. cbn [mbind option_bind].
  fold (probe_pending h). destruct (probe_pending h) eqn:Hpend.
  - rewrite (ev_io_stop_spec p h st H). cbn [mbind option_bind].
    erewrite probe_mark_down_spec by apply set_host_lookup.
    cbn [mbind option_bind down set_down]. rewrite set_host_twice.
    change (set_down ?a (set_down ?b st)) with (set_down a st).
    rewrite (bool_decide_eq_true_2 (-1 < 0)) by lia.
    set (h1 := marked_down (set_health_active false h)).
    set (st1 := set_down (set_host p h1 (down st)) st).
    assert (host_mem (down st1) !! p = Some h1) as H1 by apply set_host_lookup.
    unfold connect_started.
    destruct (bool_decide (sys_socket sys = -1)); simpl; [by destruct st|].
    destruct (bool_decide (sys_setnonblock sys = -1)); simpl; [by destruct st|].
    destruct (bool_decide (sys_connect sys = -1) && sys_einprogress sys); simpl;
      [|by destruct st].
    rewrite (arm_spec p CbConnect (sys_socket sys) h1 st1 H1). unfold st1. cbn [down set_down watcher_cb]. by rewrite set_host_twice.
  - cbn [mbind option_bind]. destruct (bool_decide (health_fd h < 0)) eqn:Hfd.
    + unfold connect_started.
      assert (Build_probes (set_host p h (down st)) (watcher_cb st) = st) as Hid
        by (rewrite set_host_same by done; by destruct st).
      destruct (bool_decide (sys_socket sys = -1)); cbn [negb andb fst snd];
        [by rewrite Hid|].
      destruct (bool_decide (sys_setnonblock sys = -1)); cbn [negb andb fst snd];
        [by rewrite Hid|].
      destruct (bool_decide (sys_connect sys = -1) && sys_einprogress sys);
        cbn [negb andb fst snd]; [|by rewrite Hid].
      exact (arm_spec p CbConnect (sys_socket sys) h st H).
    + exact (arm_spec p CbSend (health_fd h) h st H).
Qed.

Lemma probed_next sys h : next (probed sys h).1 = next h.
Proof. unfold probed. repeat case_match; done. Qed.

(** The loop of [check_downstream_health] over the hosts [ps] to come. *)
Lemma check_hosts_spec sys ps : forall fuel host st,
  chain (host_mem (down st)) host ps -> NoDup ps -> (length ps <= fuel)%nat ->
  exists st',
    check_hosts fuel sys host st = Some st'
    /\ down st' = set_host_mem (host_mem (down st')) (down st)
    /\ (forall q : ptr, q ∉ ps ->
          host_mem (down st') !! q = host_mem (down st) !! q
          /\ watcher_cb st' !! q = watcher_cb st !! q)
    /\ (forall (p : ptr) h, p ∈ ps -> host_mem (down st) !! p = Some h ->
          host_mem (down st') !! p = Some (probed (sys p) h).1
          /\ watcher_cb st' !! p
             = match (probed (sys p) h).2 with
               | Some cb => Some cb
               | None => watcher_cb st !! p
               end).
Proof.
  induction ps as [|p ps IH]; intros fuel host st Hc Hnd Hfuel.
  { simpl in Hc. subst host. exists st. destruct fuel; simpl.
    all: split; [done|]; split; [by destruct st as [[]]|]; split; [done|].
    all: intros p h Hp; by apply elem_of_nil in Hp. }
  destruct fuel as [|fuel]; [simpl in Hfuel; lia|].
  destruct Hc as [-> (h & Hh & Hc)]. apply NoDup_cons in Hnd as [Hp Hnd].
  cbn [check_hosts]. rewrite (check_host_spec (sys p) p h st Hh).
  cbn [mbind option_bind down]. rewrite set_host_lookup. cbn [mbind option_bind].
  rewrite probed_next.
  set (st1 := Build_probes _ _).
  assert (chain (host_mem (down st1)) (next h) ps) as Hc1.
  { eapply chain_frame; [|done]. intros q Hq. unfold st1. cbn [down set_host host_mem
      set_host_mem]. apply lookup_insert_ne. by intros ->. }
  destruct (IH fuel (next h) st1 Hc1 Hnd) as (st' & Hr & H1 & H2 & H3);
    [simpl in Hfuel; lia|].
  exists st'. split; [done|]. split; [|split].
  - rewrite H1. unfold st1. by cbn.
  - intros q Hq. apply not_elem_of_cons in Hq as [Hqp Hq].
    destruct (H2 q Hq) as [G1 G2]. rewrite G1, G2. unfold st1.
    cbn [down watcher_cb set_host host_mem set_host_mem].
    split; [by rewrite lookup_insert_ne|].
    destruct (probed (sys p) h).2; [by rewrite lookup_insert_ne|done].
  - intros q hq Hq Hhq. apply elem_of_cons in Hq as [->|Hq].
    + assert (hq = h) as -> by congruence.
      destruct (H2 p Hp) as [G1 G2]. rewrite G1, G2. unfold st1.
      cbn [down watcher_cb]. rewrite set_host_lookup. split; [done|].
      destruct (probed (sys p) h).2; [by rewrite lookup_insert_eq|done].
    + assert (q <> p) as Hqp by (by intros ->).
      assert (host_mem (down st1) !! q = Some hq) as Hq1.
      { unfold st1. cbn [down set_host host_mem set_host_mem].
        by rewrite lookup_insert_ne. }
      destruct (H3 q hq Hq Hq1) as [G1 G2]. split; [done|]. rewrite G2.
      unfold st1. cbn [watcher_cb].
      destruct (probed (sys q) hq).2; [done|].
      destruct (probed (sys p) h).2; [by rewrite lookup_insert_ne|done].
Qed.

(** X19.  [check_downstream_health] takes every host of the list once, and
    none but them.  A host whose probe is still under way from the tick
    before is marked down and its descriptor given up.  For it, and for a
    host without descriptor, a connection is opened: if [socket] and
    [setnonblock] succeed and [connect] reports [EINPROGRESS] the watcher
    waits on the new descriptor with [downstream_health_connect_cb], and in
    every other case, a [connect] that succeeds at once included, the host
    is left without probe.  A host with an idle descriptor gets
    [downstream_health_send_cb] on that same descriptor.  The [alive] bit
    is never set here. *)
Theorem health_check_probes_every_host sys st ps :
  chain (host_mem (down st)) (downstream_hosts (down st)) ps ->
  exists st',
    check_downstream_health sys st = Some st'
    /\ down st' = set_host_mem (host_mem (down st')) (down st)
    /\ (forall q : ptr, q ∉ ps ->
          host_mem (down st') !! q = host_mem (down st) !! q
          /\ watcher_cb st' !! q = watcher_cb st !! q)
    /\ forall (p : ptr) h, p ∈ ps -> host_mem (down st) !! p = Some h ->
         exists h',
           host_mem (down st') !! p = Some h'
           /\ sa_in_data h' = sa_in_data h /\ next h' = next h
           /\ alive h' = (if probe_pending h then false else alive h)
           /\ if probe_pending h || bool_decide (health_fd h < 0) then
                if connect_started (sys p)
                then health_fd h' = sys_socket (sys p) /\ health_active h' = true
                     /\ watcher_cb st' !! p = Some CbConnect
                else health_fd h' = (if probe_pending h then -1 else health_fd h)
                     /\ health_active h' = (if probe_pending h then false
                                            else health_active h)
                     /\ watcher_cb st' !! p = watcher_cb st !! p
              else health_fd h' = health_fd h /\ health_active h' = true
                   /\ watcher_cb st' !! p = Some CbSend.
Proof.
  intros Hc. unfold check_downstream_health.
  destruct (check_hosts_spec sys ps (size (host_mem (down st))) _ st Hc)
    as (st' & Hr & H1 & H2 & H3);
    [by eapply chain_NoDup|by eapply chain_length|].
  exists st'. split; [done|]. split; [done|]. split; [done|].
  intros p h Hp Hh. destruct (H3 p h Hp Hh) as [G1 G2].
  exists (probed (sys p) h).1. split; [done|]. rewrite G2. clear.
  unfold probed, probe_pending. destruct h as [a nx fd act al]. simpl.
  destruct (bool_decide (fd > 0)) eqn:Hfd; destruct act; simpl;
    destruct (connect_started (sys p)); simpl;
    repeat case_bool_decide; simpl; try done; try lia; by destruct al.
Qed.

(** *** What the callbacks do to the host they are called for *)

Lemma connect_cb_spec (p : ptr) err h st :
  host_mem (down st) !! p = Some h ->
  downstream_health_connect_cb p err st
  = Some (if bool_decide (err <> 0)
          then set_down (set_host p (marked_down (set_health_active false h)) (down st)) st
          else Build_probes (set_host p (armed (health_fd h) h) (down st))
                 (<[p := CbSend]> (watcher_cb st))).
Proof.
  intros H. unfold downstream_health_connect_cb. rewrite H. cbn [mbind option_bind].
  rewrite (ev_io_stop_spec p h st H). cbn [mbind option_bind].
  set (st1 := set_down _ st).
  assert (host_mem (down st1) !! p = Some (set_health_active false h)) as H1
    by apply set_host_lookup.
  case_bool_decide.
  - rewrite (probe_mark_down_spec p _ st1 H1). unfold st1.
    cbn [down set_down]. by rewrite set_host_twice.
  - rewrite (arm_spec p CbSend (health_fd h) _ st1 H1). unfold st1.
    cbn [down set_down watcher_cb]. by rewrite set_host_twice.
Qed.

Lemma send_cb_spec (p : ptr) n h st :
  host_mem (down st) !! p = Some h ->
  downstream_health_send_cb p n st
  = Some (if bool_decide (n <= 0)
          then set_down (set_host p (marked_down (set_health_active false h)) (down st)) st
          else Build_probes (set_host p (armed (health_fd h) h) (down st))
                 (<[p := CbRead]> (watcher_cb st))).
Proof.
  intros H. unfold downstream_health_send_cb. rewrite H. cbn [mbind option_bind].
  rewrite (ev_io_stop_spec p h st H). cbn [mbind option_bind].
  set (st1 := set_down _ st).
  assert (host_mem (down st1) !! p = Some (set_health_active false h)) as H1
    by apply set_host_lookup.
  case_bool_decide.
  - rewrite (probe_mark_down_spec p _ st1 H1). unfold st1.
    cbn [down set_down]. by rewrite set_host_twice.
  - rewrite (arm_spec p CbRead (health_fd h) _ st1 H1). unfold st1.
    cbn [down set_down watcher_cb]. by rewrite set_host_twice.
Qed.

Lemma read_cb_spec (p : ptr) n (response : bytes) h d :
  host_mem d !! p = Some h ->
  downstream_health_read_cb p n response d
  = Some (set_host p (if reply_up n response
                      then set_alive true (set_health_active false h)
                      else marked_down (set_health_active false h)) d).
Proof.
  intros H. unfold downstream_health_read_cb, reply_up. rewrite H.
  cbn [mbind option_bind].
  change (set_host_mem (<[p := set_health_active false h]> (host_mem d)) d)
    with (set_host p (set_health_active false h) d).
  set (d1 := set_host p (set_health_active false h) d).
  assert (host_mem d1 !! p = Some (set_health_active false h)) as H1
    by apply set_host_lookup.
  assert (downstream_mark_down p d1
          = Some (set_host p (marked_down (set_health_active false h)) d)) as Hdown.
  { rewrite (mark_down_spec p d1 _ H1). unfold d1. fold (marked_down (set_health_active false h)).
    change (set_host_mem (<[p := ?x]> (host_mem ?y)) ?y) with (set_host p x y).
    by rewrite set_host_twice. }
  destruct (bool_decide (n <= 0)); cbn [negb andb]; [done|].
  destruct (memcmp_eq _ _ _); cbn [negb]; [|done].
  rewrite H1. cbn [mbind option_bind]. f_equal.
  destruct (alive (set_health_active false h)) eqn:Hal.
  - unfold d1. f_equal. destruct h as [a nx fd act al]. simpl in *. by subst.
  - change (set_host_mem (<[p := ?x]> (host_mem ?y)) ?y) with (set_host p x y).
    unfold d1. by rewrite set_host_twice.
Qed.

(** A reply passes the test only if [recv] returned at least the eleven
    bytes of [HEALTH_CHECK_UP_RESPONSE] and they are the first it stored. *)
Lemma reply_up_spec n (response : bytes) :
  reply_up n response = true ->
  Z.of_nat (length HEALTH_CHECK_UP_RESPONSE) <= n
  /\ take (length HEALTH_CHECK_UP_RESPONSE) response = HEALTH_CHECK_UP_RESPONSE.
Proof.
  unfold reply_up, memcmp_eq. intros H. apply andb_true_iff in H as [Hn Hcmp].
  apply negb_true_iff, bool_decide_eq_false_1 in Hn.
  apply bool_decide_eq_true_1 in Hcmp.
  rewrite (firstn_all HEALTH_CHECK_UP_RESPONSE) in Hcmp.
  assert (length HEALTH_CHECK_UP_RESPONSE = 11%nat) as Hup by done.
  set (r := take (Z.to_nat n) response) in *.
  assert (length r <= Z.to_nat n)%nat as Hr by (unfold r; rewrite length_take; lia).
  assert (length HEALTH_CHECK_UP_RESPONSE <= length r)%nat as Hlen.
  { destruct (decide (length HEALTH_CHECK_UP_RESPONSE <= length r)%nat) as [|Hs]; [done|].
    exfalso. rewrite take_ge in Hcmp by (rewrite length_app; simpl; lia).
    assert (last (r ++ [NUL]) = Some NUL) as Hl by apply last_snoc.
    rewrite Hcmp in Hl. done. }
  split; [lia|].
  rewrite take_app_le in Hcmp by done. unfold r in Hcmp.
  rewrite take_take in Hcmp. rewrite Nat.min_l in Hcmp by lia. done.
Qed.

(** *** What cannot raise the [alive] bit *)

Lemma probed_alive sys h : alive (probed sys h).1 = true -> alive h = true.
Proof.
  unfold probed. destruct h as [a nx fd act al]. repeat case_match; simpl; done.
Qed.

Lemma probed_times_alive sys h h' :
  probed_times sys h h' -> alive h' = true -> alive h = true.
Proof.
  intros [k ->]. induction k as [|k IH]; [done|]. simpl. intros H.
  by apply IH, (probed_alive sys).
Qed.

(** The loop of [check_downstream_health] on any heap: a host comes out as
    some turns of the loop leave it. *)
Lemma check_hosts_records sys fuel : forall host st st',
  check_hosts fuel sys host st = Some st' ->
  forall (q : ptr) h', host_mem (down st') !! q = Some h' ->
    exists h, host_mem (down st) !! q = Some h /\ probed_times (sys q) h h'.
Proof.
  induction fuel as [|fuel IH]; intros host st st' H q h' Hq.
  { destruct host; simplify_eq/=. exists h'. split; [done|]. by exists 0%nat. }
  destruct host as [p|]; simplify_eq/=; [|exists h'; split; [done|by exists 0%nat]].
  destruct (host_mem (down st) !! p) as [h|] eqn:Hp.
  2:{ unfold check_host in H. by rewrite Hp in H. }
  rewrite (check_host_spec (sys p) p h st Hp) in H. cbn [mbind option_bind down] in H.
  rewrite set_host_lookup in H. cbn [mbind option_bind] in H.
  destruct (IH _ _ _ H q h' Hq) as (h1 & Hq1 & k & ->).
  cbn [down set_host host_mem set_host_mem] in Hq1.
  destruct (decide (q = p)) as [->|Hqp].
  - rewrite lookup_insert_eq in Hq1. simplify_eq. exists h. split; [done|].
    exists (S k). by rewrite Nat.iter_succ_r.
  - rewrite lookup_insert_ne in Hq1 by done. exists h1. split; [done|]. by exists k.
Qed.

(** The first loop of [update_downstreams] changes nothing of a host but
    its link. *)
Lemma remove_stale_hosts_records fuel : forall host prev d d',
  remove_stale_hosts fuel host prev d = Some d' ->
  forall (q : ptr) h', host_mem d' !! q = Some h' ->
    exists h, host_mem d !! q = Some h /\ h' = set_next (next h') h.
Proof.
  induction fuel as [|fuel IH]; intros host prev d d' H q h' Hq.
  { destruct host; simplify_eq/=. exists h'. split; [done|]. by destruct h'. }
  destruct host as [p|]; simplify_eq/=; [|exists h'; split; [done|by destruct h']].
  destruct (host_mem d !! p) as [hp|] eqn:Hp; [|done]. cbn [mbind option_bind] in H.
  destruct (match_new_addr _ _ _).
  { by destruct (IH _ _ _ _ H q h' Hq) as (h & Hh & ->); exists h. }
  destruct (store_link prev (next hp) (set_current_downstream (downstream_hosts d) d))
    as [d2|] eqn:Hs; [|done].
  cbn [mbind option_bind] in H.
  destruct (IH _ _ _ _ H q h' Hq) as (h3 & Hh3 & Hh').
  cbn [host_mem set_host_mem] in Hh3. apply lookup_delete_Some in Hh3 as [Hqp Hh3].
  destruct prev as [|p0]; cbn [store_link] in Hs.
  - simplify_eq. by exists h3.
  - cbn [host_mem set_current_downstream] in Hs.
    destruct (host_mem d !! p0) as [h0|] eqn:Hp0; [|done]. simplify_eq/=.
    destruct (decide (q = p0)) as [->|Hq0].
    + rewrite lookup_insert_eq in Hh3. simplify_eq. exists h0. split; [done|].
      rewrite Hh'. by destruct h0.
    + rewrite lookup_insert_ne in Hh3 by done. by exists h3.
Qed.

Lemma add_new_hosts_records addrs : forall d (q : ptr) h',
  host_mem (add_new_hosts addrs d) !! q = Some h' ->
  host_mem d !! q = Some h' \/ host_is_new h'.
Proof.
  induction addrs as [|a addrs IH]; intros d q h' H; [by left|].
  cbn [add_new_hosts] in H. case_bool_decide; [by apply IH|].
  apply IH in H as [H|H]; [|by right]. cbn [host_mem set_downstream_hosts set_host_mem] in H.
  destruct (decide (q = S (host_alloc d))) as [->|Hq].
  - rewrite lookup_insert_eq in H. simplify_eq. by right.
  - rewrite lookup_insert_ne in H by done. by left.
Qed.

Lemma update_downstreams_records d d' (q : ptr) h' :
  update_downstreams d = Some d' -> host_mem d' !! q = Some h' ->
  (exists h, host_mem d !! q = Some h /\ h' = set_next (next h') h) \/ host_is_new h'.
Proof.
  unfold update_downstreams. intros H Hq.
  destruct (in_addr_new_ready d); simplify_eq.
  2:{ left. exists h'. split; [done|]. by destruct h'. }
  destruct (remove_stale_hosts _ _ _ _) as [d1|] eqn:Hr; simplify_eq/=.
  apply add_new_hosts_records in Hq as [Hq|Hq]; [|by right].
  left. by eapply remove_stale_hosts_records.
Qed.

(** X20.  The [alive] bit of a host goes from 0 to 1 in one way only: the
    descriptor of its probe gets ready while its watcher is active with
    [downstream_health_read_cb], and [recv] delivers at least eleven bytes
    that begin with [HEALTH_CHECK_UP_RESPONSE].  No tick, no resolver
    round, no event of another host and no other callback raises it. *)
Theorem alive_is_raised_only_by_an_up_reply e st st' (p : ptr) h h' :
  probe_step e st = Some st' ->
  host_mem (down st) !! p = Some h -> host_mem (down st') !! p = Some h' ->
  alive h = false -> alive h' = true ->
  exists io,
    e = PeReady p io
    /\ health_active h = true
    /\ watcher_cb st !! p = Some CbRead
    /\ Z.of_nat (length HEALTH_CHECK_UP_RESPONSE) <= io_received io
    /\ take (length HEALTH_CHECK_UP_RESPONSE) (io_response io) = HEALTH_CHECK_UP_RESPONSE.
Proof.
  intros Hs Hp Hp' Hal Hal'.
  destruct e as [sys|l|q io]; cbn [probe_step] in Hs.
  - exfalso. unfold downstream_healthcheck_timer_cb in Hs.
    destruct (update_downstreams (down st)) as [d1|] eqn:Hu; [|done].
    cbn [mbind option_bind] in Hs. unfold check_downstream_health in Hs.
    destruct (check_hosts_records _ _ _ _ _ Hs p h' Hp') as (h1 & Hp1 & Ht).
    pose proof (probed_times_alive _ _ _ Ht Hal') as Hal1.
    cbn [down set_down] in Hp1.
    destruct (update_downstreams_records _ _ _ _ Hu Hp1) as [(h0 & Hp0 & Hh1)|Hnew].
    + assert (h0 = h) as -> by congruence. rewrite Hh1 in Hal1. simpl in Hal1. congruence.
    + destruct Hnew as [? _]. congruence.
  - exfalso. simplify_eq. cbn [down set_down] in Hp'.
    assert (host_mem (downstream_refresh l (down st)) = host_mem (down st)) as Hm.
    { unfold downstream_refresh. destruct (in_addr_new_ready _); [done|]. by destruct l. }
    rewrite Hm in Hp'. congruence.
  - destruct (host_mem (down st) !! q) as [hq|] eqn:Hq; [|simplify_eq; congruence].
    destruct (health_active hq) eqn:Hact; [|simplify_eq; congruence].
    destruct (decide (q = p)) as [->|Hqp].
    + assert (hq = h) as -> by congruence.
      destruct (watcher_cb st !! p) as [[]|] eqn:Hcb.
      * exfalso. rewrite (connect_cb_spec p _ h st Hp) in Hs. simplify_eq.
        case_bool_decide; cbn [down set_down] in Hp'; rewrite set_host_lookup in Hp';
          simplify_eq; unfold marked_down, armed in Hal'; simpl in Hal'; congruence.
      * exfalso. rewrite (send_cb_spec p _ h st Hp) in Hs. simplify_eq.
        case_bool_decide; cbn [down set_down] in Hp'; rewrite set_host_lookup in Hp';
          simplify_eq; unfold marked_down, armed in Hal'; simpl in Hal'; congruence.
      * rewrite (read_cb_spec p _ _ h _ Hp) in Hs. cbn [mbind option_bind] in Hs.
        simplify_eq. cbn [down set_down] in Hp'. rewrite set_host_lookup in Hp'.
        destruct (reply_up (io_received io) (io_response io)) eqn:Hup;
          [|injection Hp' as <-; unfold marked_down in Hal'; simpl in Hal'; done].
        injection Hp' as <-.
        exists io. split; [done|]. split; [done|]. split; [done|].
        by apply reply_up_spec.
      * simplify_eq. congruence.
    + exfalso.
      assert (host_mem (down st') !! p = host_mem (down st) !! p) as Hsame.
      { destruct (watcher_cb st !! q) as [[]|].
        - rewrite (connect_cb_spec q _ hq st Hq) in Hs. simplify_eq.
          case_bool_decide; cbn [down set_down set_host host_mem set_host_mem];
            by rewrite lookup_insert_ne.
        - rewrite (send_cb_spec q _ hq st Hq) in Hs. simplify_eq.
          case_bool_decide; cbn [down set_down set_host host_mem set_host_mem];
            by rewrite lookup_insert_ne.
        - rewrite (read_cb_spec q _ _ hq _ Hq) in Hs. cbn [mbind option_bind] in Hs.
          simplify_eq. cbn [down set_down set_host host_mem set_host_mem].
          by rewrite lookup_insert_ne.
        - by simplify_eq. }
      rewrite Hsame in Hp'. congruence.
Qed.

(** An event of another host leaves the record of [p] alone. *)
Lemma probe_ready_frame (q p : ptr) io st st' :
  probe_step (PeReady q io) st = Some st' -> q <> p ->
  host_mem (down st') !! p = host_mem (down st) !! p.
Proof.
  intros Hs Hqp. cbn [probe_step] in Hs.
  destruct (host_mem (down st) !! q) as [hq|] eqn:Hq; [|by simplify_eq].
  destruct (health_active hq); [|by simplify_eq].
  destruct (watcher_cb st !! q) as [[]|].
  - rewrite (connect_cb_spec q _ hq st Hq) in Hs. simplify_eq.
    case_bool_decide; cbn [down set_down set_host host_mem set_host_mem];
      by rewrite lookup_insert_ne.
  - rewrite (send_cb_spec q _ hq st Hq) in Hs. simplify_eq.
    case_bool_decide; cbn [down set_down set_host host_mem set_host_mem];
      by rewrite lookup_insert_ne.
  - rewrite (read_cb_spec q _ _ hq _ Hq) in Hs. cbn [mbind option_bind] in Hs.
    simplify_eq. cbn [down set_down set_host host_mem set_host_mem].
    by rewrite lookup_insert_ne.
  - by simplify_eq.
Qed.

Lemma probed_unprobed sys h :
  connect_started sys = false ->
  alive h = false /\ health_fd h < 0 /\ health_active h = false ->
  (probed sys h).1 = h.
Proof.
  intros Hs (Hal & Hfd & Hact). unfold probed, probe_pending. rewrite Hs, Hact.
  rewrite andb_false_r. by rewrite bool_decide_eq_true_2.
Qed.

Lemma probe_step_unprobed e st st' (p : ptr) :
  probe_step e st = Some st' ->
  (forall sys, e = PeTimer sys -> connect_started (sys p) = false) ->
  (forall h, host_mem (down st) !! p = Some h ->
     alive h = false /\ health_fd h < 0 /\ health_active h = false) ->
  forall h', host_mem (down st') !! p = Some h' ->
    alive h' = false /\ health_fd h' < 0 /\ health_active h' = false.
Proof.
  intros Hs Hsys Hinv h' Hp'. destruct e as [sys|l|q io].
  - cbn [probe_step] in Hs. unfold downstream_healthcheck_timer_cb in Hs.
    destruct (update_downstreams (down st)) as [d1|] eqn:Hu; [|done].
    cbn [mbind option_bind] in Hs. unfold check_downstream_health in Hs.
    destruct (check_hosts_records _ _ _ _ _ Hs p h' Hp') as (h1 & Hp1 & k & ->).
    cbn [down set_down] in Hp1.
    assert (alive h1 = false /\ health_fd h1 < 0 /\ health_active h1 = false) as H1.
    { destruct (update_downstreams_records _ _ _ _ Hu Hp1) as [(h0 & Hp0 & ->)|Hnew].
      - by apply Hinv in Hp0.
      - destruct Hnew as (? & -> & ?). done. }
    clear Hp1 Hp' Hs. induction k as [|k IH]; [done|]. rewrite Nat.iter_succ.
    by rewrite (probed_unprobed (sys p) _ (Hsys sys eq_refl) IH).
  - cbn [probe_step] in Hs. simplify_eq. cbn [down set_down] in Hp'. apply Hinv.
    rewrite <- Hp'. unfold downstream_refresh.
    destruct (in_addr_new_ready _); [done|]. by destruct l.
  - destruct (decide (q = p)) as [->|Hqp].
    + cbn [probe_step] in Hs.
      destruct (host_mem (down st) !! p) as [h|] eqn:Hp; [|simplify_eq; congruence].
      destruct (Hinv h eq_refl) as (? & ? & Hact). rewrite Hact in Hs. simplify_eq.
      apply Hinv. congruence.
    + apply Hinv. by rewrite <- (probe_ready_frame q p io st st' Hs Hqp).
Qed.

(** X21.  A host whose [connect] never reports [EINPROGRESS] at a tick,
    because it fails at once or because it succeeds at once, is never probed
    and never alive: if at the start it is not alive and has neither
    descriptor nor active watcher (as every host that is yet to be created
    is) then so it is after every sequence of events. *)
Theorem host_is_never_alive_without_connect_in_progress es st st' (p : ptr) :
  probe_run es st = Some st' ->
  (forall sys, PeTimer sys ∈ es -> connect_started (sys p) = false) ->
  (forall h, host_mem (down st) !! p = Some h ->
     alive h = false /\ health_fd h < 0 /\ health_active h = false) ->
  forall h', host_mem (down st') !! p = Some h' ->
    alive h' = false /\ health_fd h' < 0 /\ health_active h' = false.
Proof.
  revert st. induction es as [|e es IH]; intros st Hr Hsys Hinv; simpl in Hr.
  { by simplify_eq. }
  destruct (probe_step e st) as [st1|] eqn:Hs; [|done]. cbn [mbind option_bind] in Hr.
  apply (IH st1 Hr).
  - intros sys Hin. apply Hsys. by right.
  - apply (probe_step_unprobed e st st1 p Hs); [|done].
    intros sys ->. apply Hsys. by left.
Qed.


End ProbeProofs.

Lemma health_check_probes_every_host_witness :
  exists st',
    check_downstream_health sys_in_progress st_hosts = Some st'
    /\ down st' = set_host_mem (host_mem (down st')) (down st_hosts)
    /\ (forall q : ptr, q ∉ [2; 1]%nat ->
          host_mem (down st') !! q = host_mem (down st_hosts) !! q
          /\ watcher_cb st' !! q = watcher_cb st_hosts !! q)
    /\ forall (p : ptr) h, p ∈ [2; 1]%nat -> host_mem (down st_hosts) !! p = Some h ->
         exists h',
           host_mem (down st') !! p = Some h'
           /\ sa_in_data h' = sa_in_data h /\ next h' = next h
           /\ alive h' = (if probe_pending h then false else alive h)
           /\ if probe_pending h || bool_decide (health_fd h < 0) then
                if connect_started (sys_in_progress p)
                then health_fd h' = sys_socket (sys_in_progress p)
                     /\ health_active h' = true
                     /\ watcher_cb st' !! p = Some CbConnect
                else health_fd h' = (if probe_pending h then -1 else health_fd h)
                     /\ health_active h' = (if probe_pending h then false
                                            else health_active h)
                     /\ watcher_cb st' !! p = watcher_cb st_hosts !! p
              else health_fd h' = health_fd h /\ health_active h' = true
                   /\ watcher_cb st' !! p = Some CbSend.
Proof.
  assert (chain (host_mem (down st_hosts)) (downstream_hosts (down st_hosts)) [2; 1]%nat)
    as Hc.
  { vm_compute. split; [reflexivity|]. eexists. split; [reflexivity|].
    split; [reflexivity|]. eexists. split; reflexivity. }
  exact (health_check_probes_every_host sys_in_progress st_hosts [2; 1]%nat Hc).
Defined.

Lemma alive_is_raised_only_by_an_up_reply_witness :
  exists io,
    PeReady 1%nat io_up = PeReady 1%nat io
    /\ health_active (Build_downstream_host_s 10 None 8 true false) = true
    /\ watcher_cb st_waiting !! 1%nat = Some CbRead
    /\ Z.of_nat (length HEALTH_CHECK_UP_RESPONSE) <= io_received io
    /\ take (length HEALTH_CHECK_UP_RESPONSE) (io_response io) = HEALTH_CHECK_UP_RESPONSE.
Proof.
  assert (probe_step (PeReady 1%nat io_up) st_waiting = Some st_replied) as Hs
    by (vm_compute; reflexivity).
  assert (host_mem (down st_waiting) !! 1%nat
          = Some (Build_downstream_host_s 10 None 8 true false)) as Hp
    by (vm_compute; reflexivity).
  assert (host_mem (down st_replied) !! 1%nat
          = Some (Build_downstream_host_s 10 None 8 false true)) as Hp'
    by (vm_compute; reflexivity).
  exact (alive_is_raised_only_by_an_up_reply (PeReady 1%nat io_up) st_waiting st_replied
           1%nat _ _ Hs Hp Hp' eq_refl eq_refl).
Defined.

Lemma host_is_never_alive_without_connect_in_progress_witness :
  probe_run at_once_twice st_hosts = Some st_at_once
  /\ host_mem (down st_at_once) !! 1%nat
     = Some (Build_downstream_host_s 10 None (-1) false false)
  /\ alive (Build_downstream_host_s 10 None (-1) false false) = false
  /\ health_fd (Build_downstream_host_s 10 None (-1) false false) < 0
  /\ health_active (Build_downstream_host_s 10 None (-1) false false) = false.
Proof.
  assert (probe_run at_once_twice st_hosts = Some st_at_once) as Hr
    by (vm_compute; reflexivity).
  assert (forall sys, PeTimer sys ∈ at_once_twice -> connect_started (sys 1%nat) = false)
    as Hsys.
  { intros sys Hin. unfold at_once_twice in Hin.
    repeat (apply elem_of_cons in Hin as [Heq|Hin]; [try discriminate Heq|]).
    - injection Heq as ->. reflexivity.
    - injection Heq as ->. reflexivity.
    - by apply elem_of_nil in Hin. }
  assert (host_mem (down st_hosts) !! 1%nat
          = Some (Build_downstream_host_s 10 None (-1) false false)) as H0
    by (vm_compute; reflexivity).
  assert (forall h, host_mem (down st_hosts) !! 1%nat = Some h ->
            alive h = false /\ health_fd h < 0 /\ health_active h = false) as Hinv.
  { intros h Hh. rewrite H0 in Hh. injection Hh as <-. simpl. repeat split; lia. }
  assert (host_mem (down st_at_once) !! 1%nat
          = Some (Build_downstream_host_s 10 None (-1) false false)) as H1
    by (vm_compute; reflexivity).
  split; [exact Hr|]. split; [exact H1|].
  exact (host_is_never_alive_without_connect_in_progress at_once_twice st_hosts st_at_once
           1%nat Hr Hsys Hinv _ H1).
Defined.


(** ** Start-up *)

Section CStrings.
Implicit Types (p a b key : bytes) (c : ascii).

Lemma c_str_no_nul p : NUL ∉ c_str p.
Proof.
  induction p as [|x p IH]; cbn [c_str]; [by apply not_elem_of_nil|].
  destruct (Ascii.eqb_spec x NUL) as [Hx|Hx]; [by apply not_elem_of_nil|].
  apply not_elem_of_cons. split; [congruence|done].
Qed.

Lemma c_str_app a b : NUL ∉ a -> c_str (a ++ b) = a ++ c_str b.
Proof.
  induction a as [|x a IH]; intros H; cbn [c_str app]; [done|].
  apply not_elem_of_cons in H as [Hx H].
  destruct (Ascii.eqb_spec x NUL) as [?|_]; [done|]. by rewrite IH.
Qed.

Lemma c_str_id a : NUL ∉ a -> c_str a = a.
Proof.
  intros H. rewrite <- (app_nil_r a) at 1. rewrite c_str_app by done. apply app_nil_r.
Qed.

Lemma c_str_cons c b : c <> NUL -> c_str (c :: b) = c :: c_str b.
Proof. intros H. cbn [c_str]. by destruct (Ascii.eqb_spec c NUL). Qed.

Lemma c_str_prefix p : take (length (c_str p)) p = c_str p.
Proof.
  induction p as [|x p IH]; cbn [c_str]; [done|].
  destruct (Ascii.eqb_spec x NUL); cbn [length take]; [done|]. by rewrite IH.
Qed.

Lemma memchr_split p c n :
  match memchr p c n with
  | Some i => exists a b, p = a ++ c :: b /\ (c ∉ a) /\ length a = i /\ (i < n)%nat
  | None => c ∉ take n p
  end.
Proof.
  revert n. induction p as [|x p IH]; intros [|n]; simpl;
    try (by apply not_elem_of_nil).
  destruct (Ascii.eqb_spec x c) as [->|Hx].
  - exists [], p. repeat split; [by apply not_elem_of_nil|lia].
  - specialize (IH n). destruct (memchr p c n) as [i|]; simpl.
    + destruct IH as (a & b & -> & Ha & <- & Hn). exists (x :: a), b.
      repeat split; [|simpl; lia]. apply not_elem_of_cons. split; [by intros ->|done].
    + apply not_elem_of_cons. split; [by intros ->|done].
Qed.

(** [strchr] finds the first [c] of the string. *)
Lemma strchr_Some p c i :
  strchr p c = Some i ->
  exists key b, p = key ++ c :: b /\ (c ∉ key) /\ (NUL ∉ key) /\ length key = i.
Proof.
  unfold strchr. intros H. pose proof (memchr_split p c (length (c_str p))) as Hs.
  rewrite H in Hs. destruct Hs as (a & b & -> & Ha & <- & Hn).
  exists a, b. repeat split; [done|].
  pose proof (c_str_no_nul (a ++ c :: b)) as Hnul.
  rewrite <- c_str_prefix in Hnul. intros Hin. apply Hnul.
  rewrite take_app_ge by lia. apply elem_of_app. by left.
Qed.

Lemma strchr_None p c : strchr p c = None -> c ∉ c_str p.
Proof.
  unfold strchr. intros H. pose proof (memchr_split p c (length (c_str p))) as Hs.
  rewrite H in Hs. by rewrite c_str_prefix in Hs.
Qed.

Lemma strchr_intro key b c :
  c <> NUL -> c ∉ key -> NUL ∉ key -> strchr (key ++ c :: b) c = Some (length key).
Proof.
  intros Hc Hk Hn. unfold strchr. apply memchr_app; [done|].
  rewrite c_str_app by done. rewrite c_str_cons by done. rewrite length_app. simpl. lia.
Qed.

Lemma strchr_absent p c : c ∉ c_str p -> strchr p c = None.
Proof. intros H. unfold strchr. apply memchr_none. by rewrite c_str_prefix. Qed.

(** The buffer behind a string that has a [c] in it. *)
Lemma c_str_inv p key c (value : bytes) :
  c <> NUL -> c_str p = key ++ c :: value ->
  exists b, p = key ++ c :: b /\ c_str b = value /\ (NUL ∉ key).
Proof.
  intros Hc H. pose proof (c_str_no_nul p) as Hnul. rewrite H in Hnul.
  assert (NUL ∉ key) as Hk by (intros ?; apply Hnul, elem_of_app; by left).
  clear Hnul. revert p H. induction key as [|x key IH]; intros p H.
  - destruct p as [|y p]; [done|]. cbn [c_str app] in H.
    destruct (Ascii.eqb_spec y NUL); [done|]. injection H as -> H. by exists p.
  - destruct p as [|y p]; [done|]. cbn [c_str app] in H.
    destruct (Ascii.eqb_spec y NUL); [done|]. injection H as -> H.
    apply not_elem_of_cons in Hk as [Hx Hk].
    destruct (IH Hk p H) as (b & -> & Hb & _).
    exists b. split; [done|]. split; [done|].
    apply not_elem_of_cons. by split.
Qed.

(** Ending the string at the [c] found, and the string after it. *)
Lemma c_str_cut key c b :
  NUL ∉ key ->
  c_str (<[length key := NUL]> (key ++ c :: b)) = key
  /\ drop (S (length key)) (<[length key := NUL]> (key ++ c :: b)) = b
  /\ take (S (length key)) (<[length key := NUL]> (key ++ c :: b)) = key ++ [NUL].
Proof.
  intros Hk.
  assert (<[length key := NUL]> (key ++ c :: b) = key ++ NUL :: b) as ->.
  { rewrite insert_app_r_alt by lia. by rewrite Nat.sub_diag. }
  split; [|split].
  - rewrite c_str_app by done. cbn [c_str]. rewrite Ascii.eqb_refl. apply app_nil_r.
  - rewrite drop_app_ge by lia. replace (S (length key) - length key)%nat with 1%nat by lia.
    done.
  - rewrite take_app_ge by lia. replace (S (length key) - length key)%nat with 1%nat by lia.
    done.
Qed.
Lemma c_str_app_nul a b : c_str (a ++ NUL :: b) = c_str a.
Proof.
  induction a as [|x a IH]; cbn [c_str app]; [by rewrite Ascii.eqb_refl|].
  destruct (Ascii.eqb_spec x NUL); [done|]. by rewrite IH.
Qed.

Lemma to_int_small v : - 2 ^ 31 <= v < 2 ^ 31 -> to_int v = v.
Proof. intros H. unfold to_int. rewrite Z.mod_small by lia. lia. Qed.

Lemma getline_line l (rest : bytes) :
  NL ∉ l ->
  getline (l ++ NL :: rest) = Some (Z.of_nat (S (length l)), (l ++ [NL]) ++ [NUL], rest).
Proof.
  intros Hl. unfold getline.
  rewrite memchr_app by (done || (rewrite length_app; simpl; lia)).
  rewrite take_app_ge, drop_app_ge by lia.
  replace (S (length l) - length l)%nat with 1%nat by lia. cbn [take drop].
  by destruct l.
Qed.

Lemma getline_tail (tail : bytes) :
  NL ∉ tail -> tail <> [] ->
  getline tail = Some (Z.of_nat (length tail), tail ++ [NUL], []).
Proof.
  intros Ht Hne. unfold getline.
  rewrite memchr_none by (by rewrite firstn_all).
  rewrite firstn_all, drop_all. by destruct tail.
Qed.
End CStrings.

Section ConfigProofs.
Context {double : Type} {libc : Libc double}.
Context (atoi : bytes -> Z) (sys : startup_sys).
Implicit Types (g : Config.global_s double) (l key value host : bytes).


(** The first [c] of a text is at one place only. *)
Lemma first_split_unique c (a a' x x' : bytes) :
  a ++ c :: x = a' ++ c :: x' -> c ∉ a -> c ∉ a' -> a = a' /\ x = x'.
Proof.
  revert a'. induction a as [|y a IH]; intros [|y' a'] H Ha Ha'; cbn [app] in H.
  - by injection H as ->.
  - injection H as -> _. exfalso. apply Ha'. by left.
  - injection H as -> _. exfalso. apply Ha. by left.
  - injection H as -> H.
    apply not_elem_of_cons in Ha as [_ Ha]. apply not_elem_of_cons in Ha' as [_ Ha'].
    destruct (IH a' H Ha Ha') as [-> ->]. done.
Qed.

(** [init_downstream] on a value with its two colons. *)
Lemma init_downstream_parts host (dp b : bytes) g :
  0 <= os_udp_socket sys ->
  ":"%char ∉ host -> NUL ∉ host -> ":"%char ∉ dp -> NUL ∉ dp ->
  (Config.init_downstream atoi sys) (host ++ ":"%char :: dp ++ ":"%char :: b) g
  = let g1 :=
      Config.set_health_port (atoi (c_str b))
        (Config.set_downstream_data_port (atoi dp)
           (Config.set_data_host (Some (host ++ [NUL]))
              (Config.set_downstream (downstream_reset g) g))) in
    let d := get_dns_data (os_gethostbyname sys host)
               (set_in_addr_new_ready false (downstream_reset g)) in
    let g2 := Config.set_downstream d g1 in
    if bool_decide (os_gethostbyname sys host = [])
    then (1, Config.log_error ErrNoDownstreamResolved g2) else (0, g2).
Proof.
  intros Hsock Hh Hhn Hd Hdn. unfold Config.init_downstream.
  rewrite bool_decide_eq_false_2 by lia.
  rewrite (strchr_intro host _ ":"%char) by done.
  destruct (c_str_cut host ":"%char (dp ++ ":"%char :: b) Hhn) as (E1 & E2 & E3).
  rewrite E2, E3. rewrite (strchr_intro dp _ ":"%char) by done.
  destruct (c_str_cut dp ":"%char b Hdn) as (F1 & F2 & F3).
  rewrite F1, F2.
  assert (c_str (host ++ [NUL]) = host) as ->.
  { rewrite c_str_app by done. cbn [c_str]. rewrite Ascii.eqb_refl. apply app_nil_r. }
  cbn zeta. unfold get_dns_data.
  destruct (os_gethostbyname sys host) as [|a l]; simpl; done.
Qed.

(** [init_downstream] returns 0 for the values that are taken, and 1 for
    the others. *)
Lemma init_downstream_code (hosts : bytes) g :
  (((Config.init_downstream atoi sys) hosts g).1 = 0 <-> downstream_ok sys (c_str hosts))
  /\ (((Config.init_downstream atoi sys) hosts g).1 = 0 \/ ((Config.init_downstream atoi sys) hosts g).1 = 1).
Proof.
  destruct (decide (os_udp_socket sys < 0)) as [Hs|Hs].
  { unfold Config.init_downstream. rewrite bool_decide_eq_true_2 by done. simpl.
    split; [|by right]. split; [done|]. intros [? _]. lia. }
  destruct (strchr hosts ":"%char) as [i|] eqn:H1.
  2:{ unfold Config.init_downstream. rewrite bool_decide_eq_false_2 by done.
      rewrite H1. simpl. split; [|by right]. split; [done|].
      intros (_ & host & dp & hp & E & _). apply strchr_None in H1. exfalso. apply H1.
      rewrite E. apply elem_of_app. right. by left. }
  destruct (strchr_Some _ _ _ H1) as (host & b1 & -> & Hh & Hhn & <-).
  destruct (strchr b1 ":"%char) as [j|] eqn:H2.
  2:{ unfold Config.init_downstream. rewrite bool_decide_eq_false_2 by done.
      rewrite H1. destruct (c_str_cut host ":"%char b1 Hhn) as (E1 & E2 & E3).
      rewrite E2, H2. simpl. split; [|by right]. split; [done|].
      intros (_ & host' & dp & hp & E & Hh' & _). exfalso.
      rewrite c_str_app, c_str_cons in E by done.
      apply first_split_unique in E as [_ E]; [|done..].
      apply strchr_None in H2. apply H2. rewrite E. apply elem_of_app. right. by left. }
  destruct (strchr_Some _ _ _ H2) as (dp & b & -> & Hd & Hdn & <-).
  rewrite init_downstream_parts by (done || lia). cbn zeta.
  assert (c_str (host ++ ":"%char :: dp ++ ":"%char :: b)
          = host ++ ":"%char :: dp ++ ":"%char :: c_str b) as Hc.
  { rewrite c_str_app, c_str_cons, c_str_app, c_str_cons by done. done. }
  case_bool_decide as Hl; simpl.
  - split; [|by right]. split; [done|].
    intros (_ & host' & dp' & hp & E & Hh' & Hd' & Hr). exfalso. rewrite Hc in E.
    apply first_split_unique in E as [<- _]; done.
  - split; [|by left]. split; [|done]. intros _. split; [lia|].
    exists host, dp, (c_str b). by rewrite Hc.
Qed.

(** [process_config_line] on a line with its [=]. *)
Lemma process_config_line_key key (b : bytes) g :
  "="%char ∉ key -> NUL ∉ key ->
  (Config.process_config_line atoi sys) (key ++ "="%char :: b) g
  = if decide (key = bytes_of "data_port")
    then (0, Config.set_data_port (atoi (c_str b)) g)
    else if decide (key = bytes_of "downstream_flush_interval")
    then (0, Config.set_downstream_flush_interval (Config.atof b) g)
    else if decide (key = bytes_of "log_level")
    then (0, Config.set_log_level (atoi (c_str b)) g)
    else if decide (key = bytes_of "dns_refresh_interval")
    then (0, Config.set_dns_refresh_interval (atoi (c_str b)) g)
    else if decide (key = bytes_of "downstream_health_check_interval")
    then (0, Config.set_downstream_health_check_interval (Config.atof b) g)
    else if decide (key = bytes_of "downstream")
    then (Config.init_downstream atoi sys) b g
    else (1, Config.log_error (ErrUnknownParameter key) g).
Proof.
  intros Hk Hn. unfold Config.process_config_line.
  rewrite (strchr_intro key _ "="%char) by done.
  destruct (c_str_cut key "="%char b Hn) as (E1 & E2 & _). rewrite E2.
  unfold strcmp_eq. rewrite E1.
  repeat match goal with
  | |- context [decide (key = ?k)] =>
      destruct (decide (key = k)) as [->|Hkey];
      [by rewrite bool_decide_eq_true_2 by done|
       rewrite (bool_decide_eq_false_2 (c_str k = key))
         by (intros Heq; apply Hkey; by rewrite <- Heq);
       clear Hkey]
  end.
  done.
Qed.

(** [process_config_line] returns 0 for the lines that are taken, and 1 for
    the others. *)
Lemma process_config_line_code (line : bytes) g :
  (((Config.process_config_line atoi sys) line g).1 = 0 <-> config_line_ok sys (c_str line))
  /\ (((Config.process_config_line atoi sys) line g).1 = 0 \/ ((Config.process_config_line atoi sys) line g).1 = 1).
Proof.
  destruct (strchr line "="%char) as [i|] eqn:H1.
  2:{ unfold Config.process_config_line. rewrite H1. simpl. split; [|by right].
      split; [done|]. intros (key & value & E & _). exfalso.
      apply strchr_None in H1. apply H1. rewrite E. apply elem_of_app. right. by left. }
  destruct (strchr_Some _ _ _ H1) as (key & b & -> & Hk & Hn & <-).
  rewrite process_config_line_key by done.
  assert (c_str (key ++ "="%char :: b) = key ++ "="%char :: c_str b) as Hc
    by (by rewrite c_str_app, c_str_cons).
  assert (forall key' value, c_str (key ++ "="%char :: b) = key' ++ "="%char :: value ->
            "="%char ∉ key' -> key' = key /\ value = c_str b) as Huniq.
  { intros key' value E Hk'. rewrite Hc in E.
    apply first_split_unique in E as [-> ->]; done. }
  do 5 (match goal with
  | |- context [decide (key = ?k)] =>
      destruct (decide (key = k)) as [Hkey|?];
      [simpl; split; [|by left]; split; [intros _|done];
       exists key, (c_str b); rewrite Hc; split; [done|]; split; [done|];
       left; rewrite Hkey; unfold scalar_keys; cbn [fmap list_fmap];
       repeat (apply elem_of_cons; first [by left|right])|]
  end).
  case_decide as Hkey.
  - destruct (init_downstream_code b g) as [Hiff Hcode]. split; [|done].
    rewrite Hiff. split.
    + intros Hd. exists key, (c_str b). rewrite Hc. split; [done|]. split; [done|].
      right. done.
    + intros (key' & value & E & Hk' & Hcase).
      destruct (Huniq _ _ E Hk') as [-> ->].
      destruct Hcase as [Hin|[_ Hd]]; [|done]. exfalso. subst key.
      unfold scalar_keys in Hin. simpl in Hin.
      repeat (apply elem_of_cons in Hin as [?|Hin]; [done|]). by apply elem_of_nil in Hin.
  - simpl. split; [|by right]. split; [done|].
    intros (key' & value & E & Hk' & Hcase). exfalso.
    destruct (Huniq _ _ E Hk') as [-> ->].
    destruct Hcase as [Hin|[? _]]; [|done].
    unfold scalar_keys in Hin. simpl in Hin.
    repeat (apply elem_of_cons in Hin as [?|Hin]; [done|]). by apply elem_of_nil in Hin.
Qed.

(** X23.  [process_config_line] returns 0 or 1, and 0 exactly for a line
    that reads [key=value] up to its first [=], with a key that is, to the
    letter, one of the five that take a number, or [downstream] with a
    value [host:data_port:health_port] whose host resolves to at least one
    address, the socket for the flushes being there. *)
Theorem config_line_is_taken_iff_key_is_known (line : bytes) g :
  (((Config.process_config_line atoi sys) line g).1 = 0 <-> config_line_ok sys (c_str line))
  /\ (((Config.process_config_line atoi sys) line g).1 = 0 \/ ((Config.process_config_line atoi sys) line g).1 = 1).
Proof. apply process_config_line_code. Qed.

(** *** The loop of [init_config] *)

(** What the loop does with one buffer. *)
Lemma read_config_nil fuel f g : (Config.read_config atoi sys) fuel [] f g = (f, g).
Proof. by destruct fuel. Qed.

Lemma read_config_line fuel l (rest : bytes) f g :
  NL ∉ l -> Z.of_nat (S (length l)) < 2 ^ 31 ->
  (Config.read_config atoi sys) (S fuel) (l ++ NL :: rest) f g
  = if bool_decide (head l = Some "#"%char)
    then (Config.read_config atoi sys) fuel rest f g
    else (Config.read_config atoi sys) fuel rest
           (to_int (f + ((Config.process_config_line atoi sys) (l ++ [NUL; NUL]) g).1))
           ((Config.process_config_line atoi sys) (l ++ [NUL; NUL]) g).2.
Proof.
  intros Hl Hlen. cbn [Config.read_config]. rewrite getline_line by done.
  rewrite to_int_small by lia. rewrite bool_decide_eq_true_2 by lia.
  replace (Z.to_nat (Z.of_nat (S (length l)) - 1)) with (length l) by lia.
  assert (((l ++ [NL]) ++ [NUL]) !! length l = Some NL) as Hnl.
  { rewrite <- app_assoc. rewrite lookup_app_r by lia. by rewrite Nat.sub_diag. }
  rewrite (bool_decide_eq_true_2 _ Hnl).
  assert (<[length l := NUL]> ((l ++ [NL]) ++ [NUL]) = l ++ [NUL; NUL]) as ->.
  { rewrite <- app_assoc. rewrite insert_app_r_alt by lia. by rewrite Nat.sub_diag. }
  assert ((l ++ [NUL; NUL]) !! 0%nat = Some NUL \/ (l ++ [NUL; NUL]) !! 0%nat = head l)
    as Hhead by (destruct l; [by left|by right]).
  assert ((l ++ [NUL; NUL]) !! 0%nat <> Some NL) as Hne.
  { destruct l as [|x l]; [done|]. simpl. intros [= ->]. apply Hl. by left. }
  rewrite (bool_decide_eq_true_2 _ Hne). cbn [andb].
  destruct l as [|x l]; cbn [head app lookup list_lookup].
  - rewrite (bool_decide_eq_true_2 (Some NUL <> Some "#"%char)) by done.
    rewrite (bool_decide_eq_false_2 (None = Some "#"%char)) by done.
    by destruct ((Config.process_config_line atoi sys) _ g).
  - destruct (decide (x = "#"%char)) as [->|Hx].
    + rewrite (bool_decide_eq_true_2 (Some "#"%char = Some "#"%char)) by done.
      by rewrite (bool_decide_eq_false_2 (Some "#"%char <> Some "#"%char))
        by (intros H; by apply H).
    + rewrite (bool_decide_eq_false_2 (Some x = Some "#"%char)) by congruence.
      rewrite (bool_decide_eq_true_2 (Some x <> Some "#"%char)) by congruence.
      by destruct ((Config.process_config_line atoi sys) _ g).
Qed.

Lemma read_config_tail fuel (tail : bytes) f g :
  NL ∉ tail -> tail <> [] -> Z.of_nat (length tail) < 2 ^ 31 ->
  (Config.read_config atoi sys) (S fuel) tail f g
  = if bool_decide (head tail = Some "#"%char)
    then (f, g)
    else (to_int (f + ((Config.process_config_line atoi sys) (tail ++ [NUL]) g).1),
          ((Config.process_config_line atoi sys) (tail ++ [NUL]) g).2).
Proof.
  intros Ht Hne Hlen. cbn [Config.read_config]. rewrite getline_tail by done.
  rewrite to_int_small by lia.
  destruct tail as [|x tail]; [done|]. clear Hne.
  rewrite bool_decide_eq_true_2 by (simpl; lia).
  replace (Z.to_nat (Z.of_nat (length (x :: tail)) - 1)) with (length tail)
    by (simpl; lia).
  assert (((x :: tail) ++ [NUL]) !! length tail <> Some NL) as Hlast.
  { rewrite lookup_app_l by (simpl; lia). intros H.
    apply Ht. by eapply list_elem_of_lookup_2. }
  rewrite (bool_decide_eq_false_2 _ Hlast).
  cbn [head app lookup list_lookup].
  assert (x <> NL) as Hx by (intros ->; apply Ht; by left).
  rewrite (bool_decide_eq_true_2 (Some x <> Some NL)) by congruence. cbn [andb].
  destruct (decide (x = "#"%char)) as [->|Hx'].
  - rewrite (bool_decide_eq_true_2 (Some "#"%char = Some "#"%char)) by done.
    rewrite (bool_decide_eq_false_2 (Some "#"%char <> Some "#"%char))
      by (intros H; by apply H).
    apply read_config_nil.
  - rewrite (bool_decide_eq_false_2 (Some x = Some "#"%char)) by congruence.
    rewrite (bool_decide_eq_true_2 (Some x <> Some "#"%char)) by congruence.
    destruct ((Config.process_config_line atoi sys) _ g). apply read_config_nil.
Qed.

(** Whether a buffer is let pass, in the terms of the line it holds. *)
Lemma buffer_passes l (junk : bytes) g :
  (head l = Some "#"%char
   \/ ((Config.process_config_line atoi sys) (l ++ NUL :: junk) g).1 = 0)
  <-> config_line_passes sys l.
Proof.
  unfold config_line_passes.
  destruct (process_config_line_code (l ++ NUL :: junk) g) as [Hiff _].
  rewrite c_str_app_nul in Hiff. by rewrite Hiff.
Qed.

(** The count of failures the loop comes to. *)
Lemma read_config_failures ls : forall (tail : bytes) fuel f g,
  Forall (fun l => NL ∉ l) ls -> NL ∉ tail ->
  (length (text_of ls ++ tail) <= fuel)%nat ->
  0 <= f -> f + Z.of_nat (length (text_of ls ++ tail)) < 2 ^ 31 ->
  exists k,
    ((Config.read_config atoi sys) fuel (text_of ls ++ tail) f g).1 = f + k
    /\ 0 <= k
    /\ (k = 0 <-> Forall (config_line_passes sys) (config_lines ls tail)).
Proof.
  induction ls as [|l ls IH]; intros tail fuel f g Hls Ht Hfuel Hf Hbound.
  - unfold text_of, config_lines in *. cbn [fmap list_fmap concat app] in *.
    destruct tail as [|x tail'] eqn:Etail.
    { exists 0. rewrite read_config_nil. simpl. split; [lia|]. split; [lia|]. done. }
    rewrite <- Etail in *. assert (tail <> []) as Hne by (by rewrite Etail).
    destruct fuel as [|fuel]; [rewrite Etail in Hfuel; simpl in Hfuel; lia|].
    rewrite read_config_tail by (done || lia).
    destruct (process_config_line_code (tail ++ [NUL]) g) as [_ Hcode].
    pose proof (buffer_passes tail [] g) as Hpass.
    case_bool_decide as Hc.
    + exists 0. simpl. split; [lia|]. split; [lia|]. split; [|done].
      intros _. apply Forall_singleton. apply Hpass. by left.
    + assert (0 < Z.of_nat (length tail)) by (rewrite Etail; simpl; lia).
      destruct Hcode as [Hr|Hr]; rewrite Hr; cbn [fst].
      * exists 0. rewrite to_int_small by lia. split; [done|]. split; [lia|].
        split; [|done]. intros _. apply Forall_singleton. apply Hpass. by right.
      * exists 1. rewrite to_int_small by lia. split; [done|]. split; [lia|].
        split; [done|]. intros Hall. apply Forall_inv in Hall.
        apply Hpass in Hall as [?|Hz]; [done|]. rewrite Hr in Hz. done.
  - apply Forall_cons in Hls as [Hl Hls].
    assert (text_of (l :: ls) ++ tail = l ++ NL :: (text_of ls ++ tail)) as Etext.
    { unfold text_of. cbn [fmap list_fmap concat]. by rewrite <- !app_assoc. }
    rewrite Etext in *. rewrite length_app in Hfuel, Hbound. cbn [length] in Hfuel, Hbound.
    destruct fuel as [|fuel]; [lia|].
    rewrite read_config_line by (done || lia).
    destruct (process_config_line_code (l ++ [NUL; NUL]) g) as [_ Hcode].
    pose proof (buffer_passes l [NUL] g) as Hpass.
    change (config_lines (l :: ls) tail) with (l :: config_lines ls tail).
    case_bool_decide as Hc.
    + destruct (IH tail fuel f g) as (k & Hk & Hk0 & Hiff); [done|done|lia|done|lia|].
      exists k. split; [done|]. split; [done|]. rewrite Hiff. split.
      * intros Hall. apply Forall_cons. split; [|done]. apply Hpass. by left.
      * intros Hall. by apply Forall_cons in Hall as [_ ?].
    + destruct Hcode as [Hr|Hr]; rewrite Hr; rewrite to_int_small by lia.
      * destruct (IH tail fuel (f + 0)
                    ((Config.process_config_line atoi sys) (l ++ [NUL; NUL]) g).2)
          as (k & Hk & Hk0 & Hiff); [done|done|lia|lia|lia|].
        exists k. split; [rewrite Hk; lia|]. split; [done|]. rewrite Hiff. split.
        -- intros Hall. apply Forall_cons. split; [|done]. apply Hpass. by right.
        -- intros Hall. by apply Forall_cons in Hall as [_ ?].
      * destruct (IH tail fuel (f + 1)
                    ((Config.process_config_line atoi sys) (l ++ [NUL; NUL]) g).2)
          as (k & Hk & Hk0 & Hiff); [done|done|lia|lia|lia|].
        exists (1 + k). split; [rewrite Hk; lia|]. split; [lia|]. split; [lia|].
        intros Hall. apply Forall_cons in Hall as [Hall _].
        apply Hpass in Hall as [?|Hz]; [done|]. rewrite Hr in Hz. done.
Qed.

(** The return code of [init_config] on a file that opens. *)
Lemma init_config_code filename ls (tail : bytes) g :
  os_fopen sys filename = Some (text_of ls ++ tail) ->
  Forall (fun l => NL ∉ l) ls -> NL ∉ tail ->
  Z.of_nat (length (text_of ls ++ tail)) < 2 ^ 31 ->
  (((Config.init_config atoi sys) filename g).1 = 0
   <-> Forall (config_line_passes sys) (config_lines ls tail)
       /\ os_sighup sys = true /\ os_sigint sys = true)
  /\ (((Config.init_config atoi sys) filename g).1 = 0
      \/ ((Config.init_config atoi sys) filename g).1 = 1).
Proof.
  intros Hopen Hls Ht Hbound. unfold Config.init_config. rewrite Hopen.
  match goal with |- context [Config.read_config atoi sys ?n ?t 0 ?g1] =>
    destruct (read_config_failures ls tail n 0 g1) as (k & Hk & Hk0 & Hiff);
      [done|done|done|lia|lia|];
    destruct (Config.read_config atoi sys n t 0 g1) as [failures g2] end.
  cbn [fst] in Hk. subst failures. rewrite Z.add_0_l.
  case_bool_decide as Hpos; cbn [fst].
  { split; [|by right]. split; [done|]. intros (Hall & _). apply Hiff in Hall. lia. }
  assert (k = 0) as Hz by lia. apply Hiff in Hz.
  destruct (os_sighup sys); cbn [negb fst].
  2:{ split; [|by right]. split; [done|]. by intros (_ & ? & _). }
  destruct (os_sigint sys); cbn [negb fst].
  2:{ split; [|by right]. split; [done|]. by intros (_ & _ & ?). }
  split; [|by left]. done.
Qed.

(** X24.  [init_config] on a file that opens returns 0 or 1, and 0 exactly
    when both handlers are installed and every line of the file either
    begins with [#] or is taken by [process_config_line].  The test for a
    line that begins with a newline never holds, the newline that ends a
    line being replaced before: an empty line is given to
    [process_config_line] like any other. *)
Theorem config_is_loaded_iff_every_line_passes filename ls (tail : bytes) g :
  os_fopen sys filename = Some (text_of ls ++ tail) ->
  Forall (fun l => NL ∉ l) ls -> NL ∉ tail ->
  Z.of_nat (length (text_of ls ++ tail)) < 2 ^ 31 ->
  (((Config.init_config atoi sys) filename g).1 = 0
   <-> Forall (config_line_passes sys) (config_lines ls tail)
       /\ os_sighup sys = true /\ os_sigint sys = true)
  /\ (((Config.init_config atoi sys) filename g).1 = 0
      \/ ((Config.init_config atoi sys) filename g).1 = 1).
Proof. apply init_config_code. Qed.

(** X25.  A file with an empty line is not loaded: [init_config] returns 1
    whatever the other lines are. *)
Theorem empty_line_fails_the_config filename ls (tail : bytes) g :
  os_fopen sys filename = Some (text_of ls ++ tail) ->
  Forall (fun l => NL ∉ l) ls -> NL ∉ tail ->
  Z.of_nat (length (text_of ls ++ tail)) < 2 ^ 31 ->
  [] ∈ ls ->
  ((Config.init_config atoi sys) filename g).1 = 1.
Proof.
  intros Hopen Hls Ht Hbound Hin.
  destruct (init_config_code filename ls tail g Hopen Hls Ht Hbound) as [Hiff [Hz|Ho]];
    [|done].
  exfalso. apply Hiff in Hz as (Hall & _).
  assert ([] ∈ config_lines ls tail) as Hin' by (apply elem_of_app; by left).
  pose proof (proj1 (Forall_forall _ _) Hall [] Hin') as [Hc|(key & value & E & _)].
  - done.
  - simpl in E. by destruct key.
Qed.

(** *** The state [init_config] leaves *)

(** The loop of [init_config] is the loop over the buffers of the lines. *)
Lemma read_config_buffers ls : forall (tail : bytes) fuel f g,
  Forall (fun l => NL ∉ l) ls -> NL ∉ tail ->
  (length (text_of ls ++ tail) <= fuel)%nat ->
  Z.of_nat (length (text_of ls ++ tail)) < 2 ^ 31 ->
  (Config.read_config atoi sys) fuel (text_of ls ++ tail) f g
  = (Config.read_buffers atoi sys) (line_buffers ls tail) f g.
Proof.
  induction ls as [|l ls IH]; intros tail fuel f g Hls Ht Hfuel Hbound.
  - unfold text_of, line_buffers in *. cbn [fmap list_fmap concat app] in *.
    destruct tail as [|x tail'] eqn:Etail; [by rewrite read_config_nil|].
    rewrite <- Etail in *. assert (tail <> []) as Hne by (by rewrite Etail).
    destruct fuel as [|fuel]; [rewrite Etail in Hfuel; simpl in Hfuel; lia|].
    cbn [Config.read_config Config.read_buffers]. rewrite getline_tail by done.
    rewrite to_int_small by lia.
    rewrite bool_decide_eq_true_2 by (rewrite Etail; simpl; lia).
    assert ((tail ++ [NUL]) !! Z.to_nat (Z.of_nat (length tail) - 1) <> Some NL) as Hlast.
    { rewrite lookup_app_l by (rewrite Etail; simpl; lia). intros H.
      apply Ht. by eapply list_elem_of_lookup_2. }
    rewrite (bool_decide_eq_false_2 _ Hlast).
    destruct (_ && _); [|apply read_config_nil].
    destruct ((Config.process_config_line atoi sys) _ g). apply read_config_nil.
  - apply Forall_cons in Hls as [Hl Hls].
    assert (text_of (l :: ls) ++ tail = l ++ NL :: (text_of ls ++ tail)) as Etext.
    { unfold text_of. cbn [fmap list_fmap concat]. by rewrite <- !app_assoc. }
    rewrite Etext in *. rewrite length_app in Hfuel, Hbound. cbn [length] in Hfuel, Hbound.
    destruct fuel as [|fuel]; [lia|].
    change (line_buffers (l :: ls) tail) with ((l ++ [NUL; NUL]) :: line_buffers ls tail).
    cbn [Config.read_config Config.read_buffers]. rewrite getline_line by done.
    rewrite to_int_small by lia. rewrite bool_decide_eq_true_2 by lia.
    replace (Z.to_nat (Z.of_nat (S (length l)) - 1)) with (length l) by lia.
    assert (((l ++ [NL]) ++ [NUL]) !! length l = Some NL) as Hnl.
    { rewrite <- app_assoc. rewrite lookup_app_r by lia. by rewrite Nat.sub_diag. }
    rewrite (bool_decide_eq_true_2 _ Hnl).
    assert (<[length l := NUL]> ((l ++ [NL]) ++ [NUL]) = l ++ [NUL; NUL]) as ->.
    { rewrite <- app_assoc. rewrite insert_app_r_alt by lia. by rewrite Nat.sub_diag. }
    destruct (_ && _); [|apply IH; (done || lia)].
    destruct ((Config.process_config_line atoi sys) _ g). apply IH; (done || lia).
Qed.

(** Each buffer holds its line, then a NUL. *)
Lemma line_buffers_lines ls (tail : bytes) :
  Forall2 (fun l b => exists junk : bytes, b = l ++ NUL :: junk)
    (config_lines ls tail) (line_buffers ls tail).
Proof.
  unfold config_lines, line_buffers. apply Forall2_app.
  - induction ls as [|l ls IH]; [by constructor|]. constructor; [by exists [NUL]|done].
  - destruct tail; [by constructor|]. constructor; [by exists []|constructor].
Qed.

Lemma config_lines_no_newline ls (tail : bytes) :
  Forall (fun l => NL ∉ l) ls -> NL ∉ tail ->
  Forall (fun l => NL ∉ l) (config_lines ls tail).
Proof.
  intros Hls Ht. unfold config_lines. apply Forall_app. split; [done|].
  destruct tail; [by constructor|]. by apply Forall_singleton.
Qed.

Lemma read_buffers_app bs1 bs2 f g :
  (Config.read_buffers atoi sys) (bs1 ++ bs2) f g
  = (Config.read_buffers atoi sys) bs2
      ((Config.read_buffers atoi sys) bs1 f g).1
      ((Config.read_buffers atoi sys) bs1 f g).2.
Proof.
  revert f g. induction bs1 as [|b bs1 IH]; intros f g; [done|].
  cbn [app Config.read_buffers]. destruct (_ && _); [|apply IH].
  destruct ((Config.process_config_line atoi sys) b g). apply IH.
Qed.

Lemma scalar_key_chars key : key ∈ scalar_keys -> ("="%char ∉ key) /\ (NUL ∉ key).
Proof.
  unfold scalar_keys. cbn [fmap list_fmap]. intros Hin.
  repeat (apply elem_of_cons in Hin as [->|Hin];
          [split; intros H; vm_compute in H;
           repeat (apply elem_of_cons in H as [H|H]; [discriminate H|]);
           by apply elem_of_nil in H|]).
  by apply elem_of_nil in Hin.
Qed.

(** A line that sets a number is taken, and leaves the downstream alone. *)
Lemma process_scalar l (junk : bytes) key value g :
  key ∈ scalar_keys -> c_str l = key ++ "="%char :: value ->
  ((Config.process_config_line atoi sys) (l ++ NUL :: junk) g).1 = 0
  /\ Config.data_host ((Config.process_config_line atoi sys) (l ++ NUL :: junk) g).2
     = Config.data_host g
  /\ Config.downstream ((Config.process_config_line atoi sys) (l ++ NUL :: junk) g).2
     = Config.downstream g
  /\ Config.downstream_data_port
       ((Config.process_config_line atoi sys) (l ++ NUL :: junk) g).2
     = Config.downstream_data_port g
  /\ Config.health_port ((Config.process_config_line atoi sys) (l ++ NUL :: junk) g).2
     = Config.health_port g.
Proof.
  intros Hin Hc. destruct (scalar_key_chars key Hin) as [Heq Hnul].
  rewrite <- (c_str_app_nul l junk) in Hc.
  assert ("="%char <> NUL) as Hne by done.
  destruct (c_str_inv _ _ _ _ Hne Hc) as (b & Hb & _ & _). rewrite Hb.
  rewrite process_config_line_key by done.
  unfold scalar_keys in Hin. cbn [fmap list_fmap] in Hin.
  repeat (apply elem_of_cons in Hin as [->|Hin];
          [repeat (case_decide; [done|]); by repeat case_decide|]).
  by apply elem_of_nil in Hin.
Qed.

(** Comments and lines that set numbers: no failure, and the downstream as
    it was. *)
Lemma read_buffers_scalars ls : forall bs g,
  Forall2 (fun l b => exists junk : bytes, b = l ++ NUL :: junk) ls bs ->
  Forall (fun l => NL ∉ l) ls -> Forall comment_or_scalar ls ->
  ((Config.read_buffers atoi sys) bs 0 g).1 = 0
  /\ Config.data_host ((Config.read_buffers atoi sys) bs 0 g).2 = Config.data_host g
  /\ Config.downstream ((Config.read_buffers atoi sys) bs 0 g).2 = Config.downstream g
  /\ Config.downstream_data_port ((Config.read_buffers atoi sys) bs 0 g).2
     = Config.downstream_data_port g
  /\ Config.health_port ((Config.read_buffers atoi sys) bs 0 g).2 = Config.health_port g.
Proof.
  induction ls as [|l ls IH]; intros bs g Hb Hnl Hok.
  { apply Forall2_nil_inv_l in Hb as ->. done. }
  apply Forall2_cons_inv_l in Hb as (b & bs' & (junk & ->) & Hb & ->).
  apply Forall_cons in Hnl as [Hl Hnl]. apply Forall_cons in Hok as [Hok1 Hok].
  cbn [Config.read_buffers].
  assert ((l ++ NUL :: junk) !! 0%nat <> Some NL) as Hne.
  { destruct l as [|x l]; [done|]. simpl. intros [= ->]. apply Hl. by left. }
  rewrite (bool_decide_eq_true_2 _ Hne). cbn [andb].
  case_bool_decide as Hc; [|by apply IH].
  destruct Hok1 as [Hcom|(key & value & Hin & Hstr)].
  { exfalso. apply Hc. by destruct l. }
  destruct (process_scalar l junk key value g Hin Hstr) as (H1 & H2 & H3 & H4 & H5).
  destruct ((Config.process_config_line atoi sys) (l ++ NUL :: junk) g) as [r g1].
  cbn [fst snd] in *. subst r. change (to_int (0 + 0)) with 0.
  destruct (IH bs' g1 Hb Hnl Hok) as (G1 & G2 & G3 & G4 & G5).
  rewrite G1, G2, G3, G4, G5. done.
Qed.

(** X26.  A configuration without a [downstream] line is loaded, and
    [main] then hands the null [data_host] to [inet_pton]: when every line
    of the file is a comment or sets one of the five numbers, both handlers
    are installed, and the socket for the datagrams is bound, [main] has no
    defined behaviour. *)
Theorem config_without_downstream_leaves_host_null prog filename ls (tail : bytes) :
  os_fopen sys filename = Some (text_of ls ++ tail) ->
  Forall (fun l => NL ∉ l) ls -> NL ∉ tail ->
  Z.of_nat (length (text_of ls ++ tail)) < 2 ^ 31 ->
  Forall comment_or_scalar (config_lines ls tail) ->
  os_sighup sys = true -> os_sigint sys = true ->
  0 <= os_data_socket sys -> os_bind sys = 0 ->
  ((Config.init_config atoi sys) filename Config.global_zero).1 = 0
  /\ (Config.main atoi sys) [prog; filename] = None.
Proof.
  intros Hopen Hls Ht Hbound Hok Hup Hint Hsock Hbind.
  assert (exists g, (Config.init_config atoi sys) filename Config.global_zero = (0, g)
                    /\ Config.data_host g = None) as (g & Hinit & Hhost).
  { unfold Config.init_config. rewrite Hopen.
    rewrite read_config_buffers by (done || lia).
    match goal with |- context [Config.read_buffers atoi sys ?bs 0 ?g1] =>
      destruct (read_buffers_scalars (config_lines ls tail) bs g1)
        as (G1 & G2 & _);
        [apply line_buffers_lines|by apply config_lines_no_newline|done|];
      destruct (Config.read_buffers atoi sys bs 0 g1) as [r g2] end.
    cbn [fst snd] in *. subst r. rewrite Hup, Hint. simpl. by exists g2. }
  split; [by rewrite Hinit|].
  unfold Config.main. cbn [length]. rewrite bool_decide_eq_false_2 by (intros H; by apply H).
  change ([prog; filename] !!! 1%nat) with filename. rewrite Hinit.
  rewrite bool_decide_eq_false_2 by (intros H; by apply H).
  rewrite bool_decide_eq_false_2 by lia.
  rewrite bool_decide_eq_false_2 by (intros H; by apply H).
  by rewrite Hhost.
Qed.

(** The [downstream] line that is taken, on a downstream still all zero. *)
Lemma process_downstream_line l (junk : bytes) host (dp hp : bytes) g :
  c_str l = bytes_of "downstream=" ++ host ++ ":"%char :: dp ++ ":"%char :: hp ->
  ":"%char ∉ host -> ":"%char ∉ dp -> os_gethostbyname sys host <> [] ->
  0 <= os_udp_socket sys ->
  Config.downstream g = Config.downstream (@Config.global_zero double libc) ->
  exists g',
    (Config.process_config_line atoi sys) (l ++ NUL :: junk) g = (0, g')
    /\ Config.downstream g' = init_downstream double (os_gethostbyname sys host)
    /\ Config.data_host g' = Some (host ++ [NUL])
    /\ Config.downstream_data_port g' = atoi dp
    /\ Config.health_port g' = atoi hp.
Proof.
  intros Hc Hh Hd Hr Hsock Hzero.
  rewrite <- (c_str_app_nul l junk) in Hc.
  change (bytes_of "downstream=" ++ host ++ ":"%char :: dp ++ ":"%char :: hp)
    with (bytes_of "downstream" ++ "="%char :: (host ++ ":"%char :: dp ++ ":"%char :: hp))
    in Hc.
  assert ("="%char <> NUL) as Hne by done.
  assert (":"%char <> NUL) as Hne' by done.
  destruct (c_str_inv _ _ _ _ Hne Hc) as (b & -> & Hb & _).
  destruct (c_str_inv _ _ _ _ Hne' Hb) as (b1 & -> & Hb1 & Hhn).
  destruct (c_str_inv _ _ _ _ Hne' Hb1) as (b2 & -> & Hb2 & Hdn).
  rewrite process_config_line_key.
  2:{ intros H. vm_compute in H.
      repeat (apply elem_of_cons in H as [H|H]; [discriminate H|]).
      by apply elem_of_nil in H. }
  2:{ intros H. vm_compute in H.
      repeat (apply elem_of_cons in H as [H|H]; [discriminate H|]).
      by apply elem_of_nil in H. }
  repeat (case_decide; [done|]). rewrite decide_True by done.
  rewrite init_downstream_parts by done. cbn zeta.
  rewrite bool_decide_eq_false_2 by done. rewrite Hb2.
  eexists. split; [done|]. cbn. split; [|done].
  unfold downstream_reset. rewrite Hzero. done.
Qed.

(** X27.  The start-up that gets to the event loop.  When the file has one
    [downstream] line, [host:data_port:health_port] with a host that
    resolves, among comments and lines that set numbers, and every call of
    the system succeeds, [main] reaches [ev_loop] with the downstream state
    [init_downstream] makes of the resolved addresses, the host name kept,
    both ports converted by [atoi], and the resolver thread started
    exactly when [inet_pton] does not take the host name for an address. *)
Theorem main_reaches_the_loop_with_the_resolved_addresses
    prog filename ls (tail : bytes) before dl after host (dp hp : bytes) :
  os_fopen sys filename = Some (text_of ls ++ tail) ->
  Forall (fun l => NL ∉ l) ls -> NL ∉ tail ->
  Z.of_nat (length (text_of ls ++ tail)) < 2 ^ 31 ->
  config_lines ls tail = before ++ dl :: after ->
  Forall comment_or_scalar (before ++ after) ->
  c_str dl = bytes_of "downstream=" ++ host ++ ":"%char :: dp ++ ":"%char :: hp ->
  ":"%char ∉ host -> ":"%char ∉ dp -> os_gethostbyname sys host <> [] ->
  0 <= os_udp_socket sys ->
  os_sighup sys = true -> os_sigint sys = true ->
  0 <= os_data_socket sys -> os_bind sys = 0 ->
  exists g,
    (Config.main atoi sys) [prog; filename]
    = Some (Config.Serving (bool_decide (os_inet_pton sys host = 0)) g)
    /\ Config.downstream g = init_downstream double (os_gethostbyname sys host)
    /\ Config.data_host g = Some (host ++ [NUL])
    /\ Config.downstream_data_port g = atoi dp
    /\ Config.health_port g = atoi hp.
Proof.
  intros Hopen Hls Ht Hbound Hlines Hok Hdl Hh Hd Hr Husock Hup Hint Hsock Hbind.
  apply Forall_app in Hok as [Hok1 Hok2].
  pose proof (line_buffers_lines ls tail) as Hbuf. rewrite Hlines in Hbuf.
  apply Forall2_app_inv_l in Hbuf as (bb & rest & Hbb & Hrest & Ebuf).
  apply Forall2_cons_inv_l in Hrest as (db & ab & (junk & ->) & Hab & ->).
  pose proof (config_lines_no_newline ls tail Hls Ht) as Hnl. rewrite Hlines in Hnl.
  apply Forall_app in Hnl as [Hnl1 Hnl2]. apply Forall_cons in Hnl2 as [Hnld Hnl2].
  assert (exists g,
    (Config.init_config atoi sys) filename Config.global_zero = (0, g)
    /\ Config.downstream g = init_downstream double (os_gethostbyname sys host)
    /\ Config.data_host g = Some (host ++ [NUL])
    /\ Config.downstream_data_port g = atoi dp
    /\ Config.health_port g = atoi hp) as (g & Hinit & G1 & G2 & G3 & G4).
  { unfold Config.init_config. rewrite Hopen.
    rewrite read_config_buffers by (done || lia). rewrite Ebuf, read_buffers_app.
    match goal with |- context [Config.read_buffers atoi sys bb 0 ?g1] =>
      destruct (read_buffers_scalars before bb g1 Hbb Hnl1 Hok1) as (F1 & _ & F3 & _);
      destruct (Config.read_buffers atoi sys bb 0 g1) as [r g2] end.
    cbn [fst snd] in *. subst r. cbn [Config.read_buffers].
    assert (exists x l', dl = x :: l' /\ x <> NL /\ x <> "#"%char) as (x & l' & -> & Hx1 & Hx2).
    { destruct dl as [|x l']; [done|]. exists x, l'. split; [done|].
      cbn [c_str] in Hdl. destruct (Ascii.eqb_spec x NUL); [done|].
      injection Hdl as -> _. done. }
    cbn [app lookup list_lookup].
    rewrite (bool_decide_eq_true_2 (Some x <> Some NL)) by congruence.
    rewrite (bool_decide_eq_true_2 (Some x <> Some "#"%char)) by congruence.
    cbn [andb].
    destruct (process_downstream_line (x :: l') junk host dp hp g2 Hdl Hh Hd Hr Husock F3)
      as (g3 & Hp & P1 & P2 & P3 & P4).
    cbn [app] in Hp. rewrite Hp. change (to_int (0 + 0)) with 0.
    destruct (read_buffers_scalars after ab g3 Hab Hnl2 Hok2) as (S1 & S2 & S3 & S4 & S5).
    destruct (Config.read_buffers atoi sys ab 0 g3) as [r g4].
    cbn [fst snd] in *. subst r. rewrite Hup, Hint. simpl.
    exists g4. rewrite S2, S3, S4, S5. done. }
  exists g. split; [|done].
  unfold Config.main. cbn [length]. rewrite bool_decide_eq_false_2 by (intros H; by apply H).
  change ([prog; filename] !!! 1%nat) with filename. rewrite Hinit.
  rewrite bool_decide_eq_false_2 by (intros H; by apply H).
  rewrite bool_decide_eq_false_2 by lia.
  rewrite bool_decide_eq_false_2 by (intros H; by apply H).
  rewrite G2. cbn [mbind option_bind]. unfold Config.is_valid_ip_address.
  rewrite c_str_app_nul.
  assert (NUL ∉ host) as Hhn.
  { pose proof (c_str_no_nul dl) as Hn. rewrite Hdl in Hn. intros Hin. apply Hn.
    apply elem_of_app. right. apply elem_of_app. by left. }
  rewrite c_str_id by done. by rewrite negb_involutive.
Qed.
End ConfigProofs.

Ltac scalar_line k v :=
  right; exists (bytes_of k), (bytes_of v);
  split; [unfold scalar_keys; cbn [fmap list_fmap];
          repeat (apply elem_of_cons; first [by left|right])
         |vm_compute; reflexivity].

Lemma config_is_loaded_iff_every_line_passes_witness :
  (((Config.init_config atoi_glibc sys_ok) (bytes_of "ok.conf")
      (@Config.global_zero spec_float glibc)).1 = 0
   <-> Forall (config_line_passes sys_ok) (config_lines conf_ok [])
       /\ os_sighup sys_ok = true /\ os_sigint sys_ok = true)
  /\ (((Config.init_config atoi_glibc sys_ok) (bytes_of "ok.conf")
         (@Config.global_zero spec_float glibc)).1 = 0
      \/ ((Config.init_config atoi_glibc sys_ok) (bytes_of "ok.conf")
            (@Config.global_zero spec_float glibc)).1 = 1).
Proof.
  assert (os_fopen sys_ok (bytes_of "ok.conf") = Some (text_of conf_ok ++ [])) as H1
    by (vm_compute; reflexivity).
  assert (Forall (fun l => NL ∉ l) conf_ok) as H2 by decide_it.
  assert (NL ∉ @nil ascii) as H3 by apply not_elem_of_nil.
  assert (Z.of_nat (length (text_of conf_ok ++ [])) < 2 ^ 31) as H4
    by (vm_compute; reflexivity).
  exact (config_is_loaded_iff_every_line_passes atoi_glibc sys_ok (bytes_of "ok.conf")
           conf_ok [] Config.global_zero H1 H2 H3 H4).
Defined.

Lemma empty_line_fails_the_config_witness :
  ((Config.init_config atoi_glibc sys_ok) (bytes_of "blank.conf")
     (@Config.global_zero spec_float glibc)).1 = 1.
Proof.
  assert (os_fopen sys_ok (bytes_of "blank.conf") = Some (text_of conf_blank ++ [])) as H1
    by (vm_compute; reflexivity).
  assert (Forall (fun l => NL ∉ l) conf_blank) as H2 by decide_it.
  assert (NL ∉ @nil ascii) as H3 by apply not_elem_of_nil.
  assert (Z.of_nat (length (text_of conf_blank ++ [])) < 2 ^ 31) as H4
    by (vm_compute; reflexivity).
  assert ([] ∈ conf_blank) as H5 by (right; left).
  exact (empty_line_fails_the_config atoi_glibc sys_ok (bytes_of "blank.conf")
           conf_blank [] Config.global_zero H1 H2 H3 H4 H5).
Defined.

Lemma config_without_downstream_leaves_host_null_witness :
  ((Config.init_config atoi_glibc sys_ok) (bytes_of "numbers.conf")
     (@Config.global_zero spec_float glibc)).1 = 0
  /\ @Config.main spec_float glibc atoi_glibc sys_ok
       [bytes_of "statsd-aggregator"; bytes_of "numbers.conf"] = None.
Proof.
  assert (os_fopen sys_ok (bytes_of "numbers.conf") = Some (text_of conf_numbers ++ []))
    as H1 by (vm_compute; reflexivity).
  assert (Forall (fun l => NL ∉ l) conf_numbers) as H2 by decide_it.
  assert (NL ∉ @nil ascii) as H3 by apply not_elem_of_nil.
  assert (Z.of_nat (length (text_of conf_numbers ++ [])) < 2 ^ 31) as H4
    by (vm_compute; reflexivity).
  assert (Forall comment_or_scalar (config_lines conf_numbers [])) as H5.
  { unfold config_lines, conf_numbers. cbn [fmap list_fmap app].
    apply Forall_cons_2; [scalar_line "data_port"%string "8125"%string|].
    apply Forall_cons_2; [scalar_line "log_level"%string "4"%string|].
    apply Forall_nil_2. }
  assert (0 <= os_data_socket sys_ok) as H6 by (vm_compute; discriminate).
  exact (config_without_downstream_leaves_host_null atoi_glibc sys_ok
           (bytes_of "statsd-aggregator") (bytes_of "numbers.conf") conf_numbers []
           H1 H2 H3 H4 H5 eq_refl eq_refl H6 eq_refl).
Defined.

Lemma main_reaches_the_loop_with_the_resolved_addresses_witness :
  exists g,
    @Config.main spec_float glibc atoi_glibc sys_ok
      [bytes_of "statsd-aggregator"; bytes_of "ok.conf"]
    = Some (Config.Serving
              (bool_decide (os_inet_pton sys_ok (bytes_of "statsd.local") = 0)) g)
    /\ Config.downstream g
       = init_downstream spec_float (os_gethostbyname sys_ok (bytes_of "statsd.local"))
    /\ Config.data_host g = Some (bytes_of "statsd.local" ++ [NUL])
    /\ Config.downstream_data_port g = atoi_glibc (bytes_of "8125")
    /\ Config.health_port g = atoi_glibc (bytes_of "8126").
Proof.
  assert (os_fopen sys_ok (bytes_of "ok.conf") = Some (text_of conf_ok ++ [])) as H1
    by (vm_compute; reflexivity).
  assert (Forall (fun l => NL ∉ l) conf_ok) as H2 by decide_it.
  assert (NL ∉ @nil ascii) as H3 by apply not_elem_of_nil.
  assert (Z.of_nat (length (text_of conf_ok ++ [])) < 2 ^ 31) as H4
    by (vm_compute; reflexivity).
  assert (config_lines conf_ok []
          = (bytes_of <$> ["# relay"; "data_port=8125";
                           "downstream_flush_interval=1.0"]%string)
            ++ bytes_of "downstream=statsd.local:8125:8126"
            :: (bytes_of <$> ["log_level=4"]%string)) as H5 by reflexivity.
  assert (Forall comment_or_scalar
            ((bytes_of <$> ["# relay"; "data_port=8125";
                            "downstream_flush_interval=1.0"]%string)
             ++ (bytes_of <$> ["log_level=4"]%string))) as H6.
  { cbn [fmap list_fmap app].
    apply Forall_cons_2; [by left|].
    apply Forall_cons_2; [scalar_line "data_port"%string "8125"%string|].
    apply Forall_cons_2;
      [scalar_line "downstream_flush_interval"%string "1.0"%string|].
    apply Forall_cons_2; [scalar_line "log_level"%string "4"%string|].
    apply Forall_nil_2. }
  assert (c_str (bytes_of "downstream=statsd.local:8125:8126")
          = bytes_of "downstream=" ++ bytes_of "statsd.local"
            ++ ":"%char :: bytes_of "8125" ++ ":"%char :: bytes_of "8126") as H7
    by (vm_compute; reflexivity).
  assert (":"%char ∉ bytes_of "statsd.local") as H8 by decide_it.
  assert (":"%char ∉ bytes_of "8125") as H9 by decide_it.
  assert (os_gethostbyname sys_ok (bytes_of "statsd.local") <> []) as H10
    by (vm_compute; discriminate).
  assert (0 <= os_udp_socket sys_ok) as H11 by (vm_compute; discriminate).
  assert (0 <= os_data_socket sys_ok) as H12 by (vm_compute; discriminate).
  exact (main_reaches_the_loop_with_the_resolved_addresses atoi_glibc sys_ok
           (bytes_of "statsd-aggregator") (bytes_of "ok.conf") conf_ok [] _ _ _ _ _ _
           H1 H2 H3 H4 H5 H6 H7 H8 H9 H10 H11 eq_refl eq_refl H12 eq_refl).
Defined.
